(** * Teami backend: a shallow embedding of the API service and its
    live-update hub, and the properties of the specification checked
    against it.

    Layout: the first part holds the model, one [Module] per source file of
    [backend/]; the second part holds the lemmas and the theorems.

    SQL tables are lists of rows in heap order, a query is a function on
    them, and a service function is a computation in a small state and
    error monad over the whole server state (database, list of committed
    snapshots, live-update hub, nudges sent to the worker). *)

From stdpp Require Import base list gmap strings pretty.
From Stdlib Require Import ZArith Lia Ascii String Permutation Sorted Btauto.

Local Open Scope string_scope.
Local Open Scope list_scope.
Local Open Scope Z_scope.

(* ================================================================= *)
(** * Part I: the model *)
(* ================================================================= *)

(** ** JavaScript values that cross the boundary *)

Module Js.

(** The values that reach the code under study: what [JSON.parse] and
    the route parameters produce.  A number is an integer, [JNum n], or a
    number with a fraction, [JDec m e], which stands for [m / 10 ^ e] with
    [e] digits after the point, the last of them not 0: the decimal that
    JavaScript prints for it and that the database is sent ([NaN] apart;
    an infinity, which [JSON.parse] gives for a literal beyond the doubles,
    has no value here).  A string is kept as the bytes of its UTF-8 form:
    a surrogate pair as the four bytes of its character, an unpaired
    surrogate as the three bytes [ED A0..BF 80..BF] of the generalised
    form.  Objects and arrays do not occur in the fields that are read. *)
Inductive jsval :=
| JUndefined
| JNull
| JBool (b : bool)
| JNum (n : Z)
| JNaN
| JStr (s : string)
| JDec (m : Z) (e : positive).

(** [!!v] *)
Definition truthy (v : jsval) : bool :=
  match v with
  | JUndefined | JNull | JNaN => false
  | JBool b => b
  | JNum n => negb (n =? 0)
  | JStr s => negb (String.eqb s "")
  | JDec m _ => negb (m =? 0)
  end.

Definition jsval_code (v : jsval)
    : unit + bool + Z + string + unit + unit + Z * positive :=
  match v with
  | JUndefined => inl (inl (inl (inl (inl (inl tt)))))
  | JBool b => inl (inl (inl (inl (inl (inr b)))))
  | JNum n => inl (inl (inl (inl (inr n))))
  | JStr s => inl (inl (inl (inr s)))
  | JNull => inl (inl (inr tt))
  | JNaN => inl (inr tt)
  | JDec m e => inr (m, e)
  end.

Definition jsval_decode
    (c : unit + bool + Z + string + unit + unit + Z * positive) : jsval :=
  match c with
  | inl (inl (inl (inl (inl (inl _))))) => JUndefined
  | inl (inl (inl (inl (inl (inr b))))) => JBool b
  | inl (inl (inl (inl (inr n)))) => JNum n
  | inl (inl (inl (inr s))) => JStr s
  | inl (inl (inr _)) => JNull
  | inl (inr _) => JNaN
  | inr (m, e) => JDec m e
  end.

(** [a === b]: no coercion between types, and [NaN] equals nothing; two
    numbers are equal when their values are. *)
Definition strict_eq (a b : jsval) : bool :=
  match a, b with
  | JUndefined, JUndefined => true
  | JNull, JNull => true
  | JBool x, JBool y => Bool.eqb x y
  | JNum x, JNum y => x =? y
  | JNum x, JDec m e => x * 10 ^ Z.pos e =? m
  | JDec m e, JNum x => m =? x * 10 ^ Z.pos e
  | JDec m e, JDec m' e' => m * 10 ^ Z.pos e' =? m' * 10 ^ Z.pos e
  | JStr x, JStr y => String.eqb x y
  | _, _ => false
  end.

Definition digit_of (c : ascii) : option Z :=
  let n := Z.of_nat (nat_of_ascii c) in
  if (48 <=? n) && (n <=? 57) then Some (n - 48) else None.

Fixpoint digits_value (acc : Z) (s : string) : option Z :=
  match s with
  | EmptyString => Some acc
  | String c rest =>
      match digit_of c with
      | Some d => digits_value (10 * acc + d) rest
      | None => None
      end
  end.

(** A decimal literal, with an optional sign: strings that both
    PostgreSQL (as an integer parameter) and [Number] read as the same
    integer.  The other forms that one of them reads (blanks around the
    digits, a hexadecimal literal, a fraction, an exponent) are read by
    neither here: the statements about a route id are about ids of this
    form. *)
Definition parse_int (s : string) : option Z :=
  match s with
  | EmptyString => None
  | String "-" (String c r) => option_map Z.opp (digits_value 0 (String c r))
  | String "+" (String c r) => digits_value 0 (String c r)
  | _ => digits_value 0 s
  end.

(** [Number(v)], on a string for the literals of [parse_int] and the empty
    string. *)
Definition Number (v : jsval) : jsval :=
  match v with
  | JUndefined | JNaN => JNaN
  | JNull => JNum 0
  | JBool b => JNum (if b then 1 else 0)
  | JNum n => JNum n
  | JDec m e => JDec m e
  | JStr s =>
      if String.eqb s "" then JNum 0
      else match parse_int s with Some n => JNum n | None => JNaN end
  end.

(** A finite number, as a schema [z.number()] lets it through. *)
Inductive number :=
| Int (n : Z)
| Dec (m : Z) (e : positive).

Definition js_number (x : number) : jsval :=
  match x with
  | Int n => JNum n
  | Dec m e => JDec m e
  end.

(** [x < c] and [x > c] for an integer [c]. *)
Definition number_ltz (x : number) (c : Z) : bool :=
  match x with
  | Int n => n <? c
  | Dec m e => m <? c * 10 ^ Z.pos e
  end.

Definition number_gtz (x : number) (c : Z) : bool :=
  match x with
  | Int n => c <? n
  | Dec m e => c * 10 ^ Z.pos e <? m
  end.

(** The decimal text of [m / 10 ^ e]: sign, integer part, point and [e]
    digits.  PostgreSQL writes a numeric so; JavaScript does too between
    1e-6 and 1e21. *)
Definition pretty_dec (m : Z) (e : positive) : string :=
  let p := 10 ^ Z.pos e in
  let a := Z.abs m in
  let digits := pretty (a mod p) in
  ((if (m <? 0)%Z then "-" else "") ++ pretty (a / p)%Z ++ "."
   ++ string_of_list_ascii
        (repeat "0"%char (Pos.to_nat e - String.length digits)%nat)
   ++ digits)%string.

(** [s.length]: the number of UTF-16 code units of the string.  A byte
    that continues a sequence counts for nothing, the first byte of a
    four-byte sequence for the two units of a surrogate pair, every other
    byte for one. *)
Definition is_continuation (c : ascii) : bool :=
  let n := nat_of_ascii c in (128 <=? n)%nat && (n <? 192)%nat.

Fixpoint code_units (s : string) : nat :=
  match s with
  | EmptyString => 0%nat
  | String c rest =>
      ((if is_continuation c then 0
        else if (240 <=? nat_of_ascii c)%nat then 2 else 1)
       + code_units rest)%nat
  end.

(** The string as it is encoded in UTF-8, by [Buffer.from(s, 'utf8')], by
    [cipher.update(s, 'utf8')] and by the database driver: U+FFFD, the
    bytes [EF BF BD], stands for every unpaired surrogate. *)
Definition is_surrogate (c1 c2 : ascii) : bool :=
  (nat_of_ascii c1 =? 237)%nat
  && (160 <=? nat_of_ascii c2)%nat && (nat_of_ascii c2 <? 192)%nat.

Fixpoint utf8 (s : string) : string :=
  match s with
  | EmptyString => EmptyString
  | String c1 t =>
      match t with
      | String c2 (String c3 rest) =>
          if is_surrogate c1 c2
          then String "239" (String "191" (String "189" (utf8 rest)))
          else String c1 (utf8 t)
      | _ => String c1 (utf8 t)
      end
  end.

(** A text value with a NUL character: PostgreSQL text holds none.  The
    driver writes the value into the query, the query as the server reads
    it ends at the NUL, and the statement is refused. *)
Definition has_nul (s : string) : bool :=
  existsb (Ascii.eqb zero) (list_ascii_of_string s).

End Js.
Export Js.

#[global] Instance jsval_eq_dec : EqDecision jsval.
Proof. solve_decision. Defined.

Lemma jsval_decode_code (v : jsval) : jsval_decode (jsval_code v) = v.
Proof. by destruct v. Qed.

#[global] Instance jsval_countable : Countable jsval :=
  inj_countable' jsval_code jsval_decode jsval_decode_code.

(** ** What a handler can throw, and the database and server state *)

(** JavaScript's three kinds of thrown value in this code base: a bare
    string (a key of the message dictionary), an [Error] object (also what
    the database driver and the runtime raise), and an object literal
    [{ status, message }]. *)
Inductive Thrown :=
| ThrowStr (key : string)
| ThrowError (message : string)
| ThrowStatus (status : Z) (message : string).

Inductive Result (A : Type) :=
| Ok (a : A)
| Throw (e : Thrown).
Arguments Ok {A} a.
Arguments Throw {A} e.

(** ** schema/schema.sql: the tables

    One record per table, one field per column that the code reads or
    writes.  Timestamps are integers (microseconds); a nullable column is
    an [option]. *)

Module Schema.

Record Token := {
  t_id : Z;
  t_user_id : Z;
  t_name : string;
  t_api_key : string;
  t_active : bool;
  t_created_at : Z }.

Record Agent := {
  a_id : Z;
  a_user_id : option Z;
  a_name : string;
  a_role : string;
  a_description : string;
  a_model : string }.

Record Project := {
  p_id : Z;
  p_user_id : Z;
  p_title : string;
  p_description : option string;
  p_system_prompt : option string;
  p_paused : bool;
  p_message_limit : Z;
  p_created_at : Z;
  p_last_activity_at : Z }.

Record ProjectToken := {
  pt_id : Z;
  pt_project_id : Z;
  pt_token_id : option Z }.

Record Member := {
  pam_project_id : Z;
  pam_agent_id : Z;
  pam_role : string;
  pam_prompt : string;
  pam_thread_id : option string;
  pam_can_message_ids : string }.

Record Conversation := {
  c_id : Z;
  c_project_id : Z;
  c_sender_id : Z;
  c_receiver_id : Z;
  c_created_at : Z }.

Record Message := {
  m_id : Z;
  m_conversation_id : Z;
  m_project_id : Z;
  m_sender_id : Z;
  m_receiver_id : Z;
  m_type : option string;
  m_status : option string;
  m_content : string;
  m_created_at : Z }.

Record Log := {
  l_id : Z;
  l_project_id : Z;
  l_level : string;
  l_message : string;
  l_code : option string;
  l_created_at : Z }.

Record Summary := {
  s_id : Z;
  s_agent_id : Z;
  s_project_id : Z;
  s_summary : string;
  s_message_count : Z;
  s_summary_count : Z }.

(** The [SERIAL] sequences.  A sequence is not rolled back with the
    transaction that drew from it. *)
Record Sequences := {
  tokens_id_seq : Z;
  agents_id_seq : Z;
  projects_id_seq : Z;
  project_tokens_id_seq : Z;
  conversations_id_seq : Z;
  messages_id_seq : Z;
  logs_id_seq : Z }.

Record DB := {
  tokens : list Token;
  agents : list Agent;
  projects : list Project;
  project_tokens : list ProjectToken;
  project_agent_members : list Member;
  conversations : list Conversation;
  messages : list Message;
  logs : list Log;
  agent_history_summaries : list Summary;
  seqs : Sequences }.

Definition set_tokens (f : list Token -> list Token) (d : DB) : DB :=
  {| tokens := f (tokens d); agents := agents d; projects := projects d;
     project_tokens := project_tokens d;
     project_agent_members := project_agent_members d;
     conversations := conversations d; messages := messages d;
     logs := logs d; agent_history_summaries := agent_history_summaries d;
     seqs := seqs d |}.

Definition set_agents (f : list Agent -> list Agent) (d : DB) : DB :=
  {| tokens := tokens d; agents := f (agents d); projects := projects d;
     project_tokens := project_tokens d;
     project_agent_members := project_agent_members d;
     conversations := conversations d; messages := messages d;
     logs := logs d; agent_history_summaries := agent_history_summaries d;
     seqs := seqs d |}.

Definition set_projects (f : list Project -> list Project) (d : DB) : DB :=
  {| tokens := tokens d; agents := agents d; projects := f (projects d);
     project_tokens := project_tokens d;
     project_agent_members := project_agent_members d;
     conversations := conversations d; messages := messages d;
     logs := logs d; agent_history_summaries := agent_history_summaries d;
     seqs := seqs d |}.

Definition set_project_tokens (f : list ProjectToken -> list ProjectToken)
    (d : DB) : DB :=
  {| tokens := tokens d; agents := agents d; projects := projects d;
     project_tokens := f (project_tokens d);
     project_agent_members := project_agent_members d;
     conversations := conversations d; messages := messages d;
     logs := logs d; agent_history_summaries := agent_history_summaries d;
     seqs := seqs d |}.

Definition set_members (f : list Member -> list Member) (d : DB) : DB :=
  {| tokens := tokens d; agents := agents d; projects := projects d;
     project_tokens := project_tokens d;
     project_agent_members := f (project_agent_members d);
     conversations := conversations d; messages := messages d;
     logs := logs d; agent_history_summaries := agent_history_summaries d;
     seqs := seqs d |}.

Definition set_conversations (f : list Conversation -> list Conversation)
    (d : DB) : DB :=
  {| tokens := tokens d; agents := agents d; projects := projects d;
     project_tokens := project_tokens d;
     project_agent_members := project_agent_members d;
     conversations := f (conversations d); messages := messages d;
     logs := logs d; agent_history_summaries := agent_history_summaries d;
     seqs := seqs d |}.

Definition set_messages (f : list Message -> list Message) (d : DB) : DB :=
  {| tokens := tokens d; agents := agents d; projects := projects d;
     project_tokens := project_tokens d;
     project_agent_members := project_agent_members d;
     conversations := conversations d; messages := f (messages d);
     logs := logs d; agent_history_summaries := agent_history_summaries d;
     seqs := seqs d |}.

Definition set_logs (f : list Log -> list Log) (d : DB) : DB :=
  {| tokens := tokens d; agents := agents d; projects := projects d;
     project_tokens := project_tokens d;
     project_agent_members := project_agent_members d;
     conversations := conversations d; messages := messages d;
     logs := f (logs d); agent_history_summaries := agent_history_summaries d;
     seqs := seqs d |}.

Definition set_summaries (f : list Summary -> list Summary) (d : DB) : DB :=
  {| tokens := tokens d; agents := agents d; projects := projects d;
     project_tokens := project_tokens d;
     project_agent_members := project_agent_members d;
     conversations := conversations d; messages := messages d;
     logs := logs d; agent_history_summaries := f (agent_history_summaries d);
     seqs := seqs d |}.

Definition set_seqs (f : Sequences -> Sequences) (d : DB) : DB :=
  {| tokens := tokens d; agents := agents d; projects := projects d;
     project_tokens := project_tokens d;
     project_agent_members := project_agent_members d;
     conversations := conversations d; messages := messages d;
     logs := logs d; agent_history_summaries := agent_history_summaries d;
     seqs := f (seqs d) |}.

(** PostgreSQL's [INTEGER]: an out-of-range value is an error, not a
    wrap-around. *)
Definition int4_min : Z := -2147483648.
Definition int4_max : Z := 2147483647.
Definition in_int4 (n : Z) : bool := (int4_min <=? n) && (n <=? int4_max).

End Schema.
Export Schema.

(** ** utils/normalize.js (messages) and the events of the live-update hub *)

Record NormalizedMessage := {
  n_id : Z;
  n_projectId : Z;
  n_conversationId : Z;
  n_senderId : Z;
  n_receiverId : Z;
  n_content : string;
  n_type : option string;
  n_status : option string;
  n_createdAt : Z }.

Definition normalizeMessage (message : Message) : NormalizedMessage :=
  {| n_id := m_id message;
     n_projectId := m_project_id message;
     n_conversationId := m_conversation_id message;
     n_senderId := m_sender_id message;
     n_receiverId := m_receiver_id message;
     n_content := m_content message;
     n_type := m_type message;
     n_status := m_status message;
     n_createdAt := m_created_at message |}.

Inductive Payload :=
| PNewMessage (message : NormalizedMessage)
| PMessageUpdated (id : Z) (status : string) (conversationId : Z)
| PProjectUpdated (projectId : jsval) (messageLimit : option number)
    (isPaused : option bool).

(** [{ type, payload }] *)
Record Event := {
  ev_type : string;
  ev_payload : Payload }.

(** The text of a frame is never inspected by the server; a frame is
    identified with the event it serialises. *)
Definition Frame := Event.
Definition JSON_stringify (message : Event) : Frame := message.

(** ** services/webSocketService.js *)

Module webSocketService.

Inductive ReadyState := CONNECTING | OPEN | CLOSING | CLOSED.

Definition is_open (s : ReadyState) : bool :=
  match s with OPEN => true | _ => false end.

(** The value stored in the [clients] map. *)
Record ClientInfo := {
  ci_projectId : jsval;
  ci_userId : Z }.

(** The module state: [clients] is a JS [Map] keyed by the socket (sockets
    are numbered), kept in insertion order; [pendingMessages] is a [Map]
    from project id to an array of frames.  [readyState] and [sent] stand
    for the sockets themselves: the state of each, and the frames handed to
    [ws.send], oldest first. *)
Record Hub := {
  clients : list (nat * ClientInfo);
  pendingMessages : gmap jsval (list Frame);
  readyState : nat -> ReadyState;
  sent : list (nat * Frame) }.

Definition initial (rs : nat -> ReadyState) : Hub :=
  {| clients := []; pendingMessages := ∅; readyState := rs; sent := [] |}.

(** [Map.prototype.set]: an existing key keeps its place. *)
Fixpoint map_set {V : Type} (k : nat) (v : V) (m : list (nat * V))
    : list (nat * V) :=
  match m with
  | [] => [(k, v)]
  | (k', v') :: rest =>
      if Nat.eqb k' k then (k, v) :: rest else (k', v') :: map_set k v rest
  end.

Definition map_delete {V : Type} (k : nat) (m : list (nat * V))
    : list (nat * V) :=
  List.filter (fun e => negb (Nat.eqb (fst e) k)) m.

Fixpoint map_get {V : Type} (k : nat) (m : list (nat * V)) : option V :=
  match m with
  | [] => None
  | (k', v') :: rest => if Nat.eqb k' k then Some v' else map_get k rest
  end.

(** [if (ws.readyState === WebSocket.OPEN) ws.send(msg)] *)
Definition send_if_open (ws : nat) (msg : Frame) (h : Hub) : Hub :=
  if is_open (readyState h ws)
  then {| clients := clients h; pendingMessages := pendingMessages h;
          readyState := readyState h; sent := sent h ++ [(ws, msg)] |}
  else h.

Definition close (ws : nat) (h : Hub) : Hub :=
  {| clients := clients h; pendingMessages := pendingMessages h;
     readyState := fun w => if Nat.eqb w ws then CLOSED else readyState h w;
     sent := sent h |}.

(** The fields of a parsed client frame that the handler reads. *)
Record ClientFrame := {
  d_type : jsval;
  d_projectId : jsval }.

(** [wss.on('connection')]: the user id the handlers close over, if the
    socket is kept. *)
Definition on_connection (ws : nat) (user : option Z) (h : Hub)
    : option Z * Hub :=
  match user with
  | Some userId => if userId =? 0 then (None, close ws h) else (Some userId, h)
  | None => (None, close ws h)
  end.

(** [ws.on('message')]; [data] is [None] when [JSON.parse] throws (the
    handler catches and logs). *)
Definition on_message (ws : nat) (userId : Z) (data : option ClientFrame)
    (h : Hub) : Hub :=
  match data with
  | None => h
  | Some d =>
      if strict_eq (d_type d) (JStr "join") && truthy (d_projectId d) then
        let h1 :=
          {| clients :=
               map_set ws {| ci_projectId := d_projectId d;
                             ci_userId := userId |} (clients h);
             pendingMessages := pendingMessages h;
             readyState := readyState h;
             sent := sent h |} in
        match pendingMessages h1 !! d_projectId d with
        | Some queue =>
            let h2 := fold_left (fun acc msgString => send_if_open ws msgString acc)
                        queue h1 in
            {| clients := clients h2;
               pendingMessages := delete (d_projectId d) (pendingMessages h2);
               readyState := readyState h2;
               sent := sent h2 |}
        | None => h1
        end
      else h
  end.

(** [ws.on('close')] *)
Definition on_close (ws : nat) (h : Hub) : Hub :=
  {| clients := map_delete ws (clients h);
     pendingMessages := pendingMessages h;
     readyState := readyState h;
     sent := sent h |}.

Definition broadcastToProject (projectId : jsval) (message : Event) (h : Hub)
    : Hub :=
  let messageString := JSON_stringify message in
  let projectClients :=
    List.filter (fun e => strict_eq (ci_projectId (snd e)) projectId)
      (clients h) in
  match projectClients with
  | [] =>
      {| clients := clients h;
         pendingMessages :=
           <[ projectId :=
                default [] (pendingMessages h !! projectId) ++ [messageString] ]>
             (pendingMessages h);
         readyState := readyState h;
         sent := sent h |}
  | _ :: _ =>
      fold_left (fun acc e => send_if_open (fst e) messageString acc)
        projectClients h
  end.

(** The frames one socket was handed, oldest first. *)
Definition received (ws : nat) (h : Hub) : list Frame :=
  List.map snd (List.filter (fun e => Nat.eqb (fst e) ws) (sent h)).

End webSocketService.

(** ** env.js and services/brainService.js: the configuration *)

Record Env := {
  encryptSecret : string;
  brainApiUrl : option string;
  demoUserId : option Z;
  demoTokenId : option Z;
  demoProjectId : option Z;
  snapshotProjectId : option Z;
  demoProjectLimit : option Z }.

(** ** The server state and the monad of the service functions *)

Record World := {
  db : DB;
  journal : list DB;
  hub : webSocketService.Hub;
  nudges : list jsval;
  clock : Z }.

Definition with_db (f : DB -> DB) (w : World) : World :=
  {| db := f (db w); journal := journal w; hub := hub w;
     nudges := nudges w; clock := clock w |}.

Definition with_hub (f : webSocketService.Hub -> webSocketService.Hub)
    (w : World) : World :=
  {| db := db w; journal := journal w; hub := f (hub w);
     nudges := nudges w; clock := clock w |}.

Definition M (A : Type) : Type := World -> Result A * World.

Definition ret {A : Type} (a : A) : M A := fun w => (Ok a, w).

Definition throw {A : Type} (e : Thrown) : M A := fun w => (Throw e, w).

Definition bind {A B : Type} (c : M A) (k : A -> M B) : M B :=
  fun w =>
    match c w with
    | (Ok a, w') => k a w'
    | (Throw e, w') => (Throw e, w')
    end.

Notation "'do' x <- c ; k" := (bind c (fun x => k))
  (at level 10, x name, c at level 100, k at level 200).
Notation "c ;; k" := (bind c (fun _ => k))
  (at level 100, k at level 200, right associativity).

(** A statement is a function on the tables; it either fails and leaves
    them as they were, or succeeds. *)
Definition Stmt (A : Type) : Type := DB -> Result A * DB.

(** The state a committed write is appended to: every commit adds the
    database as committed to [journal], so that the states other sessions
    can observe are exactly the members of [journal]. *)
Definition commit (w : World) : World :=
  {| db := db w; journal := journal w ++ [db w]; hub := hub w;
     nudges := nudges w; clock := clock w |}.

(** A query on the root [db] object: its own transaction. *)
Definition db_query {A : Type} (q : Z -> Stmt A) : M A :=
  fun w =>
    match q (clock w) (db w) with
    | (Ok a, d') => (Ok a, commit (with_db (fun _ => d') w))
    | (Throw e, d') => (Throw e, with_db (set_seqs (fun _ => seqs d')) w)
    end.

(** A [SELECT] on the root [db] object: nothing to commit. *)
Definition db_read {A : Type} (q : Z -> Stmt A) : M A :=
  fun w => (fst (q (clock w) (db w)), w).

(** A query on the transaction object [t]: no commit of its own. *)
Definition t_query {A : Type} (q : Z -> Stmt A) : M A :=
  fun w =>
    match q (clock w) (db w) with
    | (r, d') => (r, with_db (fun _ => d') w)
    end.

(** [db.tx(async t => body)]: commit when [body] returns, roll the tables
    back when it throws.  What [body] did outside the database (frames
    sent, nudges) is not undone. *)
Definition tx {A : Type} (body : M A) : M A :=
  fun w =>
    match body w with
    | (Ok a, w') => (Ok a, commit w')
    | (Throw e, w') =>
        (Throw e, with_db (fun d' => set_seqs (fun _ => seqs d') (db w)) w')
    end.

(** pg-promise's result-shape checks. *)
Definition one {A : Type} (rows : list A) : Result A :=
  match rows with
  | [r] => Ok r
  | [] => Throw (ThrowError "No data returned from the query.")
  | _ => Throw (ThrowError "Multiple rows were not expected.")
  end.

Definition oneOrNone {A : Type} (rows : list A) : Result (option A) :=
  match rows with
  | [] => Ok None
  | [r] => Ok (Some r)
  | _ => Throw (ThrowError "Multiple rows were not expected.")
  end.

(** A route parameter or a number bound to an [INTEGER] parameter.  A
    number with a fraction is not read as an integer here; the one
    statement that is sent such a number from a validated body,
    [sql_set_limit], assigns it to an [INTEGER] column and rounds it
    there. *)
Definition sql_int (v : jsval) : option Z :=
  match v with
  | JNum n => if in_int4 n then Some n else None
  | JStr s =>
      match parse_int s with
      | Some n => if in_int4 n then Some n else None
      | None => None
      end
  | _ => None
  end.

Definition broadcastToProject (projectId : jsval) (message : Event) : M unit :=
  fun w => (Ok tt, with_hub (webSocketService.broadcastToProject projectId message) w).

Definition lift {A : Type} (r : Result A) : M A := fun w => (r, w).

(** Binding a JavaScript value to an [INTEGER] parameter. *)
Definition with_int {A : Type} (v : jsval) (k : Z -> Stmt A) : Stmt A :=
  fun d =>
    match sql_int v with
    | Some n => k n d
    | None => (Throw (ThrowError "invalid input syntax for type integer"), d)
    end.

Definition next_log_id (s : Sequences) : Sequences :=
  {| tokens_id_seq := tokens_id_seq s; agents_id_seq := agents_id_seq s;
     projects_id_seq := projects_id_seq s;
     project_tokens_id_seq := project_tokens_id_seq s;
     conversations_id_seq := conversations_id_seq s;
     messages_id_seq := messages_id_seq s; logs_id_seq := logs_id_seq s + 1 |}.

Definition next_message_id (s : Sequences) : Sequences :=
  {| tokens_id_seq := tokens_id_seq s; agents_id_seq := agents_id_seq s;
     projects_id_seq := projects_id_seq s;
     project_tokens_id_seq := project_tokens_id_seq s;
     conversations_id_seq := conversations_id_seq s;
     messages_id_seq := messages_id_seq s + 1; logs_id_seq := logs_id_seq s |}.

Definition next_conversation_id (s : Sequences) : Sequences :=
  {| tokens_id_seq := tokens_id_seq s; agents_id_seq := agents_id_seq s;
     projects_id_seq := projects_id_seq s;
     project_tokens_id_seq := project_tokens_id_seq s;
     conversations_id_seq := conversations_id_seq s + 1;
     messages_id_seq := messages_id_seq s; logs_id_seq := logs_id_seq s |}.

Definition next_project_token_id (s : Sequences) : Sequences :=
  {| tokens_id_seq := tokens_id_seq s; agents_id_seq := agents_id_seq s;
     projects_id_seq := projects_id_seq s;
     project_tokens_id_seq := project_tokens_id_seq s + 1;
     conversations_id_seq := conversations_id_seq s;
     messages_id_seq := messages_id_seq s; logs_id_seq := logs_id_seq s |}.

Definition next_project_id (s : Sequences) : Sequences :=
  {| tokens_id_seq := tokens_id_seq s; agents_id_seq := agents_id_seq s;
     projects_id_seq := projects_id_seq s + 1;
     project_tokens_id_seq := project_tokens_id_seq s;
     conversations_id_seq := conversations_id_seq s;
     messages_id_seq := messages_id_seq s; logs_id_seq := logs_id_seq s |}.

Definition next_agent_id (s : Sequences) : Sequences :=
  {| tokens_id_seq := tokens_id_seq s; agents_id_seq := agents_id_seq s + 1;
     projects_id_seq := projects_id_seq s;
     project_tokens_id_seq := project_tokens_id_seq s;
     conversations_id_seq := conversations_id_seq s;
     messages_id_seq := messages_id_seq s; logs_id_seq := logs_id_seq s |}.

Definition next_token_id (s : Sequences) : Sequences :=
  {| tokens_id_seq := tokens_id_seq s + 1; agents_id_seq := agents_id_seq s;
     projects_id_seq := projects_id_seq s;
     project_tokens_id_seq := project_tokens_id_seq s;
     conversations_id_seq := conversations_id_seq s;
     messages_id_seq := messages_id_seq s; logs_id_seq := logs_id_seq s |}.

Definition project_exists (pid : Z) (d : DB) : bool :=
  existsb (fun p => p_id p =? pid) (projects d).

(** ** services/brainService.js *)

Module brainService.

(** The POST to the worker is recorded in [nudges]; the caller does not
    await it, and a failure of the request is caught and logged. *)
Definition nudgeBrain (env : Env) (projectId : jsval) : M unit :=
  fun w =>
    match brainApiUrl env with
    | Some url =>
        if String.eqb url "" then (Ok tt, w)
        else (Ok tt, {| db := db w; journal := journal w; hub := hub w;
                        nudges := nudges w ++ [projectId]; clock := clock w |})
    | None => (Ok tt, w)
    end.

End brainService.

(** ** services/projectService.js (status and pause) *)

Module projectService.

Definition set_paused (b : bool) (p : Project) : Project :=
  {| p_id := p_id p; p_user_id := p_user_id p; p_title := p_title p;
     p_description := p_description p; p_system_prompt := p_system_prompt p;
     p_paused := b; p_message_limit := p_message_limit p;
     p_created_at := p_created_at p;
     p_last_activity_at := p_last_activity_at p |}.

Definition set_last_activity (t : Z) (p : Project) : Project :=
  {| p_id := p_id p; p_user_id := p_user_id p; p_title := p_title p;
     p_description := p_description p; p_system_prompt := p_system_prompt p;
     p_paused := p_paused p; p_message_limit := p_message_limit p;
     p_created_at := p_created_at p;
     p_last_activity_at := t |}.

(** [UPDATE projects SET paused = true WHERE id = $1] *)
Definition sql_pause (projectId : jsval) (now : Z) : Stmt unit :=
  with_int projectId (fun pid d =>
    (Ok tt,
     set_projects
       (List.map (fun p => if p_id p =? pid then set_paused true p else p)) d)).

(** [INSERT INTO logs (project_id, message, level, code)
     VALUES ($1, $2, 'warn', $3)].  The row is formed, and its id drawn from
    the sequence, before a constraint refuses it. *)
Definition sql_insert_warn_log (projectId : jsval) (message code : option string)
    (now : Z) : Stmt unit :=
  with_int projectId (fun pid d =>
    match message with
    | None =>
        (Throw (ThrowError "null value in column message violates not-null constraint"),
         set_seqs next_log_id d)
    | Some text =>
        if project_exists pid d then
          let d1 := set_seqs next_log_id d in
          (Ok tt,
           set_logs (fun ls => ls ++ [ {| l_id := logs_id_seq (seqs d);
                                          l_project_id := pid;
                                          l_level := "warn";
                                          l_message := text;
                                          l_code := code;
                                          l_created_at := now |} ]) d1)
        else
          (Throw (ThrowError "insert on table logs violates foreign key constraint"),
           set_seqs next_log_id d)
    end).

Definition project_updated (projectId : jsval) : Event :=
  {| ev_type := "project_updated";
     ev_payload := PProjectUpdated projectId None None |}.

Definition pauseProjectInternal (projectId : jsval) (code message : option string)
    : M unit :=
  tx (t_query (sql_pause projectId) ;;
      t_query (sql_insert_warn_log projectId message code) ;;
      broadcastToProject projectId (project_updated projectId)).

(** [UPDATE projects SET paused = false, last_activity_at = NOW()
     WHERE id = $1 AND user_id = $2 RETURNING id] *)
Definition sql_resume (projectId : jsval) (userId : Z) (now : Z) : Stmt (list Z) :=
  with_int projectId (fun pid d =>
    let hit p := (p_id p =? pid) && (p_user_id p =? userId) in
    (Ok (List.map p_id (List.filter hit (projects d))),
     set_projects
       (List.map (fun p => if hit p
                           then set_last_activity now (set_paused false p)
                           else p)) d)).

(** [UPDATE projects SET paused = true
     WHERE id = $1 AND user_id = $2 RETURNING id] *)
Definition sql_pause_owned (projectId : jsval) (userId : Z) (now : Z)
    : Stmt (list Z) :=
  with_int projectId (fun pid d =>
    let hit p := (p_id p =? pid) && (p_user_id p =? userId) in
    (Ok (List.map p_id (List.filter hit (projects d))),
     set_projects
       (List.map (fun p => if hit p then set_paused true p else p)) d)).

Definition updateProjectStatus (env : Env) (projectId : jsval) (userId : Z)
    (paused : jsval) : M (option Z) :=
  tx (do updatedProject <-
        (if strict_eq paused (JBool false) then
           do rows <- t_query (sql_resume projectId userId);
           do updated <- lift (oneOrNone rows);
           (match updated with
            | Some _ => brainService.nudgeBrain env projectId
            | None => ret tt
            end) ;;
           ret updated
         else
           do rows <- t_query (sql_pause_owned projectId userId);
           lift (oneOrNone rows));
      (match updatedProject with
       | Some _ => broadcastToProject projectId (project_updated projectId)
       | None => ret tt
       end) ;;
      ret updatedProject).

End projectService.

(** ** services/settingsService.js *)

Module settingsService.

Definition set_message_limit (n : Z) (p : Project) : Project :=
  {| p_id := p_id p; p_user_id := p_user_id p; p_title := p_title p;
     p_description := p_description p; p_system_prompt := p_system_prompt p;
     p_paused := p_paused p; p_message_limit := n;
     p_created_at := p_created_at p;
     p_last_activity_at := p_last_activity_at p |}.

(** What an [INTEGER] column holds after a number is assigned to it:
    PostgreSQL rounds a numeric to the nearest integer, a half away from
    zero. *)
Definition round_half_away (m : Z) (e : positive) : Z :=
  let p := 10 ^ Z.pos e in
  Z.sgn m * ((2 * Z.abs m + p) / (2 * p)).

Definition stored_integer (x : number) : Z :=
  match x with
  | Int n => n
  | Dec m e => round_half_away m e
  end.

(** [UPDATE projects SET message_limit = $1
     WHERE id = $2 AND user_id = $3 RETURNING id] *)
Definition sql_set_limit (limit : number) (projectId : jsval) (userId : Z)
    (now : Z) : Stmt (list Z) :=
  with_int projectId (fun pid d =>
    let stored := stored_integer limit in
    if in_int4 stored then
      let hit p := (p_id p =? pid) && (p_user_id p =? userId) in
      (Ok (List.map p_id (List.filter hit (projects d))),
       set_projects
         (List.map (fun p => if hit p then set_message_limit stored p else p)) d)
    else (Throw (ThrowError "integer out of range"), d)).

(** The event carries the limit as it was sent, not as it is stored. *)
Definition setMessageLimit (projectId : jsval) (limit : number) (userId : Z)
    : M bool :=
  do rows <- db_query (sql_set_limit limit projectId userId);
  do result <- lift (oneOrNone rows);
  match result with
  | Some _ =>
      broadcastToProject (Number projectId)
        {| ev_type := "project_updated";
           ev_payload := PProjectUpdated (Number projectId) (Some limit) None |} ;;
      ret true
  | None => ret false
  end.

(** [UPDATE projects SET message_limit = message_limit - 1
     WHERE id = $1 RETURNING message_limit] *)
Definition sql_decrement_limit (projectId : jsval) (now : Z) : Stmt (list Z) :=
  with_int projectId (fun pid d =>
    let hit p := p_id p =? pid in
    if forallb (fun p => negb (hit p) || in_int4 (p_message_limit p - 1))
         (projects d)
    then
      (Ok (List.map (fun p => p_message_limit p - 1)
             (List.filter hit (projects d))),
       set_projects
         (List.map (fun p => if hit p
                             then set_message_limit (p_message_limit p - 1) p
                             else p)) d)
    else (Throw (ThrowError "integer out of range"), d)).

(** [{ success, newLimit }] *)
Record DecrementResult := {
  success : bool;
  newLimit : option Z }.

Definition decrementMessageLimit (projectId : jsval) : M DecrementResult :=
  do rows <- db_query (sql_decrement_limit projectId);
  do result <- lift (oneOrNone rows);
  match result with
  | None => ret {| success := false; newLimit := None |}
  | Some limit =>
      broadcastToProject (Number projectId)
        {| ev_type := "project_updated";
           ev_payload :=
             PProjectUpdated (Number projectId) (Some (Int limit))
               (if limit <=? 0 then Some true else None) |} ;;
      (if limit <=? 0 then
         projectService.pauseProjectInternal projectId
           (Some "MESSAGE_LIMIT")
           (Some "Project paused automatically after reaching message limit.")
       else ret tt) ;;
      ret {| success := true; newLimit := Some limit |}
  end.

End settingsService.

(** ** utils/messageMap.js, utils/responseSender.js, utils/errorHandler.js,
       utils/tryCatch.js, middleware/validateInput.js *)

Definition messages_map : list (string * string) :=
  [ ("auth.invalidToken", "Invalid or expired token.");
    ("auth.missingToken", "Access denied. Token is missing.");
    ("auth.failedLogin", "Incorrect email or password.");
    ("auth.emailInUse", "This email is already registered.");
    ("auth.registrationSuccess", "Registration successful.");
    ("user.notFound", "User not found.");
    ("token.notFound", "Token not found.");
    ("token.invalid", "Token is invalid or inactive.");
    ("token.addSuccess", "Token added successfully.");
    ("token.deleteSuccess", "Token deleted successfully.");
    ("token.protectedDemo", "This demo token cannot be deleted or disabled.");
    ("agent.notFound", "Agent not found.");
    ("agent.invalid", "Invalid agent data.");
    ("agent.addSuccess", "Agent created successfully.");
    ("agent.deleteSuccess", "Agent deleted.");
    ("project.notFound", "Project not found.");
    ("project.createSuccess", "Project created successfully.");
    ("project.deleteSuccess", "Project deleted.");
    ("project.protectedDemo", "This demo project cannot be deleted.");
    ("project.snapshotLocked", "This snapshot project cannot be continued.");
    ("project.snapshotModified", "Snapshot project cannot be modified.");
    ("project.limitExceeded", "You cannot set the message limit above the allowed threshold for the demo project.");
    ("conversation.notFound", "Conversation not found.");
    ("message.invalidType", "Invalid message type.");
    ("message.queueAccepted", "Message queued.");
    ("message.sendSuccess", "Message sent successfully.");
    ("error.unexpected", "An unexpected error occurred.");
    ("error.missingFields", "Required fields are missing.");
    ("error.forbidden", "You are not authorized to perform this action.");
    ("error.notFound", "Requested resource was not found.");
    ("project.tokenSwitched", "Project token updated successfully.") ].

Fixpoint assoc (k : string) (m : list (string * string)) : option string :=
  match m with
  | [] => None
  | (k', v) :: rest => if String.eqb k' k then Some v else assoc k rest
  end.

Definition getMessage (msg : string) : string :=
  if String.eqb msg "" then "OK"
  else match assoc msg messages_map with
       | Some text => if String.eqb text "" then msg else text
       | None => msg
       end.

(** What is written to [res]: [res.status(s).json({success, message, data})]
    or [res.json(data)]. *)
Inductive Body (A : Type) :=
| Envelope (success : bool) (message : string) (data : option A)
| Json (data : A).
Arguments Envelope {A} success message data.
Arguments Json {A} data.

Record Response (A : Type) := {
  status : Z;
  body : Body A }.
Arguments status {A} r.
Arguments body {A} r.

Definition resSuccess {A : Type} (data : A) (message : string) : Response A :=
  {| status := 200; body := Envelope true (getMessage message) (Some data) |}.

Definition resError {A : Type} (message : string) (status : Z) : Response A :=
  {| status := status; body := Envelope false (getMessage message) None |}.

Definition extractErrorMessage (error : Thrown) : string :=
  match error with
  | ThrowStr s => s
  | ThrowError message => message
  | ThrowStatus _ message => message
  end.

(** [tryCatch(res, fn, successMessage)]; [resError] is called without a
    status, so that its default applies. *)
Definition tryCatch {A : Type} (fn : M A) (successMessage : option string)
    : M (Response A) :=
  fun w =>
    match fn w with
    | (Ok data, w') =>
        (Ok match successMessage with
            | Some m => if String.eqb m "" then {| status := 200; body := Json data |}
                        else resSuccess data m
            | None => {| status := 200; body := Json data |}
            end, w')
    | (Throw err, w') => (Ok (resError (extractErrorMessage err) 500), w')
    end.

(** zod's message for a value that is not of the expected type. *)
Definition zod_type (v : jsval) : string :=
  match v with
  | JUndefined => "undefined"
  | JNull => "null"
  | JBool _ => "boolean"
  | JNum _ | JDec _ _ => "number"
  | JNaN => "nan"
  | JStr _ => "string"
  end.

Definition invalid_type (expected : string) (v : jsval) : string :=
  match v with
  | JUndefined => "Required"
  | _ => ("Expected " ++ expected ++ ", received " ++ zod_type v)%string
  end.

(** [validateInput(schema)]: the parsed body, or the response sent. *)
Definition validateInput {B A : Type} (parsed : string + B) : Response A + B :=
  match parsed with
  | inl message =>
      inl (resError (if String.eqb message "" then "Invalid input" else message) 422)
  | inr data => inr data
  end.

(** ** config/constants.js *)

Module constants.

Definition MESSAGE_TYPES_USER : string := "user".
Definition MESSAGE_TYPES_SYSTEM : string := "system".
Definition MESSAGE_TYPES_ASSISTANT : string := "assistant".
Definition MESSAGE_TYPES_ERROR : string := "error".

(** [SYSTEM.MAX_MESSAGE_LENGTH]: "Maximum characters allowed per message". *)
Definition MAX_MESSAGE_LENGTH : Z := 2000.
Definition DEFAULT_LIMIT : Z := 20.

End constants.

(** ** services/messageService.js *)

Module messageService.

(** [a ?? b] *)
Definition nullish (a b : jsval) : jsval :=
  match a with
  | JUndefined | JNull => b
  | _ => a
  end.

(** [a || b] *)
Definition js_or (a b : jsval) : jsval := if truthy a then a else b.

(** [typeof v === 'number'] *)
Definition typeof_number (v : jsval) : bool :=
  match v with
  | JNum _ | JNaN | JDec _ _ => true
  | _ => false
  end.

(** A JavaScript value bound to a [TEXT] parameter; [None] is SQL [NULL]. *)
Definition sql_text (v : jsval) : option string :=
  match v with
  | JUndefined | JNull => None
  | JBool b => Some (if b then "true" else "false")
  | JNum n => Some (pretty n)
  | JNaN => Some "NaN"
  | JStr s => Some s
  | JDec m e => Some (pretty_dec m e)
  end.

Definition opt_has_nul (o : option string) : bool :=
  match o with
  | Some x => has_nul x
  | None => false
  end.

Definition opt_is (s : string) (o : option string) : bool :=
  match o with
  | Some x => String.eqb x s
  | None => false
  end.

(** [SELECT sender_id, receiver_id, project_id FROM conversations
     WHERE id = $1] *)
Definition sql_participants (conversationId : jsval) (now : Z)
    : Stmt (list Conversation) :=
  with_int conversationId (fun cid d =>
    (Ok (List.filter (fun c => c_id c =? cid) (conversations d)), d)).

Definition getConversationParticipants (conversationId : jsval)
    : M (option Conversation) :=
  do rows <- db_read (sql_participants conversationId);
  lift (oneOrNone rows).

(** The argument of [createMessage]: an object read under both spellings
    of each key. *)
Record MessageData := {
  md_conversationId : jsval;
  md_conversation_id : jsval;
  md_projectId : jsval;
  md_project_id : jsval;
  md_senderId : jsval;
  md_sender_id : jsval;
  md_receiverId : jsval;
  md_receiver_id : jsval;
  md_content : jsval;
  md_type : jsval;
  md_status : jsval }.

(** [INSERT INTO messages (conversation_id, project_id, sender_id,
     receiver_id, content, type, status)
     VALUES ($1, $2, $3, $4, $5, $6, $7) RETURNING *] *)
Definition sql_insert_message
    (conversationId projectId senderId receiverId content type status : jsval)
    (now : Z) : Stmt (list Message) :=
  with_int conversationId (fun cid =>
  with_int projectId (fun pid =>
  with_int senderId (fun sid =>
  with_int receiverId (fun rid d =>
    match sql_text content with
    | None =>
        (Throw (ThrowError "null value in column content violates not-null constraint"),
         set_seqs next_message_id d)
    | Some text =>
        if has_nul text || opt_has_nul (sql_text type)
           || opt_has_nul (sql_text status)
        then (Throw (ThrowError "invalid message format"), d)
        else
        if existsb (fun c => c_id c =? cid) (conversations d)
           && project_exists pid d
        then
          let row := {| m_id := messages_id_seq (seqs d);
                        m_conversation_id := cid;
                        m_project_id := pid;
                        m_sender_id := sid;
                        m_receiver_id := rid;
                        m_type := option_map utf8 (sql_text type);
                        m_status := option_map utf8 (sql_text status);
                        m_content := utf8 text;
                        m_created_at := now |} in
          (Ok [row],
           set_messages (fun ms => ms ++ [row]) (set_seqs next_message_id d))
        else
          (Throw (ThrowError "insert on table messages violates foreign key constraint"),
           set_seqs next_message_id d)
    end)))).

(** [UPDATE projects SET last_activity_at = NOW() WHERE id = $1] *)
Definition sql_touch_project (projectId : jsval) (now : Z) : Stmt unit :=
  with_int projectId (fun pid d =>
    (Ok tt,
     set_projects
       (List.map (fun p => if p_id p =? pid
                           then projectService.set_last_activity now p
                           else p)) d)).

Definition is_user_type (type : jsval) : bool :=
  strict_eq type (JStr constants.MESSAGE_TYPES_USER) || strict_eq type (JStr "user").

Definition createMessage (env : Env) (data : MessageData) : M Message :=
  let conversationId := nullish (md_conversationId data) (md_conversation_id data) in
  let projectId := nullish (md_projectId data) (md_project_id data) in
  let senderId :=
    if typeof_number (md_senderId data) then md_senderId data
    else md_sender_id data in
  let receiverId := nullish (md_receiverId data) (md_receiver_id data) in
  let content := md_content data in
  let type := md_type data in
  if negb (typeof_number senderId) || negb (typeof_number receiverId)
     || negb (truthy projectId) || negb (truthy conversationId)
  then throw (ThrowError "Message creation failed: Missing required ID fields.")
  else
    tx (let status :=
          js_or (md_status data)
            (if is_user_type type then JStr "pending" else JStr "sent") in
        do rows <- t_query (sql_insert_message conversationId projectId senderId
                              receiverId content type status);
        do newMessage <- lift (one rows);
        t_query (sql_touch_project projectId) ;;
        broadcastToProject (JNum (m_project_id newMessage))
          {| ev_type := "new_message";
             ev_payload := PNewMessage (normalizeMessage newMessage) |} ;;
        (if opt_is "pending" (m_status newMessage)
            && (opt_is constants.MESSAGE_TYPES_USER (m_type newMessage)
                || opt_is "user" (m_type newMessage))
         then brainService.nudgeBrain env (JNum (m_project_id newMessage))
         else ret tt) ;;
        ret newMessage).

(** [ORDER BY created_at ASC], as a stable insertion sort over the rows in
    heap order.  SQL leaves the order of rows with equal keys open; this is
    one of the orders the database may return. *)
Fixpoint insert_by_created_at (m : Message) (l : list Message) : list Message :=
  match l with
  | [] => [m]
  | x :: rest =>
      if m_created_at m <=? m_created_at x then m :: x :: rest
      else x :: insert_by_created_at m rest
  end.

Definition order_by_created_at (l : list Message) : list Message :=
  fold_right insert_by_created_at [] l.

Definition is_pending_of (pid : Z) (m : Message) : bool :=
  (m_project_id m =? pid) && opt_is "pending" (m_status m).

(** [SELECT * FROM messages WHERE project_id = $1 AND status = 'pending'
     ORDER BY created_at ASC] *)
Definition sql_pending (projectId : jsval) (now : Z) : Stmt (list Message) :=
  with_int projectId (fun pid d =>
    (Ok (order_by_created_at (List.filter (is_pending_of pid) (messages d))), d)).

Definition getPendingMessages (projectId : jsval) : M (list Message) :=
  db_read (sql_pending projectId).

End messageService.

(** ** routes/messageRoutes.js and controllers/messageController.js *)

Module messageController.

(** [SendMessageSchema]: [content] a string of at least one character,
    [type] an optional string.  Nothing else is checked. *)
Definition SendMessageSchema (content type : jsval) : string + (jsval * jsval) :=
  match content with
  | JStr s =>
      if (String.length s <? 1)%nat then inl "Message cannot be empty"
      else match type with
           | JStr _ | JUndefined => inr (content, type)
           | _ => inl (invalid_type "string" type)
           end
  | _ => inl (invalid_type "string" content)
  end.

(** The request: [req.params.conversationId], [req.body] and the user set
    by [authenticate]. *)
Record SendRequest := {
  sr_conversationId : jsval;
  sr_content : jsval;
  sr_type : jsval;
  sr_userId : Z }.

Definition sendMessage_body (env : Env) (conversationId content type0 : jsval)
    : M NormalizedMessage :=
  let senderId := JNum 0 in
  let type :=
    match type0 with
    | JUndefined => JStr constants.MESSAGE_TYPES_USER
    | v => v
    end in
  do participants <- messageService.getConversationParticipants conversationId;
  match participants with
  | None => throw (ThrowError "Cannot destructure property 'sender_id' of null.")
  | Some c =>
      let receiverId :=
        if c_sender_id c =? 0 then c_receiver_id c else c_sender_id c in
      do message <-
        messageService.createMessage env
          {| messageService.md_conversationId := conversationId;
             messageService.md_conversation_id := JUndefined;
             messageService.md_projectId := JNum (c_project_id c);
             messageService.md_project_id := JUndefined;
             messageService.md_senderId := senderId;
             messageService.md_sender_id := JUndefined;
             messageService.md_receiverId := JNum receiverId;
             messageService.md_receiver_id := JUndefined;
             messageService.md_content := content;
             messageService.md_type := type;
             messageService.md_status := JUndefined |};
      ret (normalizeMessage message)
  end.

(** [router.post('/:conversationId', authenticate,
     validateInput(SendMessageSchema), messageController.sendMessage)] *)
Definition sendMessage (env : Env) (req : SendRequest)
    : M (Response NormalizedMessage) :=
  match validateInput (SendMessageSchema (sr_content req) (sr_type req)) with
  | inl rejected => ret rejected
  | inr (content, type) =>
      tryCatch (sendMessage_body env (sr_conversationId req) content type) None
  end.

End messageController.

(** ** services/conversationService.js *)

Module conversationService.

(** [INSERT INTO conversations (project_id, sender_id, receiver_id)
     VALUES ($1, $2, $3)], with or without [ON CONFLICT DO NOTHING].
    The table's [CHECK (sender_id <= receiver_id)], its
    [UNIQUE (project_id, sender_id, receiver_id)] and the foreign key to
    [projects] are enforced by the database. *)
Definition sql_insert_conversation (projectId senderId receiverId : jsval)
    (on_conflict_do_nothing : bool) (now : Z) : Stmt (list Conversation) :=
  with_int projectId (fun pid =>
  with_int senderId (fun sid =>
  with_int receiverId (fun rid d =>
    let d1 := set_seqs next_conversation_id d in
    if negb (sid <=? rid) then
      (Throw (ThrowError "new row for relation conversations violates check constraint"), d1)
    else if existsb (fun c => (c_project_id c =? pid) && (c_sender_id c =? sid)
                              && (c_receiver_id c =? rid)) (conversations d)
    then
      if on_conflict_do_nothing then (Ok [], d1)
      else (Throw (ThrowError "duplicate key value violates unique constraint"), d1)
    else if negb (project_exists pid d) then
      (Throw (ThrowError "insert on table conversations violates foreign key constraint"), d1)
    else
      let row := {| c_id := conversations_id_seq (seqs d);
                    c_project_id := pid;
                    c_sender_id := sid;
                    c_receiver_id := rid;
                    c_created_at := now |} in
      (Ok [row], set_conversations (fun cs => cs ++ [row]) d1)))).

(** The sender column receives the authenticated user's id. *)
Definition createConversation (userId : Z) (projectId receiverId : jsval)
    : M Conversation :=
  do rows <- db_query (sql_insert_conversation projectId (JNum userId) receiverId false);
  lift (one rows).

End conversationService.

(** ** services/projectService.js (creation and deletion) *)

Module projectCreation.

(** One element of [agents] in the body of [POST /projects]. *)
Record AgentInput := {
  ai_name : string;
  ai_role : string;
  ai_description : string;
  ai_model : string;
  ai_prompt : option string;
  ai_canMessageIds : option (list Z) }.

(** An element of [memberList]. *)
Record MemberEntry := {
  me_agentId : Z;
  me_role : string;
  me_prompt : string;
  me_canMessageIndexes : list Z;
  me_threadId : option string }.

(** [SELECT id FROM projects WHERE user_id = $1 AND title = $2] *)
Definition sql_existing_title (userId : Z) (title : string) (now : Z)
    : Stmt (list Z) :=
  fun d =>
    (Ok (List.map p_id
           (List.filter (fun p => (p_user_id p =? userId)
                                  && String.eqb (p_title p) title) (projects d))),
     d).

(** [INSERT INTO projects (user_id, title, description, system_prompt, paused)
     VALUES ($1, $2, $3, $4, TRUE) RETURNING ...]; [message_limit] takes its
    default, 0. *)
Definition sql_insert_project (userId : Z) (title : string)
    (description systemPrompt : option string) (now : Z) : Stmt (list Project) :=
  fun d =>
    let row := {| p_id := projects_id_seq (seqs d);
                  p_user_id := userId;
                  p_title := title;
                  p_description := description;
                  p_system_prompt := systemPrompt;
                  p_paused := true;
                  p_message_limit := 0;
                  p_created_at := now;
                  p_last_activity_at := now |} in
    (Ok [row], set_projects (fun ps => ps ++ [row]) (set_seqs next_project_id d)).

(** [INSERT INTO project_tokens (project_id, token_id) VALUES ($1, $2)] *)
Definition sql_insert_project_token (projectId tokenId : Z) (now : Z) : Stmt unit :=
  fun d =>
    let d1 := set_seqs next_project_token_id d in
    if existsb (fun t => t_id t =? tokenId) (tokens d) && project_exists projectId d
    then
      (Ok tt,
       set_project_tokens
         (fun l => l ++ [ {| pt_id := project_tokens_id_seq (seqs d);
                             pt_project_id := projectId;
                             pt_token_id := Some tokenId |} ]) d1)
    else
      (Throw (ThrowError "insert on table project_tokens violates foreign key constraint"), d1).

(** [INSERT INTO agents (user_id, name, role, description, model)
     VALUES ($1, $2, $3, $4, $5) RETURNING id] *)
Definition sql_insert_agent (userId : Z) (a : AgentInput) (now : Z) : Stmt (list Z) :=
  fun d =>
    let row := {| a_id := agents_id_seq (seqs d);
                  a_user_id := Some userId;
                  a_name := ai_name a;
                  a_role := ai_role a;
                  a_description := ai_description a;
                  a_model := ai_model a |} in
    (Ok [a_id row], set_agents (fun l => l ++ [row]) (set_seqs next_agent_id d)).

(** [INSERT INTO project_agent_members (project_id, agent_id, role, prompt,
     can_message_ids, thread_id) VALUES ($1, ..., $6)] *)
Definition sql_insert_member (projectId : Z) (member : MemberEntry)
    (canMessageIds : list Z) (now : Z) : Stmt unit :=
  fun d =>
    if existsb (fun m => (pam_project_id m =? projectId)
                         && (pam_agent_id m =? me_agentId member))
         (project_agent_members d)
    then (Throw (ThrowError "duplicate key value violates unique constraint"), d)
    else if project_exists projectId d
            && existsb (fun a => a_id a =? me_agentId member) (agents d)
    then
      (Ok tt,
       set_members
         (fun l => l ++ [ {| pam_project_id := projectId;
                             pam_agent_id := me_agentId member;
                             pam_role := me_role member;
                             pam_prompt := me_prompt member;
                             pam_thread_id := me_threadId member;
                             pam_can_message_ids :=
                               String.concat "," (List.map pretty canMessageIds) |} ]) d)
    else
      (Throw (ThrowError "insert on table project_agent_members violates foreign key constraint"), d).

(** [indexToIdMap[i]]: the ids are stored under the keys 0, 1, ... *)
Definition index_to_id (indexToIdMap : list Z) (i : Z) : option Z :=
  if i <? 0 then None else nth_error indexToIdMap (Z.to_nat i).

(** The first loop: one [agents] row and one [memberList] entry per input. *)
Fixpoint insert_agents (userId : Z) (agents : list AgentInput)
    : M (list Z * list MemberEntry) :=
  match agents with
  | [] => ret ([], [])
  | a :: rest =>
      do rows <- t_query (sql_insert_agent userId a);
      do agentRowId <- lift (one rows);
      do tail <- insert_agents userId rest;
      ret (agentRowId :: fst tail,
           {| me_agentId := agentRowId;
              me_role := ai_role a;
              me_prompt :=
                match ai_prompt a with
                | Some pr => if String.eqb pr "" then ai_description a else pr
                | None => ai_description a
                end;
              me_canMessageIndexes := default [] (ai_canMessageIds a);
              me_threadId := None |} :: snd tail)
  end.

(** [member.canMessageIndexes.map(i => indexToIdMap[i])
      .filter(id => id !== undefined && id !== member.agentId)] *)
Definition canMessageIds_of (indexToIdMap : list Z) (member : MemberEntry)
    : list Z :=
  List.filter (fun id => negb (id =? me_agentId member))
    (omap (index_to_id indexToIdMap) (me_canMessageIndexes member)).

(** The loop over [canMessageIds]; the key [`${sid}-${rid}`] of
    [createdPairs] is kept as the pair it spells. *)
Fixpoint link_pairs (projectId agentId : Z) (others : list Z)
    (createdPairs : gset (Z * Z)) : M (gset (Z * Z)) :=
  match others with
  | [] => ret createdPairs
  | otherId :: rest =>
      let sid := Z.min agentId otherId in
      let rid := Z.max agentId otherId in
      let pairKey := (sid, rid) in
      if decide (pairKey ∈ createdPairs) then
        link_pairs projectId agentId rest createdPairs
      else
        t_query (conversationService.sql_insert_conversation
                   (JNum projectId) (JNum sid) (JNum rid) true) ;;
        link_pairs projectId agentId rest ({[ pairKey ]} ∪ createdPairs)
  end.

(** The loop over [memberList]. *)
Fixpoint insert_members (projectId : Z) (indexToIdMap : list Z)
    (memberList : list MemberEntry) (createdPairs : gset (Z * Z)) : M unit :=
  match memberList with
  | [] => ret tt
  | member :: rest =>
      let canMessageIds := canMessageIds_of indexToIdMap member in
      t_query (sql_insert_member projectId member canMessageIds) ;;
      do createdPairs' <-
        link_pairs projectId (me_agentId member) canMessageIds createdPairs;
      insert_members projectId indexToIdMap rest createdPairs'
  end.

Definition system_member (n : nat) : MemberEntry :=
  {| me_agentId := 0;
     me_role := "system";
     me_prompt := "System agent: logs, system prompts, and control";
     me_canMessageIndexes := List.map Z.of_nat (seq 0 n);
     me_threadId := Some "system" |}.

Definition createProjectWithMembers (userId : Z) (title : string)
    (description systemPrompt : option string) (agents : list AgentInput)
    (tokenId : option Z) : M Project :=
  tx (do rows <- t_query (sql_existing_title userId title);
      do existing <- lift (oneOrNone rows);
      match existing with
      | Some _ => throw (ThrowError "A project with this title already exists.")
      | None =>
          do inserted <- t_query (sql_insert_project userId title description systemPrompt);
          do project <- lift (one inserted);
          (match tokenId with
           | Some tid =>
               if tid =? 0 then ret tt
               else t_query (sql_insert_project_token (p_id project) tid)
           | None => ret tt
           end) ;;
          do created <- insert_agents userId agents;
          let indexToIdMap := fst created in
          let memberList := snd created ++ [system_member (List.length indexToIdMap)] in
          insert_members (p_id project) indexToIdMap memberList ∅ ;;
          ret project
      end).

End projectCreation.

Module projectDeletion.

(** [SELECT agent_id FROM project_agent_members
     WHERE project_id = $1 AND agent_id != 0] *)
Definition sql_member_agents (projectId : jsval) (now : Z) : Stmt (list Z) :=
  with_int projectId (fun pid d =>
    (Ok (List.map pam_agent_id
           (List.filter (fun m => (pam_project_id m =? pid)
                                  && negb (pam_agent_id m =? 0))
              (project_agent_members d))), d)).

Definition mem (x : Z) (l : list Z) : bool := existsb (Z.eqb x) l.

(** [DELETE FROM projects WHERE id = $1 AND user_id = $2 RETURNING id],
    with every [ON DELETE CASCADE] that hangs off [projects(id)], and the
    cascade from [conversations(id)] to [messages]. *)
Definition sql_delete_project (projectId : jsval) (userId : Z) (now : Z)
    : Stmt (list Z) :=
  with_int projectId (fun pid d =>
    let hit p := (p_id p =? pid) && (p_user_id p =? userId) in
    let gone := List.map p_id (List.filter hit (projects d)) in
    let gone_conversations :=
      List.map c_id (List.filter (fun c => mem (c_project_id c) gone)
                       (conversations d)) in
    (Ok gone,
     {| tokens := tokens d;
        agents := agents d;
        projects := List.filter (fun p => negb (hit p)) (projects d);
        project_tokens :=
          List.filter (fun r => negb (mem (pt_project_id r) gone)) (project_tokens d);
        project_agent_members :=
          List.filter (fun r => negb (mem (pam_project_id r) gone))
            (project_agent_members d);
        conversations :=
          List.filter (fun c => negb (mem (c_project_id c) gone)) (conversations d);
        messages :=
          List.filter (fun m => negb (mem (m_project_id m) gone)
                                && negb (mem (m_conversation_id m) gone_conversations))
            (messages d);
        logs := List.filter (fun l => negb (mem (l_project_id l) gone)) (logs d);
        agent_history_summaries :=
          List.filter (fun r => negb (mem (s_project_id r) gone))
            (agent_history_summaries d);
        seqs := seqs d |})).

(** [DELETE FROM agents WHERE id IN ($1:csv) AND user_id = $2], with the
    cascades from [agents(id)]. *)
Definition sql_delete_agents (ids : list Z) (userId : Z) (now : Z) : Stmt unit :=
  fun d =>
    let hit a :=
      mem (a_id a) ids
      && match a_user_id a with Some u => u =? userId | None => false end in
    let gone := List.map a_id (List.filter hit (agents d)) in
    (Ok tt,
     {| tokens := tokens d;
        agents := List.filter (fun a => negb (hit a)) (agents d);
        projects := projects d;
        project_tokens := project_tokens d;
        project_agent_members :=
          List.filter (fun r => negb (mem (pam_agent_id r) gone))
            (project_agent_members d);
        conversations := conversations d;
        messages := messages d;
        logs := logs d;
        agent_history_summaries :=
          List.filter (fun r => negb (mem (s_agent_id r) gone))
            (agent_history_summaries d);
        seqs := seqs d |}).

(** "Deletes a project and cascades to dependent entries, including agent
    cleanup." *)
Definition deleteProject (projectId : jsval) (userId : Z) : M bool :=
  tx (do agentIdsToDelete <- t_query (sql_member_agents projectId);
      do rows <- t_query (sql_delete_project projectId userId);
      do deletedProject <- lift (oneOrNone rows);
      match deletedProject with
      | None => throw (ThrowError "Project not found or user not authorized.")
      | Some _ =>
          (match agentIdsToDelete with
           | [] => ret tt
           | _ :: _ => t_query (sql_delete_agents agentIdsToDelete userId)
           end) ;;
          ret true
      end).

End projectDeletion.

(** ** utils/projectLocks.js *)

Module projectLocks.

Definition isDemoUser (env : Env) (userId : Z) : bool :=
  match demoUserId env with
  | Some u => userId =? u
  | None => false
  end.

Definition same_id (v : jsval) (configured : option Z) : bool :=
  match configured with
  | Some n => strict_eq v (JNum n)
  | None => strict_eq v JNull
  end.

Definition isSnapshotProject (env : Env) (userId : Z) (projectId : jsval) : bool :=
  isDemoUser env userId && same_id projectId (snapshotProjectId env).

Definition isProtectedProject (env : Env) (userId : Z) (projectId : jsval) : bool :=
  isDemoUser env userId
  && (same_id projectId (demoProjectId env)
      || same_id projectId (snapshotProjectId env)).

(** [newLimit > demoProjectLimit]; a limit that is not configured is
    [null], which the comparison reads as 0. *)
Definition isLimitExceededForDemo (env : Env) (userId : Z) (newLimit : number)
    : bool :=
  isDemoUser env userId
  && match demoProjectLimit env with
     | Some l => number_gtz newLimit l
     | None => number_gtz newLimit 0
     end.

Definition isProtectedDemoToken (env : Env) (userId : Z) (tokenId : jsval) : bool :=
  isDemoUser env userId && same_id tokenId (demoTokenId env).

End projectLocks.

(** ** services/tokenService.js *)

Module tokenService.

(** [INSERT INTO tokens (user_id, name, api_key) VALUES ($1, $2, $3)
     RETURNING id, name, created_at, user_id, active] *)
Definition sql_insert_token (userId : Z) (name apiKey : string) (now : Z)
    : Stmt (list Token) :=
  fun d =>
    if has_nul name || has_nul apiKey
    then (Throw (ThrowError "invalid message format"), d)
    else
      let row := {| t_id := tokens_id_seq (seqs d);
                    t_user_id := userId;
                    t_name := utf8 name;
                    t_api_key := utf8 apiKey;
                    t_active := true;
                    t_created_at := now |} in
      (Ok [row], set_tokens (fun l => l ++ [row]) (set_seqs next_token_id d)).

Definition createToken (userId : Z) (name apiKey : string) : M Token :=
  do rows <- db_query (sql_insert_token userId name apiKey);
  lift (one rows).

(** [SELECT 1 FROM project_tokens WHERE token_id = $1 LIMIT 1] *)
Definition sql_token_usage (tokenId : jsval) (now : Z) : Stmt (list Z) :=
  with_int tokenId (fun tid d =>
    (Ok (firstn 1
           (List.map (fun _ => 1)
              (List.filter (fun r => match pt_token_id r with
                                     | Some t => t =? tid
                                     | None => false
                                     end) (project_tokens d)))), d)).

(** [DELETE FROM tokens WHERE id = $1 AND user_id = $2 RETURNING id]; a
    binding that still names a deleted token has its [token_id] set to
    [NULL]. *)
Definition sql_delete_token (tokenId : jsval) (userId : Z) (now : Z)
    : Stmt (list Z) :=
  with_int tokenId (fun tid d =>
    let hit t := (t_id t =? tid) && (t_user_id t =? userId) in
    let gone := List.map t_id (List.filter hit (tokens d)) in
    (Ok gone,
     set_project_tokens
       (List.map (fun r =>
          match pt_token_id r with
          | Some t => if projectDeletion.mem t gone
                      then {| pt_id := pt_id r; pt_project_id := pt_project_id r;
                              pt_token_id := None |}
                      else r
          | None => r
          end))
       (set_tokens (List.filter (fun t => negb (hit t))) d))).

Definition deleteToken (tokenId : jsval) (userId : Z) : M bool :=
  do rows <- db_read (sql_token_usage tokenId);
  do usage <- lift (oneOrNone rows);
  match usage with
  | Some _ => throw (ThrowError "Cannot delete: token is used in a project.")
  | None =>
      do deleted <- db_query (sql_delete_token tokenId userId);
      do result <- lift (oneOrNone deleted);
      ret (match result with Some _ => true | None => false end)
  end.

End tokenService.

(** ** Byte strings: [Buffer.from(s, 'hex')], [buffer.toString('hex')] *)

Module Buffer.

Definition xor_ascii (a b : ascii) : ascii :=
  match a, b with
  | Ascii a0 a1 a2 a3 a4 a5 a6 a7, Ascii b0 b1 b2 b3 b4 b5 b6 b7 =>
      Ascii (xorb a0 b0) (xorb a1 b1) (xorb a2 b2) (xorb a3 b3)
            (xorb a4 b4) (xorb a5 b5) (xorb a6 b6) (xorb a7 b7)
  end.

Fixpoint xor_block (a b : list ascii) : list ascii :=
  match a, b with
  | x :: a', y :: b' => xor_ascii x y :: xor_block a' b'
  | _, _ => []
  end.

Definition hex_digit (n : nat) : ascii :=
  match String.get n "0123456789abcdef" with
  | Some c => c
  | None => "0"%char
  end.

Definition hex_value (c : ascii) : option nat :=
  let n := nat_of_ascii c in
  if ((48 <=? n) && (n <=? 57))%nat then Some (n - 48)%nat
  else if ((97 <=? n) && (n <=? 102))%nat then Some (n - 87)%nat
  else if ((65 <=? n) && (n <=? 70))%nat then Some (n - 55)%nat
  else None.

(** [buffer.toString('hex')] *)
Fixpoint to_hex (l : list ascii) : string :=
  match l with
  | [] => ""
  | c :: rest =>
      let n := nat_of_ascii c in
      String (hex_digit (n / 16)) (String (hex_digit (n mod 16)) (to_hex rest))
  end.

(** [Buffer.from(s, 'hex')]: decoding stops at the first pair that is not
    two hex digits. *)
Fixpoint from_hex (s : string) : list ascii :=
  match s with
  | String a (String b rest) =>
      match hex_value a, hex_value b with
      | Some x, Some y => ascii_of_nat (16 * x + y) :: from_hex rest
      | _, _ => []
      end
  | _ => []
  end.

End Buffer.
Export Buffer.

(** ** The cipher of [crypto.createCipheriv('aes-256-cbc', ...)]: AES with a
       256-bit key (FIPS 197), on one block of 16 bytes

    The state is the list of its 16 bytes, column after column. *)

Module aes256.

Definition sbox_table : list ascii :=
  Eval vm_compute in
    from_hex
    ("637c777bf26b6fc53001672bfed7ab76ca82c97dfa5947f0add4a2af9ca472c0" ++
     "b7fd9326363ff7cc34a5e5f171d8311504c723c31896059a071280e2eb27b275" ++
     "09832c1a1b6e5aa0523bd6b329e32f8453d100ed20fcb15b6acbbe394a4c58cf" ++
     "d0efaafb434d338545f9027f503c9fa851a3408f929d38f5bcb6da2110fff3d2" ++
     "cd0c13ec5f974417c4a77e3d645d197360814fdc222a908846eeb814de5e0bdb" ++
     "e0323a0a4906245cc2d3ac629195e479e7c8376d8dd54ea96c56f4ea657aae08" ++
     "ba78252e1ca6b4c6e8dd741f4bbd8b8a703eb5664803f60e613557b986c11d9e" ++
     "e1f8981169d98e949b1e87e9ce5528df8ca1890dbfe6426841992d0fb054bb16").

Definition inv_sbox_table : list ascii :=
  Eval vm_compute in
    from_hex
    ("52096ad53036a538bf40a39e81f3d7fb7ce339829b2fff87348e4344c4dee9cb" ++
     "547b9432a6c2233dee4c950b42fac34e082ea16628d924b2765ba2496d8bd125" ++
     "72f8f66486689816d4a45ccc5d65b6926c704850fdedb9da5e154657a78d9d84" ++
     "90d8ab008cbcd30af7e45805b8b34506d02c1e8fca3f0f02c1afbd0301138a6b" ++
     "3a9111414f67dcea97f2cfcef0b4e67396ac7422e7ad3585e2f937e81c75df6e" ++
     "47f11a711d29c5896fb7620eaa18be1bfc563e4bc6d279209adbc0fe78cd5af4" ++
     "1fdda8338807c731b11210592780ec5f60517fa919b54a0d2de57a9f93c99cef" ++
     "a0e03b4dae2af5b0c8ebbb3c83539961172b047eba77d626e169146355210c7d").

Definition sbox (c : ascii) : ascii := nth (nat_of_ascii c) sbox_table zero.
Definition inv_sbox (c : ascii) : ascii := nth (nat_of_ascii c) inv_sbox_table zero.

Definition sub_bytes (st : list ascii) : list ascii := List.map sbox st.
Definition inv_sub_bytes (st : list ascii) : list ascii := List.map inv_sbox st.

Definition pick (st : list ascii) (i : nat) : ascii := nth i st zero.

Definition shift_rows (st : list ascii) : list ascii :=
  List.map (pick st) [0; 5; 10; 15; 4; 9; 14; 3; 8; 13; 2; 7; 12; 1; 6; 11]%nat.

Definition inv_shift_rows (st : list ascii) : list ascii :=
  List.map (pick st) [0; 13; 10; 7; 4; 1; 14; 11; 8; 5; 2; 15; 12; 9; 6; 3]%nat.

(** Multiplication by x in GF(2^8) modulo x^8 + x^4 + x^3 + x + 1. *)
Definition xtime (a : ascii) : ascii :=
  match a with
  | Ascii b0 b1 b2 b3 b4 b5 b6 b7 =>
      Ascii b7 (xorb b0 b7) b1 (xorb b2 b7) (xorb b3 b7) b4 b5 b6
  end.

Definition mul2 (a : ascii) : ascii := xtime a.
Definition mul3 (a : ascii) : ascii := xor_ascii (xtime a) a.
Definition mul4 (a : ascii) : ascii := xtime (xtime a).
Definition mul8 (a : ascii) : ascii := xtime (mul4 a).
Definition mul9 (a : ascii) : ascii := xor_ascii (mul8 a) a.
Definition mul11 (a : ascii) : ascii := xor_ascii (xor_ascii (mul8 a) (mul2 a)) a.
Definition mul13 (a : ascii) : ascii := xor_ascii (xor_ascii (mul8 a) (mul4 a)) a.
Definition mul14 (a : ascii) : ascii :=
  xor_ascii (xor_ascii (mul8 a) (mul4 a)) (mul2 a).

Definition xor4 (a b c d : ascii) : ascii :=
  xor_ascii (xor_ascii (xor_ascii a b) c) d.

Definition mix_column (a0 a1 a2 a3 : ascii) : list ascii :=
  [ xor4 (mul2 a0) (mul3 a1) a2 a3;
    xor4 a0 (mul2 a1) (mul3 a2) a3;
    xor4 a0 a1 (mul2 a2) (mul3 a3);
    xor4 (mul3 a0) a1 a2 (mul2 a3) ].

Definition inv_mix_column (a0 a1 a2 a3 : ascii) : list ascii :=
  [ xor4 (mul14 a0) (mul11 a1) (mul13 a2) (mul9 a3);
    xor4 (mul9 a0) (mul14 a1) (mul11 a2) (mul13 a3);
    xor4 (mul13 a0) (mul9 a1) (mul14 a2) (mul11 a3);
    xor4 (mul11 a0) (mul13 a1) (mul9 a2) (mul14 a3) ].

Fixpoint mix_columns (st : list ascii) : list ascii :=
  match st with
  | a0 :: a1 :: a2 :: a3 :: rest => mix_column a0 a1 a2 a3 ++ mix_columns rest
  | _ => []
  end.

Fixpoint inv_mix_columns (st : list ascii) : list ascii :=
  match st with
  | a0 :: a1 :: a2 :: a3 :: rest =>
      inv_mix_column a0 a1 a2 a3 ++ inv_mix_columns rest
  | _ => []
  end.

(** The key schedule, on words of four bytes. *)
Definition word : Type := ascii * ascii * ascii * ascii.

Definition zero_word : word := (zero, zero, zero, zero).

Definition word_bytes (w : word) : list ascii :=
  match w with
  | (a, b, c, d) => [a; b; c; d]
  end.

Definition xor_word (v w : word) : word :=
  match v, w with
  | (a, b, c, d), (a', b', c', d') =>
      (xor_ascii a a', xor_ascii b b', xor_ascii c c', xor_ascii d d')
  end.

Definition sub_word (w : word) : word :=
  match w with
  | (a, b, c, d) => (sbox a, sbox b, sbox c, sbox d)
  end.

Definition rot_word (w : word) : word :=
  match w with
  | (a, b, c, d) => (b, c, d, a)
  end.

Fixpoint key_words (key : list ascii) : list word :=
  match key with
  | a :: b :: c :: d :: rest => (a, b, c, d) :: key_words rest
  | _ => []
  end.

(** [newest_first] holds the words computed so far, the last one first;
    [i] is the index of the word to compute. *)
Fixpoint expand_loop (steps i : nat) (rcon : ascii) (newest_first : list word)
    : list word :=
  match steps with
  | O => rev newest_first
  | S steps' =>
      let prev := nth 0 newest_first zero_word in
      let back := nth 7 newest_first zero_word in
      let temp :=
        if (i mod 8 =? 0)%nat
        then xor_word (sub_word (rot_word prev)) (rcon, zero, zero, zero)
        else if (i mod 8 =? 4)%nat then sub_word prev
        else prev in
      let rcon' := if (i mod 8 =? 0)%nat then xtime rcon else rcon in
      expand_loop steps' (S i) rcon' (xor_word back temp :: newest_first)
  end.

Definition key_expansion (key : list ascii) : list word :=
  expand_loop 52 8 (ascii_of_nat 1) (rev (key_words key)).

Definition round_key (w : list word) (r : nat) : list ascii :=
  word_bytes (nth (4 * r) w zero_word)
  ++ word_bytes (nth (4 * r + 1) w zero_word)
  ++ word_bytes (nth (4 * r + 2) w zero_word)
  ++ word_bytes (nth (4 * r + 3) w zero_word).

Definition round (w : list word) (st : list ascii) (r : nat) : list ascii :=
  xor_block (mix_columns (shift_rows (sub_bytes st))) (round_key w r).

Definition inv_round (w : list word) (r : nat) (st : list ascii) : list ascii :=
  inv_sub_bytes (inv_shift_rows (inv_mix_columns (xor_block st (round_key w r)))).

Definition encrypt_block (key block : list ascii) : list ascii :=
  let w := key_expansion key in
  let st := xor_block block (round_key w 0) in
  let st := fold_left (round w) (seq 1 13) st in
  xor_block (shift_rows (sub_bytes st)) (round_key w 14).

Definition decrypt_block (key block : list ascii) : list ascii :=
  let w := key_expansion key in
  let st := inv_sub_bytes (inv_shift_rows (xor_block block (round_key w 14))) in
  let st := fold_right (inv_round w) st (seq 1 13) in
  xor_block st (round_key w 0).

End aes256.

(** ** utils/auth/encrypt.js

    [crypto.createCipheriv('aes-256-cbc', key, iv)]: the CBC chaining and the
    PKCS#7 padding are written for any transformation of one block, and
    [encrypt] and [decrypt] use them with AES.  [encrypt] works on the
    UTF-8 form of the text, [utf8]; [decrypt] returns the string that the
    decrypted bytes spell. *)

Module encrypt.

Definition IV_LENGTH : nat := 16.

(** [s.split(sep)] for a one-character separator. *)
Fixpoint split_on (sep : ascii) (s : string) : list string :=
  match s with
  | EmptyString => [EmptyString]
  | String c rest =>
      if Ascii.eqb c sep then EmptyString :: split_on sep rest
      else match split_on sep rest with
           | h :: t => String c h :: t
           | [] => [String c EmptyString]
           end
  end.

Definition pkcs7_pad (l : list ascii) : list ascii :=
  let n := (16 - List.length l mod 16)%nat in
  l ++ repeat (ascii_of_nat n) n.

Definition pkcs7_unpad (l : list ascii) : option (list ascii) :=
  let n := nat_of_ascii (List.last l zero) in
  let len := List.length l in
  if ((1 <=? n) && (n <=? 16) && (n <=? len))%nat
     && forallb (Ascii.eqb (ascii_of_nat n)) (skipn (len - n) l)
  then Some (firstn (len - n) l)
  else None.

Section Cipher.

(** The transformation of one 16-byte block under a key, and its inverse. *)
Variables encrypt_block decrypt_block : list ascii -> list ascii -> list ascii.

Fixpoint cbc_encrypt (fuel : nat) (key prev data : list ascii) : list ascii :=
  match fuel with
  | O => []
  | S fuel' =>
      match data with
      | [] => []
      | _ :: _ =>
          let c := encrypt_block key (xor_block (firstn 16 data) prev) in
          c ++ cbc_encrypt fuel' key c (skipn 16 data)
      end
  end.

Fixpoint cbc_decrypt (fuel : nat) (key prev data : list ascii) : list ascii :=
  match fuel with
  | O => []
  | S fuel' =>
      match data with
      | [] => []
      | _ :: _ =>
          let c := firstn 16 data in
          xor_block (decrypt_block key c) prev
            ++ cbc_decrypt fuel' key c (skipn 16 data)
      end
  end.

(** [iv] is the result of [crypto.randomBytes(IV_LENGTH)]. *)
Definition encrypt_with (env : Env) (iv : list ascii) (text : string)
    : Result string :=
  let key := list_ascii_of_string (encryptSecret env) in
  if negb (List.length key =? 32)%nat then Throw (ThrowError "Invalid key length")
  else if negb (List.length iv =? IV_LENGTH)%nat
  then Throw (ThrowError "Invalid initialization vector")
  else
    let data := pkcs7_pad (list_ascii_of_string (utf8 text)) in
    let encrypted := to_hex (cbc_encrypt (List.length data) key iv data) in
    Ok (to_hex iv ++ ":" ++ encrypted)%string.

Definition decrypt_with (env : Env) (encrypted : string) : Result string :=
  let key := list_ascii_of_string (encryptSecret env) in
  let parts := split_on ":" encrypted in
  let iv := from_hex (hd "" parts) in
  if negb (List.length key =? 32)%nat then Throw (ThrowError "Invalid key length")
  else if negb (List.length iv =? IV_LENGTH)%nat
  then Throw (ThrowError "Invalid initialization vector")
  else
    match tl parts with
    | data :: _ =>
        let bytes := from_hex data in
        if (List.length bytes =? 0)%nat || negb (List.length bytes mod 16 =? 0)%nat
        then Throw (ThrowError "wrong final block length")
        else
          match pkcs7_unpad (cbc_decrypt (List.length bytes) key iv bytes) with
          | Some text => Ok (string_of_list_ascii text)
          | None => Throw (ThrowError "bad decrypt")
          end
    | [] => Throw (ThrowError "The data argument must be of type string.")
    end.

End Cipher.

Definition encrypt (env : Env) (iv : list ascii) (text : string) : Result string :=
  encrypt_with aes256.encrypt_block env iv text.

Definition decrypt (env : Env) (encrypted : string) : Result string :=
  decrypt_with aes256.decrypt_block env encrypted.

End encrypt.

(** ** routes/tokenRoutes.js and controllers/tokenController.js *)

Module tokenController.

(** [normalizeToken]: the key itself is not part of the answer. *)
Record NormalizedToken := {
  nt_id : Z;
  nt_name : string;
  nt_createdAt : Z;
  nt_userId : Z;
  nt_active : bool }.

Definition normalizeToken (token : Token) : NormalizedToken :=
  {| nt_id := t_id token; nt_name := t_name token;
     nt_createdAt := t_created_at token; nt_userId := t_user_id token;
     nt_active := t_active token |}.

(** [AddTokenSchema]: [z.string().min(n)] compares [length], the number
    of UTF-16 code units. *)
Definition AddTokenSchema (name apiKey : jsval) : string + (string * string) :=
  match name with
  | JStr n =>
      if (code_units n <? 2)%nat then inl "Token name is required"
      else match apiKey with
           | JStr k =>
               if (code_units k <? 10)%nat then inl "API key is required"
               else inr (n, k)
           | _ => inl (invalid_type "string" apiKey)
           end
  | _ => inl (invalid_type "string" name)
  end.

Definition addToken_body (env : Env) (iv : list ascii) (userId : Z)
    (name apiKey : string) : M NormalizedToken :=
  do encryptedKey <- lift (encrypt.encrypt env iv apiKey);
  do token <- tokenService.createToken userId name encryptedKey;
  ret (normalizeToken token).

(** [router.post('/', authenticate, validateInput(AddTokenSchema),
     tokenController.addToken)] *)
Definition addToken (env : Env) (iv : list ascii) (userId : Z)
    (name apiKey : jsval) : M (Response NormalizedToken) :=
  match validateInput (AddTokenSchema name apiKey) with
  | inl rejected => ret rejected
  | inr (n, k) => tryCatch (addToken_body env iv userId n k) (Some "token.addSuccess")
  end.

(** The body of [deleteToken]; [id] is [req.params.id]. *)
Definition deleteToken_body (env : Env) (id : jsval) (userId : Z) : M unit :=
  let tokenId := Number id in
  if projectLocks.isProtectedDemoToken env userId tokenId
  then throw (ThrowStatus 403 "token.protectedDemo")
  else
    do deleted <- tokenService.deleteToken tokenId userId;
    if deleted then ret tt else throw (ThrowStr "token.notFound").

(** [router.delete('/:id', authenticate, tokenController.deleteToken)] *)
Definition deleteToken (env : Env) (id : jsval) (userId : Z) : M (Response unit) :=
  tryCatch (deleteToken_body env id userId) (Some "token.deleteSuccess").

End tokenController.

(** ** routes/settingsRoutes.js and controllers/projectSettingsController.js *)

Module projectSettingsController.

(** [MessageLimitSchema]: "Changed .min(1) to .min(0) to allow setting the
    limit to zero."  The schema is [z.number().min(0)], without [.int()]:
    a number with a fraction passes. *)
Definition MessageLimitSchema (limit : jsval) : string + number :=
  match limit with
  | JNum n =>
      if n <? 0 then inl "Number must be greater than or equal to 0"
      else inr (Int n)
  | JDec m e =>
      if m <? 0 then inl "Number must be greater than or equal to 0"
      else inr (Dec m e)
  | _ => inl (invalid_type "number" limit)
  end.

Definition setMessageLimit_body (env : Env) (id : jsval) (userId : Z)
    (limit : number) : M unit :=
  let projectId := Number id in
  if projectLocks.isSnapshotProject env userId projectId
  then throw (ThrowStatus 403 "project.snapshotModified")
  else if projectLocks.isLimitExceededForDemo env userId limit
  then throw (ThrowStatus 403 "project.limitExceeded")
  else
    do updated <- settingsService.setMessageLimit projectId limit userId;
    if updated then ret tt else throw (ThrowStr "project.notFound").

(** [router.patch('/project/:id/limit', authenticate,
     validateInput(MessageLimitSchema), settingsController.setMessageLimit)] *)
Definition setMessageLimit (env : Env) (id : jsval) (userId : Z) (limit : jsval)
    : M (Response unit) :=
  match validateInput (MessageLimitSchema limit) with
  | inl rejected => ret rejected
  | inr n => tryCatch (setMessageLimit_body env id userId n) (Some "project.limitSet")
  end.

End projectSettingsController.

(** ** Observations on a database state, used to state the properties *)

Definition find_project (pid : Z) (d : DB) : option Project :=
  List.find (fun p => p_id p =? pid) (projects d).

(** The primary key of [projects]. *)
Definition projects_pk (d : DB) : Prop := NoDup (List.map p_id (projects d)).

(** The primary key of [tokens]. *)
Definition tokens_pk (d : DB) : Prop := NoDup (List.map t_id (tokens d)).

(** A token is in use when a row of [project_tokens] names it. *)
Definition token_in_use (tid : Z) (d : DB) : Prop :=
  exists r, In r (project_tokens d) /\ pt_token_id r = Some tid.

(** The agents that [deleteProject] removes with project [pid]: the members
    of the project other than the System agent that belong to the caller. *)
Definition project_member_agents (pid : Z) (d : DB) : list Z :=
  List.map pam_agent_id
    (List.filter (fun m => (pam_project_id m =? pid) && negb (pam_agent_id m =? 0))
       (project_agent_members d)).

Definition agent_cleaned (pid userId : Z) (d : DB) (a : Agent) : bool :=
  projectDeletion.mem (a_id a) (project_member_agents pid d)
  && match a_user_id a with Some u => u =? userId | None => false end.

Definition cleaned_agent_ids (pid userId : Z) (d : DB) : list Z :=
  List.map a_id (List.filter (agent_cleaned pid userId d) (agents d)).

Definition project_conversation_ids (pid : Z) (d : DB) : list Z :=
  List.map c_id (List.filter (fun c => c_project_id c =? pid) (conversations d)).

(** The keys of the [clients] map are distinct. *)
Definition hub_wf (h : webSocketService.Hub) : Prop :=
  NoDup (List.map fst (webSocketService.clients h)).

(** A sequence of calls of [broadcastToProject]. *)
Definition broadcast_all (events : list (jsval * Event)) (h : webSocketService.Hub)
    : webSocketService.Hub :=
  fold_left (fun acc e => webSocketService.broadcastToProject (fst e) (snd e) acc)
    events h.

(** Remaining budget exhausted implies paused, for every project. *)
Definition budget_invariant (d : DB) : Prop :=
  forall p, In p (projects d) -> p_message_limit p <= 0 -> p_paused p = true.

(** A conversation of project [pid] between [x] and [y], in either order. *)
Definition conversation_matches (pid x y : Z) (c : Conversation) : bool :=
  (c_project_id c =? pid)
  && (((c_sender_id c =? x) && (c_receiver_id c =? y))
      || ((c_sender_id c =? y) && (c_receiver_id c =? x))).

(** Conversation uniqueness: every row is ordered, and a project has at
    most one row per unordered pair. *)
Definition conversations_unique (cs : list Conversation) : Prop :=
  (forall c, In c cs -> c_sender_id c <= c_receiver_id c)
  /\ (forall pid x y,
        (List.length (List.filter (conversation_matches pid x y) cs) <= 1)%nat).

Definition conversations_invariant (d : DB) : Prop :=
  conversations_unique (conversations d).

(** The row of [conversations] for the ordered triple. *)
Definition conversation_row (pid s r : Z) (d : DB) : Prop :=
  exists c, In c (conversations d)
            /\ c_project_id c = pid /\ c_sender_id c = s /\ c_receiver_id c = r.

(** The number of conversations of project [pid] between [x] and [y]. *)
Definition conversation_count (pid x y : Z) (d : DB) : nat :=
  List.length (List.filter (conversation_matches pid x y) (conversations d)).

(** A property of the tables kept by a computation, whatever it returns. *)
Definition preserves {A : Type} (P : DB -> Prop) (c : M A) : Prop :=
  forall w, P (db w) -> P (db (snd (c w))).

Definition stmt_preserves {A : Type} (P : DB -> Prop) (q : Stmt A) : Prop :=
  forall d, P d -> P (snd (q d)).

Definition seqs_irrelevant (P : DB -> Prop) : Prop :=
  forall f d, P d -> P (set_seqs f d).

(** What the query of [getPendingMessages] asks of its answer: the pending
    rows of the project, each once, in an order that is ascending in
    [created_at].  Nothing is asked of rows with equal [created_at]. *)
Definition created_at_le (a b : Message) : Prop :=
  m_created_at a <= m_created_at b.

Definition pending_queue_answer (d : DB) (pid : Z) (rows : list Message) : Prop :=
  Permutation rows (List.filter (messageService.is_pending_of pid) (messages d))
  /\ StronglySorted created_at_le rows.

(** The order the specification names: [created_at], then [id]. *)
Definition created_at_then_id (a b : Message) : Prop :=
  m_created_at a < m_created_at b
  \/ (m_created_at a = m_created_at b /\ m_id a <= m_id b).


(** ** Concrete scenarios

    The seed of scenario S1 of the specification: user 10 owns project 100
    with agents 1 and 2 beside the System agent 0, one conversation per
    pair, and an active token bound to the project. *)

Module Scenario.

Definition env0 : Env :=
  {| encryptSecret := "0123456789abcdef0123456789abcdef";
     brainApiUrl := Some "http://brain:8000";
     demoUserId := Some 2;
     demoTokenId := Some 2;
     demoProjectId := Some 1;
     snapshotProjectId := Some 1;
     demoProjectLimit := Some 20 |}.

Definition seqs0 : Sequences :=
  {| tokens_id_seq := 8; agents_id_seq := 3; projects_id_seq := 101;
     project_tokens_id_seq := 2; conversations_id_seq := 4;
     messages_id_seq := 1; logs_id_seq := 1 |}.

Definition project100 (paused : bool) (budget : Z) : Project :=
  {| p_id := 100; p_user_id := 10; p_title := "P";
     p_description := None; p_system_prompt := Some "Be brief.";
     p_paused := paused; p_message_limit := budget;
     p_created_at := 0; p_last_activity_at := 0 |}.

Definition agent (id : Z) (owner : option Z) (name : string) : Agent :=
  {| a_id := id; a_user_id := owner; a_name := name; a_role := "role";
     a_description := "description"; a_model := "gpt-4o" |}.

Definition member (agentId : Z) (can : string) : Member :=
  {| pam_project_id := 100; pam_agent_id := agentId; pam_role := "role";
     pam_prompt := "prompt"; pam_thread_id := None;
     pam_can_message_ids := can |}.

Definition conversation (id sender receiver : Z) : Conversation :=
  {| c_id := id; c_project_id := 100; c_sender_id := sender;
     c_receiver_id := receiver; c_created_at := 0 |}.

Definition db0 (paused : bool) (budget : Z) : DB :=
  {| tokens := [ {| t_id := 7; t_user_id := 10; t_name := "T";
                    t_api_key := "stored"; t_active := true;
                    t_created_at := 0 |} ];
     agents := [ agent 0 None "System"; agent 1 (Some 10) "A";
                 agent 2 (Some 10) "B" ];
     projects := [ project100 paused budget ];
     project_tokens := [ {| pt_id := 1; pt_project_id := 100;
                            pt_token_id := Some 7 |} ];
     project_agent_members := [ member 1 "2"; member 2 "1"; member 0 "1,2" ];
     conversations := [ conversation 1 1 2; conversation 2 0 1;
                        conversation 3 0 2 ];
     messages := [];
     logs := [];
     agent_history_summaries := [];
     seqs := seqs0 |}.

Definition world0 (paused : bool) (budget : Z) : World :=
  {| db := db0 paused budget;
     journal := [];
     hub := webSocketService.initial (fun _ => webSocketService.OPEN);
     nudges := [];
     clock := 1000 |}.

(** Two inlined agents that may address each other. *)
Definition agent_input (name : string) (can : list Z) : projectCreation.AgentInput :=
  {| projectCreation.ai_name := name;
     projectCreation.ai_role := "writer";
     projectCreation.ai_description := "writes";
     projectCreation.ai_model := "gpt-4o";
     projectCreation.ai_prompt := None;
     projectCreation.ai_canMessageIds := Some can |}.

Definition two_agents : list projectCreation.AgentInput :=
  [agent_input "C" [1]; agent_input "D" [0]].

(** The demo account: user 2 owns token 2, the protected demo token, which
    demo project 1 is bound to, and token 9, which no project uses. *)
Definition demo_token (id : Z) : Token :=
  {| t_id := id; t_user_id := 2; t_name := "demo"; t_api_key := "stored";
     t_active := true; t_created_at := 0 |}.

Definition world_demo : World :=
  with_db (fun d =>
             set_project_tokens
               (fun l => l ++ [ {| pt_id := 2; pt_project_id := 100;
                                   pt_token_id := Some 2 |} ])
               (set_tokens (fun l => l ++ [demo_token 2; demo_token 9]) d))
    (world0 true 0).

Definition iv0 : list ascii := list_ascii_of_string "fedcba9876543210".

Definition pending_message (id created_at : Z) : Message :=
  {| m_id := id; m_conversation_id := 2; m_project_id := 100;
     m_sender_id := 0; m_receiver_id := 1; m_type := Some "user";
     m_status := Some "pending"; m_content := "hello";
     m_created_at := created_at |}.

(** Two pending messages stamped with the same [created_at], the one with
    the larger id first in the heap. *)
Definition world_ties : World :=
  with_db (set_messages (fun _ => [pending_message 2 500; pending_message 1 500]))
    (world0 false 5).

(** A message of 2001 characters. *)
Definition long_content : string := string_of_list_ascii (repeat "a"%char 2001).

Definition long_request : messageController.SendRequest :=
  {| messageController.sr_conversationId := JStr "2";
     messageController.sr_content := JStr long_content;
     messageController.sr_type := JUndefined;
     messageController.sr_userId := 10 |}.

(** The frame [{type: "join", projectId: 100}]. *)
Definition join100 : webSocketService.ClientFrame :=
  {| webSocketService.d_type := JStr "join";
     webSocketService.d_projectId := JNum 100 |}.

Definition update_event (projectId : jsval) (limit : Z) : Event :=
  {| ev_type := "project_updated";
     ev_payload := PProjectUpdated projectId (Some (Int limit)) None |}.

(** A secret of ten code units whose first is the unpaired surrogate
    U+D800, as the JSON text ["\ud800aaaaaaaaa"] gives it, and its UTF-8
    form, which has U+FFFD in that place. *)
Definition lone_surrogate_secret : string :=
  String "237" (String "160" (String "128" "aaaaaaaaa")).

Definition replaced_secret : string :=
  String "239" (String "191" (String "189" "aaaaaaaaa")).

(** The one-character name [é]: two bytes, one code unit. *)
Definition e_acute : string := String "195" (String "169" "").


End Scenario.

(* ================================================================= *)
(** * Part I, continued: the remaining functions of the services and
      their handlers *)
(* ================================================================= *)

(** ** SQL fragments shared by the read queries *)

Module Sql.

Section OrderBy.
Context {A : Type} (key : A -> Z).

(** [ORDER BY key DESC], as a stable insertion sort over the rows in heap
    order: one of the orders the database may return. *)
Fixpoint insert_desc (x : A) (l : list A) : list A :=
  match l with
  | [] => [x]
  | y :: rest =>
      if key y <=? key x then x :: y :: rest else y :: insert_desc x rest
  end.

Definition order_by_desc (l : list A) : list A := fold_right insert_desc [] l.

End OrderBy.

(** [l LEFT JOIN r ON on]: a row of [l] without a partner is kept once,
    with [NULL]s on the right. *)
Definition left_join {A B : Type} (on : A -> B -> bool) (l : list A) (r : list B)
    : list (A * option B) :=
  flat_map (fun a =>
              match List.filter (on a) r with
              | [] => [(a, None)]
              | matches => List.map (fun b => (a, Some b)) matches
              end) l.

(** [l JOIN r ON on] *)
Definition inner_join {A B : Type} (on : A -> B -> bool) (l : list A) (r : list B)
    : list (A * B) :=
  flat_map (fun a => List.map (fun b => (a, b)) (List.filter (on a) r)) l.

End Sql.

(** ** services/tokenService.js: listing, disabling and enabling;
       utils/projectLocks.js: [validateTokenIsActive] *)

Module tokenActivation.

(** A row of [getTokensByUser]: the key itself is not selected. *)
Record TokenListRow := {
  tl_id : Z;
  tl_name : string;
  tl_created_at : Z;
  tl_user_id : Z;
  tl_active : bool;
  tl_is_used : bool }.

(** [EXISTS (SELECT 1 FROM project_tokens pt WHERE pt.token_id = t.id)] *)
Definition is_used (t : Token) (d : DB) : bool :=
  existsb (fun pt => match pt_token_id pt with
                     | Some tid => tid =? t_id t
                     | None => false
                     end) (project_tokens d).

(** [SELECT t.id, t.name, t.created_at, t.user_id, t.active, EXISTS (...)
     AS is_used FROM tokens t WHERE t.user_id = $1
     ORDER BY t.created_at DESC] *)
Definition sql_tokens_by_user (userId : Z) (now : Z) : Stmt (list TokenListRow) :=
  fun d =>
    (Ok (Sql.order_by_desc tl_created_at
           (List.map (fun t => {| tl_id := t_id t; tl_name := t_name t;
                                  tl_created_at := t_created_at t;
                                  tl_user_id := t_user_id t;
                                  tl_active := t_active t;
                                  tl_is_used := is_used t d |})
              (List.filter (fun t => t_user_id t =? userId) (tokens d)))), d).

Definition getTokensByUser (userId : Z) : M (list TokenListRow) :=
  db_read (sql_tokens_by_user userId).

Definition set_active (b : bool) (t : Token) : Token :=
  {| t_id := t_id t; t_user_id := t_user_id t; t_name := t_name t;
     t_api_key := t_api_key t; t_active := b; t_created_at := t_created_at t |}.

(** [UPDATE tokens SET active = false WHERE id = $1 AND user_id = $2
     RETURNING id], and the same with [true]. *)
Definition sql_set_active (active : bool) (tokenId : jsval) (userId : Z) (now : Z)
    : Stmt (list Z) :=
  with_int tokenId (fun tid d =>
    let hit t := (t_id t =? tid) && (t_user_id t =? userId) in
    (Ok (List.map t_id (List.filter hit (tokens d))),
     set_tokens (List.map (fun t => if hit t then set_active active t else t)) d)).

Definition disableToken (tokenId : jsval) (userId : Z) : M bool :=
  do rows <- db_query (sql_set_active false tokenId userId);
  do result <- lift (oneOrNone rows);
  ret (match result with Some _ => true | None => false end).

Definition enableToken (tokenId : jsval) (userId : Z) : M bool :=
  do rows <- db_query (sql_set_active true tokenId userId);
  do result <- lift (oneOrNone rows);
  ret (match result with Some _ => true | None => false end).

(** [SELECT active FROM tokens WHERE id = $1 AND user_id = $2] *)
Definition sql_token_active (tokenId : jsval) (userId : Z) (now : Z)
    : Stmt (list bool) :=
  with_int tokenId (fun tid d =>
    (Ok (List.map t_active
           (List.filter (fun t => (t_id t =? tid) && (t_user_id t =? userId))
              (tokens d))), d)).

Definition isTokenActive (tokenId : jsval) (userId : Z) : M bool :=
  if negb (truthy tokenId) || negb (truthy (JNum userId)) then ret false
  else
    do rows <- db_read (sql_token_active tokenId userId);
    do token <- lift (oneOrNone rows);
    ret (match token with Some active => active | None => false end).

(** [validateTokenIsActive] of utils/projectLocks.js *)
Definition validateTokenIsActive (tokenId : jsval) (userId : Z) : M unit :=
  if negb (truthy tokenId)
  then throw (ThrowStatus 400 "A valid, active API token is required.")
  else
    do active <- isTokenActive tokenId userId;
    if negb active
    then throw (ThrowStatus 400 "A valid, active API token is required.")
    else ret tt.

End tokenActivation.

(** ** controllers/tokenController.js: [getTokens], [disableToken],
       [enableToken] *)

Module tokenActivationController.
Import tokenActivation.

(** [normalizeToken] on a row of the list, which carries [is_used];
    [createdAt] keeps the instant that the source renders with
    [toISOString]. *)
Record NormalizedTokenRow := {
  ntr_id : Z;
  ntr_name : string;
  ntr_createdAt : Z;
  ntr_userId : Z;
  ntr_active : bool;
  ntr_is_used : bool }.

Definition normalizeToken (token : TokenListRow) : NormalizedTokenRow :=
  {| ntr_id := tl_id token; ntr_name := tl_name token;
     ntr_createdAt := tl_created_at token; ntr_userId := tl_user_id token;
     ntr_active := tl_active token; ntr_is_used := tl_is_used token |}.

(** [router.get('/', authenticate, tokenController.getTokens)] *)
Definition getTokens (userId : Z) : M (Response (list NormalizedTokenRow)) :=
  tryCatch (do tokens <- getTokensByUser userId;
            ret (List.map normalizeToken tokens)) None.

(** The body of [tokenController.disableToken]; [id] is [req.params.id]. *)
Definition disableToken_body (env : Env) (id : jsval) (userId : Z) : M unit :=
  let tokenId := Number id in
  if projectLocks.isProtectedDemoToken env userId tokenId
  then throw (ThrowStatus 403 "token.protectedDemo")
  else
    do disabled <- tokenActivation.disableToken tokenId userId;
    if disabled then ret tt else throw (ThrowStr "token.notFoundOrUnauthorized").

(** [router.patch('/:id/disable', authenticate, tokenController.disableToken)] *)
Definition disableToken (env : Env) (id : jsval) (userId : Z)
    : M (Response unit) :=
  tryCatch (disableToken_body env id userId) (Some "token.disabledSuccess").

(** The body of [tokenController.enableToken]: the id goes to the service
    as the route gives it, and no lock is consulted. *)
Definition enableToken_body (id : jsval) (userId : Z) : M unit :=
  let tokenId := id in
  do enabled <- tokenActivation.enableToken tokenId userId;
  if enabled then ret tt else throw (ThrowStr "token.notFoundOrUnauthorized").

(** [router.patch('/:id/enable', authenticate, tokenController.enableToken)] *)
Definition enableToken (id : jsval) (userId : Z) : M (Response unit) :=
  tryCatch (enableToken_body id userId) (Some "token.enabledSuccess").

End tokenActivationController.

(** ** services/settingsService.js: [switchProjectToken] *)

Module tokenSwitch.

(** [SELECT id FROM projects WHERE id = $1 AND user_id = $2] *)
Definition sql_project_owned (projectId : jsval) (userId : Z) (now : Z)
    : Stmt (list Z) :=
  with_int projectId (fun pid d =>
    (Ok (List.map p_id
           (List.filter (fun p => (p_id p =? pid) && (p_user_id p =? userId))
              (projects d))), d)).

(** [SELECT id FROM tokens WHERE id = $1 AND user_id = $2] *)
Definition sql_token_owned (tokenId : jsval) (userId : Z) (now : Z)
    : Stmt (list Z) :=
  with_int tokenId (fun tid d =>
    (Ok (List.map t_id
           (List.filter (fun t => (t_id t =? tid) && (t_user_id t =? userId))
              (tokens d))), d)).

(** [DELETE FROM project_tokens WHERE project_id = $1] *)
Definition sql_delete_bindings (projectId : jsval) (now : Z) : Stmt unit :=
  with_int projectId (fun pid d =>
    (Ok tt,
     set_project_tokens
       (List.filter (fun r => negb (pt_project_id r =? pid))) d)).

(** [INSERT INTO project_tokens (project_id, token_id) VALUES ($1, $2)] *)
Definition sql_insert_binding (projectId tokenId : jsval) (now : Z) : Stmt unit :=
  with_int projectId (fun pid =>
  with_int tokenId (fun tid =>
    projectCreation.sql_insert_project_token pid tid now)).

Definition switchProjectToken (projectId tokenId : jsval) (userId : Z) : M bool :=
  tx (do rows <- t_query (sql_project_owned projectId userId);
      do project <- lift (oneOrNone rows);
      match project with
      | None => throw (ThrowStr "project.notFound")
      | Some _ =>
          do rows' <- t_query (sql_token_owned tokenId userId);
          do token <- lift (oneOrNone rows');
          match token with
          | None => throw (ThrowStr "token.notFound")
          | Some _ =>
              t_query (sql_delete_bindings projectId) ;;
              t_query (sql_insert_binding projectId tokenId) ;;
              ret true
          end
      end).

End tokenSwitch.

(** ** routes/settingsRoutes.js and
       controllers/projectSettingsController.js: [switchToken],
       [pauseProject] *)

Module settingsController.

(** [SwitchTokenSchema]: [tokenId] a number. *)
Definition SwitchTokenSchema (tokenId : jsval) : string + number :=
  match tokenId with
  | JNum n => inr (Int n)
  | JDec m e => inr (Dec m e)
  | _ => inl (invalid_type "number" tokenId)
  end.

Definition switchToken_body (env : Env) (id : jsval) (userId : Z)
    (tokenId : number) : M unit :=
  let projectId := Number id in
  if projectLocks.isProtectedProject env userId projectId
  then throw (ThrowStatus 403 "Tokens cannot be switched on demo projects.")
  else
    do updated <-
      tokenSwitch.switchProjectToken projectId (js_number tokenId) userId;
    if updated then ret tt else throw (ThrowStr "project.notFound").

(** [router.patch('/project/:id/token', authenticate,
     validateInput(SwitchTokenSchema), settingsController.switchToken)] *)
Definition switchToken (env : Env) (id : jsval) (userId : Z) (tokenId : jsval)
    : M (Response unit) :=
  match validateInput (SwitchTokenSchema tokenId) with
  | inl rejected => ret rejected
  | inr n => tryCatch (switchToken_body env id userId n) (Some "project.tokenSwitched")
  end.

(** [PauseSchema]: [paused] a boolean. *)
Definition PauseSchema (paused : jsval) : string + bool :=
  match paused with
  | JBool b => inr b
  | _ => inl (invalid_type "boolean" paused)
  end.

Definition pauseProject_body (env : Env) (id : jsval) (userId : Z) (paused : bool)
    : M unit :=
  let projectId := Number id in
  if projectLocks.isSnapshotProject env userId projectId
  then throw (ThrowStatus 403 "project.snapshotModified")
  else
    do updated <- projectService.updateProjectStatus env projectId userId (JBool paused);
    match updated with
    | Some _ => ret tt
    | None => throw (ThrowStr "project.notFound")
    end.

(** [router.patch('/project/:id/pause', authenticate,
     validateInput(PauseSchema), settingsController.pauseProject)] *)
Definition pauseProject (env : Env) (id : jsval) (userId : Z) (paused : jsval)
    : M (Response unit) :=
  match validateInput (PauseSchema paused) with
  | inl rejected => ret rejected
  | inr b =>
      tryCatch (pauseProject_body env id userId b)
        (Some (if b then "project.paused" else "project.resumed"))
  end.

End settingsController.

(** ** controllers/projectController.js: [deleteProject] and
       [updateProjectStatus] *)

Module projectController.

Definition deleteProject_body (env : Env) (id : jsval) (userId : Z) : M unit :=
  let projectId := Number id in
  if projectLocks.isProtectedProject env userId projectId
  then throw (ThrowStatus 403 "project.protectedDemo")
  else
    do deleted <- projectDeletion.deleteProject projectId userId;
    if deleted then ret tt else throw (ThrowStr "project.notFound").

(** [router.delete('/:id', authenticate, projectController.deleteProject)] *)
Definition deleteProject (env : Env) (id : jsval) (userId : Z) : M (Response unit) :=
  tryCatch (deleteProject_body env id userId) (Some "project.deleteSuccess").

(** [{ success: true, message: 'Project status updated successfully.' }] *)
Record StatusAnswer := {
  sa_success : bool;
  sa_message : string }.

(** The body is not validated on this route: [paused] is whatever the
    request carries.  The lock sees [Number(id)], the service the raw
    parameter. *)
Definition updateProjectStatus_body (env : Env) (id : jsval) (userId : Z)
    (paused : jsval) : M StatusAnswer :=
  let projectId := Number id in
  if negb (truthy paused) && projectLocks.isSnapshotProject env userId projectId
  then throw (ThrowStatus 403 "project.snapshotLocked")
  else
    do updatedProject <- projectService.updateProjectStatus env id userId paused;
    match updatedProject with
    | None => throw (ThrowStatus 404 "project.notFound")
    | Some _ =>
        ret {| sa_success := true;
               sa_message := "Project status updated successfully." |}
    end.

(** [router.post('/:id/status', authenticate,
     projectController.updateProjectStatus)] *)
Definition updateProjectStatus (env : Env) (id : jsval) (userId : Z)
    (paused : jsval) : M (Response StatusAnswer) :=
  tryCatch (updateProjectStatus_body env id userId paused) None.

End projectController.

(** ** services/projectService.js: what the worker and the watchdog read *)

Module projectQueries.

(** A row of [getProjectFlags]. *)
Record ProjectFlags := {
  f_paused : bool;
  f_message_limit : Z;
  f_is_token_active : bool }.

(** [pt.project_id = p.id] *)
Definition on_binding (p : Project) (pt : ProjectToken) : bool :=
  pt_project_id pt =? p_id p.

(** [t.id = pt.token_id], where [pt] may be the [NULL] row of a left join. *)
Definition on_token (pt : option ProjectToken) (t : Token) : bool :=
  match pt with
  | Some r =>
      match pt_token_id r with
      | Some tid => t_id t =? tid
      | None => false
      end
  | None => false
  end.

(** [SELECT p.paused, p.message_limit,
            COALESCE(t.active, false) AS is_token_active
     FROM projects p
     LEFT JOIN project_tokens pt ON pt.project_id = p.id
     LEFT JOIN tokens t ON t.id = pt.token_id
     WHERE p.id = $1] *)
Definition sql_project_flags (projectId : jsval) (now : Z)
    : Stmt (list ProjectFlags) :=
  with_int projectId (fun pid d =>
    let joined :=
      Sql.left_join (fun row t => on_token (snd row) t)
        (Sql.left_join on_binding (projects d) (project_tokens d))
        (tokens d) in
    (Ok (List.map
           (fun row =>
              {| f_paused := p_paused (fst (fst row));
                 f_message_limit := p_message_limit (fst (fst row));
                 f_is_token_active :=
                   match snd row with
                   | Some t => t_active t
                   | None => false
                   end |})
           (List.filter (fun row => p_id (fst (fst row)) =? pid) joined)), d)).

Definition getProjectFlags (projectId : jsval) : M (option ProjectFlags) :=
  do rows <- db_read (sql_project_flags projectId);
  lift (oneOrNone rows).

(** A row of [getActiveProjects]. *)
Record ActiveProject := {
  ap_id : Z;
  ap_last_activity_at : Z }.

(** [SELECT id, last_activity_at FROM projects WHERE paused = false] *)
Definition sql_active_projects (now : Z) : Stmt (list ActiveProject) :=
  fun d =>
    (Ok (List.map (fun p => {| ap_id := p_id p;
                               ap_last_activity_at := p_last_activity_at p |})
           (List.filter (fun p => negb (p_paused p)) (projects d))), d).

Definition getActiveProjects : M (list ActiveProject) :=
  db_read sql_active_projects.

End projectQueries.

(** ** services/messageService.js: reading messages and updating their
       status *)

Module messageQueries.
Import messageService.

(** [SELECT m.* FROM messages m
     JOIN conversations c ON m.conversation_id = c.id
     JOIN projects p ON c.project_id = p.id
     WHERE m.conversation_id = $1 AND p.user_id = $2
     ORDER BY m.created_at ASC] *)
Definition sql_messages_by_conversation (conversationId : jsval) (userId : Z)
    (now : Z) : Stmt (list Message) :=
  with_int conversationId (fun cid d =>
    let joined :=
      Sql.inner_join (fun mc p => p_id p =? c_project_id (snd mc))
        (Sql.inner_join (fun m c => c_id c =? m_conversation_id m)
           (messages d) (conversations d))
        (projects d) in
    (Ok (order_by_created_at
           (List.map (fun row => fst (fst row))
              (List.filter
                 (fun row => (m_conversation_id (fst (fst row)) =? cid)
                             && (p_user_id (snd row) =? userId))
                 joined))), d)).

Definition getMessagesByConversation (conversationId : jsval) (userId : Z)
    : M (list Message) :=
  db_read (sql_messages_by_conversation conversationId userId).

Definition set_status (status : option string) (m : Message) : Message :=
  {| m_id := m_id m; m_conversation_id := m_conversation_id m;
     m_project_id := m_project_id m; m_sender_id := m_sender_id m;
     m_receiver_id := m_receiver_id m; m_type := m_type m;
     m_status := status; m_content := m_content m;
     m_created_at := m_created_at m |}.

(** [RETURNING id, status, project_id, conversation_id] *)
Record UpdatedMessage := {
  um_id : Z;
  um_status : string;
  um_project_id : Z;
  um_conversation_id : Z }.

(** [UPDATE messages SET status = $1 WHERE id = $2
     RETURNING id, status, project_id, conversation_id] *)
Definition sql_update_status (status : string) (messageId : jsval) (now : Z)
    : Stmt (list UpdatedMessage) :=
  if has_nul status then fun d => (Throw (ThrowError "invalid message format"), d)
  else
    with_int messageId (fun mid d =>
      let hit m := m_id m =? mid in
      let stored := utf8 status in
      (Ok (List.map (fun m => {| um_id := m_id m; um_status := stored;
                                 um_project_id := m_project_id m;
                                 um_conversation_id := m_conversation_id m |})
             (List.filter hit (messages d))),
       set_messages
         (List.map (fun m => if hit m then set_status (Some stored) m else m)) d)).

(** [status] is the string the worker sends ([sent], [failed], ...); the
    handler passes it on as it comes. *)
Definition updateMessageStatus (messageId : jsval) (status : string)
    : M (option UpdatedMessage) :=
  do rows <- db_query (sql_update_status status messageId);
  do updatedMessage <- lift (oneOrNone rows);
  match updatedMessage with
  | Some um =>
      broadcastToProject (JNum (um_project_id um))
        {| ev_type := "message_updated";
           ev_payload :=
             PMessageUpdated (um_id um) (um_status um) (um_conversation_id um) |} ;;
      ret updatedMessage
  | None => ret updatedMessage
  end.

(** [status = 'sent' AND type IN ('user', 'assistant')
     AND ($2::integer IS NULL OR sender_id = $2 OR receiver_id = $2)] *)
Definition is_recent_of (pid : Z) (agent : option Z) (m : Message) : bool :=
  (m_project_id m =? pid) && opt_is "sent" (m_status m)
  && (opt_is "user" (m_type m) || opt_is "assistant" (m_type m))
  && match agent with
     | None => true
     | Some a => (m_sender_id m =? a) || (m_receiver_id m =? a)
     end.

(** [SELECT * FROM messages WHERE project_id = $1 AND ...
     ORDER BY created_at DESC LIMIT $3] *)
Definition sql_agent_recent (projectId agentId : jsval) (limit : Z) (now : Z)
    : Stmt (list Message) :=
  with_int projectId (fun pid d =>
    let answer agent :=
      if limit <? 0 then (Throw (ThrowError "LIMIT must not be negative"), d)
      else
        (Ok (firstn (Z.to_nat limit)
               (Sql.order_by_desc m_created_at
                  (List.filter (is_recent_of pid agent) (messages d)))), d) in
    match agentId with
    | JUndefined | JNull => answer None
    | v => with_int v (fun a _ => answer (Some a)) d
    end).

Definition getAgentRecentMessages (projectId agentId : jsval) (limit : Z)
    : M (list Message) :=
  db_read (sql_agent_recent projectId agentId limit).

(** [SELECT created_at as timestamp FROM messages
     WHERE project_id = $1 AND status = 'pending'
     ORDER BY created_at ASC LIMIT 1] *)
Definition sql_oldest_pending (projectId : jsval) (now : Z) : Stmt (list Z) :=
  with_int projectId (fun pid d =>
    (Ok (firstn 1
           (List.map m_created_at
              (order_by_created_at
                 (List.filter (is_pending_of pid) (messages d))))), d)).

Definition getOldestPendingMessageTimestamp (projectId : jsval) : M (option Z) :=
  do rows <- db_read (sql_oldest_pending projectId);
  lift (oneOrNone rows).

End messageQueries.

(** ** controllers/internalController.js: the handlers of the worker's and
       the watchdog's routes; [projectId] is [req.params.projectId] *)

Module internalController.

(** [`${v}`] *)
Definition template (v : jsval) : string :=
  match v with
  | JUndefined => "undefined"
  | JNull => "null"
  | JBool b => if b then "true" else "false"
  | JNum n => pretty n
  | JNaN => "NaN"
  | JStr s => s
  | JDec m e => pretty_dec m e
  end.

(** [flags || { paused: true, message_limit: 0 }]: the fallback has no
    [is_token_active] key. *)
Record FlagsAnswer := {
  fa_paused : bool;
  fa_message_limit : Z;
  fa_is_token_active : option bool }.

Definition getProjectFlags (projectId : jsval) : M (Response FlagsAnswer) :=
  tryCatch
    (do flags <- projectQueries.getProjectFlags projectId;
     ret (match flags with
          | Some f =>
              {| fa_paused := projectQueries.f_paused f;
                 fa_message_limit := projectQueries.f_message_limit f;
                 fa_is_token_active := Some (projectQueries.f_is_token_active f) |}
          | None =>
              {| fa_paused := true; fa_message_limit := 0;
                 fa_is_token_active := None |}
          end)) None.

Definition getActiveProjects : M (Response (list projectQueries.ActiveProject)) :=
  tryCatch projectQueries.getActiveProjects None.

Definition decrementMessageLimit (projectId : jsval)
    : M (Response settingsService.DecrementResult) :=
  tryCatch (settingsService.decrementMessageLimit projectId) None.

(** [{ success: true, message: `Project ${projectId} paused.` }] *)
Record PauseAnswer := {
  pa_success : bool;
  pa_message : string }.

(** [code] and [message] are read from the body as they come; a key that
    is absent or [null] reaches the database as [NULL]. *)
Definition pauseProject (projectId : jsval) (code message : jsval)
    : M (Response PauseAnswer) :=
  tryCatch
    (projectService.pauseProjectInternal projectId
       (messageService.sql_text code) (messageService.sql_text message) ;;
     ret {| pa_success := true;
            pa_message :=
              "Project " ++ template projectId ++ " paused." |}) None.

(** [messages.map(normalizeMessage)] *)
Definition getPendingWorkQueue (projectId : jsval)
    : M (Response (list NormalizedMessage)) :=
  tryCatch (do messages <- messageService.getPendingMessages projectId;
            ret (List.map normalizeMessage messages)) None.

(** [{ success: !!result }] *)
Definition updateMessageStatus (messageId : jsval) (status : string)
    : M (Response bool) :=
  tryCatch (do result <- messageQueries.updateMessageStatus messageId status;
            ret (match result with Some _ => true | None => false end)) None.

(** [data || {}]: [None] stands for the empty object. *)
Definition getOldestPendingTimestamp (projectId : jsval)
    : M (Response (option Z)) :=
  tryCatch (messageQueries.getOldestPendingMessageTimestamp projectId) None.

End internalController.

(** ** services/conversationService.js (reads), routes/conversationRoutes.js
       and controllers/conversationController.js *)

Module conversationQueries.

(** [SELECT c.id, c.project_id, c.sender_id, c.receiver_id, c.created_at
     FROM conversations c JOIN projects p ON c.project_id = p.id
     WHERE c.project_id = $1 AND p.user_id = $2
     ORDER BY c.created_at DESC] *)
Definition sql_conversations_by_project (projectId : jsval) (userId : Z)
    (now : Z) : Stmt (list Conversation) :=
  with_int projectId (fun pid d =>
    (Ok (Sql.order_by_desc c_created_at
           (List.map fst
              (List.filter
                 (fun row => (c_project_id (fst row) =? pid)
                             && (p_user_id (snd row) =? userId))
                 (Sql.inner_join (fun c p => p_id p =? c_project_id c)
                    (conversations d) (projects d))))), d)).

Definition getConversationsByProject (projectId : jsval) (userId : Z)
    : M (list Conversation) :=
  db_read (sql_conversations_by_project projectId userId).

(** [SELECT id, project_id, sender_id, receiver_id, created_at
     FROM conversations WHERE project_id = $1] *)
Definition sql_conversations_internal (projectId : jsval) (now : Z)
    : Stmt (list Conversation) :=
  with_int projectId (fun pid d =>
    (Ok (List.filter (fun c => c_project_id c =? pid) (conversations d)), d)).

Definition getConversationsByProjectInternal (projectId : jsval)
    : M (list Conversation) :=
  db_read (sql_conversations_internal projectId).

End conversationQueries.

Module conversationController.

(** [normalizeConversation]; [createdAt] keeps the instant that the source
    renders with [toISOString]. *)
Record NormalizedConversation := {
  nc_id : Z;
  nc_projectId : Z;
  nc_senderId : Z;
  nc_receiverId : Z;
  nc_createdAt : Z }.

Definition normalizeConversation (c : Conversation) : NormalizedConversation :=
  {| nc_id := c_id c; nc_projectId := c_project_id c;
     nc_senderId := c_sender_id c; nc_receiverId := c_receiver_id c;
     nc_createdAt := c_created_at c |}.

(** [router.get('/:projectId', authenticate,
     conversationController.getConversationsByProject)] *)
Definition getConversationsByProject (projectId : jsval) (userId : Z)
    : M (Response (list NormalizedConversation)) :=
  tryCatch
    (do conversations <-
       conversationQueries.getConversationsByProject projectId userId;
     ret (List.map normalizeConversation conversations)) None.




End conversationController.

(** ** services/logService.js (reading and clearing) and
       controllers/logController.js *)

Module logService.

(** [SELECT l.id, l.project_id, l.level, l.message, l.code, l.created_at
     FROM logs l JOIN projects p ON l.project_id = p.id
     WHERE l.project_id = $1 AND p.user_id = $2
     ORDER BY l.created_at DESC] *)
Definition sql_logs_by_project (projectId : jsval) (userId : Z) (now : Z)
    : Stmt (list Log) :=
  with_int projectId (fun pid d =>
    (Ok (Sql.order_by_desc l_created_at
           (List.map fst
              (List.filter
                 (fun row => (l_project_id (fst row) =? pid)
                             && (p_user_id (snd row) =? userId))
                 (Sql.inner_join (fun l p => p_id p =? l_project_id l)
                    (logs d) (projects d))))), d)).

Definition getLogsByProject (projectId : jsval) (userId : Z) : M (list Log) :=
  db_read (sql_logs_by_project projectId userId).

(** [DELETE FROM logs
     WHERE project_id = $1 AND project_id IN (
       SELECT id FROM projects WHERE id = $1 AND user_id = $2)] *)
Definition sql_delete_logs (projectId : jsval) (userId : Z) (now : Z)
    : Stmt unit :=
  with_int projectId (fun pid d =>
    let owned :=
      List.map p_id
        (List.filter (fun p => (p_id p =? pid) && (p_user_id p =? userId))
           (projects d)) in
    (Ok tt,
     set_logs
       (List.filter
          (fun l => negb ((l_project_id l =? pid)
                          && projectDeletion.mem (l_project_id l) owned))) d)).

Definition deleteLogsByProject (projectId : jsval) (userId : Z) : M unit :=
  db_query (sql_delete_logs projectId userId).

End logService.

Module logController.

(** [normalizeLog]; [createdAt] keeps the instant that the source renders
    with [toISOString], and [code || null] turns the empty string into
    null. *)
Record NormalizedLog := {
  nl_id : Z;
  nl_projectId : Z;
  nl_level : string;
  nl_code : option string;
  nl_message : string;
  nl_createdAt : Z }.

Definition normalizeLog (log : Log) : NormalizedLog :=
  {| nl_id := l_id log; nl_projectId := l_project_id log;
     nl_level := l_level log;
     nl_code := match l_code log with
                | Some c => if String.eqb c "" then None else Some c
                | None => None
                end;
     nl_message := l_message log; nl_createdAt := l_created_at log |}.

(** [router.get('/:projectId', authenticate, logController.getLogsByProject)] *)
Definition getLogsByProject (projectId : jsval) (userId : Z)
    : M (Response (list NormalizedLog)) :=
  tryCatch (do logs <- logService.getLogsByProject projectId userId;
            ret (List.map normalizeLog logs)) None.

(** The body of [deleteLogsByProject]; the answer is [{ success: true }]. *)
Definition deleteLogsByProject_body (env : Env) (id : jsval) (userId : Z)
    : M bool :=
  let projectId := Number id in
  if projectLocks.isSnapshotProject env userId projectId
  then throw (ThrowStatus 403 "Logs for snapshot projects cannot be cleared.")
  else
    logService.deleteLogsByProject projectId userId ;;
    ret true.

(** [router.delete('/:projectId', authenticate,
     logController.deleteLogsByProject)] *)
Definition deleteLogsByProject (env : Env) (id : jsval) (userId : Z)
    : M (Response bool) :=
  tryCatch (deleteLogsByProject_body env id userId) None.

End logController.

(** ** Further observations on a database state *)

Definition find_token (tid : Z) (d : DB) : option Token :=
  List.find (fun t => t_id t =? tid) (tokens d).

(** The tokens that belong to somebody other than [u]. *)
Definition tokens_of_others (u : Z) (d : DB) : list Token :=
  List.filter (fun t => negb (t_user_id t =? u)) (tokens d).

(** The projects that belong to somebody other than [u]. *)
Definition projects_of_others (u : Z) (d : DB) : list Project :=
  List.filter (fun p => negb (p_user_id p =? u)) (projects d).

Definition projects_of_others_are (u : Z) (others : list Project) (d : DB)
    : Prop :=
  projects_of_others u d = others.

(** The largest budget the demo user may set: [newLimit > demoProjectLimit]
    compares with 0 when the limit is not configured. *)
Definition demo_limit_cap (env : Env) : Z :=
  match demoProjectLimit env with
  | Some l => l
  | None => 0
  end.

(** No user has two projects with the same title. *)
Definition title_key (p : Project) : Z * string := (p_user_id p, p_title p).

Definition titles_unique (d : DB) : Prop :=
  NoDup (List.map title_key (projects d)).

(** User [u] owns a project, or a token, with the given id. *)
Definition owns_project (u pid : Z) (d : DB) : Prop :=
  exists p, In p (projects d) /\ p_id p = pid /\ p_user_id p = u.

Definition owns_token (u tid : Z) (d : DB) : Prop :=
  exists t, In t (tokens d) /\ t_id t = tid /\ t_user_id t = u.

(** The rows of [project_tokens] of one project. *)
Definition bindings_of (pid : Z) (d : DB) : list ProjectToken :=
  List.filter (fun r => pt_project_id r =? pid) (project_tokens d).

(** A project has at most one row in [project_tokens], and every row of
    [project_tokens] names a project that exists. *)
Definition bindings_unique (d : DB) : Prop :=
  forall pid, (List.length (bindings_of pid d) <= 1)%nat.

Definition bindings_refer (d : DB) : Prop :=
  forall r, In r (project_tokens d) -> project_exists (pt_project_id r) d = true.

Definition bindings_invariant (d : DB) : Prop :=
  bindings_unique d /\ bindings_refer d.

(** Whether the token that project [pid] is bound to is active: what
    [is_token_active] of the project's flags reports. *)
Definition bound_token_active (pid : Z) (d : DB) : bool :=
  match bindings_of pid d with
  | r :: _ =>
      match pt_token_id r with
      | Some tid =>
          match find_token tid d with
          | Some t => t_active t
          | None => false
          end
      | None => false
      end
  | [] => false
  end.

(** The primary keys of [messages] and [conversations]. *)
Definition messages_pk (d : DB) : Prop := NoDup (List.map m_id (messages d)).

Definition conversations_pk (d : DB) : Prop :=
  NoDup (List.map c_id (conversations d)).

(** The conversation [cid] exists and lies in a project of user [u]. *)
Definition conversation_owned (u cid : Z) (d : DB) : bool :=
  existsb (fun c => (c_id c =? cid)
                    && existsb (fun p => (p_id p =? c_project_id c)
                                         && (p_user_id p =? u)) (projects d))
    (conversations d).

(** The pending messages of a project, in heap order. *)
Definition pending_of (pid : Z) (d : DB) : list Message :=
  List.filter (messageService.is_pending_of pid) (messages d).

(** The agent filter of [getAgentRecentMessages]: [None] when the parameter
    is [NULL], so that every agent qualifies. *)
Definition agent_filter (agentId : jsval) : option (option Z) :=
  match agentId with
  | JUndefined | JNull => Some None
  | v => option_map Some (sql_int v)
  end.

(** ** Further scenarios *)

Module Cases.
Import Scenario.

(** The token of user 10 in the seed. *)
Definition token7 : Token :=
  {| t_id := 7; t_user_id := 10; t_name := "T"; t_api_key := "stored";
     t_active := true; t_created_at := 0 |}.

Definition message (id created_at : Z) (type status : string)
    (sender receiver : Z) : Message :=
  {| m_id := id; m_conversation_id := 2; m_project_id := 100;
     m_sender_id := sender; m_receiver_id := receiver; m_type := Some type;
     m_status := Some status; m_content := "text";
     m_created_at := created_at |}.

(** Project 100 after an exchange in conversation 2: the user's kickoff,
    the reply of agent 1, a system note, and a second message of the user
    that is still pending. *)
Definition world_chat : World :=
  with_db (set_messages (fun _ => [ message 1 100 "user" "sent" 0 1;
                                    message 2 200 "assistant" "sent" 1 0;
                                    message 3 300 "system" "sent" 0 1;
                                    message 4 400 "user" "pending" 0 1 ]))
    (world0 false 5).

End Cases.

(** Further scenarios: project 100 with two warn-level logs, and a second
    project of another user with a log of its own. *)
Module LogCases.
Import Scenario.

Definition log (id pid : Z) : Log :=
  {| l_id := id; l_project_id := pid; l_level := "warn"; l_message := "m";
     l_code := Some "STALLED"; l_created_at := id |}.

Definition project200 : Project :=
  {| p_id := 200; p_user_id := 11; p_title := "Q"; p_description := None;
     p_system_prompt := None; p_paused := true; p_message_limit := 0;
     p_created_at := 0; p_last_activity_at := 0 |}.

Definition world_logs : World :=
  with_db (fun d => set_logs (fun _ => [log 1 100; log 2 200; log 3 100])
                      (set_projects (fun l => l ++ [project200]) d))
    (world0 false 5).

End LogCases.

(** The seed with one open socket that has joined project 100 the way the
    workspace page does, with the numeric id. *)
Module HubCases.
Import Scenario webSocketService.

Definition world_joined : World :=
  with_hub (fun _ => on_message 1 10 (Some join100) (initial (fun _ => OPEN)))
    (world0 true 5).

End HubCases.

(** What happens at the hub, one event at a time: a call of
    [broadcastToProject] by a service, a frame from a socket, the [close]
    event of a socket (its state is CLOSED by then), a new connection. *)
Module HubTrace.
Import webSocketService.

Inductive Step :=
| Broadcast (projectId : jsval) (message : Event)
| Message (ws : nat) (userId : Z) (data : option ClientFrame)
| Close (ws : nat)
| Connection (ws : nat) (user : option Z).

Definition step (s : Step) (h : Hub) : Hub :=
  match s with
  | Broadcast projectId message => broadcastToProject projectId message h
  | Message ws userId data => on_message ws userId data h
  | Close ws => on_close ws (close ws h)
  | Connection ws user => snd (on_connection ws user h)
  end.

Definition run (steps : list Step) (h : Hub) : Hub :=
  fold_left (fun acc s => step s acc) steps h.

(** The events of one socket. *)
Definition of_socket (ws : nat) (s : Step) : bool :=
  match s with
  | Broadcast _ _ => false
  | Message w _ _ | Close w | Connection w _ => Nat.eqb w ws
  end.

(** The frames of the broadcasts made under an id that is [===] [N]. *)
Definition published (N : jsval) (steps : list Step) : list Frame :=
  flat_map (fun s => match s with
                     | Broadcast projectId message =>
                         if strict_eq N projectId
                         then [JSON_stringify message] else []
                     | _ => []
                     end) steps.

End HubTrace.

(** The seed with the demo account's snapshot project: project 1 of user 2,
    paused, which [env0] names as [SNAPSHOT_PROJECT_ID]. *)
Module SnapshotCases.
Import Scenario.

Definition snapshot_project : Project :=
  {| p_id := 1; p_user_id := 2; p_title := "Snapshot"; p_description := None;
     p_system_prompt := None; p_paused := true; p_message_limit := 0;
     p_created_at := 0; p_last_activity_at := 0 |}.

Definition world_snapshot : World :=
  with_db (set_projects (fun l => l ++ [snapshot_project])) (world0 true 0).

End SnapshotCases.


(* ================================================================= *)
(** * Part II: lemmas and theorems *)
(* ================================================================= *)

(** A closed decidable proposition, by evaluation. *)
Ltac by_decide :=
  match goal with
  | |- ?P => exact (bool_decide_unpack P I)
  end.

(** ** Rows and keys *)

Lemma filter_none {A : Type} (f : A -> bool) (l : list A) :
  (forall y, In y l -> f y = false) -> List.filter f l = [].
Proof.
  induction l as [|a l IH]; simpl; intros H; [easy|].
  rewrite (H a) by auto. apply IH. auto.
Qed.

Section Keys.
Context {A : Type} (key : A -> Z).

Lemma key_unique (l : list A) (x y : A) :
  NoDup (List.map key l) -> In x l -> In y l -> key x = key y -> x = y.
Proof.
  induction l as [|a l IH]; simpl; [tauto|].
  intros Hnd Hx Hy Hk. apply NoDup_cons in Hnd as [Hna Hnd].
  destruct Hx as [->|Hx], Hy as [->|Hy]; auto.
  - exfalso. apply Hna. rewrite Hk. apply list_elem_of_In, in_map, Hy.
  - exfalso. apply Hna. rewrite <- Hk. apply list_elem_of_In, in_map, Hx.
Qed.

Lemma filter_key_unique (l : list A) (x : A) :
  NoDup (List.map key l) -> In x l ->
  List.filter (fun y => key y =? key x) l = [x].
Proof.
  induction l as [|a l IH]; simpl; [tauto|].
  intros Hnd Hx. apply NoDup_cons in Hnd as [Hna Hnd].
  destruct Hx as [->|Hx].
  - rewrite Z.eqb_refl. f_equal.
    apply filter_none. intros y Hy. apply Z.eqb_neq. intros Hk.
    apply Hna. rewrite <- Hk. apply list_elem_of_In, in_map, Hy.
  - destruct (Z.eqb_spec (key a) (key x)) as [Hk|Hk]; [|auto].
    exfalso. apply Hna. rewrite Hk. apply list_elem_of_In, in_map, Hx.
Qed.

Lemma map_key_update (hit : A -> bool) (f : A -> A) (l : list A) :
  (forall x, key (f x) = key x) ->
  List.map key (List.map (fun x => if hit x then f x else x) l) = List.map key l.
Proof.
  intros Hf. rewrite List.map_map. apply List.map_ext.
  intros x. destruct (hit x); auto.
Qed.

End Keys.

(** ** The message budget: settingsService.js and pauseProjectInternal *)

Section Budget.
Import settingsService projectService.

Lemma project_exists_In (pid : Z) (d : DB) (p : Project) :
  In p (projects d) -> p_id p = pid -> project_exists pid d = true.
Proof.
  intros Hin Hid. unfold project_exists. apply existsb_exists.
  exists p. split; [done|]. by apply Z.eqb_eq.
Qed.

Lemma sql_decrement_limit_run (projectId : jsval) (pid now : Z) (d : DB)
    (p : Project) :
  sql_int projectId = Some pid ->
  projects_pk d -> In p (projects d) -> p_id p = pid ->
  in_int4 (p_message_limit p - 1) = true ->
  sql_decrement_limit projectId now d =
    (Ok [p_message_limit p - 1],
     set_projects
       (List.map (fun q => if p_id q =? pid
                           then set_message_limit (p_message_limit q - 1) q
                           else q)) d).
Proof.
  intros Hint Hpk Hin Hid Hrange.
  unfold sql_decrement_limit, with_int. rewrite Hint.
  assert (Hall : forallb (fun q => negb (p_id q =? pid)
                                   || in_int4 (p_message_limit q - 1))
                   (projects d) = true).
  { apply forallb_forall. intros q Hq.
    destruct (Z.eqb_spec (p_id q) pid) as [Hk|Hk]; [|done].
    assert (q = p) as -> by (eapply (key_unique p_id); eauto; congruence).
    by rewrite Hrange. }
  rewrite Hall. subst pid.
  by rewrite (filter_key_unique p_id _ p Hpk Hin).
Qed.

Lemma find_project_update (pid : Z) (f : Project -> Project) (d : DB)
    (p : Project) :
  (forall q, p_id (f q) = p_id q) ->
  projects_pk d -> In p (projects d) -> p_id p = pid ->
  find_project pid
    (set_projects (List.map (fun q => if p_id q =? pid then f q else q)) d)
  = Some (f p).
Proof.
  intros Hf Hpk Hin Hid. unfold find_project, projects_pk in *. simpl.
  induction (projects d) as [|a l IH]; simpl in *; [tauto|].
  apply NoDup_cons in Hpk as [Hna Hpk].
  destruct Hin as [->|Hin].
  - rewrite Hid, Z.eqb_refl, Hf, Hid, Z.eqb_refl. done.
  - destruct (Z.eqb_spec (p_id a) pid) as [Hk|Hk].
    + exfalso. apply Hna. rewrite Hk, <- Hid.
      apply list_elem_of_In, in_map, Hin.
    + apply Z.eqb_neq in Hk. rewrite Hk. auto.
Qed.

(** C2 (as the code has it): the decrement is one [UPDATE] statement that
    commits on its own and returns the new value; when the new value is at
    most 0 a second, separate transaction sets [paused] and appends a
    warn-level log whose code is [MESSAGE_LIMIT]. *)
Theorem decrementMessageLimit_spec (w : World) (projectId : jsval) (pid : Z)
    (p : Project) :
  sql_int projectId = Some pid ->
  projects_pk (db w) -> In p (projects (db w)) -> p_id p = pid ->
  in_int4 (p_message_limit p - 1) = true ->
  let n := p_message_limit p - 1 in
  let d1 :=
    set_projects
      (List.map (fun q => if p_id q =? pid
                          then set_message_limit (p_message_limit q - 1) q
                          else q)) (db w) in
  let d2 :=
    set_logs
      (fun ls => ls ++ [ {| l_id := logs_id_seq (seqs (db w));
                            l_project_id := pid;
                            l_level := "warn";
                            l_message := "Project paused automatically after reaching message limit.";
                            l_code := Some "MESSAGE_LIMIT";
                            l_created_at := clock w |} ])
      (set_seqs next_log_id
         (set_projects
            (List.map (fun q => if p_id q =? pid then set_paused true q else q))
            d1)) in
  let (r, w') := decrementMessageLimit projectId w in
  r = Ok {| success := true; newLimit := Some n |} /\
  db w' = (if n <=? 0 then d2 else d1) /\
  journal w' = journal w ++ (if n <=? 0 then [d1; d2] else [d1]) /\
  find_project pid d1 = Some (set_message_limit n p) /\
  find_project pid d2 = Some (set_paused true (set_message_limit n p)).
Proof.
  intros Hint Hpk Hin Hid Hrange n d1 d2.
  assert (Hd1 : find_project pid d1 = Some (set_message_limit n p)).
  { apply (find_project_update pid
             (fun q => set_message_limit (p_message_limit q - 1) q)); auto. }
  assert (Hd2 : find_project pid d2 = Some (set_paused true (set_message_limit n p))).
  { unfold d2, d1, find_project. simpl. rewrite List.map_map.
    etransitivity;
      [|apply (find_project_update pid
                 (fun q => set_paused true
                             (set_message_limit (p_message_limit q - 1) q))
                 (db w) p); auto].
    unfold find_project. simpl. f_equal. apply List.map_ext. intros q.
    destruct (Z.eqb_spec (p_id q) pid) as [Hk|Hk]; simpl.
    - by rewrite Hk, Z.eqb_refl.
    - apply Z.eqb_neq in Hk. by rewrite Hk. }
  unfold decrementMessageLimit, bind, db_query.
  rewrite (sql_decrement_limit_run projectId pid (clock w) (db w) p) by auto.
  fold n. simpl.
  destruct (Z.leb_spec n 0) as [Hn|Hn]; simpl.
  - unfold pauseProjectInternal, tx, bind, t_query, sql_pause,
      sql_insert_warn_log, with_int. simpl. rewrite Hint. simpl.
    assert (Hex : project_exists pid
                    (set_projects
                       (List.map (fun q => if p_id q =? pid
                                           then set_paused true q else q)) d1)
                  = true).
    { unfold project_exists. simpl. apply existsb_exists.
      exists (set_paused true (set_message_limit n p)). split.
      - unfold find_project in Hd2. simpl in Hd2.
        apply List.find_some in Hd2. tauto.
      - simpl. by apply Z.eqb_eq. }
    fold d1. rewrite Hex. simpl. fold d1. fold d2.
    repeat split; auto. by rewrite <- app_assoc.
  - repeat split; auto.
Qed.


Lemma map_update_none {A : Type} (hit : A -> bool) (f : A -> A) (l : list A) :
  List.filter hit l = [] -> List.map (fun x => if hit x then f x else x) l = l.
Proof.
  intros Hf. rewrite <- (List.map_id l) at 2. apply List.map_ext_in.
  intros x Hx. destruct (hit x) eqn:Hhit; [|done].
  assert (Hp : In x (List.filter hit l)) by (apply filter_In; auto).
  rewrite Hf in Hp. destruct Hp.
Qed.

(** What a decrement that returns leaves in [projects]. *)
Lemma decrementMessageLimit_returns (w w' : World) (projectId : jsval)
    (r : DecrementResult) :
  decrementMessageLimit projectId w = (Ok r, w') ->
  exists pid, sql_int projectId = Some pid /\
    ((success r = false /\ projects (db w') = projects (db w)) \/
     (exists x, List.filter (fun q => p_id q =? pid) (projects (db w)) = [x] /\
        success r = true /\ newLimit r = Some (p_message_limit x - 1) /\
        projects (db w') =
          List.map (fun q => if p_id q =? pid
                             then (if p_message_limit x - 1 <=? 0
                                   then set_paused true
                                          (set_message_limit (p_message_limit q - 1) q)
                                   else set_message_limit (p_message_limit q - 1) q)
                             else q) (projects (db w)))).
Proof.
  unfold decrementMessageLimit, bind, db_query, sql_decrement_limit, with_int.
  destruct (sql_int projectId) as [pid|] eqn:Hint; [|discriminate].
  destruct (forallb _ _) eqn:Hall; [|discriminate].
  destruct (List.filter (fun q => p_id q =? pid) (projects (db w)))
    as [|x [|y rest]] eqn:Hf; simpl; [| |discriminate].
  - intros [= <- <-]. exists pid. split; [done|]. left. split; [done|].
    simpl. by apply map_update_none.
  - exists pid. split; [done|]. right. exists x. split; [done|].
    destruct (p_message_limit x - 1 <=? 0) eqn:Hn; simpl in H.
    + unfold pauseProjectInternal, tx, bind, t_query, sql_pause,
        sql_insert_warn_log, with_int in H. simpl in H. rewrite Hint in H.
      simpl in H.
      destruct (project_exists pid _) eqn:Hex; simpl in H; [|discriminate].
      injection H as <- <-. simpl. repeat split.
      rewrite List.map_map. apply List.map_ext. intros q.
      destruct (p_id q =? pid) eqn:Hq; simpl; by rewrite Hq.
    + injection H as <- <-. simpl. repeat split.
Qed.



End Budget.

Section BudgetExamples.
Import settingsService projectService Scenario.



(** The same with [limit: 0.4]: the request passes the schema, the column
    is set to 0 and the event carries 0.4. *)
Lemma set_limit_two_fifths_is_stored_as_zero :
  let run := projectSettingsController.setMessageLimit env0 (JStr "100") 10
               (JDec 4 1) (world0 false 5) in
  fst run = Ok {| status := 200;
                  body := Envelope true "project.limitSet" (Some tt) |} /\
  find_project 100 (db (snd run)) = Some (project100 false 0) /\
  ~ budget_invariant (db (snd run)) /\
  webSocketService.pendingMessages (hub (snd run)) !! JNum 100
  = Some [ {| ev_type := "project_updated";
              ev_payload := PProjectUpdated (JNum 100) (Some (Dec 4 1)) None |} ].
Proof.
  repeat split.
  intros Hinv. specialize (Hinv (project100 false 0)).
  simpl in Hinv. discriminate Hinv; [auto|lia].
Qed.

Lemma decrementMessageLimit_spec_witness :
  fst (decrementMessageLimit (JStr "100") (world0 false 1))
  = Ok {| success := true; newLimit := Some 0 |}.
Proof.
  pose proof (decrementMessageLimit_spec (world0 false 1) (JStr "100") 100
                (project100 false 1) eq_refl) as H.
  simpl in H.
  refine (proj1 (H _ _ eq_refl eq_refl)).
  - repeat constructor. by intros ?%elem_of_nil.
  - by left.
Defined.

(** C2, counterexample: the decrement that exhausts the budget is committed
    on its own, with the project still running and no log written; the
    pause and the log follow in a second transaction, and the code of the
    log is [MESSAGE_LIMIT]. *)
Lemma decrement_commits_before_pause :
  let w' := snd (decrementMessageLimit (JStr "100") (world0 false 1)) in
  exists d1,
    journal w' = [d1; db w'] /\
    find_project 100 d1 = Some (project100 false 0) /\ logs d1 = [] /\
    find_project 100 (db w') = Some (project100 true 0) /\
    List.map l_code (logs (db w')) = [Some "MESSAGE_LIMIT"] /\
    List.map l_code (logs (db w')) <> [Some "message-limit"].
Proof.
  eexists. repeat split. discriminate.
Qed.

End BudgetExamples.

(** ** Sending a message: messageController.js and messageService.js *)

Section SendMessage.
Import messageService messageController projectService.



Lemma sql_int_num (n : Z) : in_int4 n = true -> sql_int (JNum n) = Some n.
Proof. intros H. simpl. by rewrite H. Qed.


End SendMessage.

Section SendMessageExamples.
Import messageService messageController Scenario.



End SendMessageExamples.

(** ** The pending queue: messageService.getPendingMessages *)

Section PendingQueue.
Import messageService.

Lemma insert_by_created_at_perm (m : Message) (l : list Message) :
  Permutation (insert_by_created_at m l) (m :: l).
Proof.
  induction l as [|x l IH]; simpl; [done|].
  destruct (m_created_at m <=? m_created_at x); [done|].
  rewrite IH. apply perm_swap.
Qed.

Lemma order_by_created_at_perm (l : list Message) :
  Permutation (order_by_created_at l) l.
Proof.
  induction l as [|x l IH]; simpl; [done|].
  rewrite insert_by_created_at_perm. by constructor.
Qed.

Lemma insert_by_created_at_sorted (m : Message) (l : list Message) :
  StronglySorted created_at_le l ->
  StronglySorted created_at_le (insert_by_created_at m l).
Proof.
  induction 1 as [|x l Hs IH Hx]; simpl.
  - repeat constructor.
  - destruct (Z.leb_spec (m_created_at m) (m_created_at x)) as [Hle|Hlt].
    + constructor; [by constructor|]. constructor; [done|].
      eapply Forall_impl; [exact Hx|]. unfold created_at_le. simpl. intros; lia.
    + constructor; [done|].
      rewrite insert_by_created_at_perm.
      constructor; [unfold created_at_le; lia|done].
Qed.

Lemma order_by_created_at_sorted (l : list Message) :
  StronglySorted created_at_le (order_by_created_at l).
Proof.
  induction l as [|x l IH]; simpl; [constructor|].
  by apply insert_by_created_at_sorted.
Qed.

(** C5 (as the code has it): the pending queue of a project is exactly its
    pending messages, in ascending [created_at]. *)
Theorem getPendingMessages_spec (w : World) (projectId : jsval) (pid : Z) :
  sql_int projectId = Some pid ->
  exists rows,
    getPendingMessages projectId w = (Ok rows, w) /\
    pending_queue_answer (db w) pid rows /\
    (forall m, In m rows <->
               In m (messages (db w)) /\ m_project_id m = pid
               /\ m_status m = Some "pending").
Proof.
  intros Hint. unfold getPendingMessages, db_read, sql_pending, with_int.
  rewrite Hint. simpl. eexists. split; [reflexivity|]. split.
  - split; [apply order_by_created_at_perm|apply order_by_created_at_sorted].
  - intros m. rewrite (Permutation_in' (eq_refl m) (order_by_created_at_perm _)).
    rewrite filter_In. unfold is_pending_of, opt_is.
    rewrite andb_true_iff, Z.eqb_eq.
    destruct (m_status m) as [st|]; [|intuition discriminate].
    destruct (String.eqb_spec st "pending"); intuition congruence.
Qed.

End PendingQueue.

Section PendingQueueExamples.
Import messageService Scenario.

Lemma getPendingMessages_spec_witness :
  exists rows, fst (getPendingMessages (JStr "100") world_ties) = Ok rows
               /\ List.length rows = 2%nat.
Proof.
  destruct (getPendingMessages_spec world_ties (JStr "100") 100 eq_refl)
    as (rows & Hrun & [Hperm _] & _).
  exists rows. split; [by rewrite Hrun|].
  by rewrite (Permutation_length Hperm).
Defined.

(** C5, counterexample: two pending messages with the same [created_at]
    come back with the larger id first; the answer is one the query admits,
    and it is not in the order ([created_at], [id]). *)
Lemma pending_queue_ties_not_by_id :
  let rows := [pending_message 2 500; pending_message 1 500] in
  fst (getPendingMessages (JStr "100") world_ties) = Ok rows /\
  pending_queue_answer (db world_ties) 100 rows /\
  ~ StronglySorted created_at_then_id rows.
Proof.
  split; [reflexivity|]. split; [split|].
  - reflexivity.
  - repeat constructor; unfold created_at_le; simpl; lia.
  - intros Hs. apply StronglySorted_inv in Hs as [_ Hall].
    apply Forall_inv in Hall. unfold created_at_then_id in Hall. simpl in Hall.
    lia.
Qed.

End PendingQueueExamples.

(** ** Inversion of a computation that returns *)

Lemma bind_Ok {A B : Type} (c : M A) (k : A -> M B) (w w' : World) (b : B) :
  bind c k w = (Ok b, w') ->
  exists a w1, c w = (Ok a, w1) /\ k a w1 = (Ok b, w').
Proof.
  unfold bind. destruct (c w) as [[a|e] w1]; [|discriminate].
  intros H. by exists a, w1.
Qed.

Lemma t_query_Ok {A : Type} (q : Z -> Stmt A) (w w' : World) (a : A) :
  t_query q w = (Ok a, w') ->
  exists d', q (clock w) (db w) = (Ok a, d') /\ w' = with_db (fun _ => d') w.
Proof.
  unfold t_query. destruct (q (clock w) (db w)) as [r d'].
  intros [= -> <-]. by exists d'.
Qed.

Lemma tx_Ok {A : Type} (body : M A) (w w' : World) (a : A) :
  tx body w = (Ok a, w') -> exists w1, body w = (Ok a, w1) /\ w' = commit w1.
Proof.
  unfold tx. destruct (body w) as [[x|e] w1]; [|discriminate].
  intros [= -> <-]. by exists w1.
Qed.

Lemma lift_Ok {A : Type} (r : Result A) (w w' : World) (a : A) :
  lift r w = (Ok a, w') -> r = Ok a /\ w' = w.
Proof. unfold lift. by intros [= -> <-]. Qed.

Lemma ret_Ok {A : Type} (x a : A) (w w' : World) :
  ret x w = (Ok a, w') -> x = a /\ w' = w.
Proof. unfold ret. by intros [= -> <-]. Qed.

Lemma one_Ok {A : Type} (rows : list A) (a : A) : one rows = Ok a -> rows = [a].
Proof. destruct rows as [|x [|y l]]; simpl; congruence. Qed.

(** ** Properties kept by every step of a computation *)

Section Preservation.
Context (P : DB -> Prop).

Lemma preserves_ret {A : Type} (a : A) : preserves P (ret a).
Proof. by intros w. Qed.

Lemma preserves_throw {A : Type} (e : Thrown) : preserves P (throw (A := A) e).
Proof. by intros w. Qed.

Lemma preserves_lift {A : Type} (r : Result A) : preserves P (lift r).
Proof. by intros w. Qed.

Lemma preserves_bind {A B : Type} (c : M A) (k : A -> M B) :
  preserves P c -> (forall a, preserves P (k a)) -> preserves P (bind c k).
Proof.
  intros Hc Hk w Hw. unfold bind. specialize (Hc w Hw).
  destruct (c w) as [[a|e] w1]; simpl in *; [by apply Hk|done].
Qed.

Lemma preserves_t_query {A : Type} (q : Z -> Stmt A) :
  (forall now, stmt_preserves P (q now)) -> preserves P (t_query q).
Proof.
  intros Hq w Hw. unfold t_query. specialize (Hq (clock w) (db w) Hw).
  by destruct (q (clock w) (db w)).
Qed.

Lemma preserves_db_query {A : Type} (q : Z -> Stmt A) :
  seqs_irrelevant P ->
  (forall now, stmt_preserves P (q now)) -> preserves P (db_query q).
Proof.
  intros Hs Hq w Hw. unfold db_query. specialize (Hq (clock w) (db w) Hw).
  destruct (q (clock w) (db w)) as [[a|e] d']; simpl in *; [done|].
  by apply Hs.
Qed.

Lemma preserves_db_read {A : Type} (q : Z -> Stmt A) : preserves P (db_read q).
Proof. by intros w. Qed.

Lemma preserves_tx {A : Type} (body : M A) :
  seqs_irrelevant P -> preserves P body -> preserves P (tx body).
Proof.
  intros Hs Hb w Hw. unfold tx. specialize (Hb w Hw).
  destruct (body w) as [[a|e] w']; simpl in *; [done|]. by apply Hs.
Qed.

Lemma preserves_broadcast (projectId : jsval) (message : Event) :
  preserves P (broadcastToProject projectId message).
Proof. by intros w. Qed.

Lemma preserves_nudge (env : Env) (projectId : jsval) :
  preserves P (brainService.nudgeBrain env projectId).
Proof.
  intros w Hw. unfold brainService.nudgeBrain.
  destruct (brainApiUrl env) as [url|]; [|done]. by destruct (String.eqb url "").
Qed.

Lemma stmt_preserves_with_int {A : Type} (v : jsval) (k : Z -> Stmt A) :
  (forall n, stmt_preserves P (k n)) -> stmt_preserves P (with_int v k).
Proof.
  intros Hk d Hd. unfold with_int. destruct (sql_int v); [by apply Hk|done].
Qed.

End Preservation.

(** ** Conversation uniqueness: conversationService.js and project creation *)

Section Conversations.
Import conversationService projectCreation.

Lemma conversations_invariant_seqs : seqs_irrelevant conversations_invariant.
Proof. by intros f d. Qed.

Lemma conversations_unique_snoc (cs : list Conversation) (row : Conversation) :
  conversations_unique cs ->
  c_sender_id row <= c_receiver_id row ->
  existsb (fun c => (c_project_id c =? c_project_id row)
                    && (c_sender_id c =? c_sender_id row)
                    && (c_receiver_id c =? c_receiver_id row)) cs = false ->
  conversations_unique (cs ++ [row]).
Proof.
  intros [Hord Hcount] Hrow Hfresh. split.
  - intros c [Hc| [<-|[]]]%in_app_or; auto.
  - intros pid x y. rewrite List.filter_app, List.length_app. simpl.
    destruct (conversation_matches pid x y row) eqn:Hm; simpl;
      [|specialize (Hcount pid x y); lia].
    rewrite (filter_none (conversation_matches pid x y) cs); [simpl; lia|].
    intros c Hc. destruct (conversation_matches pid x y c) eqn:Hmc; [|done].
    exfalso. specialize (Hord c Hc).
    assert (Hex : existsb (fun c0 => (c_project_id c0 =? c_project_id row)
                                     && (c_sender_id c0 =? c_sender_id row)
                                     && (c_receiver_id c0 =? c_receiver_id row))
                    cs = true).
    { apply existsb_exists. exists c. split; [done|].
      unfold conversation_matches in Hm, Hmc.
      rewrite !andb_true_iff, !orb_true_iff, !andb_true_iff, !Z.eqb_eq in *.
      lia. }
    congruence.
Qed.

Lemma sql_insert_conversation_preserves (projectId senderId receiverId : jsval)
    (flag : bool) (now : Z) :
  stmt_preserves conversations_invariant
    (sql_insert_conversation projectId senderId receiverId flag now).
Proof.
  unfold sql_insert_conversation.
  apply stmt_preserves_with_int. intros pid.
  apply stmt_preserves_with_int. intros sid.
  apply stmt_preserves_with_int. intros rid d Hd.
  destruct (Z.leb_spec sid rid) as [Hle|Hlt]; simpl; [|done].
  destruct (existsb _ (conversations d)) eqn:Hex; [by destruct flag|].
  destruct (project_exists pid d); simpl; [|done].
  unfold conversations_invariant. simpl.
  by apply conversations_unique_snoc.
Qed.

Lemma stmt_same_conversations {A : Type} (q : Stmt A) :
  (forall d, conversations (snd (q d)) = conversations d) ->
  stmt_preserves conversations_invariant q.
Proof. intros Hq d Hd. unfold conversations_invariant. by rewrite Hq. Qed.

Lemma sql_insert_member_conversations (pid : Z) (member : MemberEntry)
    (ids : list Z) (now : Z) (d : DB) :
  conversations (snd (sql_insert_member pid member ids now d)) = conversations d.
Proof.
  unfold sql_insert_member. destruct (existsb _ _); [done|].
  by destruct (_ && _).
Qed.

Lemma sql_insert_project_token_conversations (pid tid now : Z) (d : DB) :
  conversations (snd (sql_insert_project_token pid tid now d)) = conversations d.
Proof. unfold sql_insert_project_token. by destruct (_ && _). Qed.

Lemma createConversation_preserves (userId : Z) (projectId receiverId : jsval) :
  preserves conversations_invariant (createConversation userId projectId receiverId).
Proof.
  unfold createConversation. apply preserves_bind.
  - apply preserves_db_query; [apply conversations_invariant_seqs|].
    intros now. apply sql_insert_conversation_preserves.
  - intros rows. apply preserves_lift.
Qed.

Lemma insert_agents_preserves (userId : Z) (agents : list AgentInput) :
  preserves conversations_invariant (insert_agents userId agents).
Proof.
  induction agents as [|a rest IH]; simpl; [apply preserves_ret|].
  apply preserves_bind.
  { apply preserves_t_query. intros now. by apply stmt_same_conversations. }
  intros rows. apply preserves_bind; [apply preserves_lift|]. intros id.
  apply preserves_bind; [exact IH|]. intros tail. apply preserves_ret.
Qed.

Lemma link_pairs_preserves (pid agentId : Z) (others : list Z)
    (createdPairs : gset (Z * Z)) :
  preserves conversations_invariant (link_pairs pid agentId others createdPairs).
Proof.
  revert createdPairs. induction others as [|o rest IH]; intros cp; simpl;
    [apply preserves_ret|].
  destruct (decide _); [apply IH|].
  apply preserves_bind; [|intros _; apply IH].
  apply preserves_t_query. intros now. apply sql_insert_conversation_preserves.
Qed.

Lemma insert_members_preserves (pid : Z) (ids : list Z)
    (memberList : list MemberEntry) (createdPairs : gset (Z * Z)) :
  preserves conversations_invariant (insert_members pid ids memberList createdPairs).
Proof.
  revert createdPairs. induction memberList as [|m rest IH]; intros cp; simpl;
    [apply preserves_ret|].
  apply preserves_bind.
  { apply preserves_t_query. intros now. apply stmt_same_conversations.
    intros d. apply sql_insert_member_conversations. }
  intros _. apply preserves_bind; [apply link_pairs_preserves|].
  intros cp'. apply IH.
Qed.

Lemma createProjectWithMembers_preserves (userId : Z) (title : string)
    (description systemPrompt : option string) (agents : list AgentInput)
    (tokenId : option Z) :
  preserves conversations_invariant
    (createProjectWithMembers userId title description systemPrompt agents tokenId).
Proof.
  unfold createProjectWithMembers.
  apply preserves_tx; [apply conversations_invariant_seqs|].
  apply preserves_bind.
  { apply preserves_t_query. intros now. by apply stmt_same_conversations. }
  intros rows. apply preserves_bind; [apply preserves_lift|].
  intros [existing|]; [apply preserves_throw|].
  apply preserves_bind.
  { apply preserves_t_query. intros now. by apply stmt_same_conversations. }
  intros inserted. apply preserves_bind; [apply preserves_lift|].
  intros project. apply preserves_bind.
  { destruct tokenId as [tid|]; [|apply preserves_ret].
    destruct (tid =? 0); [apply preserves_ret|].
    apply preserves_t_query. intros now. apply stmt_same_conversations.
    intros d. apply sql_insert_project_token_conversations. }
  intros _. apply preserves_bind; [apply insert_agents_preserves|].
  intros created. apply preserves_bind; [apply insert_members_preserves|].
  intros _. apply preserves_ret.
Qed.

(** *** One conversation per allowed pair at project creation *)

Lemma sql_insert_conversation_Ok (pid sid rid now : Z) (d d' : DB)
    (rows : list Conversation) :
  sql_insert_conversation (JNum pid) (JNum sid) (JNum rid) true now d
  = (Ok rows, d') ->
  incl (conversations d) (conversations d') /\ conversation_row pid sid rid d'.
Proof.
  unfold sql_insert_conversation, with_int. simpl.
  destruct (in_int4 pid); [|discriminate].
  destruct (in_int4 sid); [|discriminate].
  destruct (in_int4 rid); [|discriminate].
  destruct (sid <=? rid); simpl; [|discriminate].
  destruct (existsb _ (conversations d)) eqn:Hex.
  - intros [= <- <-]. simpl. split; [apply incl_refl|].
    apply existsb_exists in Hex as (c & Hc & Hm).
    rewrite !andb_true_iff, !Z.eqb_eq in Hm. exists c. tauto.
  - destruct (project_exists pid d); simpl; [|discriminate].
    intros [= <- <-]. simpl. split; [apply incl_appl, incl_refl|].
    eexists. split; [apply in_or_app; right; by left|]. done.
Qed.

Lemma conversation_row_incl (pid s r : Z) (d d' : DB) :
  incl (conversations d) (conversations d') ->
  conversation_row pid s r d -> conversation_row pid s r d'.
Proof. intros Hi (c & Hc & H). exists c. split; [by apply Hi|done]. Qed.

Lemma link_pairs_Ok (pid a : Z) (others : list Z) :
  forall (cp cp' : gset (Z * Z)) (w w' : World),
    link_pairs pid a others cp w = (Ok cp', w') ->
    (forall s r, (s, r) ∈ cp -> conversation_row pid s r (db w)) ->
    incl (conversations (db w)) (conversations (db w')) /\
    (forall s r, (s, r) ∈ cp' -> conversation_row pid s r (db w')) /\
    cp ⊆ cp' /\
    (forall o, In o others -> (Z.min a o, Z.max a o) ∈ cp').
Proof.
  induction others as [|o rest IH]; intros cp cp' w w'; simpl.
  - intros [<- <-]%ret_Ok Hcp. split; [apply incl_refl|]. split; [done|].
    split; [done|]. by intros o [].
  - destruct (decide ((Z.min a o, Z.max a o) ∈ cp)) as [Hin|Hnin].
    + intros Hrun Hcp.
      destruct (IH _ _ _ _ Hrun Hcp) as (Hi & Hcp' & Hsub & Hall).
      split; [done|]. split; [done|]. split; [done|].
      intros o' [<-|Ho']; [by apply Hsub|by apply Hall].
    + intros (u & w1 & Hq & Hk)%bind_Ok Hcp.
      apply t_query_Ok in Hq as (d' & Hq & ->).
      apply sql_insert_conversation_Ok in Hq as [Hi Hrow].
      assert (Hcp1 : forall s r,
                 (s, r) ∈ ({[(Z.min a o, Z.max a o)]} ∪ cp : gset (Z * Z)) ->
                 conversation_row pid s r d').
      { intros s r [Heq%elem_of_singleton|Hin]%elem_of_union.
        - by injection Heq as -> ->.
        - eapply conversation_row_incl; [exact Hi|by apply Hcp]. }
      destruct (IH _ _ _ _ Hk Hcp1) as (Hi' & Hcp' & Hsub & Hall).
      split; [eapply incl_tran; [exact Hi|exact Hi']|]. split; [done|].
      split; [intros x Hx; apply Hsub, elem_of_union; by right|].
      intros o' [<-|Ho']; [|by apply Hall].
      apply Hsub, elem_of_union. left. by apply elem_of_singleton.
Qed.

Lemma insert_members_Ok (pid : Z) (ids : list Z) (memberList : list MemberEntry) :
  forall (cp : gset (Z * Z)) (w w' : World) (u : unit),
    insert_members pid ids memberList cp w = (Ok u, w') ->
    (forall s r, (s, r) ∈ cp -> conversation_row pid s r (db w)) ->
    incl (conversations (db w)) (conversations (db w')) /\
    (forall member o, In member memberList ->
       In o (canMessageIds_of ids member) ->
       conversation_row pid (Z.min (me_agentId member) o)
         (Z.max (me_agentId member) o) (db w')).
Proof.
  induction memberList as [|m rest IH]; intros cp w w' u; simpl.
  - intros [_ <-]%ret_Ok _. split; [apply incl_refl|]. by intros ? ? [].
  - intros (u1 & w1 & Hq & Hk)%bind_Ok Hcp.
    apply t_query_Ok in Hq as (d1 & Hq & ->).
    apply bind_Ok in Hk as (cp1 & w2 & Hlink & Hrest).
    assert (Hconv : conversations d1 = conversations (db w)).
    { pose proof (sql_insert_member_conversations pid m (canMessageIds_of ids m)
                    (clock w) (db w)) as H. by rewrite Hq in H. }
    assert (Hcp1 : forall s r, (s, r) ∈ cp ->
                     conversation_row pid s r (db (with_db (fun _ => d1) w))).
    { intros s r Hin. destruct (Hcp s r Hin) as (c & Hc & H).
      exists c. simpl. by rewrite Hconv. }
    destruct (link_pairs_Ok _ _ _ _ _ _ _ Hlink Hcp1) as (Hi & Hcp2 & _ & Hall).
    destruct (IH _ _ _ _ Hrest Hcp2) as (Hi' & Hrows).
    split.
    + simpl in Hi. rewrite Hconv in Hi. eapply incl_tran; [exact Hi|exact Hi'].
    + intros member o [<-|Hm] Ho; [|by eapply Hrows].
      eapply conversation_row_incl; [exact Hi'|]. apply Hcp2. by apply Hall.
Qed.

Lemma insert_agents_Ok (userId : Z) (agents : list AgentInput) :
  forall (w w' : World) (ids : list Z) (ml : list MemberEntry),
    insert_agents userId agents w = (Ok (ids, ml), w') ->
    conversations (db w') = conversations (db w) /\
    projects (db w') = projects (db w) /\
    (forall i a, nth_error agents i = Some a ->
       nth_error ids i = Some (agents_id_seq (seqs (db w)) + Z.of_nat i) /\
       exists e, nth_error ml i = Some e
                 /\ me_agentId e = agents_id_seq (seqs (db w)) + Z.of_nat i
                 /\ me_canMessageIndexes e = default [] (ai_canMessageIds a)).
Proof.
  induction agents as [|a rest IH]; intros w w' ids ml; simpl.
  - intros [_ <-]%ret_Ok. split; [done|]. split; [done|]. by intros [|i].
  - intros (rows & w1 & Hq & Hk)%bind_Ok.
    apply t_query_Ok in Hq as (d1 & Hq & ->).
    unfold sql_insert_agent in Hq. injection Hq as <- <-.
    apply bind_Ok in Hk as (id & w2 & [Hid ->]%lift_Ok & Hk).
    simpl in Hid. injection Hid as <-.
    apply bind_Ok in Hk as ([ids' ml'] & w3 & Hrec & Hret).
    apply ret_Ok in Hret as [[= <- <-] <-]. simpl.
    destruct (IH _ _ _ _ Hrec) as (Hc & Hp & Hnth). simpl in Hc, Hp, Hnth.
    split; [done|]. split; [done|].
    intros [|i] a'; simpl.
    + intros [= <-]. rewrite Z.add_0_r. split; [done|]. by eexists.
    + intros Hi. destruct (Hnth i a' Hi) as (Hids & e & He & Hid & Hcan).
      split; [rewrite Hids; f_equal; lia|].
      exists e. split; [done|]. split; [lia|done].
Qed.

Lemma conversation_row_count (pid x y : Z) (d : DB) :
  conversations_invariant d ->
  conversation_row pid (Z.min x y) (Z.max x y) d ->
  conversation_count pid x y d = 1%nat.
Proof.
  intros [_ Hcount] (c & Hc & Hp & Hs & Hr). unfold conversation_count.
  specialize (Hcount pid x y).
  assert (Hin : In c (List.filter (conversation_matches pid x y) (conversations d))).
  { apply filter_In. split; [done|]. unfold conversation_matches.
    rewrite !andb_true_iff, !orb_true_iff, !andb_true_iff, !Z.eqb_eq. lia. }
  destruct (List.filter _ _) as [|c0 [|c1 l]]; simpl in *; [done|done|lia].
Qed.

Lemma canMessageIds_of_In (ids : list Z) (member : MemberEntry) (k : nat)
    (o : Z) :
  In (Z.of_nat k) (me_canMessageIndexes member) ->
  nth_error ids k = Some o -> o <> me_agentId member ->
  In o (canMessageIds_of ids member).
Proof.
  intros Hk Hnth Hne. unfold canMessageIds_of. apply filter_In. split.
  - apply list_elem_of_In, list_elem_of_omap. exists (Z.of_nat k).
    split; [by apply list_elem_of_In|].
    unfold index_to_id. destruct (Z.ltb_spec (Z.of_nat k) 0); [lia|].
    by rewrite Nat2Z.id.
  - by apply negb_true_iff, Z.eqb_neq.
Qed.

Lemma createProjectWithMembers_pairs (userId : Z) (title : string)
    (description systemPrompt : option string) (agents : list AgentInput)
    (tokenId : option Z) (w w' : World) (project : Project) :
  createProjectWithMembers userId title description systemPrompt agents tokenId w
  = (Ok project, w') ->
  let base := agents_id_seq (seqs (db w)) in
  (forall i k a,
     nth_error agents i = Some a ->
     In (Z.of_nat k) (default [] (ai_canMessageIds a)) ->
     (k < List.length agents)%nat -> k <> i ->
     conversation_row (p_id project)
       (Z.min (base + Z.of_nat i) (base + Z.of_nat k))
       (Z.max (base + Z.of_nat i) (base + Z.of_nat k)) (db w')) /\
  (forall i,
     (i < List.length agents)%nat -> base + Z.of_nat i <> 0 ->
     conversation_row (p_id project)
       (Z.min 0 (base + Z.of_nat i)) (Z.max 0 (base + Z.of_nat i)) (db w')).
Proof.
  intros Hrun base. unfold createProjectWithMembers in Hrun.
  apply tx_Ok in Hrun as (w1 & Hrun & ->).
  apply bind_Ok in Hrun as (rows & w2 & Hq & Hrun).
  apply t_query_Ok in Hq as (d2 & Hq & ->).
  unfold sql_existing_title in Hq. injection Hq as <- <-.
  apply bind_Ok in Hrun as ([existing|] & w3 & [_ ->]%lift_Ok & Hrun);
    [discriminate|].
  apply bind_Ok in Hrun as (inserted & w4 & Hq & Hrun).
  apply t_query_Ok in Hq as (d4 & Hq & ->).
  unfold sql_insert_project in Hq. injection Hq as <- <-.
  apply bind_Ok in Hrun as (proj & w5 & [Hone ->]%lift_Ok & Hrun).
  simpl in Hone. injection Hone as <-.
  apply bind_Ok in Hrun as (u & w6 & Htok & Hrun).
  assert (Hbase : agents_id_seq (seqs (db w6)) = base).
  { destruct tokenId as [tid|]; [|by apply ret_Ok in Htok as [_ ->]].
    destruct (tid =? 0); [by apply ret_Ok in Htok as [_ ->]|].
    apply t_query_Ok in Htok as (d6 & Hq & ->).
    unfold sql_insert_project_token in Hq.
    destruct (_ && _); [|discriminate]. by injection Hq as _ <-. }
  apply bind_Ok in Hrun as ([ids ml] & w7 & Hagents & Hrun).
  apply bind_Ok in Hrun as (u' & w8 & Hmembers & [<- <-]%ret_Ok).
  destruct (insert_agents_Ok _ _ _ _ _ _ Hagents) as (_ & _ & Hnth).
  rewrite Hbase in Hnth. simpl in Hmembers.
  destruct (insert_members_Ok _ _ _ _ _ _ _ Hmembers) as (_ & Hrows);
    [by intros s r ?%elem_of_empty|].
  simpl. split.
  - intros i k a Ha Hk Hlt Hne.
    destruct (Hnth i a Ha) as (_ & e & He & Hid & Hcan).
    destruct (nth_error agents k) as [ak|] eqn:Hak;
      [|apply nth_error_None in Hak; lia].
    destruct (Hnth k ak Hak) as (Hidk & _).
    rewrite <- Hid. apply Hrows.
    + apply in_or_app. left. eapply nth_error_In, He.
    + apply (canMessageIds_of_In ids e k); [by rewrite Hcan|done|lia].
  - intros i Hlt Hne.
    destruct (nth_error agents i) as [a|] eqn:Ha;
      [|apply nth_error_None in Ha; lia].
    destruct (Hnth i a Ha) as (Hidi & _).
    apply (Hrows (system_member (List.length ids))).
    + apply in_or_app. right. by left.
    + apply (canMessageIds_of_In ids _ i); [|done|done]. simpl.
      apply in_map, in_seq. split; [lia|]. simpl.
      apply nth_error_Some. by rewrite Hidi.
Qed.

(** C4: every conversation row is ordered and a project has at most one
    row per unordered pair, and this is kept by project creation and by the
    user's conversation creation, whatever they return; a project creation
    that returns leaves exactly one conversation for every pair it links,
    that is for each agent and every agent on its list, and for the System
    agent and each agent. *)
Theorem conversation_uniqueness_kept (w : World) :
  conversations_invariant (db w) ->
  (forall userId title description systemPrompt agents tokenId,
     let run := createProjectWithMembers userId title description systemPrompt
                  agents tokenId w in
     let base := agents_id_seq (seqs (db w)) in
     conversations_invariant (db (snd run)) /\
     (forall project, fst run = Ok project ->
        (forall i k a,
           nth_error agents i = Some a ->
           In (Z.of_nat k) (default [] (ai_canMessageIds a)) ->
           (k < List.length agents)%nat -> k <> i ->
           conversation_count (p_id project) (base + Z.of_nat i)
             (base + Z.of_nat k) (db (snd run)) = 1%nat) /\
        (forall i,
           (i < List.length agents)%nat -> base + Z.of_nat i <> 0 ->
           conversation_count (p_id project) 0 (base + Z.of_nat i)
             (db (snd run)) = 1%nat))) /\
  (forall userId projectId receiverId,
     conversations_invariant
       (db (snd (createConversation userId projectId receiverId w)))).
Proof.
  intros Hinv. split.
  - intros userId title description systemPrompt agents tokenId run base.
    assert (Hinv' : conversations_invariant (db (snd run)))
      by (by apply createProjectWithMembers_preserves).
    split; [done|]. intros project Hok.
    assert (Hrun : createProjectWithMembers userId title description
                     systemPrompt agents tokenId w = (Ok project, snd run)).
    { unfold run in *. by destruct (createProjectWithMembers _ _ _ _ _ _ w)
        as [r w']; simpl in *; subst. }
    destruct (createProjectWithMembers_pairs _ _ _ _ _ _ _ _ _ Hrun)
      as [Hagents Hsystem].
    split.
    + intros i k a Ha Hk Hlt Hne. apply conversation_row_count; [done|].
      by eapply Hagents.
    + intros i Hlt Hne. apply conversation_row_count; [done|].
      by apply Hsystem.
  - intros userId projectId receiverId. by apply createConversation_preserves.
Qed.

End Conversations.

Section ConversationExamples.
Import conversationService projectCreation Scenario.

Lemma conversations_unique_nil : conversations_unique [].
Proof. split; [by intros c []|]. intros pid x y. simpl. lia. Qed.

Lemma scenario_conversations_invariant (paused : bool) (budget : Z) :
  conversations_invariant (db (world0 paused budget)).
Proof.
  unfold conversations_invariant. simpl.
  apply (conversations_unique_snoc [_; _]); [|simpl; lia|reflexivity].
  apply (conversations_unique_snoc [_]); [|simpl; lia|reflexivity].
  apply (conversations_unique_snoc []); [|simpl; lia|reflexivity].
  apply conversations_unique_nil.
Qed.

Lemma conversation_uniqueness_kept_witness :
  conversation_count 101 3 4
    (db (snd (createProjectWithMembers 10 "Q" None None two_agents None
                (world0 true 0)))) = 1%nat.
Proof.
  destruct (conversation_uniqueness_kept (world0 true 0)
              (scenario_conversations_invariant true 0)) as [Hcreate _].
  destruct (Hcreate 10 "Q" None None two_agents None) as [_ Hpairs].
  destruct (Hpairs _ eq_refl) as [Hagents _].
  refine (Hagents 0%nat 1%nat (agent_input "C" [1]) eq_refl _ _ _).
  - by left.
  - simpl. lia.
  - lia.
Defined.

End ConversationExamples.

(** ** Deleting a token: tokenController.js and tokenService.js *)

Section DeleteToken.
Import tokenService tokenController projectLocks.

Lemma filter_all {A : Type} (f : A -> bool) (l : list A) :
  (forall x, In x l -> f x = true) -> List.filter f l = l.
Proof.
  induction l as [|a l IH]; simpl; intros H; [done|].
  rewrite (H a) by auto. f_equal. apply IH. auto.
Qed.

Lemma token_usage_rows (tid : Z) (d : DB) :
  let rows := List.filter (fun r => match pt_token_id r with
                                    | Some t => t =? tid
                                    | None => false
                                    end) (project_tokens d) in
  (token_in_use tid d -> exists r rest, rows = r :: rest) /\
  (~ token_in_use tid d -> rows = []).
Proof.
  intros rows. split.
  - intros (r & Hr & Ht).
    assert (Hin : In r rows).
    { apply filter_In. split; [done|]. rewrite Ht. apply Z.eqb_refl. }
    destruct rows as [|r0 rest]; [destruct Hin|by eauto].
  - intros Hno. apply filter_none. intros r Hr.
    destruct (pt_token_id r) as [t|] eqn:Ht; [|done].
    apply Z.eqb_neq. intros ->. apply Hno. by exists r.
Qed.

(** What the body of the handler does, before [tryCatch] turns it into an
    answer.  The protected demo token of the demo user is refused first,
    with the error thrown as [{status: 403}], whether or not a project
    uses it; otherwise a token that a project references is refused as in
    use; otherwise the owner's token is deleted and nothing else changes.
    No refusal deletes a row. *)
Lemma deleteToken_outcomes (env : Env) (w : World) (id : jsval) (userId tid : Z) :
  Number id = JNum tid -> in_int4 tid = true -> tokens_pk (db w) ->
  let run := deleteToken_body env id userId w in
  (isProtectedDemoToken env userId (JNum tid) = true ->
     run = (Throw (ThrowStatus 403 "token.protectedDemo"), w)) /\
  (isProtectedDemoToken env userId (JNum tid) = false ->
     token_in_use tid (db w) ->
     run = (Throw (ThrowError "Cannot delete: token is used in a project."), w)) /\
  (isProtectedDemoToken env userId (JNum tid) = false ->
     ~ token_in_use tid (db w) ->
     forall t, In t (tokens (db w)) -> t_id t = tid -> t_user_id t = userId ->
     fst run = Ok tt /\
     tokens (db (snd run))
     = List.filter (fun t' => negb (t_id t' =? tid)) (tokens (db w)) /\
     ~ In t (tokens (db (snd run))) /\
     project_tokens (db (snd run)) = project_tokens (db w)) /\
  (forall e, fst run = Throw e -> tokens (db (snd run)) = tokens (db w)).
Proof.
  intros Hnum Hrange Hpk run. unfold run, deleteToken_body. rewrite Hnum.
  destruct (isProtectedDemoToken env userId (JNum tid)) eqn:Hprot.
  { repeat split; try discriminate; done. }
  unfold tokenService.deleteToken, bind, db_read, sql_token_usage, with_int.
  rewrite (sql_int_num _ Hrange). simpl.
  destruct (token_usage_rows tid (db w)) as [Hused Hfree].
  set (usage := List.filter _ (project_tokens (db w))) in *.
  split; [discriminate|]. split; [|split].
  - intros _ Huse. destruct (Hused Huse) as (r & rest & ->). reflexivity.
  - intros _ Hno t Ht Hid Huser. rewrite (Hfree Hno). simpl.
    unfold db_query, sql_delete_token, with_int.
    rewrite (sql_int_num _ Hrange). simpl.
    assert (Hrows : List.filter (fun t' => (t_id t' =? tid) && (t_user_id t' =? userId))
                      (tokens (db w)) = [t]).
    { rewrite <- (filter_key_unique t_id (tokens (db w)) t Hpk Ht).
      apply List.filter_ext_in. intros t' Ht'. rewrite Hid.
      destruct (Z.eqb_spec (t_id t') tid) as [Hk|Hk]; [|done]. simpl.
      assert (t' = t) as -> by (eapply (key_unique t_id); eauto; congruence).
      by apply Z.eqb_eq. }
    rewrite Hrows. simpl. split; [done|].
    assert (Htok : List.filter (fun t' => negb ((t_id t' =? tid) && (t_user_id t' =? userId)))
                     (tokens (db w))
                   = List.filter (fun t' => negb (t_id t' =? tid)) (tokens (db w))).
    { apply List.filter_ext_in. intros t' Ht'.
      destruct (Z.eqb_spec (t_id t') tid) as [Hk|Hk]; [|done]. simpl.
      assert (t' = t) as -> by (eapply (key_unique t_id); eauto; congruence).
      by rewrite (proj2 (Z.eqb_eq _ _) Huser). }
    split; [exact Htok|]. split.
    + rewrite Htok. intros [_ Hf]%filter_In.
      by rewrite (proj2 (Z.eqb_eq _ _) Hid) in Hf.
    + rewrite <- (List.map_id (project_tokens (db w))) at 2.
      apply List.map_ext_in. intros r Hr.
      destruct (pt_token_id r) as [t'|] eqn:Hpt; [|done].
      unfold projectDeletion.mem. simpl. rewrite orb_false_r.
      destruct (Z.eqb_spec t' (t_id t)) as [Heq|_]; [|reflexivity].
      exfalso. apply Hno. exists r. split; [done|]. congruence.
  - intros e. destruct usage as [|r [|r' rest]]; simpl; [|done|done].
    unfold db_query, sql_delete_token, with_int.
    rewrite (sql_int_num _ Hrange). simpl.
    set (hit := fun t' => (t_id t' =? tid) && (t_user_id t' =? userId)).
    destruct (List.filter hit (tokens (db w))) as [|t [|t' rest]] eqn:Hrows;
      simpl; [|discriminate|].
    + intros _. apply filter_all. intros t Ht. change (negb (hit t) = true).
      destruct (hit t) eqn:Hhit; [|done].
      assert (Hin : In t (List.filter hit (tokens (db w))))
        by (apply filter_In; auto).
      rewrite Hrows in Hin. destruct Hin.
    + intros _. exfalso.
      assert (Ht : In t (List.filter hit (tokens (db w))))
        by (rewrite Hrows; by left).
      assert (Ht' : In t' (List.filter hit (tokens (db w))))
        by (rewrite Hrows; right; by left).
      apply filter_In in Ht as [Ht Hh], Ht' as [Ht' Hh'].
      unfold hit in Hh, Hh'. rewrite andb_true_iff, !Z.eqb_eq in Hh, Hh'.
      assert (t = t') as <- by (eapply (key_unique t_id); eauto; lia).
      assert (Hnd : NoDup (List.filter hit (tokens (db w)))).
      { apply NoDup_ListNoDup, List.NoDup_filter, NoDup_ListNoDup.
        eapply NoDup_fmap_1. exact Hpk. }
      rewrite Hrows in Hnd. apply NoDup_cons in Hnd as [Hnd _].
      apply Hnd. by left.
Qed.

End DeleteToken.

Section DeleteTokenExamples.
Import tokenService tokenController Scenario.

Lemma deleteToken_outcomes_witness :
  fst (deleteToken_body env0 (JStr "9") 2 world_demo) = Ok tt.
Proof.
  destruct (deleteToken_outcomes env0 world_demo (JStr "9") 2 9 eq_refl eq_refl)
    as (_ & _ & Hdel & _); [by_decide|].
  refine (proj1 (Hdel eq_refl _ (demo_token 9) _ eq_refl eq_refl)).
  - intros (r & [<-|[<-|[]]] & Hr); discriminate Hr.
  - simpl. tauto.
Defined.

(** The demo user's protected token is bound to a project, and the refusal
    is the protected-demo one, not the in-use one. *)
Lemma protected_token_in_use_is_refused_as_protected :
  token_in_use 2 (db world_demo) /\
  deleteToken_body env0 (JStr "2") 2 world_demo
  = (Throw (ThrowStatus 403 "token.protectedDemo"), world_demo) /\
  fst (deleteToken_body env0 (JStr "2") 2 world_demo)
  <> Throw (ThrowError "Cannot delete: token is used in a project.").
Proof.
  split; [|split; [reflexivity|discriminate]].
  eexists. split; [right; by left|reflexivity].
Qed.

(** C6, the defect: [DELETE /api/tokens/2] by the demo user for the
    protected demo token.  The handler throws [{status: 403}], and
    [tryCatch] answers with [resError]'s default status, 500: the request
    is refused and nothing is deleted, but the answer is not "forbidden".
    The refusal of a token that is in use is answered 500 the same way. *)
Lemma protected_token_delete_answers_500 :
  deleteToken_body env0 (JStr "2") 2 world_demo
  = (Throw (ThrowStatus 403 "token.protectedDemo"), world_demo) /\
  deleteToken env0 (JStr "2") 2 world_demo
  = (Ok {| status := 500;
           body := Envelope false "This demo token cannot be deleted or disabled."
                     None |}, world_demo) /\
  (forall r, fst (deleteToken env0 (JStr "2") 2 world_demo) = Ok r ->
             status r <> 403) /\
  fst (deleteToken env0 (JStr "9") 2
         (with_db (set_project_tokens
                     (fun l => l ++ [ {| pt_id := 3; pt_project_id := 100;
                                         pt_token_id := Some 9 |} ]))
            world_demo))
  = Ok {| status := 500;
          body := Envelope false "Cannot delete: token is used in a project."
                    None |}.
Proof.
  split; [reflexivity|]. split; [reflexivity|]. split; [|reflexivity].
  by intros r [= <-].
Qed.

End DeleteTokenExamples.

(** ** Text: UTF-8 and NUL *)

Section Text.

Lemma utf8_step (c1 : ascii) (t : string) :
  utf8 (String c1 t)
  = match t with
    | String c2 (String c3 rest) =>
        if is_surrogate c1 c2
        then String "239" (String "191" (String "189" (utf8 rest)))
        else String c1 (utf8 t)
    | _ => String c1 (utf8 t)
    end.
Proof. by destruct t as [|c2 [|c3 rest]]. Qed.

Lemma utf8_cons_other (c : ascii) (t : string) :
  nat_of_ascii c <> 237%nat -> utf8 (String c t) = String c (utf8 t).
Proof.
  intros Hc. rewrite utf8_step. destruct t as [|c2 [|c3 rest]]; try done.
  unfold is_surrogate. by rewrite (proj2 (Nat.eqb_neq _ _) Hc).
Qed.

Lemma utf8_length_le (n : nat) :
  forall s, (String.length s <= n)%nat -> String.length (utf8 s) = String.length s.
Proof.
  induction n as [|n IH]; intros s Hs.
  - by destruct s; [|simpl in Hs; lia].
  - destruct s as [|c1 t]; [done|]. rewrite utf8_step.
    assert (Ht : String.length (utf8 t) = String.length t)
      by (apply IH; simpl in Hs; lia).
    destruct t as [|c2 [|c3 rest]]; try (cbn [String.length]; by rewrite Ht).
    destruct (is_surrogate c1 c2); [|cbn [String.length]; by rewrite Ht].
    cbn [String.length]. rewrite (IH rest); [done|]. simpl in Hs. lia.
Qed.

Lemma utf8_length (s : string) : String.length (utf8 s) = String.length s.
Proof. by apply (utf8_length_le (String.length s)). Qed.

Lemma has_nul_cons (c : ascii) (s : string) :
  has_nul (String c s) = Ascii.eqb zero c || has_nul s.
Proof. reflexivity. Qed.

End Text.

(** ** Token secrets: utils/auth/encrypt.js *)

Section Hex.
Import encrypt.

Lemma xorb_cancel (x y : bool) : xorb (xorb x y) y = x.
Proof. by destruct x, y. Qed.

Lemma xor_ascii_cancel (a b : ascii) : xor_ascii (xor_ascii a b) b = a.
Proof. destruct a, b. simpl. by rewrite !xorb_cancel. Qed.

Lemma xor_block_length (a b : list ascii) :
  List.length a = List.length b -> List.length (xor_block a b) = List.length a.
Proof.
  revert b. induction a as [|x a IH]; intros [|y b]; simpl; try done.
  intros [= H]. by rewrite IH.
Qed.

Lemma xor_block_cancel (a b : list ascii) :
  List.length a = List.length b -> xor_block (xor_block a b) b = a.
Proof.
  revert b. induction a as [|x a IH]; intros [|y b]; simpl; try done.
  intros [= H]. by rewrite xor_ascii_cancel, IH.
Qed.

Lemma from_hex_pair (c : ascii) (rest : string) :
  from_hex (String (hex_digit (nat_of_ascii c / 16))
              (String (hex_digit (nat_of_ascii c mod 16)) rest))
  = c :: from_hex rest.
Proof. destruct c as [[] [] [] [] [] [] [] []]; reflexivity. Qed.

Lemma from_hex_to_hex (l : list ascii) : from_hex (to_hex l) = l.
Proof.
  induction l as [|c l IH]; [done|].
  change (to_hex (c :: l))
    with (String (hex_digit (nat_of_ascii c / 16))
            (String (hex_digit (nat_of_ascii c mod 16)) (to_hex l))).
  by rewrite from_hex_pair, IH.
Qed.

Lemma hex_digits_not_colon (c : ascii) :
  Ascii.eqb (hex_digit (nat_of_ascii c / 16)) ":" = false
  /\ Ascii.eqb (hex_digit (nat_of_ascii c mod 16)) ":" = false.
Proof. destruct c as [[] [] [] [] [] [] [] []]; by split. Qed.

Lemma hex_digits_plain (c : ascii) :
  let h1 := hex_digit (nat_of_ascii c / 16) in
  let h2 := hex_digit (nat_of_ascii c mod 16) in
  (nat_of_ascii h1 <> 237%nat /\ Ascii.eqb zero h1 = false) /\
  (nat_of_ascii h2 <> 237%nat /\ Ascii.eqb zero h2 = false).
Proof. destruct c as [[] [] [] [] [] [] [] []]; by vm_compute. Qed.

(** A stored key, [hex:hex], is sent to the database as it is. *)
Lemma hex_text_plain (l : list ascii) (s : string) :
  utf8 s = s -> has_nul s = false ->
  utf8 (to_hex l ++ s) = (to_hex l ++ s)%string /\ has_nul (to_hex l ++ s) = false.
Proof.
  intros Hs Hn. induction l as [|c l [IH1 IH2]]; [done|].
  destruct (hex_digits_plain c) as [[Ha Ha'] [Hb Hb']].
  change (to_hex (c :: l) ++ s)%string
    with (String (hex_digit (nat_of_ascii c / 16))
            (String (hex_digit (nat_of_ascii c mod 16)) (to_hex l ++ s))).
  rewrite !utf8_cons_other, IH1 by done. split; [done|].
  by rewrite !has_nul_cons, Ha', Hb', IH2.
Qed.

Lemma hex_plain (l : list ascii) :
  utf8 (to_hex l) = to_hex l /\ has_nul (to_hex l) = false.
Proof.
  induction l as [|c l [IH1 IH2]]; [done|].
  destruct (hex_digits_plain c) as [[Ha Ha'] [Hb Hb']].
  change (to_hex (c :: l))
    with (String (hex_digit (nat_of_ascii c / 16))
            (String (hex_digit (nat_of_ascii c mod 16)) (to_hex l))).
  rewrite !utf8_cons_other, IH1 by done. split; [done|].
  by rewrite !has_nul_cons, Ha', Hb', IH2.
Qed.

Lemma split_on_cons_other (c : ascii) (s : string) (h : string)
    (t : list string) :
  Ascii.eqb c ":" = false -> split_on ":" s = h :: t ->
  split_on ":" (String c s) = String c h :: t.
Proof. intros Hc Hs. simpl. by rewrite Hc, Hs. Qed.

Lemma split_on_hex_colon (l : list ascii) (s : string) (h : string)
    (t : list string) :
  split_on ":" s = h :: t ->
  split_on ":" (to_hex l ++ String ":" s) = to_hex l :: h :: t.
Proof.
  intros Hs. induction l as [|c l IH].
  - simpl. by rewrite Hs.
  - destruct (hex_digits_not_colon c) as [H1 H2].
    change (to_hex (c :: l) ++ String ":" s)%string
      with (String (hex_digit (nat_of_ascii c / 16))
              (String (hex_digit (nat_of_ascii c mod 16))
                 (to_hex l ++ String ":" s))).
    change (to_hex (c :: l))
      with (String (hex_digit (nat_of_ascii c / 16))
              (String (hex_digit (nat_of_ascii c mod 16)) (to_hex l))).
    erewrite split_on_cons_other; [reflexivity|exact H1|].
    erewrite split_on_cons_other; [reflexivity|exact H2|exact IH].
Qed.

Lemma split_on_hex (l : list ascii) : split_on ":" (to_hex l) = [to_hex l].
Proof.
  induction l as [|c l IH]; [done|].
  destruct (hex_digits_not_colon c) as [H1 H2].
  change (to_hex (c :: l))
    with (String (hex_digit (nat_of_ascii c / 16))
            (String (hex_digit (nat_of_ascii c mod 16)) (to_hex l))).
  erewrite split_on_cons_other; [reflexivity|exact H1|].
  erewrite split_on_cons_other; [reflexivity|exact H2|exact IH].
Qed.

Lemma to_hex_length (l : list ascii) :
  String.length (to_hex l) = (2 * List.length l)%nat.
Proof.
  induction l as [|c l IH]; [done|].
  change (to_hex (c :: l))
    with (String (hex_digit (nat_of_ascii c / 16))
            (String (hex_digit (nat_of_ascii c mod 16)) (to_hex l))).
  simpl String.length. rewrite IH. simpl List.length. lia.
Qed.

Lemma string_app_length (a b : string) :
  String.length (a ++ b) = (String.length a + String.length b)%nat.
Proof. induction a as [|c a IH]; simpl; [done|]. by rewrite IH. Qed.

Lemma list_ascii_length (s : string) :
  List.length (list_ascii_of_string s) = String.length s.
Proof. induction s as [|c s IH]; simpl; [done|]. by rewrite IH. Qed.

End Hex.

Section Padding.
Import encrypt.

Lemma pad_amount (len : nat) :
  let n := (16 - len mod 16)%nat in
  (1 <= n <= 16)%nat /\ (len + n = 16 * S (len / 16))%nat.
Proof.
  intros n. unfold n.
  pose proof (Nat.mod_upper_bound len 16). pose proof (Nat.div_mod_eq len 16).
  lia.
Qed.

Lemma pkcs7_pad_length (l : list ascii) :
  List.length (pkcs7_pad l) = (16 * S (List.length l / 16))%nat.
Proof.
  unfold pkcs7_pad. rewrite List.length_app, repeat_length.
  apply pad_amount.
Qed.

Lemma last_app_repeat {A : Type} (l : list A) (x d : A) (n : nat) :
  (1 <= n)%nat -> List.last (l ++ repeat x n) d = x.
Proof.
  intros Hn. destruct n as [|n]; [lia|]. clear Hn.
  replace (repeat x (S n)) with (repeat x n ++ [x]).
  - by rewrite app_assoc, List.last_last.
  - clear. induction n as [|n IH]; simpl; [done|]. by rewrite IH.
Qed.

Lemma forallb_repeat (x : ascii) (n : nat) :
  forallb (Ascii.eqb x) (repeat x n) = true.
Proof. induction n as [|n IH]; simpl; [done|]. by rewrite Ascii.eqb_refl. Qed.

Lemma pkcs7_unpad_pad (l : list ascii) : pkcs7_unpad (pkcs7_pad l) = Some l.
Proof.
  unfold pkcs7_unpad.
  rewrite pkcs7_pad_length. unfold pkcs7_pad.
  destruct (pad_amount (List.length l)) as [Hn Hlen].
  set (n := (16 - List.length l mod 16)%nat) in *.
  rewrite last_app_repeat by lia.
  rewrite nat_ascii_embedding by lia.
  rewrite <- Hlen.
  replace (List.length l + n - n)%nat with (List.length l) by lia.
  rewrite drop_app_length, take_app_length, forallb_repeat.
  rewrite !(proj2 (Nat.leb_le _ _)) by lia. done.
Qed.

End Padding.

Section Cbc.
Import encrypt.
Context (encrypt_block decrypt_block : list ascii -> list ascii -> list ascii).

(** What the chaining needs of the block transformation: on a 32-byte key
    and a 16-byte block it gives a 16-byte block, and its inverse undoes
    it. *)
Hypothesis encrypt_block_length :
  forall key block,
    List.length key = 32%nat -> List.length block = 16%nat ->
    List.length (encrypt_block key block) = 16%nat.
Hypothesis decrypt_block_encrypt_block :
  forall key block,
    List.length key = 32%nat -> List.length block = 16%nat ->
    decrypt_block key (encrypt_block key block) = block.

Lemma cbc_encrypt_step (fuel : nat) (key prev data : list ascii) :
  data <> [] ->
  cbc_encrypt encrypt_block (S fuel) key prev data
  = encrypt_block key (xor_block (firstn 16 data) prev)
    ++ cbc_encrypt encrypt_block fuel key
         (encrypt_block key (xor_block (firstn 16 data) prev))
         (skipn 16 data).
Proof. by destruct data. Qed.

Lemma cbc_decrypt_step (fuel : nat) (key prev data : list ascii) :
  data <> [] ->
  cbc_decrypt decrypt_block (S fuel) key prev data
  = xor_block (decrypt_block key (firstn 16 data)) prev
    ++ cbc_decrypt decrypt_block fuel key (firstn 16 data) (skipn 16 data).
Proof. by destruct data. Qed.

Lemma cbc_roundtrip (key : list ascii) :
  List.length key = 32%nat ->
  forall (n : nat) (data prev : list ascii) (f1 f2 : nat),
    List.length data = (16 * n)%nat -> List.length prev = 16%nat ->
    (n <= f1)%nat -> (n <= f2)%nat ->
    List.length (cbc_encrypt encrypt_block f1 key prev data) = (16 * n)%nat
    /\ cbc_decrypt decrypt_block f2 key prev
         (cbc_encrypt encrypt_block f1 key prev data) = data.
Proof.
  intros Hkey. induction n as [|n IH]; intros data prev f1 f2 Hlen Hprev Hf1 Hf2.
  - destruct data; [|simpl in Hlen; lia].
    assert (Henc : cbc_encrypt encrypt_block f1 key prev [] = [])
      by (by destruct f1).
    rewrite Henc. split; [done|]. by destruct f2.
  - destruct f1 as [|f1]; [lia|]. destruct f2 as [|f2]; [lia|].
    assert (Hne : data <> []) by (intros ->; simpl in Hlen; lia).
    rewrite cbc_encrypt_step by done.
    set (block := firstn 16 data).
    assert (Hblock : List.length block = 16%nat).
    { unfold block. rewrite List.length_firstn. lia. }
    assert (Hxor : List.length (xor_block block prev) = 16%nat)
      by (rewrite xor_block_length; lia).
    set (c := encrypt_block key (xor_block block prev)).
    assert (Hc : List.length c = 16%nat) by (by apply encrypt_block_length).
    assert (Hrest : List.length (skipn 16 data) = (16 * n)%nat)
      by (rewrite List.length_skipn; lia).
    destruct (IH (skipn 16 data) c f1 f2 Hrest Hc) as [Hl Hd]; [lia|lia|].
    split; [rewrite List.length_app; lia|].
    rewrite cbc_decrypt_step
      by (intros Hnil; apply (f_equal (@List.length ascii)) in Hnil;
          rewrite List.length_app in Hnil; simpl in Hnil; lia).
    rewrite (take_app_length' c _ 16), (drop_app_length' c _ 16) by done.
    unfold c at 1. rewrite decrypt_block_encrypt_block by done.
    rewrite xor_block_cancel by lia. rewrite Hd.
    apply List.firstn_skipn.
Qed.

(** Decryption undoes encryption of the UTF-8 form of the text, and the
    stored text is longer than the secret and is sent to the database as
    it is. *)
Lemma decrypt_with_encrypt_with (env : Env) (iv : list ascii) (text : string) :
  String.length (encryptSecret env) = 32%nat -> List.length iv = 16%nat ->
  exists stored,
    encrypt_with encrypt_block env iv text = Ok stored /\
    decrypt_with decrypt_block env stored = Ok (utf8 text) /\
    (String.length text < String.length stored)%nat /\
    utf8 stored = stored /\ has_nul stored = false.
Proof.
  intros Hkey Hiv. unfold encrypt_with, decrypt_with.
  assert (H32 : negb (32 =? 32)%nat = false) by reflexivity.
  assert (H16 : negb (16 =? IV_LENGTH)%nat = false) by reflexivity.
  rewrite list_ascii_length, Hkey, Hiv, H32, H16. cbv iota.
  set (key := list_ascii_of_string (encryptSecret env)).
  assert (Hk : List.length key = 32%nat)
    by (unfold key; by rewrite list_ascii_length).
  set (data := pkcs7_pad (list_ascii_of_string (utf8 text))).
  pose proof (pkcs7_pad_length (list_ascii_of_string (utf8 text))) as Hdata.
  fold data in Hdata. rewrite list_ascii_length, utf8_length in Hdata.
  set (blocks := S (String.length text / 16)) in *.
  destruct (cbc_roundtrip key Hk blocks data iv (List.length data)
              (List.length (cbc_encrypt encrypt_block (List.length data)
                              key iv data)) Hdata Hiv) as [Hl Hd].
  { lia. }
  { destruct (cbc_roundtrip key Hk blocks data iv (List.length data) blocks
                Hdata Hiv) as [Hl _]; lia. }
  eexists. split; [reflexivity|].
  change (":" ++ ?s)%string with (String ":" s).
  rewrite (split_on_hex_colon iv _ _ [] (split_on_hex _)).
  cbv zeta. cbn [hd tl].
  rewrite !from_hex_to_hex, Hiv, H16. cbv iota.
  assert (Hcond : ((List.length (cbc_encrypt encrypt_block (List.length data)
                                   key iv data) =? 0)%nat
                   || negb (List.length (cbc_encrypt encrypt_block
                                           (List.length data) key iv data)
                            mod 16 =? 0)%nat) = false).
  { rewrite Hl. apply orb_false_iff. split; [apply Nat.eqb_neq; lia|].
    apply negb_false_iff, Nat.eqb_eq. rewrite Nat.mul_comm.
    apply Nat.Div0.mod_mul. }
  rewrite Hcond. cbv iota.
  rewrite Hd. unfold data. rewrite pkcs7_unpad_pad.
  rewrite string_of_list_ascii_of_string. split; [done|]. split.
  - rewrite string_app_length, to_hex_length, Hiv.
    simpl String.length. rewrite to_hex_length. fold data. rewrite Hl.
    pose proof (Nat.mod_upper_bound (String.length text) 16).
    pose proof (Nat.div_mod_eq (String.length text) 16). lia.
  - apply hex_text_plain.
    + rewrite utf8_cons_other by (by vm_compute).
      f_equal. apply hex_plain.
    + rewrite has_nul_cons. apply hex_plain.
Qed.

End Cbc.


Section Aes.
Import aes256.

Lemma sbox_inverse (c : ascii) : inv_sbox (sbox c) = c.
Proof. destruct c as [[] [] [] [] [] [] [] []]; vm_compute; reflexivity. Qed.

Lemma sub_bytes_inverse (st : list ascii) : inv_sub_bytes (sub_bytes st) = st.
Proof.
  unfold inv_sub_bytes, sub_bytes. rewrite List.map_map.
  rewrite <- (List.map_id st) at 2. apply List.map_ext. apply sbox_inverse.
Qed.

Lemma shift_rows_inverse (st : list ascii) :
  List.length st = 16%nat -> inv_shift_rows (shift_rows st) = st.
Proof.
  intros H. do 16 (destruct st as [|? st]; [simpl in H; lia|]).
  destruct st; [reflexivity|simpl in H; lia].
Qed.

Lemma shift_rows_length (st : list ascii) : List.length (shift_rows st) = 16%nat.
Proof. reflexivity. Qed.

Lemma mix_column_inverse (a0 a1 a2 a3 : ascii) :
  inv_mix_column (xor4 (mul2 a0) (mul3 a1) a2 a3) (xor4 a0 (mul2 a1) (mul3 a2) a3)
    (xor4 a0 a1 (mul2 a2) (mul3 a3)) (xor4 (mul3 a0) a1 a2 (mul2 a3))
  = [a0; a1; a2; a3].
Proof.
  destruct a0, a1, a2, a3. unfold inv_mix_column, xor4, mul14, mul13, mul11,
    mul9, mul8, mul4, mul3, mul2, xtime, xor_ascii.
  repeat f_equal; btauto.
Qed.

Lemma mix_columns_inverse (st : list ascii) :
  List.length st = 16%nat ->
  inv_mix_columns (mix_columns st) = st /\ List.length (mix_columns st) = 16%nat.
Proof.
  intros H. do 16 (destruct st as [|? st]; [simpl in H; lia|]).
  destruct st; [|simpl in H; lia]. split; [|reflexivity].
  cbn [mix_columns mix_column inv_mix_columns app].
  by rewrite !mix_column_inverse.
Qed.

Lemma round_key_length (w : list word) (r : nat) :
  List.length (round_key w r) = 16%nat.
Proof.
  unfold round_key. rewrite !List.length_app.
  assert (H : forall v : word, List.length (word_bytes v) = 4%nat)
    by (by intros [[[a b] c] d]).
  by rewrite !H.
Qed.

Lemma round_inverse (w : list word) (st : list ascii) (r : nat) :
  List.length st = 16%nat ->
  inv_round w r (round w st r) = st /\ List.length (round w st r) = 16%nat.
Proof.
  intros H. unfold inv_round, round.
  destruct (mix_columns_inverse (shift_rows (sub_bytes st)) (shift_rows_length _))
    as [Hmix Hlen].
  pose proof (round_key_length w r) as Hrk.
  split.
  - rewrite xor_block_cancel by lia. rewrite Hmix.
    rewrite shift_rows_inverse by (unfold sub_bytes; by rewrite List.length_map).
    apply sub_bytes_inverse.
  - rewrite xor_block_length; lia.
Qed.

Lemma rounds_inverse (w : list word) (rounds : list nat) :
  forall st,
    List.length st = 16%nat ->
    fold_right (inv_round w) (fold_left (round w) rounds st) rounds = st
    /\ List.length (fold_left (round w) rounds st) = 16%nat.
Proof.
  induction rounds as [|r rounds IH]; intros st H; simpl; [done|].
  destruct (round_inverse w st r H) as [Hinv Hlen].
  destruct (IH _ Hlen) as [Hfold Hlen']. by rewrite Hfold, Hinv.
Qed.

(** AES decryption of a block undoes its encryption, under any key. *)
Lemma aes_block_length (key block : list ascii) :
  List.length block = 16%nat -> List.length (encrypt_block key block) = 16%nat.
Proof.
  intros H. unfold encrypt_block.
  rewrite xor_block_length; rewrite ?shift_rows_length, ?round_key_length; done.
Qed.

Lemma aes_decrypt_encrypt (key block : list ascii) :
  List.length block = 16%nat ->
  decrypt_block key (encrypt_block key block) = block.
Proof.
  intros H. unfold decrypt_block, encrypt_block.
  set (w := key_expansion key).
  assert (H0 : List.length (xor_block block (round_key w 0)) = 16%nat)
    by (rewrite xor_block_length; rewrite ?round_key_length; done).
  destruct (rounds_inverse w (seq 1 13) _ H0) as [Hfold Hlen].
  rewrite xor_block_cancel by (by rewrite shift_rows_length, round_key_length).
  rewrite shift_rows_inverse by (unfold sub_bytes; by rewrite List.length_map).
  rewrite sub_bytes_inverse, Hfold.
  apply xor_block_cancel. by rewrite round_key_length.
Qed.

(** The first example vector of FIPS 197 for a 256-bit key. *)
Example aes256_fips197_vector :
  to_hex (encrypt_block
            (from_hex "000102030405060708090a0b0c0d0e0f101112131415161718191a1b1c1d1e1f")
            (from_hex "00112233445566778899aabbccddeeff"))
  = "8ea2b7ca516745bfeafc49904b496089".
Proof. by vm_compute. Qed.

End Aes.

Section TokenSecret.
Import encrypt.

Lemma decrypt_encrypt (env : Env) (iv : list ascii) (text : string) :
  String.length (encryptSecret env) = 32%nat -> List.length iv = 16%nat ->
  exists stored,
    encrypt env iv text = Ok stored /\
    decrypt env stored = Ok (utf8 text) /\
    (String.length text < String.length stored)%nat /\
    utf8 stored = stored /\ has_nul stored = false.
Proof.
  apply decrypt_with_encrypt_with.
  - intros key block _. apply aes_block_length.
  - intros key block _. apply aes_decrypt_encrypt.
Qed.

(** C7 (as the code has it): the key stored by the token-add operation
    decrypts to the UTF-8 form of the secret that was posted, which is the
    secret itself when it holds no unpaired surrogate, and is not the
    secret itself.  The schema counts UTF-16 code units. *)
Theorem token_secret_roundtrip (env : Env) (w : World) (iv : list ascii)
    (userId : Z) (name K : string) :
  String.length (encryptSecret env) = 32%nat -> List.length iv = 16%nat ->
  (2 <= code_units name)%nat -> (10 <= code_units K)%nat ->
  has_nul name = false ->
  let run := tokenController.addToken env iv userId (JStr name) (JStr K) w in
  exists token,
    tokens (db (snd run)) = tokens (db w) ++ [token] /\
    fst run = Ok (resSuccess (tokenController.normalizeToken token) "token.addSuccess") /\
    t_user_id token = userId /\ t_name token = utf8 name /\
    decrypt env (t_api_key token) = Ok (utf8 K) /\
    (utf8 K = K -> decrypt env (t_api_key token) = Ok K) /\
    t_api_key token <> K.
Proof.
  intros Hkey Hiv Hname HK Hnul run.
  destruct (decrypt_encrypt env iv K Hkey Hiv)
    as (stored & Henc & Hdec & Hlen & Hplain & Hsnul).
  unfold run, tokenController.addToken, tokenController.AddTokenSchema,
    validateInput.
  rewrite (proj2 (Nat.ltb_ge _ _) Hname), (proj2 (Nat.ltb_ge _ _) HK).
  unfold tryCatch, tokenController.addToken_body, bind, lift.
  rewrite Henc. unfold tokenService.createToken, bind, db_query,
    tokenService.sql_insert_token. rewrite Hnul, Hsnul, Hplain. simpl.
  eexists. split; [reflexivity|]. split; [reflexivity|]. simpl.
  repeat split; [done| |].
  - intros HK'. by rewrite Hdec, HK'.
  - intros ->. lia.
Qed.

End TokenSecret.

Section TokenSecretExamples.
Import encrypt Scenario.

Lemma token_secret_roundtrip_witness :
  exists token,
    tokens (db (snd (tokenController.addToken env0 iv0 10 (JStr "work")
                       (JStr "sk-x-0123456789") (world0 true 0))))
    = tokens (db (world0 true 0)) ++ [token]
    /\ decrypt env0 (t_api_key token) = Ok "sk-x-0123456789"
    /\ t_api_key token <> "sk-x-0123456789".
Proof.
  destruct (token_secret_roundtrip env0 (world0 true 0) iv0 10 "work"
              "sk-x-0123456789" eq_refl eq_refl)
    as (token & Htokens & _ & _ & _ & _ & Hdec & Hne).
  - simpl. lia.
  - simpl. lia.
  - reflexivity.
  - exists token. split; [exact Htokens|]. split; [by apply Hdec|exact Hne].
Defined.

(** C7, counterexample: a secret that holds an unpaired surrogate passes
    the schema and is stored, and the stored key decrypts to another
    string, with U+FFFD in place of the surrogate. *)
Lemma lone_surrogate_secret_is_not_restored :
  let run := tokenController.addToken env0 iv0 10 (JStr "work")
               (JStr lone_surrogate_secret) (world0 true 0) in
  code_units lone_surrogate_secret = 10%nat /\
  exists token,
    tokens (db (snd run)) = tokens (db (world0 true 0)) ++ [token] /\
    fst run = Ok (resSuccess (tokenController.normalizeToken token)
                    "token.addSuccess") /\
    decrypt env0 (t_api_key token) = Ok replaced_secret /\
    decrypt env0 (t_api_key token) <> Ok lone_surrogate_secret.
Proof.
  split; [reflexivity|]. eexists. split; [by vm_compute|].
  split; [by vm_compute|]. split; [by vm_compute|].
  vm_compute. discriminate.
Qed.

(** The schema counts code units, not bytes: the name [é] is refused. *)
Example short_name_is_refused :
  String.length e_acute = 2%nat /\ code_units e_acute = 1%nat /\
  tokenController.addToken env0 iv0 10 (JStr e_acute) (JStr "sk-x-0123456789")
    (world0 true 0)
  = (Ok (resError "Token name is required" 422), world0 true 0).
Proof. by vm_compute. Qed.

(** The text stored for the secret of the witness, as OpenSSL's
    aes-256-cbc gives it for this key and initialisation vector. *)
Example stored_secret :
  encrypt env0 iv0 "sk-x-0123456789"
  = Ok "66656463626139383736353433323130:5a247370cf94d9b513e0cd19ac1cda82".
Proof. by vm_compute. Qed.

End TokenSecretExamples.

(** ** Deleting a project: projectService.deleteProject *)

Section DeleteProject.
Import projectDeletion.

Lemma filter_filter {A : Type} (f g : A -> bool) (l : list A) :
  List.filter g (List.filter f l) = List.filter (fun x => f x && g x) l.
Proof.
  induction l as [|a l IH]; simpl; [done|].
  destruct (f a); simpl; [|done]. destruct (g a); by rewrite IH.
Qed.

Lemma mem_singleton (x y : Z) : mem x [y] = (x =? y).
Proof. unfold mem. simpl. apply orb_false_r. Qed.

Lemma sql_delete_project_run (projectId : jsval) (pid userId now : Z) (d : DB)
    (p : Project) :
  sql_int projectId = Some pid -> projects_pk d ->
  In p (projects d) -> p_id p = pid -> p_user_id p = userId ->
  exists d1,
    sql_delete_project projectId userId now d = (Ok [pid], d1) /\
    tokens d1 = tokens d /\ agents d1 = agents d /\ seqs d1 = seqs d /\
    projects d1 = List.filter (fun q => negb (p_id q =? pid)) (projects d) /\
    project_tokens d1
    = List.filter (fun r => negb (pt_project_id r =? pid)) (project_tokens d) /\
    project_agent_members d1
    = List.filter (fun r => negb (pam_project_id r =? pid)) (project_agent_members d) /\
    conversations d1
    = List.filter (fun c => negb (c_project_id c =? pid)) (conversations d) /\
    messages d1
    = List.filter (fun m => negb (m_project_id m =? pid)
                            && negb (mem (m_conversation_id m)
                                       (project_conversation_ids pid d)))
        (messages d) /\
    logs d1 = List.filter (fun l => negb (l_project_id l =? pid)) (logs d) /\
    agent_history_summaries d1
    = List.filter (fun r => negb (s_project_id r =? pid)) (agent_history_summaries d).
Proof.
  intros Hint Hpk Hp Hid Huser. unfold sql_delete_project, with_int.
  rewrite Hint.
  assert (Hrows : List.filter (fun q => (p_id q =? pid) && (p_user_id q =? userId))
                    (projects d) = [p]).
  { rewrite <- (filter_key_unique p_id (projects d) p Hpk Hp).
    apply List.filter_ext_in. intros q Hq. rewrite Hid.
    destruct (Z.eqb_spec (p_id q) pid) as [Hk|Hk]; [|done]. simpl.
    assert (q = p) as -> by (eapply (key_unique p_id); eauto; congruence).
    by apply Z.eqb_eq. }
  rewrite Hrows. simpl List.map. rewrite Hid.
  eexists. split; [reflexivity|]. cbn [snd tokens agents seqs projects
    project_tokens project_agent_members conversations messages logs
    agent_history_summaries].
  repeat split; try (apply List.filter_ext; intros x; by rewrite mem_singleton).
  - apply List.filter_ext_in. intros q Hq.
    destruct (Z.eqb_spec (p_id q) pid) as [Hk|Hk]; [|done]. simpl.
    assert (q = p) as -> by (eapply (key_unique p_id); eauto; congruence).
    by rewrite (proj2 (Z.eqb_eq _ _) Huser).
  - assert (Hconv : List.filter (fun c => mem (c_project_id c) [pid]) (conversations d)
                    = List.filter (fun c => c_project_id c =? pid) (conversations d))
      by (apply List.filter_ext; intros c; apply mem_singleton).
    unfold project_conversation_ids. rewrite <- Hconv.
    apply List.filter_ext. intros x. by rewrite mem_singleton.
Qed.

(** C8 (as the code has it): deleting a project removes it with its token
    binding, memberships, conversations, messages, logs and summaries, and
    also removes the caller's agents that were members of it, with their
    memberships and summaries in any project; the tokens and every other
    row stay. *)
Theorem deleteProject_effect (w : World) (projectId : jsval) (pid userId : Z)
    (p : Project) :
  sql_int projectId = Some pid -> projects_pk (db w) ->
  In p (projects (db w)) -> p_id p = pid -> p_user_id p = userId ->
  let run := deleteProject projectId userId w in
  let d := db w in
  let d' := db (snd run) in
  fst run = Ok true /\
  projects d' = List.filter (fun q => negb (p_id q =? pid)) (projects d) /\
  project_tokens d'
  = List.filter (fun r => negb (pt_project_id r =? pid)) (project_tokens d) /\
  conversations d'
  = List.filter (fun c => negb (c_project_id c =? pid)) (conversations d) /\
  messages d'
  = List.filter (fun m => negb (m_project_id m =? pid)
                          && negb (mem (m_conversation_id m)
                                     (project_conversation_ids pid d)))
      (messages d) /\
  logs d' = List.filter (fun l => negb (l_project_id l =? pid)) (logs d) /\
  agents d' = List.filter (fun a => negb (agent_cleaned pid userId d a)) (agents d) /\
  project_agent_members d'
  = List.filter (fun r => negb (pam_project_id r =? pid)
                          && negb (mem (pam_agent_id r) (cleaned_agent_ids pid userId d)))
      (project_agent_members d) /\
  agent_history_summaries d'
  = List.filter (fun r => negb (s_project_id r =? pid)
                          && negb (mem (s_agent_id r) (cleaned_agent_ids pid userId d)))
      (agent_history_summaries d) /\
  tokens d' = tokens d /\ seqs d' = seqs d.
Proof.
  intros Hint Hpk Hp Hid Huser run d d'.
  destruct (sql_delete_project_run projectId pid userId (clock w) d p
              Hint Hpk Hp Hid Huser)
    as (d1 & Hdel & Ht & Ha & Hs & Hpr & Hpt & Hm & Hc & Hms & Hl & Hsum).
  assert (Hids : sql_member_agents projectId (clock w) d
                 = (Ok (project_member_agents pid d), d)).
  { unfold sql_member_agents, with_int. by rewrite Hint. }
  unfold d', run, deleteProject, tx, bind, t_query, lift.
  fold d. rewrite Hids. simpl. fold d. rewrite Hdel. simpl.
  destruct (project_member_agents pid d) as [|i ids] eqn:Hmem; simpl.
  - assert (Hclean : forall a, agent_cleaned pid userId d a = false).
    { intros a. unfold agent_cleaned. by rewrite Hmem. }
    assert (Hnone : cleaned_agent_ids pid userId d = []).
    { unfold cleaned_agent_ids. rewrite filter_none; [done|]. by intros a _. }
    rewrite Hnone. split; [done|].
    repeat split; try done.
    + rewrite Ha. symmetry. apply filter_all. intros a _. by rewrite Hclean.
    + rewrite Hm. apply List.filter_ext. intros r. by rewrite andb_true_r.
    + rewrite Hsum. apply List.filter_ext. intros r. by rewrite andb_true_r.
  - split; [done|]. rewrite Ha, Hm, Hsum, !filter_filter.
    fold (cleaned_agent_ids pid userId d). repeat split; try done.
    all: unfold cleaned_agent_ids, agent_cleaned; by rewrite Hmem.
Qed.

End DeleteProject.

Section DeleteProjectExamples.
Import projectDeletion Scenario.

Lemma deleteProject_effect_witness :
  projects (db (snd (deleteProject (JNum 100) 10 (world0 false 5)))) = [].
Proof.
  pose proof (deleteProject_effect (world0 false 5) (JNum 100) 100 10
                (project100 false 5) eq_refl) as H.
  simpl in H. refine (proj1 (proj2 (H _ _ eq_refl eq_refl))).
  - by_decide.
  - by left.
Defined.

(** C8, counterexample: deleting project 100 also deletes agents 1 and 2,
    the owner's agents that were its members; only the System agent is
    left. *)
Lemma deleteProject_deletes_member_agents :
  let run := deleteProject (JNum 100) 10 (world0 false 5) in
  fst run = Ok true /\
  List.map a_id (agents (db (world0 false 5))) = [0; 1; 2] /\
  List.map a_user_id (agents (db (world0 false 5))) = [None; Some 10; Some 10] /\
  List.map a_id (agents (db (snd run))) = [0].
Proof. by repeat split. Qed.

End DeleteProjectExamples.

(** ** The live-update hub: services/webSocketService.js *)

Section Hub.
Import webSocketService.

Lemma strict_eq_refl (v : jsval) : truthy v = true -> strict_eq v v = true.
Proof.
  destruct v; simpl; try done.
  - by destruct b.
  - intros _. apply Z.eqb_refl.
  - intros _. apply String.eqb_refl.
  - intros _. apply Z.eqb_refl.
Qed.

Lemma send_if_open_readyState (ws : nat) (msg : Frame) (h : Hub) :
  readyState (send_if_open ws msg h) = readyState h
  /\ clients (send_if_open ws msg h) = clients h
  /\ pendingMessages (send_if_open ws msg h) = pendingMessages h.
Proof. unfold send_if_open. by destruct (is_open _). Qed.

Lemma received_app (ws : nat) (h : Hub) (l : list (nat * Frame)) :
  List.map snd (List.filter (fun e => Nat.eqb (fst e) ws) (sent h ++ l))
  = received ws h
    ++ List.map snd (List.filter (fun e => Nat.eqb (fst e) ws) l).
Proof. unfold received. by rewrite List.filter_app, List.map_app. Qed.

(** Sending one frame to a list of sockets. *)
Lemma received_send_many (ws : nat) (msg : Frame) (targets : list (nat * ClientInfo)) :
  forall h,
    let h' := fold_left (fun acc e => send_if_open (fst e) msg acc) targets h in
    readyState h' = readyState h /\ clients h' = clients h
    /\ pendingMessages h' = pendingMessages h
    /\ received ws h'
       = received ws h
         ++ List.map (fun _ => msg)
              (List.filter (fun e => Nat.eqb (fst e) ws
                                     && is_open (readyState h (fst e))) targets).
Proof.
  induction targets as [|[k info] rest IH]; intros h; simpl.
  - by rewrite app_nil_r.
  - destruct (IH (send_if_open k msg h)) as (Hrs & Hcl & Hpm & Hrec).
    destruct (send_if_open_readyState k msg h) as (Hrs1 & Hcl1 & Hpm1).
    rewrite Hrs, Hcl, Hpm, Hrec, Hrs1, Hcl1, Hpm1.
    repeat split. unfold send_if_open.
    destruct (is_open (readyState h k)) eqn:Hopen; simpl.
    + unfold received at 1. simpl. rewrite received_app. simpl.
      destruct (Nat.eqb k ws); simpl; [by rewrite <- app_assoc|].
      by rewrite app_nil_r.
    + by rewrite andb_false_r.
Qed.

(** Flushing a queue to one socket. *)
Lemma received_flush (ws : nat) (queue : list Frame) :
  forall h,
    is_open (readyState h ws) = true ->
    let h' := fold_left (fun acc msg => send_if_open ws msg acc) queue h in
    readyState h' = readyState h /\ clients h' = clients h
    /\ pendingMessages h' = pendingMessages h
    /\ received ws h' = received ws h ++ queue.
Proof.
  induction queue as [|msg rest IH]; intros h Hopen; simpl.
  - by rewrite app_nil_r.
  - destruct (send_if_open_readyState ws msg h) as (Hrs1 & Hcl1 & Hpm1).
    destruct (IH (send_if_open ws msg h)) as (Hrs & Hcl & Hpm & Hrec);
      [by rewrite Hrs1|].
    rewrite Hrs, Hcl, Hpm, Hrec, Hrs1, Hcl1, Hpm1. repeat split.
    unfold send_if_open. rewrite Hopen. unfold received at 1. simpl.
    rewrite received_app. simpl. rewrite Nat.eqb_refl. simpl.
    by rewrite <- app_assoc.
Qed.

Lemma map_get_set {V : Type} (k : nat) (v : V) (m : list (nat * V)) :
  map_get k (map_set k v m) = Some v.
Proof.
  induction m as [|[k' v'] m IH]; simpl; [by rewrite Nat.eqb_refl|].
  destruct (Nat.eqb k' k) eqn:Hk; simpl; [by rewrite Nat.eqb_refl|].
  by rewrite Hk.
Qed.

Lemma map_set_keys {V : Type} (k : nat) (v : V) (m : list (nat * V)) :
  NoDup (List.map fst m) -> NoDup (List.map fst (map_set k v m)).
Proof.
  induction m as [|[k' v'] m IH]; simpl; intros Hnd.
  - apply NoDup_singleton.
  - apply NoDup_cons in Hnd as [Hk' Hnd].
    destruct (Nat.eqb_spec k' k) as [->|Hne]; simpl.
    + by apply NoDup_cons.
    + apply NoDup_cons. split; [|by apply IH].
      intros Hin. apply Hk'. clear -Hin Hne.
      induction m as [|[k2 v2] m IH]; simpl in *.
      * apply list_elem_of_singleton in Hin. congruence.
      * destruct (Nat.eqb_spec k2 k) as [->|Hne2]; simpl in *.
        -- apply elem_of_cons in Hin as [->|Hin]; [congruence|].
           apply elem_of_cons. by right.
        -- apply elem_of_cons in Hin as [->|Hin]; apply elem_of_cons; auto.
Qed.

Lemma map_get_filter {V : Type} (k : nat) (v : V) (m : list (nat * V)) :
  NoDup (List.map fst m) -> map_get k m = Some v ->
  List.filter (fun e => Nat.eqb (fst e) k) m = [(k, v)].
Proof.
  induction m as [|[k' v'] m IH]; simpl; [done|]. intros Hnd Hget.
  apply NoDup_cons in Hnd as [Hk' Hnd].
  destruct (Nat.eqb_spec k' k) as [->|Hne].
  - injection Hget as ->. f_equal. apply filter_none. intros [k2 v2] Hin.
    simpl. apply Nat.eqb_neq. intros ->. apply Hk'.
    apply list_elem_of_In. by apply (in_map fst) in Hin.
  - by apply IH.
Qed.

(** The keys of [clients] stay distinct from the start of the server on. *)
Lemma hub_wf_reachable (rs : nat -> ReadyState) :
  hub_wf (initial rs) /\
  (forall ws userId data h, hub_wf h -> hub_wf (on_message ws userId data h)) /\
  (forall ws h, hub_wf h -> hub_wf (on_close ws h)) /\
  (forall projectId message h, hub_wf h -> hub_wf (broadcastToProject projectId message h)).
Proof.
  split; [apply NoDup_nil_2|]. split; [|split].
  - intros ws userId [d|] h Hwf; [|done]. unfold on_message.
    destruct (strict_eq _ _ && truthy _); [|done]. simpl.
    destruct (pendingMessages h !! d_projectId d) as [queue|]; unfold hub_wf;
      simpl; [|by apply map_set_keys].
    set (h0 := {| clients := map_set ws _ (clients h);
                  pendingMessages := pendingMessages h;
                  readyState := readyState h; sent := sent h |}).
    assert (Hcl : clients (fold_left (fun acc msg => send_if_open ws msg acc) queue h0)
                  = clients h0).
    { generalize h0. induction queue as [|msg rest IH]; intros h'; simpl; [done|].
      rewrite IH. apply send_if_open_readyState. }
    rewrite Hcl. by apply map_set_keys.
  - intros ws h Hwf. unfold hub_wf, on_close, map_delete in *. simpl.
    induction (clients h) as [|[k v] m IH]; simpl in *; [done|].
    apply NoDup_cons in Hwf as [Hk Hwf].
    destruct (Nat.eqb k ws); simpl; [by apply IH|].
    apply NoDup_cons. split; [|by apply IH].
    intros Hin. apply Hk. apply list_elem_of_In in Hin.
    apply in_map_iff in Hin as ([k' v'] & <- & Hin'). apply filter_In in Hin' as [Hin' _].
    apply list_elem_of_In. by apply (in_map fst) in Hin'.
  - intros projectId message h Hwf. unfold broadcastToProject.
    destruct (List.filter _ (clients h)) as [|c rest] eqn:Hpc; [done|].
    destruct (received_send_many 0 (JSON_stringify message) (c :: rest) h)
      as (_ & Hcl & _). unfold hub_wf. by rewrite Hcl.
Qed.

Lemma broadcast_received (h : Hub) (ws : nat) (info : ClientInfo)
    (projectId : jsval) (message : Event) :
  hub_wf h -> map_get ws (clients h) = Some info ->
  is_open (readyState h ws) = true ->
  let h' := broadcastToProject projectId message h in
  hub_wf h' /\ map_get ws (clients h') = Some info
  /\ is_open (readyState h' ws) = true
  /\ received ws h'
     = received ws h
       ++ (if strict_eq (ci_projectId info) projectId
           then [JSON_stringify message] else []).
Proof.
  intros Hwf Hget Hopen h'.
  pose proof (map_get_filter ws info (clients h) Hwf Hget) as Hme.
  set (hit := fun e : nat * ClientInfo => strict_eq (ci_projectId (snd e)) projectId).
  assert (Hmine : List.filter (fun e => Nat.eqb (fst e) ws
                                         && is_open (readyState h (fst e)))
                    (List.filter hit (clients h))
                  = if strict_eq (ci_projectId info) projectId
                    then [(ws, info)] else []).
  { rewrite filter_filter.
    transitivity (List.filter (fun e => hit e && is_open (readyState h (fst e)))
                    (List.filter (fun e => Nat.eqb (fst e) ws) (clients h))).
    - rewrite filter_filter. apply List.filter_ext. intros e.
      by destruct (hit e), (Nat.eqb (fst e) ws), (is_open _).
    - rewrite Hme. simpl. unfold hit at 1. simpl. rewrite Hopen.
      by destruct (strict_eq _ _). }
  unfold h', broadcastToProject. fold hit.
  destruct (List.filter hit (clients h)) as [|c rest] eqn:Hpc.
  - unfold hub_wf. simpl. repeat split; try done.
    simpl in Hmine. unfold received. simpl.
    destruct (strict_eq (ci_projectId info) projectId); [done|].
    by rewrite app_nil_r.
  - destruct (received_send_many ws (JSON_stringify message) (c :: rest) h)
      as (Hrs & Hcl & _ & Hrec).
    unfold hub_wf. rewrite Hcl, Hrs, Hrec, Hmine.
    repeat split; try done. by destruct (strict_eq _ _).
Qed.

Lemma broadcast_all_received (ws : nat) (info : ClientInfo)
    (events : list (jsval * Event)) :
  forall h,
    hub_wf h -> map_get ws (clients h) = Some info ->
    is_open (readyState h ws) = true ->
    received ws (broadcast_all events h)
    = received ws h
      ++ List.map (fun e => JSON_stringify (snd e))
           (List.filter (fun e => strict_eq (ci_projectId info) (fst e)) events).
Proof.
  unfold broadcast_all.
  induction events as [|[p ev] rest IH]; intros h Hwf Hget Hopen; simpl.
  - by rewrite app_nil_r.
  - destruct (broadcast_received h ws info p ev Hwf Hget Hopen)
      as (Hwf' & Hget' & Hopen' & Hrec).
    rewrite (IH _ Hwf' Hget' Hopen'), Hrec.
    rewrite <- app_assoc. by destruct (strict_eq (ci_projectId info) p).
Qed.

(** A join frame with a project id registers the socket under that id,
    whoever the user is; the frames queued under the id are handed to it
    and the queue is dropped; and of the events broadcast next the socket
    is handed those published under a key that is [===] the id, in order,
    and nothing else. *)
Lemma join_subscribes (h : Hub) (ws : nat) (userId : Z) (N : jsval) :
  truthy N = true -> is_open (readyState h ws) = true -> hub_wf h ->
  let h1 := on_message ws userId
              (Some {| d_type := JStr "join"; d_projectId := N |}) h in
  map_get ws (clients h1) = Some {| ci_projectId := N; ci_userId := userId |} /\
  received ws h1 = received ws h ++ default [] (pendingMessages h !! N) /\
  pendingMessages h1 !! N = None /\
  (forall events,
     received ws (broadcast_all events h1)
     = received ws h1
       ++ List.map (fun e => JSON_stringify (snd e))
            (List.filter (fun e => strict_eq N (fst e)) events)).
Proof.
  intros HN Hopen Hwf h1.
  assert (Hstate : hub_wf h1 /\ is_open (readyState h1 ws) = true /\
                   map_get ws (clients h1)
                   = Some {| ci_projectId := N; ci_userId := userId |} /\
                   received ws h1
                   = received ws h ++ default [] (pendingMessages h !! N) /\
                   pendingMessages h1 !! N = None).
  { unfold h1, on_message. simpl. rewrite HN. simpl.
    destruct (pendingMessages h !! N) as [queue|] eqn:Hq; simpl.
    - set (h0 := {| clients := map_set ws _ (clients h);
                    pendingMessages := pendingMessages h;
                    readyState := readyState h; sent := sent h |}).
      destruct (received_flush ws queue h0 Hopen) as (Hrs & Hcl & Hpm & Hrec).
      unfold hub_wf, received in *. simpl. rewrite Hcl, Hrs, Hrec. simpl.
      split; [by apply map_set_keys|]. split; [done|].
      split; [apply map_get_set|]. split; [done|]. apply lookup_delete_eq.
    - unfold hub_wf. simpl. split; [by apply map_set_keys|]. split; [done|].
      split; [apply map_get_set|]. split; [|done].
      by rewrite app_nil_r. }
  destruct Hstate as (Hwf1 & Hopen1 & Hget1 & Hrec1 & Hpm1).
  repeat split; try done.
  intros events.
  apply (broadcast_all_received ws _ events h1 Hwf1 Hget1 Hopen1).
Qed.

End Hub.

Section HubExamples.
Import webSocketService Scenario.

Lemma join_subscribes_witness :
  let queued := broadcast_all [(JNum 100, update_event (JNum 100) 5)]
                  (initial (fun _ => OPEN)) in
  received 1
    (broadcast_all [ (JNum 100, update_event (JNum 100) 4);
                     (JNum 200, update_event (JNum 200) 9);
                     (JNum 100, update_event (JNum 100) 3) ]
       (on_message 1 99 (Some join100) queued))
  = [ update_event (JNum 100) 5; update_event (JNum 100) 4;
      update_event (JNum 100) 3 ].
Proof.
  intros queued.
  destruct (join_subscribes queued 1 99 (JNum 100) eq_refl eq_refl)
    as (_ & Hflush & _ & Hall); [by_decide|].
  fold join100 in Hflush, Hall. rewrite Hall, Hflush. reflexivity.
Defined.

(** The project id of a subscription and the id of a broadcast are compared
    with [===]: an event published under the route parameter, a string, is
    not handed to a socket that joined with the number, and is queued under
    the string instead. *)
Remark broadcast_under_string_id_is_queued :
  let h1 := on_message 1 10 (Some join100) (initial (fun _ => OPEN)) in
  let h2 := broadcastToProject (JStr "100") (update_event (JStr "100") 0) h1 in
  received 1 h2 = [] /\
  pendingMessages h2 !! JStr "100" = Some [update_event (JStr "100") 0].
Proof. by split. Qed.

End HubExamples.

(** ** The length of a message: routes/messageRoutes.js *)

Section MessageLength.
Import messageController Scenario.

(** The schema of the send route looks at the content only to refuse the
    empty string. *)
Lemma SendMessageSchema_accepts (content : string) :
  content <> "" ->
  SendMessageSchema (JStr content) JUndefined = inr (JStr content, JUndefined).
Proof. intros Hne. unfold SendMessageSchema. by destruct content. Qed.

(** C9, evaluated on the code: a message of 2001 characters, one more than
    [MAX_MESSAGE_LENGTH], passes the validation of the send route and is
    stored. *)
Theorem long_message_is_stored :
  let run := sendMessage env0 long_request (world0 false 5) in
  constants.MAX_MESSAGE_LENGTH < Z.of_nat (String.length long_content) /\
  (exists r, fst run = Ok r /\ status r = 200) /\
  List.map m_content (messages (db (snd run))) = [long_content].
Proof.
  split; [by vm_compute|]. split; [|by vm_compute].
  eexists. split; [by vm_compute|reflexivity].
Qed.

End MessageLength.

(* ================================================================= *)
(** * Part II, continued: further properties of the services *)
(* ================================================================= *)

(** ** Records and worlds *)

Lemma set_seqs_same (d : DB) : set_seqs (fun _ => seqs d) d = d.
Proof. by destruct d. Qed.

Lemma with_db_same (w : World) : with_db (fun _ => db w) w = w.
Proof. by destruct w. Qed.

Lemma bind_run {A B : Type} (c : M A) (k : A -> M B) (w : World) :
  bind c k w
  = match c w with
    | (Ok a, w') => k a w'
    | (Throw e, w') => (Throw e, w')
    end.
Proof. reflexivity. Qed.

Lemma t_query_run {A : Type} (q : Z -> Stmt A) (w : World) :
  t_query q w
  = (fst (q (clock w) (db w)), with_db (fun _ => snd (q (clock w) (db w))) w).
Proof. unfold t_query. by destruct (q (clock w) (db w)). Qed.

Lemma tx_rollback_seqs (w w' : World) :
  seqs (db w') = seqs (db w) -> journal w' = journal w -> hub w' = hub w ->
  nudges w' = nudges w -> clock w' = clock w ->
  with_db (fun d' => set_seqs (fun _ => seqs d') (db w)) w' = w.
Proof.
  destruct w, w'. simpl. intros Hs -> -> -> ->. unfold with_db. simpl.
  by rewrite Hs, set_seqs_same.
Qed.

Lemma tx_rollback_same (w w' : World) :
  db w' = db w -> journal w' = journal w -> hub w' = hub w ->
  nudges w' = nudges w -> clock w' = clock w ->
  with_db (fun d' => set_seqs (fun _ => seqs d') (db w)) w' = w.
Proof.
  destruct w, w'. simpl. intros -> -> -> -> ->. unfold with_db. simpl.
  by rewrite set_seqs_same.
Qed.

(** ** [ORDER BY ... DESC] and the joins *)

Section OrderByDesc.
Context {A : Type} (key : A -> Z).

Lemma insert_desc_perm (x : A) (l : list A) :
  Permutation (Sql.insert_desc key x l) (x :: l).
Proof.
  induction l as [|y l IH]; simpl; [done|].
  destruct (key y <=? key x); [done|].
  rewrite IH. apply perm_swap.
Qed.

Lemma order_by_desc_perm (l : list A) : Permutation (Sql.order_by_desc key l) l.
Proof.
  induction l as [|x l IH]; simpl; [done|].
  rewrite insert_desc_perm. by constructor.
Qed.

Lemma order_by_desc_In (l : list A) (x : A) :
  In x (Sql.order_by_desc key l) <-> In x l.
Proof.
  split; apply Permutation_in; [|symmetry]; apply order_by_desc_perm.
Qed.

Lemma insert_desc_sorted (x : A) (l : list A) :
  StronglySorted (fun a b => key b <= key a) l ->
  StronglySorted (fun a b => key b <= key a) (Sql.insert_desc key x l).
Proof.
  induction 1 as [|y l Hs IH Hy]; simpl; [repeat constructor|].
  destruct (Z.leb_spec (key y) (key x)) as [Hle|Hgt].
  - constructor; [by constructor|]. constructor; [done|].
    eapply Forall_impl; [exact Hy|]. simpl. intros; lia.
  - constructor; [done|].
    rewrite insert_desc_perm. constructor; [lia|done].
Qed.

Lemma order_by_desc_sorted (l : list A) :
  StronglySorted (fun a b => key b <= key a) (Sql.order_by_desc key l).
Proof.
  induction l as [|x l IH]; simpl; [constructor|]. by apply insert_desc_sorted.
Qed.

End OrderByDesc.

(** ** Tokens: disabling, enabling and the active-token check *)

Section TokenActivation.
Import tokenActivation tokenService.

Lemma owned_rows {A : Type} (key owner : A -> Z) (l : list A) (x : A) (u : Z) :
  NoDup (List.map key l) -> In x l -> owner x = u ->
  List.filter (fun y => (key y =? key x) && (owner y =? u)) l = [x].
Proof.
  intros Hpk Hin Hu. rewrite <- (filter_key_unique key l x Hpk Hin).
  apply List.filter_ext_in. intros y Hy.
  destruct (Z.eqb_spec (key y) (key x)) as [Hk|Hk]; [|done]. simpl.
  assert (y = x) as -> by (eapply (key_unique key); eauto).
  by apply Z.eqb_eq.
Qed.

Lemma not_owned_rows {A : Type} (key owner : A -> Z) (l : list A) (k u : Z) :
  (forall x, In x l -> key x = k -> owner x <> u) ->
  List.filter (fun y => (key y =? k) && (owner y =? u)) l = [].
Proof.
  intros H. apply filter_none. intros y Hy.
  destruct (Z.eqb_spec (key y) k) as [Hk|Hk]; [|done]. simpl.
  apply Z.eqb_neq. by apply H.
Qed.

Lemma update_owned {A : Type} (key owner : A -> Z) (f : A -> A) (l : list A)
    (x : A) (u : Z) :
  NoDup (List.map key l) -> In x l -> owner x = u ->
  List.map (fun y => if (key y =? key x) && (owner y =? u) then f y else y) l
  = List.map (fun y => if key y =? key x then f y else y) l.
Proof.
  intros Hpk Hin Hu. apply List.map_ext_in. intros y Hy.
  destruct (Z.eqb_spec (key y) (key x)) as [Hk|Hk]; [|done]. simpl.
  assert (y = x) as -> by (eapply (key_unique key); eauto).
  by rewrite (proj2 (Z.eqb_eq _ _) Hu).
Qed.

Lemma find_token_update (tid : Z) (f : Token -> Token) (l : list Token)
    (t : Token) :
  (forall q, t_id (f q) = t_id q) ->
  NoDup (List.map t_id l) -> In t l -> t_id t = tid ->
  List.find (fun q => t_id q =? tid)
    (List.map (fun q => if t_id q =? tid then f q else q) l) = Some (f t).
Proof.
  intros Hf Hpk Hin Hid.
  induction l as [|a l IH]; simpl in *; [tauto|].
  apply NoDup_cons in Hpk as [Hna Hpk].
  destruct Hin as [->|Hin].
  - rewrite Hid, Z.eqb_refl, Hf, Hid, Z.eqb_refl. done.
  - destruct (Z.eqb_spec (t_id a) tid) as [Hk|Hk].
    + exfalso. apply Hna. rewrite Hk, <- Hid.
      apply list_elem_of_In, in_map, Hin.
    + apply Z.eqb_neq in Hk. rewrite Hk. auto.
Qed.

Lemma sql_set_active_run (b : bool) (tokenId : jsval) (tid userId now : Z)
    (d : DB) (t : Token) :
  sql_int tokenId = Some tid -> tokens_pk d ->
  In t (tokens d) -> t_id t = tid -> t_user_id t = userId ->
  sql_set_active b tokenId userId now d
  = (Ok [tid],
     set_tokens (List.map (fun q => if t_id q =? tid then set_active b q else q)) d).
Proof.
  intros Hint Hpk Hin Hid Hu. unfold sql_set_active, with_int. rewrite Hint.
  subst tid. rewrite (owned_rows t_id t_user_id _ t userId Hpk Hin Hu). simpl.
  f_equal. unfold set_tokens. f_equal.
  by apply (update_owned t_id t_user_id).
Qed.

Lemma set_active_twice (b : bool) (tid : Z) (l : list Token) :
  List.map (fun q => if t_id q =? tid then set_active b q else q)
    (List.map (fun q => if t_id q =? tid then set_active (negb b) q else q) l)
  = List.map (fun q => if t_id q =? tid then set_active b q else q) l.
Proof.
  rewrite List.map_map. apply List.map_ext. intros q.
  destruct (t_id q =? tid) eqn:Hq; simpl; by rewrite Hq.
Qed.

Lemma set_active_id (tid : Z) (l : list Token) (t : Token) :
  NoDup (List.map t_id l) -> In t l -> t_id t = tid -> t_active t = true ->
  List.map (fun q => if t_id q =? tid then set_active true q else q) l = l.
Proof.
  intros Hpk Hin Hid Hact. rewrite <- (List.map_id l) at 2.
  apply List.map_ext_in. intros q Hq.
  destruct (Z.eqb_spec (t_id q) tid) as [Hk|Hk]; [|done].
  assert (q = t) as -> by (eapply (key_unique t_id); eauto; congruence).
  destruct t. simpl in *. by subst.
Qed.

(** X1: the owner of a token can switch it off and on again.  Disabling
    clears the [active] flag of that token, enabling sets it, both return
    [true], and a token that was active is, after the two calls, back in a
    database that is equal to the one before. *)
Theorem disable_then_enable_restores (w : World) (tokenId : jsval)
    (tid userId : Z) (t : Token) :
  sql_int tokenId = Some tid -> tokens_pk (db w) ->
  In t (tokens (db w)) -> t_id t = tid -> t_user_id t = userId ->
  let off := disableToken tokenId userId w in
  let on := enableToken tokenId userId (snd off) in
  fst off = Ok true /\
  find_token tid (db (snd off)) = Some (set_active false t) /\
  fst on = Ok true /\
  find_token tid (db (snd on)) = Some (set_active true t) /\
  (t_active t = true -> db (snd on) = db w).
Proof.
  intros Hint Hpk Hin Hid Hu off on.
  assert (Hoff : off = (Ok true,
            commit (with_db (fun _ =>
              set_tokens (List.map (fun q => if t_id q =? tid
                                             then set_active false q else q))
                (db w)) w))).
  { unfold off, disableToken, bind, db_query.
    by rewrite (sql_set_active_run false tokenId tid userId (clock w) (db w) t). }
  assert (Hpk1 : tokens_pk (db (snd off))).
  { rewrite Hoff. unfold tokens_pk. simpl.
    rewrite (map_key_update t_id); [done|by intros []]. }
  assert (Hin1 : In (set_active false t) (tokens (db (snd off)))).
  { rewrite Hoff. simpl. apply in_map_iff. exists t. split; [|done].
    by rewrite (proj2 (Z.eqb_eq _ _) Hid). }
  assert (Hon : on = (Ok true,
            commit (with_db (fun _ =>
              set_tokens (List.map (fun q => if t_id q =? tid
                                             then set_active true q else q))
                (db (snd off))) (snd off)))).
  { unfold on, enableToken, bind, db_query.
    by rewrite (sql_set_active_run true tokenId tid userId (clock (snd off))
                  (db (snd off)) (set_active false t)). }
  split; [by rewrite Hoff|]. split.
  { rewrite Hoff. unfold find_token. simpl.
    by apply (find_token_update tid (set_active false)). }
  split; [by rewrite Hon|].
  assert (Htok : tokens (db (snd on))
                 = List.map (fun q => if t_id q =? tid then set_active true q else q)
                     (tokens (db w))).
  { rewrite Hon, Hoff. simpl. apply (set_active_twice true). }
  split.
  { unfold find_token. rewrite Htok.
    by apply (find_token_update tid (set_active true)). }
  intros Hact. rewrite (set_active_id tid _ t) in Htok by done.
  revert Htok. rewrite Hon, Hoff. simpl. destruct (db w). simpl.
  unfold set_tokens. simpl. by intros ->.
Qed.

Lemma oneOrNone_unique {A : Type} (key : A -> Z) (hit : A -> bool) (l : list A) :
  NoDup (List.map key l) ->
  (forall x y, hit x = true -> hit y = true -> key x = key y) ->
  List.filter hit l = [] \/ exists x, List.filter hit l = [x].
Proof.
  intros Hpk Hsame.
  destruct (List.filter hit l) as [|x [|y rest]] eqn:Hf; [by left|right; by eexists|].
  exfalso.
  assert (Hx : In x (List.filter hit l)) by (rewrite Hf; by left).
  assert (Hy : In y (List.filter hit l)) by (rewrite Hf; right; by left).
  apply filter_In in Hx as [Hx Hhx], Hy as [Hy Hhy].
  assert (x = y) as <- by (eapply (key_unique key); eauto).
  assert (Hnd : NoDup (List.filter hit l)).
  { apply NoDup_ListNoDup, List.NoDup_filter, NoDup_ListNoDup.
    eapply NoDup_fmap_1. exact Hpk. }
  rewrite Hf in Hnd. apply NoDup_cons in Hnd as [Hnd _]. apply Hnd. by left.
Qed.

(** X2: the active-token check passes exactly for a token that exists,
    belongs to the user and is active; every other outcome is the refusal
    thrown as [{status: 400}]; the check changes nothing. *)
Theorem validateTokenIsActive_spec (w : World) (tokenId : jsval)
    (tid userId : Z) :
  sql_int tokenId = Some tid -> tokens_pk (db w) ->
  let run := validateTokenIsActive tokenId userId w in
  snd run = w /\
  (fst run = Ok tt <->
     truthy tokenId = true /\ userId <> 0 /\
     exists t, In t (tokens (db w)) /\ t_id t = tid /\ t_user_id t = userId
               /\ t_active t = true) /\
  (fst run <> Ok tt ->
     fst run = Throw (ThrowStatus 400 "A valid, active API token is required.")).
Proof.
  intros Hint Hpk run. unfold run, validateTokenIsActive, isTokenActive.
  destruct (truthy tokenId) eqn:Htr; simpl.
  2:{ split; [done|]. split; [|done]. split; [discriminate|]. by intros [? _]. }
  destruct (Z.eqb_spec userId 0) as [Hu|Hu]; simpl.
  { split; [done|]. split; [|done]. split; [discriminate|]. by intros (_ & ? & _). }
  unfold bind, db_read, sql_token_active, with_int. rewrite Hint. simpl.
  set (hit := fun t => (t_id t =? tid) && (t_user_id t =? userId)).
  destruct (oneOrNone_unique t_id hit (tokens (db w)) Hpk) as [Hf|[t Hf]].
  { intros x y Hx Hy. unfold hit in *.
    rewrite andb_true_iff, !Z.eqb_eq in Hx, Hy. lia. }
  - rewrite Hf. simpl. split; [done|]. split; [|done]. split; [discriminate|].
    intros (_ & _ & t & Ht & Hid & Hown & _).
    assert (Hin : In t (List.filter hit (tokens (db w)))).
    { apply filter_In. split; [done|]. unfold hit.
      by rewrite andb_true_iff, !Z.eqb_eq. }
    rewrite Hf in Hin. destruct Hin.
  - rewrite Hf. simpl.
    assert (Ht : In t (List.filter hit (tokens (db w)))) by (rewrite Hf; by left).
    apply filter_In in Ht as [Ht Hh]. unfold hit in Hh.
    rewrite andb_true_iff, !Z.eqb_eq in Hh. destruct Hh as [Hid Hown].
    destruct (t_active t) eqn:Hact; simpl.
    + split; [done|]. split; [|done]. split; [|done]. intros _.
      split; [done|]. split; [done|]. by exists t.
    + split; [done|]. split; [|done]. split; [discriminate|].
      intros (_ & _ & t' & Ht' & Hid' & Hown' & Hact').
      assert (t' = t) as -> by (eapply (key_unique t_id); eauto; congruence).
      congruence.
Qed.

Lemma filter_others_update {A : Type} (owner : A -> Z) (hit : A -> bool)
    (f : A -> A) (u : Z) (l : list A) :
  (forall x, hit x = true -> owner x = u) ->
  (forall x, owner (f x) = owner x) ->
  List.filter (fun x => negb (owner x =? u))
    (List.map (fun x => if hit x then f x else x) l)
  = List.filter (fun x => negb (owner x =? u)) l.
Proof.
  intros Hhit Hf. induction l as [|a l IH]; simpl; [done|].
  destruct (hit a) eqn:Ha.
  - rewrite Hf, (Hhit a Ha), Z.eqb_refl. simpl. exact IH.
  - destruct (negb (owner a =? u)); by rewrite IH.
Qed.

Lemma filter_others_delete {A : Type} (owner : A -> Z) (hit : A -> bool)
    (u : Z) (l : list A) :
  (forall x, hit x = true -> owner x = u) ->
  List.filter (fun x => negb (owner x =? u))
    (List.filter (fun x => negb (hit x)) l)
  = List.filter (fun x => negb (owner x =? u)) l.
Proof.
  intros Hhit. induction l as [|a l IH]; simpl; [done|].
  destruct (hit a) eqn:Ha; simpl.
  - by rewrite (Hhit a Ha), Z.eqb_refl.
  - destruct (negb (owner a =? u)); by rewrite IH.
Qed.

Lemma owned_hit (tid u : Z) (t : Token) :
  (t_id t =? tid) && (t_user_id t =? u) = true -> t_user_id t = u.
Proof. rewrite andb_true_iff, !Z.eqb_eq. tauto. Qed.

Lemma sql_set_active_others (b : bool) (tokenId : jsval) (u now : Z) (d : DB) :
  tokens_of_others u (snd (sql_set_active b tokenId u now d))
  = tokens_of_others u d.
Proof.
  unfold sql_set_active, with_int. destruct (sql_int tokenId) as [tid|]; [|done].
  unfold tokens_of_others. simpl.
  apply (filter_others_update t_user_id); [apply owned_hit|by intros []].
Qed.

Lemma set_active_world_others (b : bool) (tokenId : jsval) (u : Z) (w : World) :
  tokens_of_others u
    (db (snd ((do rows <- db_query (sql_set_active b tokenId u);
               do result <- lift (oneOrNone rows);
               ret (match result with Some _ => true | None => false end)) w)))
  = tokens_of_others u (db w).
Proof.
  unfold bind, db_query.
  pose proof (sql_set_active_others b tokenId u (clock w) (db w)) as H.
  destruct (sql_set_active b tokenId u (clock w) (db w)) as [[rows|e] d'];
    simpl in *.
  - destruct (oneOrNone rows); simpl; exact H.
  - unfold sql_set_active, with_int in *. by destruct (sql_int tokenId).
Qed.

(** X3: no call of [disableToken], [enableToken] or [deleteToken] changes a
    token of another user: whatever the id and whatever the outcome, the
    rows of [tokens] that belong to somebody else are the same afterwards. *)
Theorem token_writes_are_owner_scoped (w : World) (tokenId : jsval) (u : Z) :
  tokens_of_others u (db (snd (disableToken tokenId u w)))
  = tokens_of_others u (db w) /\
  tokens_of_others u (db (snd (enableToken tokenId u w)))
  = tokens_of_others u (db w) /\
  tokens_of_others u (db (snd (deleteToken tokenId u w)))
  = tokens_of_others u (db w).
Proof.
  split; [apply set_active_world_others|].
  split; [apply set_active_world_others|].
  unfold deleteToken, bind, db_read, sql_token_usage, with_int.
  destruct (sql_int tokenId) as [tid|] eqn:Hint; simpl; [|done].
  destruct (oneOrNone _) as [[x|]|e]; simpl; [done| |done].
  unfold db_query, sql_delete_token, with_int. rewrite Hint. simpl.
  destruct (oneOrNone _) as [res|e]; simpl;
    unfold tokens_of_others; simpl;
    apply (filter_others_delete t_user_id); apply owned_hit.
Qed.

Lemma is_used_in_use (t : Token) (d : DB) :
  is_used t d = true <-> token_in_use (t_id t) d.
Proof.
  unfold is_used, token_in_use. rewrite existsb_exists. split.
  - intros (r & Hr & H). exists r. split; [done|].
    destruct (pt_token_id r) as [x|]; [|done]. apply Z.eqb_eq in H. by subst.
  - intros (r & Hr & H). exists r. split; [done|]. rewrite H. apply Z.eqb_refl.
Qed.

Lemma getTokensByUser_rows (w : World) (userId : Z) (row : TokenListRow) :
  In row (match fst (getTokensByUser userId w) with Ok rows => rows | Throw _ => [] end)
  <-> exists t, In t (tokens (db w)) /\ t_user_id t = userId /\
        row = {| tl_id := t_id t; tl_name := t_name t;
                 tl_created_at := t_created_at t; tl_user_id := t_user_id t;
                 tl_active := t_active t; tl_is_used := is_used t (db w) |}.
Proof.
  unfold getTokensByUser, db_read, sql_tokens_by_user. simpl.
  rewrite order_by_desc_In, in_map_iff. split.
  - intros (t & <- & [Ht Hu%Z.eqb_eq]%filter_In). by exists t.
  - intros (t & Ht & Hu & ->). exists t. split; [done|].
    apply filter_In. split; [done|]. by apply Z.eqb_eq.
Qed.

(** X4: the [is_used] flag of the token list is the answer of
    [deleteToken].  A token that the owner's list shows as used cannot be
    deleted: the call throws and changes nothing.  A token shown as unused
    is deleted, and the next list no longer has it. *)
Theorem listed_token_is_deletable_iff_unused (w : World) (userId : Z)
    (rows : list TokenListRow) (row : TokenListRow) :
  tokens_pk (db w) ->
  fst (getTokensByUser userId w) = Ok rows -> In row rows ->
  in_int4 (tl_id row) = true ->
  let run := deleteToken (JNum (tl_id row)) userId w in
  (tl_is_used row = true ->
     run = (Throw (ThrowError "Cannot delete: token is used in a project."), w)) /\
  (tl_is_used row = false ->
     fst run = Ok true /\
     forall rows', fst (getTokensByUser userId (snd run)) = Ok rows' ->
       forall r, In r rows' -> tl_id r <> tl_id row).
Proof.
  intros Hpk Hrows Hrow Hrange run.
  pose proof (proj1 (getTokensByUser_rows w userId row)) as Hin.
  rewrite Hrows in Hin. destruct (Hin Hrow) as (t & Ht & Hu & ->). clear Hin.
  simpl in *. unfold run, deleteToken, bind, db_read, sql_token_usage, with_int.
  rewrite (sql_int_num _ Hrange). simpl.
  destruct (token_usage_rows (t_id t) (db w)) as [Hused Hfree]. simpl in *.
  split.
  - intros Hu1%is_used_in_use. destruct (Hused Hu1) as (r & rest & ->).
    reflexivity.
  - intros Hu0.
    assert (Hno : ~ token_in_use (t_id t) (db w)).
    { intros H%is_used_in_use. congruence. }
    rewrite (Hfree Hno). simpl.
    unfold db_query, sql_delete_token, with_int.
    rewrite (sql_int_num _ Hrange). simpl.
    rewrite (owned_rows t_id t_user_id _ t userId Hpk Ht Hu). simpl.
    split; [done|]. intros rows' Hrows' r Hr.
    pose proof (proj1 (getTokensByUser_rows
                         (snd (run)) userId r)) as Hin.
    unfold run, deleteToken, bind, db_read, sql_token_usage, with_int in Hin.
    rewrite (sql_int_num _ Hrange) in Hin. simpl in Hin.
    rewrite (Hfree Hno) in Hin. simpl in Hin.
    unfold db_query, sql_delete_token, with_int in Hin.
    rewrite (sql_int_num _ Hrange) in Hin. simpl in Hin.
    rewrite (owned_rows t_id t_user_id _ t userId Hpk Ht Hu) in Hin.
    simpl in Hin.
    unfold getTokensByUser, db_read in Hrows'. simpl in Hrows'.
    injection Hrows' as <-.
    destruct (Hin Hr) as (t' & [Ht' Hf]%filter_In & Hu' & ->). simpl.
    intros Heq. rewrite Heq, Z.eqb_refl, Hu', Z.eqb_refl in Hf. discriminate.
Qed.

End TokenActivation.

Section TokenActivationExamples.
Import tokenActivation tokenService Scenario Cases.

Lemma disable_then_enable_restores_witness :
  db (snd (enableToken (JStr "7") 10
             (snd (disableToken (JStr "7") 10 (world0 true 0)))))
  = db (world0 true 0).
Proof.
  refine (proj2 (proj2 (proj2 (proj2
            (disable_then_enable_restores (world0 true 0) (JStr "7") 7 10 token7
               eq_refl _ _ eq_refl eq_refl)))) eq_refl).
  - by_decide.
  - by left.
Defined.

Lemma validateTokenIsActive_spec_witness :
  fst (validateTokenIsActive (JNum 7) 10 (world0 true 0)) = Ok tt.
Proof.
  destruct (validateTokenIsActive_spec (world0 true 0) (JNum 7) 7 10 eq_refl)
    as (_ & Hiff & _); [by_decide|].
  apply Hiff. split; [done|]. split; [done|].
  eexists. split; [by left|]. done.
Defined.

Lemma listed_token_is_deletable_iff_unused_witness :
  fst (deleteToken (JNum 9) 2 world_demo) = Ok true /\
  deleteToken (JNum 2) 2 world_demo
  = (Throw (ThrowError "Cannot delete: token is used in a project."), world_demo).
Proof.
  split.
  - refine (proj1 (proj2 (listed_token_is_deletable_iff_unused world_demo 2 _
                            {| tl_id := 9; tl_name := "demo"; tl_created_at := 0;
                               tl_user_id := 2; tl_active := true;
                               tl_is_used := false |} _ eq_refl _ eq_refl)
                     eq_refl)).
    + by_decide.
    + right. by left.
  - refine (proj1 (listed_token_is_deletable_iff_unused world_demo 2 _
                     {| tl_id := 2; tl_name := "demo"; tl_created_at := 0;
                        tl_user_id := 2; tl_active := true;
                        tl_is_used := true |} _ eq_refl _ eq_refl) eq_refl).
    + by_decide.
    + by left.
Defined.

End TokenActivationExamples.

(** ** Switching the token of a project: settingsService.js *)

Section TokenSwitch.
Import tokenSwitch.

Lemma owned_dec {A : Type} (key owner : A -> Z) (l : list A) (k u : Z) :
  NoDup (List.map key l) ->
  (exists x, In x l /\ key x = k /\ owner x = u
             /\ List.filter (fun y => (key y =? k) && (owner y =? u)) l = [x]) \/
  ((forall x, In x l -> key x = k -> owner x <> u)
   /\ List.filter (fun y => (key y =? k) && (owner y =? u)) l = []).
Proof.
  intros Hpk.
  destruct (List.filter (fun y => (key y =? k) && (owner y =? u)) l)
    as [|x rest] eqn:Hf.
  - right. split; [|done]. intros x Hx Hk Hu.
    assert (Hin : In x (List.filter (fun y => (key y =? k) && (owner y =? u)) l)).
    { apply filter_In. split; [done|]. by rewrite andb_true_iff, !Z.eqb_eq. }
    rewrite Hf in Hin. destruct Hin.
  - left. exists x.
    assert (Hx : In x (List.filter (fun y => (key y =? k) && (owner y =? u)) l))
      by (rewrite Hf; by left).
    apply filter_In in Hx as [Hx Hh]. rewrite andb_true_iff, !Z.eqb_eq in Hh.
    destruct Hh as [Hk Hu]. split; [done|]. split; [done|]. split; [done|].
    subst k. rewrite <- Hf. by apply owned_rows.
Qed.

(** X5: the three outcomes of [switchProjectToken].  Without a project of
    that id owned by the caller it throws [project.notFound]; with the
    project but without a token of that id owned by the caller it throws
    [token.notFound]; both leave the state as it was.  Otherwise it returns
    [true], and the rows of [project_tokens] are the old ones without those
    of the project, followed by one new row that binds the project to the
    token; whether the token is active is not looked at. *)
Theorem switchProjectToken_outcomes (w : World) (projectId tokenId : jsval)
    (pid tid userId : Z) :
  sql_int projectId = Some pid -> sql_int tokenId = Some tid ->
  projects_pk (db w) -> tokens_pk (db w) ->
  let run := switchProjectToken projectId tokenId userId w in
  (~ owns_project userId pid (db w) ->
     run = (Throw (ThrowStr "project.notFound"), w)) /\
  (owns_project userId pid (db w) -> ~ owns_token userId tid (db w) ->
     run = (Throw (ThrowStr "token.notFound"), w)) /\
  (owns_project userId pid (db w) -> owns_token userId tid (db w) ->
     fst run = Ok true /\
     project_tokens (db (snd run))
     = List.filter (fun r => negb (pt_project_id r =? pid)) (project_tokens (db w))
       ++ [ {| pt_id := project_tokens_id_seq (seqs (db w));
               pt_project_id := pid; pt_token_id := Some tid |} ] /\
     bindings_of pid (db (snd run))
     = [ {| pt_id := project_tokens_id_seq (seqs (db w));
            pt_project_id := pid; pt_token_id := Some tid |} ] /\
     projects (db (snd run)) = projects (db w) /\
     tokens (db (snd run)) = tokens (db w)).
Proof.
  intros Hp Ht Hppk Htpk run.
  unfold run, switchProjectToken, tx, bind, t_query, sql_project_owned, with_int.
  rewrite Hp. simpl.
  destruct (owned_dec p_id p_user_id (projects (db w)) pid userId Hppk)
    as [(p & Hpin & Hpid & Hpu & Hpf)|[Hpn Hpf]]; rewrite Hpf; simpl.
  2:{ split; [|split].
      - intros _. f_equal. by apply tx_rollback_same.
      - intros (p & Hin & Hid & Hu). by destruct (Hpn p Hin Hid).
      - intros (p & Hin & Hid & Hu). by destruct (Hpn p Hin Hid). }
  split; [intros H; destruct H; by exists p|].
  unfold sql_token_owned, with_int. rewrite Ht. simpl.
  destruct (owned_dec t_id t_user_id (tokens (db w)) tid userId Htpk)
    as [(t & Htin & Htid & Htu & Htf)|[Htn Htf]]; rewrite Htf; simpl.
  2:{ split.
      - intros _ _. f_equal. by apply tx_rollback_same.
      - intros _ (t & Hin & Hid & Hu). by destruct (Htn t Hin Hid). }
  split; [intros _ H; destruct H; by exists t|]. intros _ _.
  unfold sql_delete_bindings, sql_insert_binding, with_int. rewrite Hp, Ht. simpl.
  unfold projectCreation.sql_insert_project_token. simpl.
  assert (Hex : existsb (fun t0 => t_id t0 =? tid) (tokens (db w)) = true).
  { apply existsb_exists. exists t. split; [done|]. by apply Z.eqb_eq. }
  rewrite Hex, (project_exists_In pid _ p) by done. simpl.
  split; [done|]. split; [done|]. split; [|done].
  unfold bindings_of. simpl. rewrite List.filter_app. simpl.
  rewrite Z.eqb_refl. rewrite filter_none; [done|].
  intros r [_ Hr]%filter_In. by apply negb_true_iff.
Qed.

End TokenSwitch.

Section TokenSwitchExamples.
Import tokenSwitch Scenario.

Lemma switchProjectToken_outcomes_witness :
  fst (switchProjectToken (JNum 100) (JNum 7) 10 (world0 true 0)) = Ok true /\
  switchProjectToken (JNum 100) (JNum 7) 11 (world0 true 0)
  = (Throw (ThrowStr "project.notFound"), world0 true 0).
Proof.
  destruct (switchProjectToken_outcomes (world0 true 0) (JNum 100) (JNum 7)
              100 7 10 eq_refl eq_refl) as (_ & _ & Hok); [by_decide|by_decide|].
  destruct (switchProjectToken_outcomes (world0 true 0) (JNum 100) (JNum 7)
              100 7 11 eq_refl eq_refl) as (Hno & _); [by_decide|by_decide|].
  split.
  - refine (proj1 (Hok _ _)); eexists; (split; [by left|done]).
  - apply Hno. intros (p & [<-|[]] & _ & Hu). discriminate Hu.
Defined.

End TokenSwitchExamples.

(** ** One token binding per project *)

Section Bindings.
Import tokenSwitch projectDeletion projectCreation tokenService.

Lemma bindings_invariant_seqs : seqs_irrelevant bindings_invariant.
Proof. by intros f d. Qed.

Lemma tx_Throw {A : Type} (body : M A) (w w' : World) (e : Thrown) :
  tx body w = (Throw e, w') -> exists s, db w' = set_seqs (fun _ => s) (db w).
Proof.
  unfold tx. destruct (body w) as [[a|e'] w1]; [discriminate|].
  intros [= _ <-]. by eexists.
Qed.

Lemma filter_length_le {A : Type} (f : A -> bool) (l : list A) :
  (List.length (List.filter f l) <= List.length l)%nat.
Proof.
  induction l as [|a l IH]; simpl; [lia|]. destruct (f a); simpl; lia.
Qed.

Lemma bindings_after_switch (pid : Z) (row : ProjectToken) (d d' : DB) :
  bindings_invariant d ->
  pt_project_id row = pid -> project_exists pid d = true ->
  projects d' = projects d ->
  project_tokens d'
  = List.filter (fun r => negb (pt_project_id r =? pid)) (project_tokens d) ++ [row] ->
  bindings_invariant d'.
Proof.
  intros [Hu Hr] Hrow Hex Hp Hpt. split.
  - intros pid'. unfold bindings_of. rewrite Hpt, List.filter_app, List.length_app.
    simpl. rewrite Hrow.
    destruct (Z.eqb_spec pid pid') as [<-|Hne]; simpl.
    + rewrite filter_none; [simpl; lia|].
      intros r [_ Hn]%filter_In. by apply negb_true_iff.
    + rewrite filter_filter. specialize (Hu pid'). unfold bindings_of in Hu.
      pose proof (filter_length_le
                    (fun r => negb (pt_project_id r =? pid))
                    (List.filter (fun r => pt_project_id r =? pid') (project_tokens d))).
      rewrite filter_filter in H.
      erewrite List.filter_ext; [|intros r; apply andb_comm]. lia.
  - intros r. rewrite Hpt. unfold project_exists. rewrite Hp.
    intros [[Hin _]%filter_In|[<-|[]]]%in_app_or.
    + by apply Hr.
    + by rewrite Hrow.
Qed.

Lemma switchProjectToken_keeps (projectId tokenId : jsval) (u : Z) :
  preserves bindings_invariant (switchProjectToken projectId tokenId u).
Proof.
  intros w Hw.
  destruct (switchProjectToken projectId tokenId u w) as [[b|e] w'] eqn:Hrun;
    simpl.
  2:{ apply tx_Throw in Hrun as [s ->]. by apply bindings_invariant_seqs. }
  unfold switchProjectToken in Hrun.
  apply tx_Ok in Hrun as (w1 & Hrun & ->).
  apply bind_Ok in Hrun as (rows & w2 & (d2 & Hq & ->)%t_query_Ok & Hrun).
  unfold sql_project_owned, with_int in Hq.
  destruct (sql_int projectId) as [pid|] eqn:Hp; [|discriminate].
  injection Hq as <- <-.
  apply bind_Ok in Hrun as (project & w3 & [Hone ->]%lift_Ok & Hrun).
  destruct project as [x|]; [|discriminate].
  apply bind_Ok in Hrun as (rows' & w4 & (d4 & Hq & ->)%t_query_Ok & Hrun).
  unfold sql_token_owned, with_int in Hq. simpl in Hq.
  destruct (sql_int tokenId) as [tid|] eqn:Ht; [|discriminate].
  injection Hq as <- <-.
  apply bind_Ok in Hrun as (token & w5 & [Hone' ->]%lift_Ok & Hrun).
  destruct token as [y|]; [|discriminate].
  apply bind_Ok in Hrun as (u1 & w6 & (d6 & Hq & ->)%t_query_Ok & Hrun).
  unfold sql_delete_bindings, with_int in Hq. simpl in Hq. rewrite Hp in Hq.
  injection Hq as <- <-.
  apply bind_Ok in Hrun as (u2 & w7 & (d7 & Hq & ->)%t_query_Ok & Hrun).
  apply ret_Ok in Hrun as [_ ->].
  unfold sql_insert_binding, with_int, sql_insert_project_token in Hq.
  simpl in Hq. rewrite Hp, Ht in Hq.
  destruct (existsb _ _ && project_exists pid _) eqn:Hfk; [|discriminate].
  injection Hq as _ <-. simpl.
  apply andb_true_iff in Hfk as [_ Hex].
  eapply (bindings_after_switch pid); [exact Hw|..]; simpl.
  4: reflexivity. all: done.
Qed.

Lemma bindings_after_delete (d d' : DB) (gone : Z -> bool) :
  bindings_invariant d ->
  (forall p, In p (projects d) -> gone (p_id p) = false -> In p (projects d')) ->
  project_tokens d'
  = List.filter (fun r => negb (gone (pt_project_id r))) (project_tokens d) ->
  bindings_invariant d'.
Proof.
  intros [Hu Hr] Hkeep Hpt. split.
  - intros pid. unfold bindings_of. rewrite Hpt, filter_filter.
    specialize (Hu pid). unfold bindings_of in Hu.
    pose proof (filter_length_le (fun r => negb (gone (pt_project_id r)))
                  (List.filter (fun r => pt_project_id r =? pid) (project_tokens d))).
    rewrite filter_filter in H.
    erewrite List.filter_ext; [|intros r; apply andb_comm]. lia.
  - intros r. rewrite Hpt. intros [Hin Hg%negb_true_iff]%filter_In.
    specialize (Hr r Hin). unfold project_exists in *.
    apply existsb_exists in Hr as (p & Hp & Hid%Z.eqb_eq).
    apply existsb_exists. exists p. split; [|by apply Z.eqb_eq].
    apply Hkeep; [done|]. by rewrite Hid.
Qed.

Lemma mem_In (x : Z) (l : list Z) : mem x l = true <-> In x l.
Proof.
  unfold mem. rewrite existsb_exists. split.
  - by intros (y & Hy & ->%Z.eqb_eq).
  - intros H. exists x. split; [done|]. apply Z.eqb_refl.
Qed.

Lemma sql_delete_project_keeps (projectId : jsval) (u now : Z) :
  stmt_preserves bindings_invariant (sql_delete_project projectId u now).
Proof.
  unfold sql_delete_project. apply stmt_preserves_with_int. intros pid d Hd.
  simpl.
  set (hit := fun p => (p_id p =? pid) && (p_user_id p =? u)).
  set (gone := List.map p_id (List.filter hit (projects d))).
  apply (bindings_after_delete d _ (fun x => mem x gone)); [done| |done].
  simpl. intros p Hp Hg. apply filter_In. split; [done|].
  apply negb_true_iff. destruct (hit p) eqn:Hh; [|done].
  assert (In (p_id p) gone) as Hin%mem_In; [|congruence].
  apply in_map, filter_In. by split.
Qed.

Lemma deleteProject_keeps (projectId : jsval) (u : Z) :
  preserves bindings_invariant (deleteProject projectId u).
Proof.
  unfold deleteProject. apply preserves_tx; [apply bindings_invariant_seqs|].
  apply preserves_bind.
  { apply preserves_t_query. intros now. unfold sql_member_agents.
    apply stmt_preserves_with_int. by intros pid d Hd. }
  intros ids. apply preserves_bind.
  { apply preserves_t_query. intros now. apply sql_delete_project_keeps. }
  intros rows. apply preserves_bind; [apply preserves_lift|].
  intros [x|]; [|apply preserves_throw].
  apply preserves_bind; [|intros _; apply preserves_ret].
  destruct ids; [apply preserves_ret|].
  apply preserves_t_query. by intros now d Hd.
Qed.

Lemma deleteToken_keeps (tokenId : jsval) (u : Z) :
  preserves bindings_invariant (deleteToken tokenId u).
Proof.
  unfold deleteToken. apply preserves_bind; [apply preserves_db_read|].
  intros rows. apply preserves_bind; [apply preserves_lift|].
  intros [x|]; [apply preserves_throw|].
  apply preserves_bind; [|intros deleted; apply preserves_bind;
                            [apply preserves_lift|intros r; apply preserves_ret]].
  apply preserves_db_query; [apply bindings_invariant_seqs|].
  intros now. unfold sql_delete_token. apply stmt_preserves_with_int.
  intros tid d [Hu Hr]. simpl.
  set (f := fun r : ProjectToken => _).
  assert (Hid : forall r, pt_project_id (f r) = pt_project_id r).
  { intros r. unfold f. destruct (pt_token_id r); [|done].
    by destruct (mem _ _). }
  split.
  - intros pid. unfold bindings_of. simpl.
    specialize (Hu pid). unfold bindings_of in Hu.
    assert (Hlen : forall l,
               List.length (List.filter (fun r => pt_project_id r =? pid) (List.map f l))
               = List.length (List.filter (fun r => pt_project_id r =? pid) l)).
    { induction l as [|a l IH]; simpl; [done|]. rewrite Hid.
      destruct (pt_project_id a =? pid); simpl; by rewrite IH. }
    by rewrite Hlen.
  - intros r. simpl. intros (r0 & <- & Hin)%in_map_iff. rewrite Hid.
    by apply Hr.
Qed.

Section CreationFrame.
Context {X : Type} (g : DB -> X) (x : X).
Hypothesis Hagent : forall u a now d, g (snd (sql_insert_agent u a now d)) = g d.
Hypothesis Hmember :
  forall pid m ids now d, g (snd (sql_insert_member pid m ids now d)) = g d.
Hypothesis Hconv :
  forall a b c f now d,
    g (snd (conversationService.sql_insert_conversation a b c f now d)) = g d.

Lemma insert_agents_frame (u : Z) (agents : list AgentInput) :
  preserves (fun d => g d = x) (insert_agents u agents).
Proof.
  induction agents as [|a rest IH]; simpl; [apply preserves_ret|].
  apply preserves_bind.
  { apply preserves_t_query. intros now d Hd. by rewrite Hagent. }
  intros rows. apply preserves_bind; [apply preserves_lift|]. intros id.
  apply preserves_bind; [exact IH|]. intros tail. apply preserves_ret.
Qed.

Lemma link_pairs_frame (pid agentId : Z) (others : list Z)
    (createdPairs : gset (Z * Z)) :
  preserves (fun d => g d = x) (link_pairs pid agentId others createdPairs).
Proof.
  revert createdPairs. induction others as [|o rest IH]; intros cp; simpl;
    [apply preserves_ret|].
  destruct (decide _); [apply IH|].
  apply preserves_bind; [|intros _; apply IH].
  apply preserves_t_query. intros now d Hd. by rewrite Hconv.
Qed.

Lemma insert_members_frame (pid : Z) (ids : list Z)
    (memberList : list MemberEntry) (createdPairs : gset (Z * Z)) :
  preserves (fun d => g d = x) (insert_members pid ids memberList createdPairs).
Proof.
  revert createdPairs. induction memberList as [|m rest IH]; intros cp; simpl;
    [apply preserves_ret|].
  apply preserves_bind.
  { apply preserves_t_query. intros now d Hd. by rewrite Hmember. }
  intros _. apply preserves_bind; [apply link_pairs_frame|].
  intros cp'. apply IH.
Qed.

End CreationFrame.

Lemma sql_insert_member_frame {X : Type} (g : DB -> X) :
  (forall f d, g (set_members f d) = g d) ->
  forall pid m ids now d, g (snd (sql_insert_member pid m ids now d)) = g d.
Proof.
  intros Hg pid m ids now d. unfold sql_insert_member.
  destruct (existsb _ _); [done|]. destruct (_ && _); [|done]. apply Hg.
Qed.

Lemma sql_insert_conversation_frame {X : Type} (g : DB -> X) :
  (forall f d, g (set_conversations f d) = g d) ->
  (forall f d, g (set_seqs f d) = g d) ->
  forall a b c fl now d,
    g (snd (conversationService.sql_insert_conversation a b c fl now d)) = g d.
Proof.
  intros Hg Hs a b c fl now d.
  unfold conversationService.sql_insert_conversation, with_int.
  destruct (sql_int a); [|done]. destruct (sql_int b); [|done].
  destruct (sql_int c); [|done]. simpl.
  destruct (negb _); [apply Hs|].
  destruct (existsb _ _); [destruct fl; apply Hs|].
  destruct (negb _); [apply Hs|]. simpl. by rewrite Hg, Hs.
Qed.

(** What a project creation that returns leaves in [projects] and
    [project_tokens]. *)
Lemma createProjectWithMembers_tables (userId : Z) (title : string)
    (description systemPrompt : option string) (agents : list AgentInput)
    (tokenId : option Z) (w w' : World) (project : Project) :
  createProjectWithMembers userId title description systemPrompt agents tokenId w
  = (Ok project, w') ->
  project = {| p_id := projects_id_seq (seqs (db w)); p_user_id := userId;
               p_title := title; p_description := description;
               p_system_prompt := systemPrompt; p_paused := true;
               p_message_limit := 0; p_created_at := clock w;
               p_last_activity_at := clock w |} /\
  projects (db w') = projects (db w) ++ [project] /\
  project_tokens (db w')
  = project_tokens (db w)
    ++ match tokenId with
       | Some tid =>
           if tid =? 0 then []
           else [ {| pt_id := project_tokens_id_seq (seqs (db w));
                     pt_project_id := p_id project; pt_token_id := Some tid |} ]
       | None => []
       end /\
  tokens (db w') = tokens (db w).
Proof.
  intros Hrun. unfold createProjectWithMembers in Hrun.
  apply tx_Ok in Hrun as (w1 & Hrun & ->).
  apply bind_Ok in Hrun as (rows & w2 & (d2 & Hq & ->)%t_query_Ok & Hrun).
  unfold sql_existing_title in Hq. injection Hq as <- <-.
  apply bind_Ok in Hrun as (existing & w3 & [Hone ->]%lift_Ok & Hrun).
  destruct existing as [x|]; [discriminate|].
  apply bind_Ok in Hrun as (inserted & w4 & (d4 & Hq & ->)%t_query_Ok & Hrun).
  unfold sql_insert_project in Hq. simpl in Hq. injection Hq as <- <-.
  apply bind_Ok in Hrun as (pr & w5 & [Hone' ->]%lift_Ok & Hrun).
  simpl in Hone'. injection Hone' as <-.
  apply bind_Ok in Hrun as (u1 & w6 & Htok & Hrun).
  apply bind_Ok in Hrun as (created & w7 & Hagents & Hrun).
  apply bind_Ok in Hrun as (u2 & w8 & Hmembers & Hrun).
  apply ret_Ok in Hrun as [<- ->].
  split; [done|].
  set (g := fun d => (projects d, project_tokens d, tokens d)).
  assert (H78 : g (db w8) = g (db w7)).
  { change (g (db w8)) with (g (db (snd (Ok u2, w8)))). rewrite <- Hmembers.
    apply (insert_members_frame g (g (db w7))
             (sql_insert_member_frame g (fun _ _ => eq_refl))
             (sql_insert_conversation_frame g (fun _ _ => eq_refl)
                (fun _ _ => eq_refl))).
    reflexivity. }
  assert (H67 : g (db w7) = g (db w6)).
  { change (g (db w7)) with (g (db (snd (Ok created, w7)))). rewrite <- Hagents.
    apply (insert_agents_frame g (g (db w6)) (fun _ _ _ _ => eq_refl)).
    reflexivity. }
  rewrite H67 in H78. clear H67 Hagents Hmembers. unfold g in H78. simpl.
  injection H78 as -> -> ->.
  destruct tokenId as [tid|].
  - destruct (tid =? 0).
    + apply ret_Ok in Htok as [_ ->]. simpl. by rewrite app_nil_r.
    + apply t_query_Ok in Htok as (d6 & Hq & ->).
      unfold sql_insert_project_token in Hq. simpl in Hq.
      destruct (_ && _); [|discriminate]. by injection Hq as _ <-.
  - apply ret_Ok in Htok as [_ ->]. simpl. by rewrite app_nil_r.
Qed.

Lemma bindings_after_create (d d' : DB) (project : Project)
    (extra : list ProjectToken) :
  bindings_invariant d ->
  project_exists (p_id project) d = false ->
  projects d' = projects d ++ [project] ->
  project_tokens d' = project_tokens d ++ extra ->
  (extra = [] \/ exists r, extra = [r] /\ pt_project_id r = p_id project) ->
  bindings_invariant d'.
Proof.
  intros [Hu Hr] Hfresh Hp Hpt Hextra.
  assert (Hex : forall pid, project_exists pid d = true -> project_exists pid d' = true).
  { intros pid. unfold project_exists. rewrite Hp, existsb_app. by intros ->. }
  destruct Hextra as [->|(r & -> & Hid)].
  - rewrite app_nil_r in Hpt. split.
    + intros pid. unfold bindings_of. rewrite Hpt. apply Hu.
    + intros r. rewrite Hpt. intros Hin. by apply Hex, Hr.
  - split.
    + intros pid. unfold bindings_of. rewrite Hpt, List.filter_app, List.length_app.
      simpl. rewrite Hid. specialize (Hu pid). unfold bindings_of in Hu.
      destruct (Z.eqb_spec (p_id project) pid) as [<-|Hne]; simpl; [|lia].
      rewrite filter_none; [simpl; lia|].
      intros r0 Hr0. apply Z.eqb_neq. intros Heq.
      specialize (Hr r0 Hr0). congruence.
    + intros r0. rewrite Hpt. intros [Hin|[<-|[]]]%in_app_or.
      * by apply Hex, Hr.
      * rewrite Hid. unfold project_exists. rewrite Hp, existsb_app. simpl.
        rewrite Z.eqb_refl. by rewrite orb_true_r.
Qed.

(** X6: every project has at most one row in [project_tokens], and every
    row names an existing project; [switchProjectToken], [deleteProject]
    and [deleteToken] keep this whatever they are called with and whatever
    they return, and so does [createProjectWithMembers] when the next
    project id is not taken. *)
Theorem token_binding_invariant_kept (w : World) :
  bindings_invariant (db w) ->
  (forall projectId tokenId u,
     bindings_invariant (db (snd (switchProjectToken projectId tokenId u w)))) /\
  (forall projectId u,
     bindings_invariant (db (snd (deleteProject projectId u w)))) /\
  (forall tokenId u,
     bindings_invariant (db (snd (deleteToken tokenId u w)))) /\
  (forall u title description systemPrompt agents tokenId,
     project_exists (projects_id_seq (seqs (db w))) (db w) = false ->
     bindings_invariant
       (db (snd (createProjectWithMembers u title description systemPrompt
                   agents tokenId w)))).
Proof.
  intros Hw. split; [|split; [|split]].
  - intros projectId tokenId u. by apply switchProjectToken_keeps.
  - intros projectId u. by apply deleteProject_keeps.
  - intros tokenId u. by apply deleteToken_keeps.
  - intros u title description systemPrompt agents tokenId Hfresh.
    destruct (createProjectWithMembers u title description systemPrompt agents
                tokenId w) as [[project|e] w'] eqn:Hrun; simpl.
    2:{ apply tx_Throw in Hrun as [s ->]. by apply bindings_invariant_seqs. }
    apply createProjectWithMembers_tables in Hrun as (Hproject & Hp & Hpt & _).
    assert (Hid : p_id project = projects_id_seq (seqs (db w))) by by subst.
    eapply (bindings_after_create (db w) (db w') project); eauto.
    + by rewrite Hid.
    + destruct tokenId as [tid|]; [|by left].
      destruct (tid =? 0); [by left|]. right. by eexists.
Qed.

End Bindings.

Section BindingsExamples.
Import tokenSwitch Scenario.

Lemma scenario_bindings_invariant (paused : bool) (budget : Z) :
  bindings_invariant (db (world0 paused budget)).
Proof.
  split.
  - intros pid. unfold bindings_of.
    cbn [db world0 db0 project_tokens List.filter pt_project_id].
    destruct (100 =? pid); simpl; lia.
  - intros r [<-|[]]. reflexivity.
Qed.

Lemma token_binding_invariant_kept_witness :
  bindings_invariant
    (db (snd (switchProjectToken (JNum 100) (JNum 7) 10 (world0 true 0)))).
Proof.
  exact (proj1 (token_binding_invariant_kept (world0 true 0)
                  (scenario_bindings_invariant true 0)) (JNum 100) (JNum 7) 10).
Defined.

End BindingsExamples.

(** ** What the worker reads: flags and active projects *)

Section Flags.
Import projectQueries tokenActivation settingsService projectService.

Lemma left_join_filter {A B : Type} (on : A -> B -> bool) (h : A -> bool)
    (l : list A) (r : list B) :
  List.filter (fun row => h (fst row)) (Sql.left_join on l r)
  = Sql.left_join on (List.filter h l) r.
Proof.
  unfold Sql.left_join.
  set (block := fun a : A => match List.filter (on a) r with
                             | [] => [(a, None)]
                             | matches => List.map (fun b => (a, Some b)) matches
                             end).
  assert (Hblock : forall a,
             List.filter (fun row => h (fst row)) (block a)
             = if h a then block a else []).
  { intros a.
    assert (Hrows : forall row, In row (block a) -> fst row = a).
    { intros row. unfold block. destruct (List.filter (on a) r) as [|b m].
      - by intros [<-|[]].
      - by intros (b' & <- & _)%in_map_iff. }
    destruct (h a) eqn:Ha.
    - apply filter_all. intros row Hr. by rewrite (Hrows row Hr).
    - apply filter_none. intros row Hr. by rewrite (Hrows row Hr). }
  induction l as [|a l IH]; [done|].
  cbn [flat_map List.filter]. rewrite List.filter_app, IH, Hblock.
  by destruct (h a).
Qed.

Lemma left_join_one {A B : Type} (on : A -> B -> bool) (a : A) (r : list B) :
  Sql.left_join on [a] r
  = match List.filter (on a) r with
    | [] => [(a, None)]
    | matches => List.map (fun b => (a, Some b)) matches
    end.
Proof. unfold Sql.left_join. cbn [flat_map]. apply app_nil_r. Qed.

Lemma find_project_rows (pid : Z) (d : DB) :
  projects_pk d ->
  List.filter (fun p => p_id p =? pid) (projects d)
  = match find_project pid d with Some p => [p] | None => [] end.
Proof.
  intros Hpk. destruct (find_project pid d) as [p|] eqn:Hf.
  - unfold find_project in Hf. apply List.find_some in Hf as [Hin Hid%Z.eqb_eq].
    subst pid. by apply filter_key_unique.
  - apply filter_none. intros p Hp.
    exact (List.find_none _ _ Hf p Hp).
Qed.

Lemma find_token_rows (tid : Z) (d : DB) :
  tokens_pk d ->
  List.filter (fun t => t_id t =? tid) (tokens d)
  = match find_token tid d with Some t => [t] | None => [] end.
Proof.
  intros Hpk. destruct (find_token tid d) as [t|] eqn:Hf.
  - unfold find_token in Hf. apply List.find_some in Hf as [Hin Hid%Z.eqb_eq].
    subst tid. by apply filter_key_unique.
  - apply filter_none. intros t Ht.
    exact (List.find_none _ _ Hf t Ht).
Qed.

Lemma getProjectFlags_run (w : World) (projectId : jsval) (pid : Z) :
  sql_int projectId = Some pid ->
  projects_pk (db w) -> tokens_pk (db w) -> bindings_unique (db w) ->
  getProjectFlags projectId w
  = (Ok (option_map
           (fun p => {| f_paused := p_paused p;
                        f_message_limit := p_message_limit p;
                        f_is_token_active := bound_token_active pid (db w) |})
           (find_project pid (db w))), w).
Proof.
  intros Hint Hppk Htpk Hu.
  unfold getProjectFlags, bind, db_read, sql_project_flags, with_int.
  rewrite Hint. simpl.
  rewrite (left_join_filter _ (fun row => p_id (fst row) =? pid)).
  rewrite (left_join_filter _ (fun p => p_id p =? pid)).
  rewrite find_project_rows by done.
  destruct (find_project pid (db w)) as [p|] eqn:Hf; [|reflexivity].
  assert (Hid : p_id p = pid).
  { unfold find_project in Hf. by apply List.find_some in Hf as [_ ?%Z.eqb_eq]. }
  cbn [option_map]. unfold bound_token_active. specialize (Hu pid). unfold bindings_of in *.
  rewrite left_join_one. unfold on_binding. rewrite Hid.
  destruct (List.filter _ (project_tokens (db w))) as [|r [|r' rest]];
    simpl in Hu; [| |lia]; cbn [List.map]; rewrite left_join_one; simpl.
  { rewrite filter_none; [done|]. by intros t _. }
  destruct (pt_token_id r) as [tid|]; simpl.
  2:{ rewrite filter_none; [done|]. by intros t _. }
  rewrite find_token_rows by done.
  by destruct (find_token tid (db w)).
Qed.

(** X7: the flags the worker polls.  With unique project and token ids and
    at most one token binding per project, the handler answers 200 for
    every decimal project id: for an existing project with its [paused]
    flag, its [message_limit] and whether the token it is bound to is
    active ([false] without a binding, or with a binding whose token is
    gone); for an unknown project with the stand-in [paused: true,
    message_limit: 0]. *)
Theorem getProjectFlags_answer (w : World) (projectId : jsval) (pid : Z) :
  sql_int projectId = Some pid ->
  projects_pk (db w) -> tokens_pk (db w) -> bindings_unique (db w) ->
  internalController.getProjectFlags projectId w
  = (Ok {| status := 200;
           body :=
             Json match find_project pid (db w) with
                  | Some p =>
                      {| internalController.fa_paused := p_paused p;
                         internalController.fa_message_limit := p_message_limit p;
                         internalController.fa_is_token_active :=
                           Some (bound_token_active pid (db w)) |}
                  | None =>
                      {| internalController.fa_paused := true;
                         internalController.fa_message_limit := 0;
                         internalController.fa_is_token_active := None |}
                  end |}, w).
Proof.
  intros Hint Hppk Htpk Hu.
  unfold internalController.getProjectFlags, tryCatch, bind.
  rewrite (getProjectFlags_run w projectId pid) by done.
  by destruct (find_project pid (db w)).
Qed.

(** X8: disabling a token is seen by the worker.  When the owner disables
    the token that a project is bound to, the next flags of that project
    report [is_token_active = false], and [paused] and [message_limit] as
    they were. *)
Theorem disabled_token_shows_in_flags (w : World) (projectId tokenId : jsval)
    (pid tid userId : Z) (p : Project) (t : Token) (r : ProjectToken) :
  sql_int projectId = Some pid -> sql_int tokenId = Some tid ->
  projects_pk (db w) -> tokens_pk (db w) -> bindings_unique (db w) ->
  find_project pid (db w) = Some p ->
  In t (tokens (db w)) -> t_id t = tid -> t_user_id t = userId ->
  In r (project_tokens (db w)) -> pt_project_id r = pid ->
  pt_token_id r = Some tid ->
  let w1 := snd (disableToken tokenId userId w) in
  fst (disableToken tokenId userId w) = Ok true /\
  fst (getProjectFlags projectId w1)
  = Ok (Some {| f_paused := p_paused p;
                f_message_limit := p_message_limit p;
                f_is_token_active := false |}).
Proof.
  intros Hp Ht Hppk Htpk Hu Hfind Hin Hid Hown Hr Hrp Hrt w1.
  assert (Hoff : disableToken tokenId userId w
                 = (Ok true,
                    commit (with_db (fun _ =>
                      set_tokens (List.map (fun q => if t_id q =? tid
                                                     then set_active false q else q))
                        (db w)) w))).
  { unfold disableToken, bind, db_query.
    by rewrite (sql_set_active_run false tokenId tid userId (clock w) (db w) t). }
  split; [by rewrite Hoff|]. unfold w1. rewrite Hoff. simpl.
  rewrite (getProjectFlags_run _ projectId pid); simpl; try done.
  2:{ unfold tokens_pk. simpl. rewrite (map_key_update t_id); [done|by intros []]. }
  unfold find_project in *. simpl. rewrite Hfind. simpl. do 3 f_equal.
  unfold bound_token_active, bindings_of. simpl.
  specialize (Hu pid). unfold bindings_of in Hu.
  assert (Hrin : In r (List.filter (fun r0 => pt_project_id r0 =? pid)
                         (project_tokens (db w)))).
  { apply filter_In. split; [done|]. by apply Z.eqb_eq. }
  destruct (List.filter _ (project_tokens (db w))) as [|r0 [|r1 rest]];
    simpl in *; [done| |lia].
  destruct Hrin as [->|[]]. rewrite Hrt. unfold find_token. simpl.
  by rewrite (find_token_update tid (set_active false) _ t).
Qed.

(** X9: a project whose budget ran out is no longer active.  After a
    decrement that succeeds with a new limit at or below 0, no row of
    [getActiveProjects] carries the id of that project. *)
Theorem exhausted_project_is_not_active (w w' : World) (projectId : jsval)
    (pid n : Z) (r : DecrementResult) :
  sql_int projectId = Some pid ->
  decrementMessageLimit projectId w = (Ok r, w') ->
  success r = true -> newLimit r = Some n -> n <= 0 ->
  forall rows, fst (getActiveProjects w') = Ok rows ->
  forall a, In a rows -> ap_id a <> pid.
Proof.
  intros Hint Hrun Hok Hn Hle rows Hrows a Ha.
  apply decrementMessageLimit_returns in Hrun as (pid' & Hint' & Hcase).
  assert (pid' = pid) as -> by congruence.
  destruct Hcase as [[Hs _]|(x & Hx & _ & Hnew & Hprojects)]; [congruence|].
  assert (n = p_message_limit x - 1) as -> by congruence.
  apply Z.leb_le in Hle. rewrite Hle in Hprojects.
  unfold getActiveProjects, db_read, sql_active_projects in Hrows.
  simpl in Hrows. injection Hrows as <-.
  apply in_map_iff in Ha as (q' & <- & [Hq' Hactive]%filter_In). simpl.
  rewrite Hprojects in Hq'. apply in_map_iff in Hq' as (q & <- & Hq).
  destruct (Z.eqb_spec (p_id q) pid) as [Hk|Hk]; [|done].
  simpl in Hactive. discriminate.
Qed.

End Flags.

Section FlagsExamples.
Import projectQueries tokenActivation settingsService Scenario Cases.

Lemma getProjectFlags_answer_witness :
  fst (internalController.getProjectFlags (JStr "100") (world0 false 5))
  = Ok {| status := 200;
          body := Json {| internalController.fa_paused := false;
                          internalController.fa_message_limit := 5;
                          internalController.fa_is_token_active := Some true |} |}
  /\
  fst (internalController.getProjectFlags (JStr "404") (world0 false 5))
  = Ok {| status := 200;
          body := Json {| internalController.fa_paused := true;
                          internalController.fa_message_limit := 0;
                          internalController.fa_is_token_active := None |} |}.
Proof.
  split.
  - rewrite (getProjectFlags_answer (world0 false 5) (JStr "100") 100 eq_refl);
      [reflexivity|by_decide|by_decide|].
    apply scenario_bindings_invariant.
  - rewrite (getProjectFlags_answer (world0 false 5) (JStr "404") 404 eq_refl);
      [reflexivity|by_decide|by_decide|].
    apply scenario_bindings_invariant.
Defined.

Lemma disabled_token_shows_in_flags_witness :
  fst (getProjectFlags (JStr "100")
         (snd (disableToken (JStr "7") 10 (world0 false 5))))
  = Ok (Some {| f_paused := false; f_message_limit := 5;
                f_is_token_active := false |}).
Proof.
  refine (proj2 (disabled_token_shows_in_flags (world0 false 5) (JStr "100")
                   (JStr "7") 100 7 10 (project100 false 5) token7
                   {| pt_id := 1; pt_project_id := 100; pt_token_id := Some 7 |}
                   eq_refl eq_refl _ _ _ eq_refl _ eq_refl eq_refl _ eq_refl
                   eq_refl)).
  - by_decide.
  - by_decide.
  - apply scenario_bindings_invariant.
  - by left.
  - by left.
Defined.

Lemma exhausted_project_is_not_active_witness :
  List.Forall (fun a => ap_id a <> 100)
    (match fst (getActiveProjects
                  (snd (decrementMessageLimit (JStr "100") (world0 false 1)))) with
     | Ok rows => rows
     | Throw _ => []
     end).
Proof.
  apply List.Forall_forall. intros a Ha.
  exact (exhausted_project_is_not_active (world0 false 1)
           (snd (decrementMessageLimit (JStr "100") (world0 false 1)))
           (JStr "100") 100 0 {| success := true; newLimit := Some 0 |}
           eq_refl eq_refl eq_refl eq_refl (Z.le_refl 0) _ eq_refl a Ha).
Defined.

End FlagsExamples.

(** ** Pausing and resuming: projectService.js and its handlers *)

Section Status.
Import projectService projectLocks.

Lemma find_project_map (pid : Z) (f : Project -> Project) (d : DB) :
  (forall q, p_id (f q) = p_id q) ->
  find_project pid (set_projects (List.map f) d)
  = option_map f (find_project pid d).
Proof.
  intros Hf. unfold find_project. simpl.
  induction (projects d) as [|a l IH]; simpl; [done|].
  rewrite Hf. by destruct (p_id a =? pid).
Qed.

Lemma find_project_nudge (env : Env) (projectId : jsval) (pid : Z) (w : World) :
  find_project pid (db (commit (snd (brainService.nudgeBrain env projectId w))))
  = find_project pid (db w).
Proof.
  unfold brainService.nudgeBrain.
  destruct (brainApiUrl env) as [url|]; [|done]. by destruct (String.eqb url "").
Qed.

Lemma find_project_owned (pid u : Z) (d : DB) (p : Project) :
  projects_pk d -> In p (projects d) -> p_id p = pid ->
  find_project pid d = Some p.
Proof.
  intros Hpk Hin Hid. unfold find_project.
  destruct (List.find _ _) as [q|] eqn:Hf.
  - apply List.find_some in Hf as [Hq Hk%Z.eqb_eq]. f_equal.
    eapply (key_unique p_id); eauto. congruence.
  - pose proof (List.find_none _ _ Hf p Hin) as H. simpl in H.
    apply Z.eqb_neq in H. congruence.
Qed.

Lemma set_projects_same (d : DB) : set_projects (fun l => l) d = d.
Proof. by destruct d. Qed.

Lemma sql_status_not_owned (f : Project -> Project) (pid userId : Z) (d : DB) :
  ~ owns_project userId pid d ->
  let hit p := (p_id p =? pid) && (p_user_id p =? userId) in
  List.map p_id (List.filter hit (projects d)) = [] /\
  set_projects (List.map (fun p => if hit p then f p else p)) d = d.
Proof.
  intros Hno hit.
  assert (Hf : List.filter hit (projects d) = []).
  { apply not_owned_rows. intros x Hx Hid Hu. apply Hno. by exists x. }
  rewrite Hf. split; [done|].
  rewrite <- (set_projects_same d) at 2. unfold set_projects. f_equal.
  by apply map_update_none.
Qed.

Lemma sql_status_owned (f : Project -> Project) (userId : Z) (d : DB)
    (p : Project) :
  projects_pk d -> In p (projects d) -> p_user_id p = userId ->
  let hit q := (p_id q =? p_id p) && (p_user_id q =? userId) in
  List.map p_id (List.filter hit (projects d)) = [p_id p] /\
  set_projects (List.map (fun q => if hit q then f q else q)) d
  = set_projects (List.map (fun q => if p_id q =? p_id p then f q else q)) d.
Proof.
  intros Hpk Hin Hu hit. unfold hit.
  rewrite (owned_rows p_id p_user_id _ p userId Hpk Hin Hu). split; [done|].
  unfold set_projects. f_equal. by apply (update_owned p_id p_user_id).
Qed.

Lemma find_project_updated (f : Project -> Project) (d : DB) (p : Project) :
  (forall q, p_id (f q) = p_id q) ->
  projects_pk d -> In p (projects d) ->
  let d' := set_projects
              (List.map (fun q => if p_id q =? p_id p then f q else q)) d in
  find_project (p_id p) d' = Some (f p) /\
  (forall k, k <> p_id p -> find_project k d' = find_project k d).
Proof.
  intros Hf Hpk Hin d'. unfold d'. split.
  - rewrite find_project_map; [|intros q; destruct (_ =? _); auto].
    rewrite (find_project_owned (p_id p) 0 _ p) by done. simpl.
    by rewrite Z.eqb_refl.
  - intros k Hk. rewrite find_project_map; [|intros q; destruct (_ =? _); auto].
    destruct (find_project k d) as [q|] eqn:Hq; [|done]. simpl.
    unfold find_project in Hq. apply List.find_some in Hq as [_ Hqk%Z.eqb_eq].
    destruct (Z.eqb_spec (p_id q) (p_id p)); [congruence|done].
Qed.

Lemma sql_resume_not_owned (projectId : jsval) (pid userId now : Z) (d : DB) :
  sql_int projectId = Some pid -> ~ owns_project userId pid d ->
  sql_resume projectId userId now d = (Ok [], d).
Proof.
  intros Hint Hno. unfold sql_resume, with_int. rewrite Hint.
  destruct (sql_status_not_owned
              (fun q => set_last_activity now (set_paused false q))
              pid userId d Hno) as [Hrows Hdb].
  cbv zeta in *. by rewrite Hrows, Hdb.
Qed.

Lemma sql_pause_owned_not_owned (projectId : jsval) (pid userId now : Z) (d : DB) :
  sql_int projectId = Some pid -> ~ owns_project userId pid d ->
  sql_pause_owned projectId userId now d = (Ok [], d).
Proof.
  intros Hint Hno. unfold sql_pause_owned, with_int. rewrite Hint.
  destruct (sql_status_not_owned (set_paused true) pid userId d Hno)
    as [Hrows Hdb].
  cbv zeta in *. by rewrite Hrows, Hdb.
Qed.

Lemma sql_resume_owned (projectId : jsval) (userId now : Z) (d : DB)
    (p : Project) :
  sql_int projectId = Some (p_id p) ->
  projects_pk d -> In p (projects d) -> p_user_id p = userId ->
  sql_resume projectId userId now d
  = (Ok [p_id p],
     set_projects
       (List.map (fun q => if p_id q =? p_id p
                           then set_last_activity now (set_paused false q)
                           else q)) d).
Proof.
  intros Hint Hpk Hin Hu. unfold sql_resume, with_int. rewrite Hint.
  destruct (sql_status_owned
              (fun q => set_last_activity now (set_paused false q))
              userId d p Hpk Hin Hu) as [Hrows Hdb].
  cbv zeta in *. by rewrite Hrows, Hdb.
Qed.

Lemma sql_pause_owned_owned (projectId : jsval) (userId now : Z) (d : DB)
    (p : Project) :
  sql_int projectId = Some (p_id p) ->
  projects_pk d -> In p (projects d) -> p_user_id p = userId ->
  sql_pause_owned projectId userId now d
  = (Ok [p_id p],
     set_projects
       (List.map (fun q => if p_id q =? p_id p then set_paused true q else q)) d).
Proof.
  intros Hint Hpk Hin Hu. unfold sql_pause_owned, with_int. rewrite Hint.
  destruct (sql_status_owned (set_paused true) userId d p Hpk Hin Hu)
    as [Hrows Hdb].
  cbv zeta in *. by rewrite Hrows, Hdb.
Qed.

Lemma nudgeBrain_frame (env : Env) (projectId : jsval) (w : World) :
  let w' := snd (brainService.nudgeBrain env projectId w) in
  fst (brainService.nudgeBrain env projectId w) = Ok tt /\
  db w' = db w /\ hub w' = hub w /\ journal w' = journal w /\ clock w' = clock w.
Proof.
  unfold brainService.nudgeBrain.
  destruct (brainApiUrl env) as [url|]; [|done]. by destruct (String.eqb url "").
Qed.

Lemma updateProjectStatus_owned_run (env : Env) (w : World) (projectId : jsval)
    (userId : Z) (paused : jsval) (p : Project) :
  sql_int projectId = Some (p_id p) -> projects_pk (db w) ->
  In p (projects (db w)) -> p_user_id p = userId ->
  let run := updateProjectStatus env projectId userId paused w in
  let resume := strict_eq paused (JBool false) in
  fst run = Ok (Some (p_id p)) /\
  find_project (p_id p) (db (snd run))
  = Some (if resume then set_last_activity (clock w) (set_paused false p)
          else set_paused true p) /\
  (forall k, k <> p_id p ->
     find_project k (db (snd run)) = find_project k (db w)) /\
  hub (snd run)
  = webSocketService.broadcastToProject projectId (project_updated projectId)
      (hub w) /\
  nudges (snd run)
  = if resume then nudges (snd (brainService.nudgeBrain env projectId w))
    else nudges w.
Proof.
  intros Hint Hpk Hin Hu run resume. unfold run, updateProjectStatus.
  fold resume. unfold tx, bind, t_query.
  destruct resume.
  + rewrite (sql_resume_owned projectId userId (clock w) (db w) p) by done.
    simpl.
    set (g := fun q => set_last_activity (clock w) (set_paused false q)).
    destruct (find_project_updated g (db w) p) as [Hfind Hother];
      [by intros []|done|done|].
    cbv zeta in Hfind, Hother.
    set (w0 := with_db _ w).
    destruct (nudgeBrain_frame env projectId w0) as (Hr & Hd & Hh & _ & _).
    destruct (brainService.nudgeBrain env projectId w0) as [r w1] eqn:Hn.
    simpl in Hr, Hd, Hh. subst r. simpl. rewrite Hd, Hh.
    split; [done|]. split; [exact Hfind|]. split; [exact Hother|].
    split; [done|].
    revert Hn. unfold brainService.nudgeBrain.
    destruct (brainApiUrl env) as [url|]; [|by intros [= <-]].
    destruct (String.eqb url ""); by intros [= <-].
  + rewrite (sql_pause_owned_owned projectId userId (clock w) (db w) p) by done.
    simpl.
    destruct (find_project_updated (set_paused true) (db w) p)
      as [Hfind Hother]; [by intros []|done|done|].
    split; [done|]. split; [exact Hfind|]. split; [exact Hother|]. done.
Qed.

(** X10: what [updateProjectStatus] does.  Only the boolean [false]
    resumes; every other value of [paused] pauses.  For the owner's project
    the call returns its id, sets [paused] accordingly (and, on resume,
    [last_activity_at] to now), publishes one [project_updated] event under
    the id as it was passed, and nudges the worker on resume only.  For a
    project the caller does not own it returns [null] and changes neither
    the tables nor the hub nor the nudges. *)
Theorem updateProjectStatus_outcomes (env : Env) (w : World) (projectId : jsval)
    (pid userId : Z) (paused : jsval) :
  sql_int projectId = Some pid -> projects_pk (db w) ->
  let run := updateProjectStatus env projectId userId paused w in
  let resume := strict_eq paused (JBool false) in
  (~ owns_project userId pid (db w) ->
     fst run = Ok None /\ db (snd run) = db w /\ hub (snd run) = hub w /\
     nudges (snd run) = nudges w) /\
  (forall p, In p (projects (db w)) -> p_id p = pid -> p_user_id p = userId ->
     fst run = Ok (Some pid) /\
     find_project pid (db (snd run))
     = Some (if resume then set_last_activity (clock w) (set_paused false p)
             else set_paused true p) /\
     (forall k, k <> pid ->
        find_project k (db (snd run)) = find_project k (db w)) /\
     hub (snd run)
     = webSocketService.broadcastToProject projectId (project_updated projectId)
         (hub w) /\
     nudges (snd run)
     = if resume then nudges (snd (brainService.nudgeBrain env projectId w))
       else nudges w).
Proof.
  intros Hint Hpk run resume. unfold run, updateProjectStatus.
  fold resume. split.
  - intros Hno. unfold tx, bind, t_query.
    destruct resume.
    + rewrite (sql_resume_not_owned projectId pid userId (clock w) (db w)) by done.
      by simpl.
    + rewrite (sql_pause_owned_not_owned projectId pid userId (clock w) (db w))
        by done.
      by simpl.
  - intros p Hin Hid Hu. subst pid.
    by apply (updateProjectStatus_owned_run env w projectId userId paused p).
Qed.

Lemma truthy_not_false (v : jsval) :
  truthy v = true -> strict_eq v (JBool false) = false.
Proof. destruct v as [| |[|]| | | |]; simpl; done. Qed.

Lemma sql_pause_owned_paused (id : jsval) (userId now : Z) (d : DB) :
  forall k p, find_project k d = Some p -> p_paused p = true ->
    exists p', find_project k (snd (sql_pause_owned id userId now d)) = Some p'
               /\ p_paused p' = true.
Proof.
  intros k p Hfind Hp. unfold sql_pause_owned, with_int.
  destruct (sql_int id) as [pid|]; simpl; [|by exists p].
  rewrite find_project_map; [|intros q; by destruct (_ && _)].
  rewrite Hfind. simpl. eexists. split; [done|]. by destruct (_ && _).
Qed.

(** X11: the snapshot lock of the two status handlers.  For the demo user
    and a request whose route id [Number] reads as the snapshot project's
    id, the settings route [pause] changes nothing whatever the body says;
    the project route [status] changes nothing when [paused] in the body is
    falsy, and for every other value leaves every project that was paused
    paused.  The lock looks at [Number id] only: a route id that the
    database reads as the snapshot project's while [Number] reads it
    otherwise is not a request of this statement. *)
Theorem snapshot_project_is_never_resumed (env : Env) (w : World) (id : jsval)
    (userId sid : Z) (paused : jsval) :
  isDemoUser env userId = true -> snapshotProjectId env = Some sid ->
  Number id = JNum sid ->
  snd (settingsController.pauseProject env id userId paused w) = w /\
  (truthy paused = false ->
     snd (projectController.updateProjectStatus env id userId paused w) = w) /\
  (forall k p, find_project k (db w) = Some p -> p_paused p = true ->
     exists p',
       find_project k
         (db (snd (projectController.updateProjectStatus env id userId paused w)))
       = Some p' /\ p_paused p' = true).
Proof.
  intros Hdemo Hsnap Hnum.
  assert (Hlock : isSnapshotProject env userId (Number id) = true).
  { unfold isSnapshotProject, same_id. rewrite Hdemo, Hsnap, Hnum. simpl.
    apply Z.eqb_refl. }
  split; [|split].
  - unfold settingsController.pauseProject.
    destruct (validateInput _) as [rejected|b]; [done|].
    unfold tryCatch, settingsController.pauseProject_body. by rewrite Hlock.
  - intros Htr.
    unfold projectController.updateProjectStatus, tryCatch,
      projectController.updateProjectStatus_body.
    by rewrite Hlock, Htr.
  - intros k p Hfind Hp.
    unfold projectController.updateProjectStatus, tryCatch,
      projectController.updateProjectStatus_body.
    rewrite Hlock, andb_true_r.
    destruct (truthy paused) eqn:Htr; simpl; [|by exists p].
    unfold bind, updateProjectStatus. rewrite (truthy_not_false _ Htr).
    unfold tx, bind, t_query.
    pose proof (sql_pause_owned_paused id userId (clock w) (db w) k p Hfind Hp)
      as (p' & Hfind' & Hp').
    destruct (sql_pause_owned id userId (clock w) (db w)) as [[rows|e] d'];
      simpl in *; [|by exists p].
    destruct (oneOrNone rows) as [[x|]|e]; simpl; [by exists p'|by exists p'|].
    by exists p.
Qed.

End Status.

Section StatusExamples.
Import projectService Scenario SnapshotCases.

Lemma updateProjectStatus_outcomes_witness :
  find_project 100
    (db (snd (updateProjectStatus env0 (JNum 100) 10 JUndefined (world0 false 5))))
  = Some (project100 true 5) /\
  fst (updateProjectStatus env0 (JNum 100) 11 (JBool false) (world0 true 5))
  = Ok None.
Proof.
  destruct (updateProjectStatus_outcomes env0 (world0 false 5) (JNum 100) 100 10
              JUndefined eq_refl) as [_ Hown]; [by_decide|].
  destruct (updateProjectStatus_outcomes env0 (world0 true 5) (JNum 100) 100 11
              (JBool false) eq_refl) as [Hno _]; [by_decide|].
  split.
  - refine (proj1 (proj2 (Hown (project100 false 5) _ eq_refl eq_refl))).
    by left.
  - refine (proj1 (Hno _)). intros (p & [<-|[]] & _ & Hu). discriminate Hu.
Defined.

Lemma snapshot_project_is_never_resumed_witness :
  find_project 1 (db world_snapshot) = Some snapshot_project /\
  snd (settingsController.pauseProject env0 (JStr "1") 2 (JBool false)
         world_snapshot)
  = world_snapshot /\
  snd (projectController.updateProjectStatus env0 (JStr "1") 2 (JBool false)
         world_snapshot)
  = world_snapshot /\
  exists p',
    find_project 1
      (db (snd (projectController.updateProjectStatus env0 (JStr "1") 2
                  (JBool true) world_snapshot)))
    = Some p' /\ p_paused p' = true.
Proof.
  destruct (snapshot_project_is_never_resumed env0 world_snapshot (JStr "1")
              2 1 (JBool false) eq_refl eq_refl eq_refl) as (Hpause & Hstatus & _).
  destruct (snapshot_project_is_never_resumed env0 world_snapshot (JStr "1")
              2 1 (JBool true) eq_refl eq_refl eq_refl) as (_ & _ & Hkept).
  split; [reflexivity|]. split; [exact Hpause|]. split; [exact (Hstatus eq_refl)|].
  exact (Hkept 1 snapshot_project eq_refl eq_refl).
Defined.

End StatusExamples.

(** ** The watchdog's pause: internalController.js *)

Section InternalPause.
Import projectService messageService.


End InternalPause.

Section InternalPauseExamples.
Import projectService Scenario.


End InternalPauseExamples.

(** ** Messages: status updates and the reads of the worker *)

Section Messages.
Import messageService messageQueries.

Lemma insert_front (m : Message) (l : list Message) :
  Forall (fun x => m_created_at m <= m_created_at x) l ->
  insert_by_created_at m l = m :: l.
Proof.
  destruct l as [|x l]; simpl; [done|].
  intros [Hx _]%Forall_cons. by rewrite (proj2 (Z.leb_le _ _) Hx).
Qed.

Lemma Forall_filter_keep {A : Type} (P : A -> Prop) (g : A -> bool) (l : list A) :
  Forall P l -> Forall P (List.filter g l).
Proof.
  intros H. apply Forall_forall. intros x Hx%list_elem_of_In.
  apply filter_In in Hx as [Hx _].
  rewrite Forall_forall in H. apply H. by apply list_elem_of_In.
Qed.

Lemma filter_insert_by_created_at (g : Message -> bool) (m : Message)
    (l : list Message) :
  StronglySorted created_at_le l ->
  List.filter g (insert_by_created_at m l)
  = if g m then insert_by_created_at m (List.filter g l) else List.filter g l.
Proof.
  induction 1 as [|x l Hs IH Hx]; simpl; [by destruct (g m)|].
  destruct (Z.leb_spec (m_created_at m) (m_created_at x)) as [Hle|Hlt]; simpl.
  - destruct (g m) eqn:Hm; [|done]. destruct (g x) eqn:Hgx; simpl.
    + by rewrite (proj2 (Z.leb_le _ _) Hle).
    + symmetry. apply insert_front. apply Forall_filter_keep.
      eapply Forall_impl; [exact Hx|]. unfold created_at_le. simpl. intros; lia.
  - rewrite IH. destruct (g x) eqn:Hgx; simpl; [|done].
    destruct (g m); [|done]. simpl.
    by rewrite (proj2 (Z.leb_gt _ _) Hlt).
Qed.

Lemma filter_order_by_created_at (g : Message -> bool) (l : list Message) :
  List.filter g (order_by_created_at l) = order_by_created_at (List.filter g l).
Proof.
  induction l as [|x l IH]; simpl; [done|].
  rewrite filter_insert_by_created_at by apply order_by_created_at_sorted.
  rewrite IH. by destruct (g x).
Qed.

Lemma sql_update_status_run (status : string) (messageId : jsval) (mid now : Z)
    (d : DB) (m : Message) :
  has_nul status = false ->
  sql_int messageId = Some mid -> messages_pk d ->
  In m (messages d) -> m_id m = mid ->
  sql_update_status status messageId now d
  = (Ok [ {| um_id := mid; um_status := utf8 status;
             um_project_id := m_project_id m;
             um_conversation_id := m_conversation_id m |} ],
     set_messages
       (List.map (fun x => if m_id x =? mid
                           then set_status (Some (utf8 status)) x else x))
       d).
Proof.
  intros Hnul Hint Hpk Hin Hid. unfold sql_update_status, with_int.
  rewrite Hnul, Hint. cbv zeta.
  subst mid. by rewrite (filter_key_unique m_id _ m Hpk Hin).
Qed.

Lemma pending_after_update (status : string) (mid pid : Z) (l : list Message) :
  status <> "pending" ->
  List.filter (is_pending_of pid)
    (List.map (fun x => if m_id x =? mid then set_status (Some status) x else x) l)
  = List.filter (fun x => negb (m_id x =? mid)) (List.filter (is_pending_of pid) l).
Proof.
  intros Hst. induction l as [|x l IH]; simpl; [done|].
  destruct (m_id x =? mid) eqn:Hx.
  - unfold is_pending_of at 1. simpl.
    destruct (String.eqb_spec status "pending") as [|_]; [done|].
    rewrite andb_false_r, IH.
    destruct (is_pending_of pid x); simpl; by rewrite ?Hx.
  - rewrite IH. destruct (is_pending_of pid x); simpl; by rewrite ?Hx.
Qed.

(** X13: a status update takes the message out of the pending queue.  For
    an existing message and a status that is stored as a text other than
    [pending] (the status in UTF-8, without a NUL character), the call
    returns the row, publishes one [message_updated] event for the
    message's project, and the pending queue of every project holds
    afterwards the messages it held before without that message, each as
    often as before, in ascending [created_at]; the order among messages
    of equal [created_at] is left open. *)
Theorem updateMessageStatus_leaves_the_queue (w : World) (messageId : jsval)
    (mid : Z) (status : string) (m : Message) :
  sql_int messageId = Some mid -> messages_pk (db w) ->
  In m (messages (db w)) -> m_id m = mid ->
  has_nul status = false -> utf8 status <> "pending" ->
  let run := updateMessageStatus messageId status w in
  fst run = Ok (Some {| um_id := mid; um_status := utf8 status;
                        um_project_id := m_project_id m;
                        um_conversation_id := m_conversation_id m |}) /\
  hub (snd run)
  = webSocketService.broadcastToProject (JNum (m_project_id m))
      {| ev_type := "message_updated";
         ev_payload := PMessageUpdated mid (utf8 status) (m_conversation_id m) |}
      (hub w) /\
  (forall projectId before,
     fst (getPendingMessages projectId w) = Ok before ->
     exists after,
       fst (getPendingMessages projectId (snd run)) = Ok after /\
       Permutation after (List.filter (fun x => negb (m_id x =? mid)) before) /\
       StronglySorted created_at_le after).
Proof.
  intros Hint Hpk Hin Hid Hnul Hst run.
  unfold run, updateMessageStatus, bind, db_query.
  rewrite (sql_update_status_run status messageId mid (clock w) (db w) m) by done.
  simpl. split; [done|]. split; [done|].
  intros projectId before. unfold getPendingMessages, db_read, sql_pending, with_int.
  destruct (sql_int projectId) as [pid|]; simpl; [|discriminate].
  intros [= <-]. eexists. split; [reflexivity|].
  split; [|apply order_by_created_at_sorted].
  rewrite pending_after_update by done.
  rewrite filter_order_by_created_at. reflexivity.
Qed.

(** X14: the oldest-pending timestamp is the minimum.  The call answers
    [null] exactly when the project has no pending message, and otherwise
    the [created_at] of a pending message of the project that no other
    pending message of the project precedes. *)
Theorem oldest_pending_is_the_minimum (w : World) (projectId : jsval) (pid : Z) :
  sql_int projectId = Some pid ->
  snd (getOldestPendingMessageTimestamp projectId w) = w /\
  match fst (getOldestPendingMessageTimestamp projectId w) with
  | Ok None => pending_of pid (db w) = []
  | Ok (Some t) =>
      (exists m, In m (pending_of pid (db w)) /\ m_created_at m = t) /\
      (forall m, In m (pending_of pid (db w)) -> t <= m_created_at m)
  | Throw _ => False
  end.
Proof.
  intros Hint.
  unfold getOldestPendingMessageTimestamp, bind, db_read, sql_oldest_pending,
    with_int.
  rewrite Hint. simpl. fold (pending_of pid (db w)).
  pose proof (order_by_created_at_perm (pending_of pid (db w))) as Hperm.
  pose proof (order_by_created_at_sorted (pending_of pid (db w))) as Hsorted.
  destruct (order_by_created_at (pending_of pid (db w))) as [|x rest]; simpl.
  - split; [done|]. by apply Permutation_nil.
  - split; [done|]. split.
    + exists x. split; [|done]. eapply Permutation_in; [exact Hperm|by left].
    + intros m Hm.
      apply (Permutation_in _ (Permutation_sym Hperm)) in Hm.
      apply StronglySorted_inv in Hsorted as [_ Hall].
      destruct Hm as [<-|Hm]; [lia|].
      rewrite Forall_forall in Hall. apply Hall. by apply list_elem_of_In.
Qed.

Lemma conversation_owned_iff (u cid : Z) (d : DB) :
  conversation_owned u cid d = true <->
  exists c p, In c (conversations d) /\ In p (projects d) /\ c_id c = cid
              /\ p_id p = c_project_id c /\ p_user_id p = u.
Proof.
  unfold conversation_owned. rewrite existsb_exists. split.
  - intros (c & Hc & H). apply andb_true_iff in H as [Hid%Z.eqb_eq H].
    apply existsb_exists in H as (p & Hp & H).
    apply andb_true_iff in H as [Hpid%Z.eqb_eq Hu%Z.eqb_eq]. by exists c, p.
  - intros (c & p & Hc & Hp & Hid & Hpid & Hu). exists c. split; [done|].
    apply andb_true_iff. split; [by apply Z.eqb_eq|].
    apply existsb_exists. exists p. split; [done|].
    apply andb_true_iff. split; by apply Z.eqb_eq.
Qed.

Lemma inner_join_In {A B : Type} (on : A -> B -> bool) (l : list A) (r : list B)
    (a : A) (b : B) :
  In (a, b) (Sql.inner_join on l r) <-> In a l /\ In b r /\ on a b = true.
Proof.
  unfold Sql.inner_join. rewrite in_flat_map. split.
  - intros (a' & Ha & (b' & [= <- <-] & [Hb Hon]%filter_In)%in_map_iff). done.
  - intros (Ha & Hb & Hon). exists a. split; [done|].
    apply in_map_iff. exists b. split; [done|]. by apply filter_In.
Qed.

Lemma no_elements {A : Type} (l : list A) : (forall x, ~ In x l) -> l = [].
Proof. destruct l as [|a l]; [done|]. intros H. destruct (H a). by left. Qed.

(** X15: only the owner reads a conversation.  [getMessagesByConversation]
    returns, in ascending [created_at], the messages of the conversation
    when the conversation lies in a project of the caller, and nothing
    otherwise; it changes nothing. *)
Theorem messages_are_read_by_the_owner_only (w : World) (conversationId : jsval)
    (cid userId : Z) :
  sql_int conversationId = Some cid ->
  exists rows,
    getMessagesByConversation conversationId userId w = (Ok rows, w) /\
    StronglySorted created_at_le rows /\
    (forall m, In m rows <->
               In m (messages (db w)) /\ m_conversation_id m = cid
               /\ conversation_owned userId cid (db w) = true) /\
    (conversation_owned userId cid (db w) = false -> rows = []).
Proof.
  intros Hint.
  unfold getMessagesByConversation, db_read, sql_messages_by_conversation, with_int.
  rewrite Hint. simpl. eexists. split; [reflexivity|].
  split; [apply order_by_created_at_sorted|].
  assert (Hin : forall m,
             In m (order_by_created_at
                     (List.map (fun row : Message * Conversation * Project => fst (fst row))
                        (List.filter
                           (fun row => (m_conversation_id (fst (fst row)) =? cid)
                                       && (p_user_id (snd row) =? userId))
                           (Sql.inner_join
                              (fun mc p => p_id p =? c_project_id (snd mc))
                              (Sql.inner_join
                                 (fun m c => c_id c =? m_conversation_id m)
                                 (messages (db w)) (conversations (db w)))
                              (projects (db w))))))
             <-> In m (messages (db w)) /\ m_conversation_id m = cid
                 /\ conversation_owned userId cid (db w) = true).
  { intros m.
    rewrite (Permutation_in' (eq_refl m) (order_by_created_at_perm _)).
    rewrite in_map_iff, conversation_owned_iff. split.
    - intros ([[m' c] p] & <- & [Hrow Hcond]%filter_In). simpl in *.
      apply inner_join_In in Hrow as (Hmc & Hp & Hon). simpl in Hon.
      apply inner_join_In in Hmc as (Hm & Hc & Hon').
      apply andb_true_iff in Hcond as [Hcid%Z.eqb_eq Hu%Z.eqb_eq].
      apply Z.eqb_eq in Hon, Hon'.
      split; [done|]. split; [done|]. exists c, p. repeat split; auto; congruence.
    - intros (Hm & Hcid & c & p & Hc & Hp & Hid & Hpid & Hu).
      exists (m, c, p). split; [done|]. apply filter_In. split.
      + apply inner_join_In. split; [|split; [done|by apply Z.eqb_eq]].
        apply inner_join_In. split; [done|]. split; [done|].
        apply Z.eqb_eq. congruence.
      + simpl. apply andb_true_iff. split; by apply Z.eqb_eq. }
  split; [exact Hin|].
  intros Hno. apply no_elements. intros m Hm%Hin. destruct Hm as (_ & _ & H).
  congruence.
Qed.

Lemma sorted_app_order {A : Type} (R : A -> A -> Prop) (l1 l2 : list A)
    (x1 x2 : A) :
  StronglySorted R (l1 ++ l2) -> In x1 l1 -> In x2 l2 -> R x1 x2.
Proof.
  induction l1 as [|a l1 IH]; simpl; [tauto|].
  intros [Hs Hall]%StronglySorted_inv [<-|H1] H2.
  - rewrite Forall_forall in Hall. apply Hall, list_elem_of_In, in_or_app. by right.
  - by apply IH.
Qed.

Lemma firstn_incl {A : Type} (n : nat) (l : list A) (x : A) :
  In x (firstn n l) -> In x l.
Proof.
  intros H. rewrite <- (firstn_skipn n l). apply in_or_app. by left.
Qed.

Lemma sorted_firstn {A : Type} (R : A -> A -> Prop) (n : nat) (l : list A) :
  StronglySorted R l -> StronglySorted R (firstn n l).
Proof.
  revert l. induction n as [|n IH]; intros l Hs; simpl; [constructor|].
  destruct l as [|a l]; [constructor|].
  apply StronglySorted_inv in Hs as [Hs Hall]. constructor; [by apply IH|].
  apply Forall_forall. intros x Hx%list_elem_of_In.
  rewrite Forall_forall in Hall. apply Hall, list_elem_of_In.
  by apply (firstn_incl n).
Qed.

(** X16: the recent messages of an agent are the newest ones.  With a
    limit of at least 0 the call returns at most [limit] rows, newest
    first, each a sent message of the project of type [user] or
    [assistant] that the agent sent or received (any agent when the agent
    parameter is [null]); a qualifying message that is left out is no
    newer than any row returned.  A negative limit is an error of the
    database. *)
Theorem getAgentRecentMessages_newest (w : World) (projectId agentId : jsval)
    (pid limit : Z) (agent : option Z) :
  sql_int projectId = Some pid -> agent_filter agentId = Some agent ->
  let run := getAgentRecentMessages projectId agentId limit w in
  let qualifying := List.filter (is_recent_of pid agent) (messages (db w)) in
  snd run = w /\
  (limit < 0 -> exists e, fst run = Throw e) /\
  (0 <= limit ->
     exists rows,
       fst run = Ok rows /\
       List.length rows = Nat.min (Z.to_nat limit) (List.length qualifying) /\
       StronglySorted (fun a b => m_created_at b <= m_created_at a) rows /\
       (forall m, In m rows -> In m qualifying) /\
       (forall m r, In m qualifying -> ~ In m rows -> In r rows ->
                    m_created_at m <= m_created_at r)).
Proof.
  intros Hint Hagent run qualifying.
  assert (Hrun : run = (if limit <? 0
                        then Throw (ThrowError "LIMIT must not be negative")
                        else Ok (firstn (Z.to_nat limit)
                                   (Sql.order_by_desc m_created_at qualifying)),
                        w)).
  { unfold run, getAgentRecentMessages, db_read, sql_agent_recent, with_int.
    rewrite Hint. unfold agent_filter in Hagent.
    destruct agentId as [| |b|a| |a|m e]; simpl in *;
      try (injection Hagent as <-; by destruct (limit <? 0));
      try discriminate.
    - destruct (in_int4 a); [|discriminate]. injection Hagent as <-.
      by destruct (limit <? 0).
    - destruct (parse_int a) as [a'|]; [|discriminate].
      destruct (in_int4 a'); [|discriminate]. injection Hagent as <-.
      by destruct (limit <? 0). }
  rewrite Hrun. simpl. split; [done|]. split.
  - intros Hneg. apply Z.ltb_lt in Hneg. rewrite Hneg. by eexists.
  - intros Hpos. apply Z.ltb_ge in Hpos. rewrite Hpos. eexists. split; [done|].
    set (sorted := Sql.order_by_desc m_created_at qualifying).
    pose proof (order_by_desc_perm m_created_at qualifying) as Hperm.
    pose proof (order_by_desc_sorted m_created_at qualifying) as Hsorted.
    fold sorted in Hperm, Hsorted.
    split; [|split; [|split]].
    + rewrite List.length_firstn. f_equal. by apply Permutation_length.
    + by apply sorted_firstn.
    + intros m Hm%firstn_incl. eapply Permutation_in; [exact Hperm|done].
    + intros m r Hm Hout Hr.
      apply (Permutation_in _ (Permutation_sym Hperm)) in Hm.
      rewrite <- (firstn_skipn (Z.to_nat limit) sorted) in Hm, Hsorted.
      apply in_app_or in Hm as [Hm|Hm]; [done|].
      apply (sorted_app_order _ _ _ r m Hsorted Hr Hm).
Qed.

End Messages.

Section MessagesExamples.
Import messageService messageQueries Scenario Cases.

Lemma updateMessageStatus_leaves_the_queue_witness :
  exists after,
    fst (getPendingMessages (JStr "100")
           (snd (updateMessageStatus (JStr "2") "sent" world_ties)))
    = Ok after /\
    Permutation after [pending_message 1 500] /\
    StronglySorted created_at_le after.
Proof.
  refine (proj2 (proj2 (updateMessageStatus_leaves_the_queue world_ties (JStr "2")
                          2 "sent" (pending_message 2 500) eq_refl _ _ eq_refl
                          eq_refl _))
            (JStr "100") _ eq_refl).
  - by_decide.
  - by left.
  - discriminate.
Defined.

Lemma oldest_pending_is_the_minimum_witness :
  fst (getOldestPendingMessageTimestamp (JStr "100") world_chat) = Ok (Some 400)
  /\ forall m, In m (pending_of 100 (db world_chat)) -> 400 <= m_created_at m.
Proof.
  split; [reflexivity|].
  exact (proj2 (proj2 (oldest_pending_is_the_minimum world_chat (JStr "100") 100
                         eq_refl))).
Defined.

Lemma messages_are_read_by_the_owner_only_witness :
  exists rows,
    getMessagesByConversation (JStr "2") 11 world_chat = (Ok rows, world_chat)
    /\ rows = [].
Proof.
  destruct (messages_are_read_by_the_owner_only world_chat (JStr "2") 2 11 eq_refl)
    as (rows & Hrun & _ & _ & Hnone).
  exists rows. split; [exact Hrun|]. by apply Hnone.
Defined.

Lemma getAgentRecentMessages_newest_witness :
  exists rows,
    fst (getAgentRecentMessages (JStr "100") (JStr "1") 1 world_chat) = Ok rows
    /\ List.length rows = 1%nat.
Proof.
  destruct (getAgentRecentMessages_newest world_chat (JStr "100") (JStr "1")
              100 1 (Some 1) eq_refl eq_refl) as (_ & _ & Hok).
  destruct (Hok ltac:(lia)) as (rows & Hrun & Hlen & _).
  exists rows. split; [exact Hrun|exact Hlen].
Defined.

End MessagesExamples.

(** ** The live-update hub: leaving, and sockets that are not open *)

Section HubMore.
Import webSocketService.

Lemma broadcast_clients (projectId : jsval) (message : Event) (h : Hub) :
  clients (broadcastToProject projectId message h) = clients h.
Proof.
  unfold broadcastToProject.
  destruct (List.filter _ (clients h)) as [|c rest]; [done|].
  by destruct (received_send_many 0 (JSON_stringify message) (c :: rest) h)
    as (_ & Hcl & _).
Qed.

Lemma broadcast_not_registered (ws : nat) (projectId : jsval) (message : Event)
    (h : Hub) :
  (forall e, In e (clients h) -> fst e <> ws) ->
  received ws (broadcastToProject projectId message h) = received ws h.
Proof.
  intros Hno. unfold broadcastToProject.
  destruct (List.filter _ (clients h)) as [|c rest] eqn:Hpc; [done|].
  destruct (received_send_many ws (JSON_stringify message) (c :: rest) h)
    as (_ & _ & _ & Hrec).
  rewrite Hrec, filter_none; [by rewrite app_nil_r|].
  intros e He. rewrite <- Hpc in He. apply filter_In in He as [He _].
  apply andb_false_iff. left. apply Nat.eqb_neq. by apply Hno.
Qed.

(** X17: a socket that has left is handed nothing more.  After the [close]
    event of a socket, no sequence of broadcasts, for whatever projects,
    hands it a frame, and it is no longer in the map of clients. *)
Theorem closed_client_receives_nothing (h : Hub) (ws : nat)
    (events : list (jsval * Event)) :
  received ws (broadcast_all events (on_close ws h)) = received ws h /\
  map_get ws (clients (broadcast_all events (on_close ws h))) = None.
Proof.
  assert (Hgone : forall e, In e (clients (on_close ws h)) -> fst e <> ws).
  { intros e. unfold on_close, map_delete. simpl.
    intros [_ Hne%negb_true_iff]%filter_In. by apply Nat.eqb_neq. }
  assert (Hall : forall h0,
             (forall e, In e (clients h0) -> fst e <> ws) ->
             received ws (broadcast_all events h0) = received ws h0 /\
             clients (broadcast_all events h0) = clients h0).
  { unfold broadcast_all.
    induction events as [|[p ev] rest IH]; intros h0 Hno; simpl; [done|].
    destruct (IH (broadcastToProject p ev h0)) as [Hrec Hcl].
    - intros e. rewrite broadcast_clients. apply Hno.
    - rewrite Hrec, Hcl, broadcast_clients.
      split; [by apply broadcast_not_registered|done]. }
  destruct (Hall (on_close ws h) Hgone) as [Hrec Hcl].
  split; [by rewrite Hrec|]. rewrite Hcl.
  clear -Hgone. induction (clients (on_close ws h)) as [|[k v] m IH]; [done|].
  simpl. destruct (Nat.eqb_spec k ws) as [->|_].
  - by destruct (Hgone (ws, v)); [left|].
  - apply IH. intros e He. apply Hgone. by right.
Qed.

Lemma send_to_closed (msg : Frame) (targets : list (nat * ClientInfo)) :
  forall h,
    (forall e, In e targets -> is_open (readyState h (fst e)) = false) ->
    fold_left (fun acc e => send_if_open (fst e) msg acc) targets h = h.
Proof.
  induction targets as [|e rest IH]; intros h Hclosed; simpl; [done|].
  unfold send_if_open at 2. rewrite (Hclosed e) by (by left).
  apply IH. intros e' He'. apply Hclosed. by right.
Qed.

(** X18: an event for a project whose subscribers all have sockets that are
    not open is lost.  When at least one client is registered under the
    project id and none of those registered under it has an open socket,
    [broadcastToProject] leaves the hub exactly as it was: the frame is
    neither sent nor queued for a later join. *)
Theorem broadcast_to_closed_sockets_is_lost (h : Hub) (projectId : jsval)
    (message : Event) :
  (exists e, In e (clients h)
             /\ strict_eq (ci_projectId (snd e)) projectId = true) ->
  (forall e, In e (clients h) ->
             strict_eq (ci_projectId (snd e)) projectId = true ->
             is_open (readyState h (fst e)) = false) ->
  broadcastToProject projectId message h = h /\
  pendingMessages (broadcastToProject projectId message h) !! projectId
  = pendingMessages h !! projectId.
Proof.
  intros (e & He & Hp) Hclosed.
  assert (Hrun : broadcastToProject projectId message h = h).
  { unfold broadcastToProject.
    destruct (List.filter _ (clients h)) as [|c rest] eqn:Hpc.
    - assert (Hin : In e (List.filter
                            (fun e0 => strict_eq (ci_projectId (snd e0)) projectId)
                            (clients h))) by (by apply filter_In).
      rewrite Hpc in Hin. destruct Hin.
    - apply send_to_closed. intros e' He'. rewrite <- Hpc in He'.
      apply filter_In in He' as [He' Hp']. by apply Hclosed. }
  split; [exact Hrun|]. by rewrite Hrun.
Qed.

End HubMore.

Section HubMoreExamples.
Import webSocketService Scenario.

Lemma broadcast_to_closed_sockets_is_lost_witness :
  let h := close 1 (on_message 1 10 (Some join100) (initial (fun _ => OPEN))) in
  broadcastToProject (JNum 100) (update_event (JNum 100) 3) h = h.
Proof.
  refine (proj1 (broadcast_to_closed_sockets_is_lost _ (JNum 100)
                   (update_event (JNum 100) 3) _ _)).
  - eexists. split; [by left|reflexivity].
  - intros e [<-|[]] _. reflexivity.
Defined.

End HubMoreExamples.

(** ** Starting a conversation: conversationController.js *)

Section StartConversation.
Import conversationService conversationController.

Lemma sql_int_in_int4 (v : jsval) (n : Z) : sql_int v = Some n -> in_int4 n = true.
Proof.
  unfold sql_int. destruct v as [| |b|k| |t|m e]; try discriminate.
  - destruct (in_int4 k) eqn:Hk; [|discriminate]. by intros [= <-].
  - destruct (parse_int t) as [k|]; [|discriminate].
    destruct (in_int4 k) eqn:Hk; [|discriminate]. by intros [= <-].
Qed.




End StartConversation.

Section StartConversationExamples.
Import conversationController Scenario.


End StartConversationExamples.

(** ** Logs: logService.js and logController.js *)

Section Logs.
Import projectDeletion logService logController projectLocks.

Lemma owned_ids (pid userId : Z) (d : DB) :
  let owned := List.map p_id
                 (List.filter (fun p => (p_id p =? pid) && (p_user_id p =? userId))
                    (projects d)) in
  (owns_project userId pid d -> mem pid owned = true) /\
  (~ owns_project userId pid d -> owned = []).
Proof.
  intros owned. split.
  - intros (p & Hp & Hid & Hu). apply mem_In. unfold owned.
    rewrite <- Hid. apply in_map, filter_In. split; [done|].
    rewrite andb_true_iff, !Z.eqb_eq. by subst.
  - intros Hno. unfold owned. rewrite not_owned_rows; [done|].
    intros x Hx Hid Hu. apply Hno. by exists x.
Qed.

(** X20: clearing logs is scoped to the caller's projects, the answer is
    not.  For a numeric project id that the snapshot lock does not cover,
    the handler answers 200 with [success: true] in every case; the logs of
    the project are deleted when the caller owns it, and when the caller
    does not own it no log is deleted.  Logs of other projects and the
    projects themselves are never touched. *)
Theorem deleteLogsByProject_scope (env : Env) (w : World) (id : jsval)
    (pid userId : Z) :
  Number id = JNum pid -> in_int4 pid = true ->
  isSnapshotProject env userId (JNum pid) = false ->
  let run := logController.deleteLogsByProject env id userId w in
  fst run = Ok {| status := 200; body := Json true |} /\
  (owns_project userId pid (db w) ->
     logs (db (snd run))
     = List.filter (fun l => negb (l_project_id l =? pid)) (logs (db w))) /\
  (~ owns_project userId pid (db w) -> logs (db (snd run)) = logs (db w)) /\
  projects (db (snd run)) = projects (db w).
Proof.
  intros Hnum Hrange Hlock run.
  unfold run, logController.deleteLogsByProject, tryCatch,
    deleteLogsByProject_body.
  rewrite Hnum, Hlock.
  unfold bind, logService.deleteLogsByProject, db_query, sql_delete_logs, with_int.
  rewrite (sql_int_num _ Hrange). simpl.
  destruct (owned_ids pid userId (db w)) as [Hyes Hno].
  split; [done|]. split; [|split; [|done]].
  - intros Hown. apply List.filter_ext. intros l.
    destruct (Z.eqb_spec (l_project_id l) pid) as [->|_]; [|done].
    simpl. by rewrite (Hyes Hown).
  - intros Hnot. cbv zeta in Hno. rewrite (Hno Hnot).
    apply filter_all. intros l _. unfold mem. simpl. by rewrite andb_false_r.
Qed.

Lemma joined_owner_In {A : Type} (project_of : A -> Z) (key : A -> Z)
    (rows : list A) (d : DB) (pid userId : Z) (x : A) :
  In x (Sql.order_by_desc key
          (List.map fst
             (List.filter
                (fun row : A * Project =>
                   (project_of (fst row) =? pid) && (p_user_id (snd row) =? userId))
                (Sql.inner_join (fun a p => p_id p =? project_of a) rows
                   (projects d)))))
  <-> In x rows /\ project_of x = pid /\ owns_project userId pid d.
Proof.
  rewrite order_by_desc_In, in_map_iff. split.
  - intros ([a p] & <- & [Hrow Hcond]%filter_In). simpl in *.
    apply inner_join_In in Hrow as (Ha & Hp & Hon%Z.eqb_eq).
    apply andb_true_iff in Hcond as [Hid%Z.eqb_eq Hu%Z.eqb_eq].
    split; [done|]. split; [done|]. exists p. split; [done|]. split; congruence.
  - intros (Hx & Hid & p & Hp & Hpid & Hu). exists (x, p). split; [done|].
    apply filter_In. split.
    + apply inner_join_In. split; [done|]. split; [done|].
      apply Z.eqb_eq. congruence.
    + simpl. apply andb_true_iff. split; by apply Z.eqb_eq.
Qed.

(** X21: the conversations and the logs of a project are listed for its
    owner only.  [getConversationsByProject] and [getLogsByProject] return,
    newest first, exactly the rows of the project when the caller owns it,
    and nothing otherwise; the internal listing of conversations returns
    the rows of the project whoever asks. *)
Theorem project_lists_are_for_the_owner (w : World) (projectId : jsval)
    (pid userId : Z) :
  sql_int projectId = Some pid ->
  (exists rows,
     conversationQueries.getConversationsByProject projectId userId w
     = (Ok rows, w) /\
     StronglySorted (fun a b => c_created_at b <= c_created_at a) rows /\
     (forall c, In c rows <->
                In c (conversations (db w)) /\ c_project_id c = pid
                /\ owns_project userId pid (db w))) /\
  (exists rows,
     logService.getLogsByProject projectId userId w = (Ok rows, w) /\
     StronglySorted (fun a b => l_created_at b <= l_created_at a) rows /\
     (forall l, In l rows <->
                In l (logs (db w)) /\ l_project_id l = pid
                /\ owns_project userId pid (db w))) /\
  (exists rows,
     conversationQueries.getConversationsByProjectInternal projectId w
     = (Ok rows, w) /\
     (forall c, In c rows <->
                In c (conversations (db w)) /\ c_project_id c = pid)).
Proof.
  intros Hint. split; [|split].
  - unfold conversationQueries.getConversationsByProject, db_read,
      conversationQueries.sql_conversations_by_project, with_int.
    rewrite Hint. simpl. eexists. split; [reflexivity|].
    split; [apply order_by_desc_sorted|].
    intros c. apply (joined_owner_In c_project_id).
  - unfold logService.getLogsByProject, db_read, sql_logs_by_project, with_int.
    rewrite Hint. simpl. eexists. split; [reflexivity|].
    split; [apply order_by_desc_sorted|].
    intros l. apply (joined_owner_In l_project_id).
  - unfold conversationQueries.getConversationsByProjectInternal, db_read,
      conversationQueries.sql_conversations_internal, with_int.
    rewrite Hint. simpl. eexists. split; [reflexivity|].
    intros c. rewrite filter_In, Z.eqb_eq. tauto.
Qed.

End Logs.

Section LogsExamples.
Import logService logController Scenario LogCases.

Lemma deleteLogsByProject_scope_witness :
  logs (db (snd (logController.deleteLogsByProject env0 (JStr "100") 10 world_logs)))
  = [log 2 200] /\
  logs (db (snd (logController.deleteLogsByProject env0 (JStr "200") 10 world_logs)))
  = [log 1 100; log 2 200; log 3 100] /\
  fst (logController.deleteLogsByProject env0 (JStr "200") 10 world_logs)
  = Ok {| status := 200; body := Json true |}.
Proof.
  destruct (deleteLogsByProject_scope env0 world_logs (JStr "100") 100 10
              eq_refl eq_refl eq_refl) as (_ & Hown & _ & _).
  destruct (deleteLogsByProject_scope env0 world_logs (JStr "200") 200 10
              eq_refl eq_refl eq_refl) as (Hok & _ & Hnot & _).
  split; [|split; [|exact Hok]].
  - refine (Hown _). eexists. split; [by left|done].
  - refine (Hnot _). intros (p & [<-|[<-|[]]] & Hid & Hu); discriminate.
Defined.

Lemma project_lists_are_for_the_owner_witness :
  exists rows,
    logService.getLogsByProject (JStr "100") 11 world_logs = (Ok rows, world_logs)
    /\ rows = [].
Proof.
  destruct (project_lists_are_for_the_owner world_logs (JStr "100") 100 11 eq_refl)
    as (_ & (rows & Hrun & _ & Hin) & _).
  exists rows. split; [exact Hrun|]. apply no_elements.
  intros l (_ & _ & p & [<-|[<-|[]]] & Hid & Hu)%Hin; discriminate.
Defined.

End LogsExamples.

(** ** Projects of other users *)

Section ProjectScope.
Import projectService settingsService projectDeletion projectCreation.

Variable u : Z.
Variable others : list Project.

Local Abbreviation others_are := (projects_of_others_are u others).

Lemma others_are_seqs : seqs_irrelevant others_are.
Proof. by intros f d Hd. Qed.

Lemma project_hit (pid : Z) (p : Project) :
  (p_id p =? pid) && (p_user_id p =? u) = true -> p_user_id p = u.
Proof. rewrite andb_true_iff, !Z.eqb_eq. tauto. Qed.

Lemma others_are_update (pid : Z) (f : Project -> Project) (d : DB) :
  (forall p, p_user_id (f p) = p_user_id p) ->
  others_are d ->
  others_are
    (set_projects
       (List.map (fun p => if (p_id p =? pid) && (p_user_id p =? u)
                           then f p else p)) d).
Proof.
  intros Hf Hd. unfold projects_of_others_are, projects_of_others in *. simpl.
  rewrite <- Hd.
  apply (filter_others_update p_user_id
           (fun p => (p_id p =? pid) && (p_user_id p =? u)));
    [apply project_hit|exact Hf].
Qed.

Lemma updateProjectStatus_others (env : Env) (projectId paused : jsval) :
  preserves others_are (updateProjectStatus env projectId u paused).
Proof.
  unfold updateProjectStatus. apply preserves_tx; [apply others_are_seqs|].
  apply preserves_bind.
  - destruct (strict_eq paused (JBool false)).
    + apply preserves_bind.
      { apply preserves_t_query. intros now. unfold sql_resume.
        apply stmt_preserves_with_int. intros pid d Hd. simpl.
        by apply (others_are_update pid
                    (fun p => set_last_activity now (set_paused false p))). }
      intros rows. apply preserves_bind; [apply preserves_lift|].
      intros updated. apply preserves_bind; [|intros _; apply preserves_ret].
      destruct updated; [apply preserves_nudge|apply preserves_ret].
    + apply preserves_bind; [|intros rows; apply preserves_lift].
      apply preserves_t_query. intros now. unfold sql_pause_owned.
      apply stmt_preserves_with_int. intros pid d Hd. simpl.
      by apply (others_are_update pid (set_paused true)).
  - intros updated. apply preserves_bind; [|intros _; apply preserves_ret].
    destruct updated; [apply preserves_broadcast|apply preserves_ret].
Qed.

Lemma setMessageLimit_others (projectId : jsval) (limit : number) :
  preserves others_are (setMessageLimit projectId limit u).
Proof.
  unfold setMessageLimit. apply preserves_bind.
  - apply preserves_db_query; [apply others_are_seqs|]. intros now.
    unfold sql_set_limit. apply stmt_preserves_with_int. intros pid d Hd.
    cbv zeta. destruct (in_int4 _); [|done]. simpl.
    by apply (others_are_update pid (set_message_limit (stored_integer limit))).
  - intros rows. apply preserves_bind; [apply preserves_lift|].
    intros [x|]; [|apply preserves_ret].
    apply preserves_bind; [apply preserves_broadcast|intros _; apply preserves_ret].
Qed.

Lemma deleteProject_others (projectId : jsval) :
  preserves others_are (deleteProject projectId u).
Proof.
  unfold deleteProject. apply preserves_tx; [apply others_are_seqs|].
  apply preserves_bind.
  { apply preserves_t_query. intros now. unfold sql_member_agents.
    apply stmt_preserves_with_int. by intros pid d Hd. }
  intros ids. apply preserves_bind.
  { apply preserves_t_query. intros now. unfold sql_delete_project.
    apply stmt_preserves_with_int. intros pid d Hd.
    unfold projects_of_others_are, projects_of_others in *. simpl. rewrite <- Hd.
    apply (filter_others_delete p_user_id
             (fun p => (p_id p =? pid) && (p_user_id p =? u))).
    apply project_hit. }
  intros rows. apply preserves_bind; [apply preserves_lift|].
  intros [x|]; [|apply preserves_throw].
  apply preserves_bind; [|intros _; apply preserves_ret].
  destruct ids; [apply preserves_ret|].
  apply preserves_t_query. by intros now d Hd.
Qed.

Lemma createProjectWithMembers_others (title : string)
    (description systemPrompt : option string) (agents : list AgentInput)
    (tokenId : option Z) :
  preserves others_are
    (createProjectWithMembers u title description systemPrompt agents tokenId).
Proof.
  unfold createProjectWithMembers. apply preserves_tx; [apply others_are_seqs|].
  apply preserves_bind.
  { apply preserves_t_query. by intros now d Hd. }
  intros rows. apply preserves_bind; [apply preserves_lift|].
  intros [x|]; [apply preserves_throw|].
  apply preserves_bind.
  { apply preserves_t_query. intros now d Hd.
    unfold projects_of_others_are, projects_of_others, sql_insert_project in *. simpl.
    rewrite List.filter_app. simpl. rewrite Z.eqb_refl. simpl.
    by rewrite app_nil_r. }
  intros inserted. apply preserves_bind; [apply preserves_lift|].
  intros project. apply preserves_bind.
  { destruct tokenId as [tid|]; [|apply preserves_ret].
    destruct (tid =? 0); [apply preserves_ret|].
    apply preserves_t_query. intros now d Hd. unfold sql_insert_project_token.
    by destruct (_ && _). }
  intros _. apply preserves_bind.
  { apply (insert_agents_frame (projects_of_others u)). by intros. }
  intros created. apply preserves_bind; [|intros _; apply preserves_ret].
  apply (insert_members_frame (projects_of_others u)).
  - apply sql_insert_member_frame. by intros.
  - apply sql_insert_conversation_frame; by intros.
Qed.

End ProjectScope.

(** X22: what a user does to projects never reaches a project of somebody
    else.  Whatever the arguments and whatever the outcome, the rows of
    [projects] that belong to other users are the same after
    [updateProjectStatus], [setMessageLimit], [deleteProject] and
    [createProjectWithMembers] called for user [u]. *)
Theorem project_writes_are_owner_scoped (env : Env) (w : World) (u : Z) :
  (forall projectId paused,
     projects_of_others u
       (db (snd (projectService.updateProjectStatus env projectId u paused w)))
     = projects_of_others u (db w)) /\
  (forall projectId limit,
     projects_of_others u
       (db (snd (settingsService.setMessageLimit projectId limit u w)))
     = projects_of_others u (db w)) /\
  (forall projectId,
     projects_of_others u (db (snd (projectDeletion.deleteProject projectId u w)))
     = projects_of_others u (db w)) /\
  (forall title description systemPrompt agents tokenId,
     projects_of_others u
       (db (snd (projectCreation.createProjectWithMembers u title description
                   systemPrompt agents tokenId w)))
     = projects_of_others u (db w)).
Proof.
  split; [|split; [|split]]; intros.
  - by apply (updateProjectStatus_others u (projects_of_others u (db w))).
  - by apply (setMessageLimit_others u (projects_of_others u (db w))).
  - by apply (deleteProject_others u (projects_of_others u (db w))).
  - by apply (createProjectWithMembers_others u (projects_of_others u (db w))).
Qed.

(** ** Titles of projects *)

Section Titles.
Import projectService settingsService projectDeletion projectCreation.

Lemma titled_rows (l : list Project) (p : Project) :
  NoDup (List.map title_key l) -> In p l ->
  List.filter (fun q => (p_user_id q =? p_user_id p)
                        && String.eqb (p_title q) (p_title p)) l = [p].
Proof.
  induction l as [|a l IH]; [done|]. simpl.
  intros [Hnew Hrest]%NoDup_cons Hin. rewrite list_elem_of_In in Hnew.
  assert (forall q, In q l -> title_key q = title_key p ->
            In (title_key p) (List.map title_key l)) as Hkey.
  { intros q Hq <-. by apply in_map. }
  destruct Hin as [->|Hin].
  - rewrite Z.eqb_refl, String.eqb_refl. simpl. f_equal.
    apply filter_none. intros q Hq.
    destruct (Z.eqb_spec (p_user_id q) (p_user_id p)) as [Hu|]; [|done].
    destruct (String.eqb_spec (p_title q) (p_title p)) as [Ht|]; [|done].
    destruct Hnew. apply (Hkey q Hq). unfold title_key. by rewrite Hu, Ht.
  - destruct (Z.eqb_spec (p_user_id a) (p_user_id p)) as [Hu|]; [|by apply IH].
    destruct (String.eqb_spec (p_title a) (p_title p)) as [Ht|]; [|by apply IH].
    destruct Hnew. replace (title_key a) with (title_key p).
    + by apply in_map.
    + unfold title_key. by rewrite Hu, Ht.
Qed.

Lemma titles_unique_seqs : seqs_irrelevant titles_unique.
Proof. by intros f d Hd. Qed.

Lemma titles_unique_update (g : Project -> Project) (d : DB) :
  (forall p, title_key (g p) = title_key p) ->
  titles_unique d -> titles_unique (set_projects (List.map g) d).
Proof.
  intros Hg Hd. unfold titles_unique in *. simpl. rewrite List.map_map.
  by rewrite (List.map_ext _ title_key Hg).
Qed.

Lemma titles_unique_filter (f : Project -> bool) (l : list Project) :
  NoDup (List.map title_key l) -> NoDup (List.map title_key (List.filter f l)).
Proof.
  induction l as [|a l IH]; [done|]. simpl.
  intros [Hnew Hrest]%NoDup_cons. destruct (f a); [|by apply IH].
  simpl. apply NoDup_cons. split; [|by apply IH].
  rewrite list_elem_of_In in *.
  intros (q & Hq & [Hin _]%filter_In)%in_map_iff. apply Hnew.
  rewrite <- Hq. by apply in_map.
Qed.

Lemma titles_unique_frame {A : Type} (c : M A) :
  (forall x, preserves (fun d => projects d = x) c) ->
  preserves titles_unique c.
Proof.
  intros Hc w Hw. specialize (Hc (projects (db w)) w eq_refl).
  unfold titles_unique in *. by rewrite Hc.
Qed.

Lemma updateProjectStatus_titles (env : Env) (projectId : jsval) (u : Z)
    (paused : jsval) :
  preserves titles_unique (updateProjectStatus env projectId u paused).
Proof.
  unfold updateProjectStatus. apply preserves_tx; [apply titles_unique_seqs|].
  apply preserves_bind.
  - destruct (strict_eq paused (JBool false)).
    + apply preserves_bind.
      { apply preserves_t_query. intros now. unfold sql_resume.
        apply stmt_preserves_with_int. intros pid d Hd. simpl.
        apply titles_unique_update; [|done]. intros p. by destruct (_ && _). }
      intros rows. apply preserves_bind; [apply preserves_lift|].
      intros updated. apply preserves_bind; [|intros _; apply preserves_ret].
      destruct updated; [apply preserves_nudge|apply preserves_ret].
    + apply preserves_bind; [|intros rows; apply preserves_lift].
      apply preserves_t_query. intros now. unfold sql_pause_owned.
      apply stmt_preserves_with_int. intros pid d Hd. simpl.
      apply titles_unique_update; [|done]. intros p. by destruct (_ && _).
  - intros updated. apply preserves_bind; [|intros _; apply preserves_ret].
    destruct updated; [apply preserves_broadcast|apply preserves_ret].
Qed.

Lemma setMessageLimit_titles (projectId : jsval) (limit : number) (u : Z) :
  preserves titles_unique (setMessageLimit projectId limit u).
Proof.
  unfold setMessageLimit. apply preserves_bind.
  - apply preserves_db_query; [apply titles_unique_seqs|]. intros now.
    unfold sql_set_limit. apply stmt_preserves_with_int. intros pid d Hd.
    cbv zeta. destruct (in_int4 _); [|done]. simpl.
    apply titles_unique_update; [|done]. intros p. by destruct (_ && _).
  - intros rows. apply preserves_bind; [apply preserves_lift|].
    intros [x|]; [|apply preserves_ret].
    apply preserves_bind; [apply preserves_broadcast|intros _; apply preserves_ret].
Qed.

Lemma pauseProjectInternal_titles (projectId : jsval) (code message : option string) :
  preserves titles_unique (pauseProjectInternal projectId code message).
Proof.
  unfold pauseProjectInternal. apply preserves_tx; [apply titles_unique_seqs|].
  apply preserves_bind.
  { apply preserves_t_query. intros now. unfold sql_pause.
    apply stmt_preserves_with_int. intros pid d Hd. simpl.
    apply titles_unique_update; [|done]. intros p. by destruct (_ =? _). }
  intros _. apply preserves_bind; [|intros _; apply preserves_broadcast].
  apply preserves_t_query. intros now. unfold sql_insert_warn_log.
  apply stmt_preserves_with_int. intros pid d Hd.
  destruct message; [|done]. by destruct (project_exists pid d).
Qed.

Lemma decrementMessageLimit_titles (projectId : jsval) :
  preserves titles_unique (decrementMessageLimit projectId).
Proof.
  unfold decrementMessageLimit. apply preserves_bind.
  - apply preserves_db_query; [apply titles_unique_seqs|]. intros now.
    unfold sql_decrement_limit. apply stmt_preserves_with_int. intros pid d Hd.
    destruct (forallb _ _); [|done]. simpl.
    apply titles_unique_update; [|done]. intros p. by destruct (_ =? _).
  - intros rows. apply preserves_bind; [apply preserves_lift|].
    intros [limit|]; [|apply preserves_ret].
    apply preserves_bind; [apply preserves_broadcast|]. intros _.
    apply preserves_bind; [|intros _; apply preserves_ret].
    destruct (limit <=? 0); [apply pauseProjectInternal_titles|apply preserves_ret].
Qed.

Lemma deleteProject_titles (projectId : jsval) (u : Z) :
  preserves titles_unique (deleteProject projectId u).
Proof.
  unfold deleteProject. apply preserves_tx; [apply titles_unique_seqs|].
  apply preserves_bind.
  { apply preserves_t_query. intros now. unfold sql_member_agents.
    apply stmt_preserves_with_int. by intros pid d Hd. }
  intros ids. apply preserves_bind.
  { apply preserves_t_query. intros now. unfold sql_delete_project.
    apply stmt_preserves_with_int. intros pid d Hd.
    unfold titles_unique in *. simpl. by apply titles_unique_filter. }
  intros rows. apply preserves_bind; [apply preserves_lift|].
  intros [x|]; [|apply preserves_throw].
  apply preserves_bind; [|intros _; apply preserves_ret].
  destruct ids; [apply preserves_ret|].
  apply preserves_t_query. by intros now d Hd.
Qed.

Lemma createProjectWithMembers_titles (u : Z) (title : string)
    (description systemPrompt : option string) (agents : list AgentInput)
    (tokenId : option Z) :
  preserves titles_unique
    (createProjectWithMembers u title description systemPrompt agents tokenId).
Proof.
  unfold createProjectWithMembers. apply preserves_tx; [apply titles_unique_seqs|].
  intros w Hw. rewrite bind_run, t_query_run.
  unfold sql_existing_title. cbn [fst snd].
  rewrite bind_run. unfold lift.
  destruct (List.filter _ (projects (db w))) as [|x [|y rest]] eqn:Hnone;
    cbn [List.map oneOrNone]; [|done|done].
  rewrite bind_run, t_query_run. unfold sql_insert_project. cbn [fst snd].
  match goal with
  | |- titles_unique (db (snd (?k ?w1))) =>
      assert (preserves titles_unique k) as Hk; [|apply Hk]
  end.
  - apply preserves_bind; [apply preserves_lift|]. intros project.
    apply preserves_bind.
    { destruct tokenId as [tid|]; [|apply preserves_ret].
      destruct (tid =? 0); [apply preserves_ret|].
      apply preserves_t_query. intros now d Hd. unfold sql_insert_project_token.
      by destruct (_ && _). }
    intros _. apply titles_unique_frame. intros x. apply preserves_bind.
    { apply (insert_agents_frame projects). by intros. }
    intros created. apply preserves_bind; [|intros _; apply preserves_ret].
    apply (insert_members_frame projects).
    + apply sql_insert_member_frame. by intros.
    + apply sql_insert_conversation_frame; by intros.
  - unfold titles_unique in *. simpl. rewrite List.map_app. simpl.
    apply NoDup_app. split; [done|]. split; [|apply NoDup_singleton].
    intros k (q & <- & Hq)%list_elem_of_In%in_map_iff [Heq|[]]%list_elem_of_In.
    assert (In q (List.filter
                    (fun p => (p_user_id p =? u) && String.eqb (p_title p) title)
                    (projects (db w)))) as Hin; [|by rewrite Hnone in Hin].
    apply filter_In. split; [done|]. injection Heq as -> ->.
    by rewrite Z.eqb_refl, String.eqb_refl.
Qed.

(** X23: no user ever has two projects with the same title.  The property
    is kept by every operation that writes [projects], whatever its
    arguments and outcome; and a creation under a title the user already
    has is refused with "A project with this title already exists." and
    changes nothing, not even a sequence. *)
Theorem project_titles_stay_unique (env : Env) (w : World) :
  titles_unique (db w) ->
  (forall u title description systemPrompt agents tokenId,
     let run := createProjectWithMembers u title description systemPrompt
                  agents tokenId w in
     titles_unique (db (snd run)) /\
     ((exists p, In p (projects (db w)) /\ p_user_id p = u /\ p_title p = title) ->
      run = (Throw (ThrowError "A project with this title already exists."), w))) /\
  (forall projectId u paused,
     titles_unique (db (snd (updateProjectStatus env projectId u paused w)))) /\
  (forall projectId limit u,
     titles_unique (db (snd (setMessageLimit projectId limit u w)))) /\
  (forall projectId u,
     titles_unique (db (snd (deleteProject projectId u w)))) /\
  (forall projectId,
     titles_unique (db (snd (decrementMessageLimit projectId w)))).
Proof.
  intros Hw. split; [|split; [|split; [|split]]]; intros.
  - split; [by apply createProjectWithMembers_titles|].
    intros (p & Hp & <- & <-). unfold run, createProjectWithMembers, tx.
    rewrite bind_run, t_query_run. unfold sql_existing_title. cbn [fst snd].
    rewrite (titled_rows _ p Hw Hp). simpl. f_equal.
    by apply tx_rollback_same.
  - by apply updateProjectStatus_titles.
  - by apply setMessageLimit_titles.
  - by apply deleteProject_titles.
  - by apply decrementMessageLimit_titles.
Qed.

End Titles.

Section TitlesExamples.
Import projectCreation Scenario.

Lemma project_titles_stay_unique_witness :
  createProjectWithMembers 10 (p_title (project100 false 5)) None None [] None
    (world0 false 5)
  = (Throw (ThrowError "A project with this title already exists."),
     world0 false 5).
Proof.
  assert (titles_unique (db (world0 false 5))) as Hw.
  { unfold titles_unique. simpl. apply NoDup_singleton. }
  destruct (project_titles_stay_unique env0 (world0 false 5) Hw) as [Hcreate _].
  apply Hcreate. exists (project100 false 5). split; [by left|done].
Defined.

End TitlesExamples.

(** ** Deleting a project: projectController.deleteProject *)

Section DeleteProjectHandler.
Import projectDeletion projectLocks.

Lemma find_filtered_out {A : Type} (f : A -> bool) (l : list A) :
  List.find f (List.filter (fun x => negb (f x)) l) = None.
Proof.
  induction l as [|a l IH]; [done|]. simpl.
  destruct (f a) eqn:Ha; simpl; [done|]. by rewrite Ha.
Qed.

(** X24: [DELETE /api/projects/:id].  A protected project of the demo user
    is refused before the database is asked, and a project that is not the
    caller's is refused by the service; both refusals are answered with
    status 500 and leave the world as it was.  The caller's project is
    deleted and the answer is 200.  The handler's own "project.notFound"
    is never the answer. *)
Theorem deleteProject_handler_outcomes (env : Env) (w : World) (id : jsval)
    (pid userId : Z) :
  Number id = JNum pid -> in_int4 pid = true -> projects_pk (db w) ->
  let run := projectController.deleteProject env id userId w in
  (isProtectedProject env userId (JNum pid) = true ->
     run = (Ok (resError "project.protectedDemo" 500), w)) /\
  (isProtectedProject env userId (JNum pid) = false ->
     ~ owns_project userId pid (db w) ->
     run = (Ok (resError "Project not found or user not authorized." 500), w)) /\
  (isProtectedProject env userId (JNum pid) = false ->
     owns_project userId pid (db w) ->
     fst run = Ok (resSuccess tt "project.deleteSuccess") /\
     find_project pid (db (snd run)) = None) /\
  fst run <> Ok (resError "project.notFound" 500).
Proof.
  intros Hnum Hrange Hpk run.
  assert (Hint : sql_int (JNum pid) = Some pid) by exact (sql_int_num _ Hrange).
  assert (Hlocked : isProtectedProject env userId (JNum pid) = true ->
                    run = (Ok (resError "project.protectedDemo" 500), w)).
  { intros Hlock. unfold run, projectController.deleteProject, tryCatch,
      projectController.deleteProject_body. by rewrite Hnum, Hlock. }
  assert (Hother : isProtectedProject env userId (JNum pid) = false ->
                   ~ owns_project userId pid (db w) ->
                   run = (Ok (resError "Project not found or user not authorized." 500), w)).
  { intros Hlock Hnot. unfold run, projectController.deleteProject, tryCatch,
      projectController.deleteProject_body. rewrite Hnum, Hlock.
    rewrite bind_run. unfold deleteProject, tx.
    rewrite bind_run, t_query_run. unfold sql_member_agents, with_int.
    rewrite Hint. cbn [fst snd].
    rewrite bind_run, t_query_run. unfold sql_delete_project, with_int.
    rewrite Hint. cbn [fst snd].
    rewrite (not_owned_rows p_id p_user_id).
    2: { intros x Hx Hid Hu. apply Hnot. by exists x. }
    simpl. f_equal. by apply tx_rollback_seqs. }
  assert (Howned : isProtectedProject env userId (JNum pid) = false ->
                   owns_project userId pid (db w) ->
                   fst run = Ok (resSuccess tt "project.deleteSuccess") /\
                   find_project pid (db (snd run)) = None).
  { intros Hlock (p & Hp & Hid & Hu).
    destruct (sql_delete_project_run (JNum pid) pid userId (clock w) (db w) p
                Hint Hpk Hp Hid Hu)
      as (d1 & Hdel & _ & _ & _ & Hpr & _).
    unfold run, projectController.deleteProject, tryCatch,
      projectController.deleteProject_body. rewrite Hnum, Hlock.
    rewrite bind_run. unfold deleteProject, tx.
    rewrite bind_run, t_query_run. unfold sql_member_agents, with_int.
    rewrite Hint. cbn [fst snd].
    rewrite bind_run, t_query_run. cbn [db clock with_db]. rewrite Hdel. cbn [fst snd].
    rewrite bind_run. unfold lift. cbn [oneOrNone].
    rewrite bind_run.
    destruct (List.map pam_agent_id _) as [|i ids]; simpl.
    - split; [done|]. unfold find_project. rewrite Hpr. apply find_filtered_out.
    - split; [done|]. unfold find_project. rewrite Hpr. apply find_filtered_out. }
  split; [exact Hlocked|]. split; [exact Hother|]. split; [exact Howned|].
  destruct (isProtectedProject env userId (JNum pid)) eqn:Hlock.
  - by rewrite (Hlocked eq_refl).
  - destruct (find_project pid (db w)) as [p|] eqn:Hf.
    + unfold find_project in Hf. apply List.find_some in Hf as [Hp Hid%Z.eqb_eq].
      destruct (Z.eq_dec (p_user_id p) userId) as [Hu|Hu].
      * destruct (Howned eq_refl) as [-> _]; [by exists p|done].
      * rewrite Hother; [done|done|]. intros (q & Hq & Hqid & Hqu).
        apply Hu. rewrite <- Hqu. f_equal.
        eapply (key_unique p_id); eauto. congruence.
    + rewrite Hother; [done|done|]. intros (q & Hq & Hqid & _).
      unfold find_project in Hf.
      pose proof (List.find_none _ _ Hf q Hq) as Hno. simpl in Hno.
      apply Z.eqb_neq in Hno. done.
Qed.

End DeleteProjectHandler.

Section DeleteProjectHandlerExamples.
Import Scenario.

Lemma deleteProject_handler_outcomes_witness :
  projectController.deleteProject env0 (JStr "100") 11 (world0 false 5)
  = (Ok (resError "Project not found or user not authorized." 500),
     world0 false 5) /\
  find_project 100
    (db (snd (projectController.deleteProject env0 (JStr "100") 10 (world0 false 5))))
  = None.
Proof.
  assert (projects_pk (db (world0 false 5))) as Hpk.
  { unfold projects_pk. simpl. apply NoDup_singleton. }
  destruct (deleteProject_handler_outcomes env0 (world0 false 5) (JStr "100") 100 11
              eq_refl eq_refl Hpk) as (_ & Hother & _).
  destruct (deleteProject_handler_outcomes env0 (world0 false 5) (JStr "100") 100 10
              eq_refl eq_refl Hpk) as (_ & _ & Howned & _).
  split.
  - apply Hother; [done|]. intros (p & [<-|[]] & _ & Hu). discriminate.
  - apply Howned; [done|]. exists (project100 false 5). split; [by left|done].
Defined.

End DeleteProjectHandlerExamples.

(** ** Switching a token off and on: tokenController.js *)

Section TokenActivationHandlers.
Import tokenActivation tokenActivationController projectLocks.

Lemma set_tokens_same (d : DB) : set_tokens (fun l => l) d = d.
Proof. by destruct d. Qed.

Lemma sql_set_active_not_owned (b : bool) (tokenId : jsval) (tid u now : Z)
    (d : DB) :
  sql_int tokenId = Some tid -> ~ owns_token u tid d ->
  sql_set_active b tokenId u now d = (Ok [], d).
Proof.
  intros Hint Hno. unfold sql_set_active, with_int. rewrite Hint.
  assert (Hf : List.filter (fun t => (t_id t =? tid) && (t_user_id t =? u))
                 (tokens d) = []).
  { apply not_owned_rows. intros x Hx Hid Hu. apply Hno. by exists x. }
  rewrite Hf. simpl. f_equal. rewrite <- (set_tokens_same d) at 2.
  unfold set_tokens. f_equal. by apply map_update_none.
Qed.

(** X25: [PATCH /api/tokens/:id/disable] and [PATCH /api/tokens/:id/enable].
    The protected token of the demo user cannot be disabled: the request is
    refused and the world stays as it was.  Otherwise the owner's token is
    switched off, and switched on by the other route, which consults no
    lock; for a token that is not the caller's both routes answer
    "token.notFoundOrUnauthorized" and leave the database as it was.
    Every refusal is answered with status 500. *)
Theorem token_activation_handlers (env : Env) (w : World) (id : jsval)
    (tid u : Z) :
  Number id = JNum tid -> sql_int id = Some tid -> tokens_pk (db w) ->
  let off := tokenActivationController.disableToken env id u w in
  let on := tokenActivationController.enableToken id u w in
  (isProtectedDemoToken env u (JNum tid) = true ->
     off = (Ok (resError "token.protectedDemo" 500), w)) /\
  (forall t, In t (tokens (db w)) -> t_id t = tid -> t_user_id t = u ->
     (isProtectedDemoToken env u (JNum tid) = false ->
        fst off = Ok (resSuccess tt "token.disabledSuccess") /\
        find_token tid (db (snd off)) = Some (set_active false t)) /\
     fst on = Ok (resSuccess tt "token.enabledSuccess") /\
     find_token tid (db (snd on)) = Some (set_active true t)) /\
  (~ owns_token u tid (db w) ->
     (isProtectedDemoToken env u (JNum tid) = false ->
        fst off = Ok (resError "token.notFoundOrUnauthorized" 500)) /\
     fst on = Ok (resError "token.notFoundOrUnauthorized" 500) /\
     db (snd off) = db w /\ db (snd on) = db w).
Proof.
  intros Hnum Hint Hpk off on.
  assert (Hint' : sql_int (JNum tid) = Some tid).
  { apply sql_int_num. by apply (sql_int_in_int4 id). }
  split; [|split].
  - intros Hlock. unfold off, tokenActivationController.disableToken, tryCatch,
      disableToken_body. by rewrite Hnum, Hlock.
  - intros t Hin Hid Hu. split; [intros Hlock|].
    + unfold off, tokenActivationController.disableToken, tryCatch,
        disableToken_body. rewrite Hnum, Hlock.
      unfold tokenActivation.disableToken, bind, db_query.
      rewrite (sql_set_active_run false (JNum tid) tid u (clock w) (db w) t);
        try done.
      simpl. split; [done|]. unfold find_token. simpl.
      apply find_token_update; try done; by intros [].
    + unfold on, tokenActivationController.enableToken, tryCatch,
        enableToken_body, tokenActivation.enableToken, bind, db_query.
      rewrite (sql_set_active_run true id tid u (clock w) (db w) t); try done.
      simpl. split; [done|]. unfold find_token. simpl.
      apply find_token_update; try done; by intros [].
  - intros Hno.
    assert (Hon : on = (Ok (resError "token.notFoundOrUnauthorized" 500),
                        commit (with_db (fun _ => db w) w))).
    { unfold on, tokenActivationController.enableToken, tryCatch,
        enableToken_body, tokenActivation.enableToken, bind, db_query.
      by rewrite (sql_set_active_not_owned true id tid u (clock w) (db w)). }
    rewrite Hon. split; [|split; [done|split; [|done]]].
    + intros Hlock. unfold off, tokenActivationController.disableToken, tryCatch,
        disableToken_body. rewrite Hnum, Hlock.
      unfold tokenActivation.disableToken, bind, db_query.
      by rewrite (sql_set_active_not_owned false (JNum tid) tid u (clock w) (db w)).
    + unfold off, tokenActivationController.disableToken, tryCatch,
        disableToken_body. rewrite Hnum.
      destruct (isProtectedDemoToken env u (JNum tid)); [done|].
      unfold tokenActivation.disableToken, bind, db_query.
      by rewrite (sql_set_active_not_owned false (JNum tid) tid u (clock w) (db w)).
Qed.

End TokenActivationHandlers.

Section TokenActivationHandlersExamples.
Import tokenActivation tokenActivationController Scenario.

Lemma token_activation_handlers_witness :
  tokenActivationController.disableToken env0 (JStr "2") 2 world_demo
  = (Ok (resError "token.protectedDemo" 500), world_demo) /\
  find_token 2
    (db (snd (tokenActivationController.enableToken (JStr "2") 2 world_demo)))
  = Some (set_active true (demo_token 2)).
Proof.
  assert (tokens_pk (db world_demo)) as Hpk by by_decide.
  destruct (token_activation_handlers env0 world_demo (JStr "2") 2 2
              eq_refl eq_refl Hpk) as (Hlock & Hown & _).
  split; [by apply Hlock|].
  apply (Hown (demo_token 2)); [|done|done].
  simpl. auto.
Defined.

End TokenActivationHandlersExamples.

(** ** The limit route: projectSettingsController.setMessageLimit *)

Section LimitRoute.
Import settingsService projectSettingsController projectLocks.

Lemma setMessageLimit_rows (projectId : jsval) (limit : number) (u : Z)
    (w : World) (p' : Project) :
  In p' (projects (db (snd (settingsService.setMessageLimit projectId limit u w)))) ->
  In p' (projects (db w)) \/
  exists p, In p (projects (db w)) /\
            p' = set_message_limit (stored_integer limit) p /\
            p_user_id p = u /\ in_int4 (stored_integer limit) = true.
Proof.
  unfold settingsService.setMessageLimit, bind, db_query, sql_set_limit, with_int.
  destruct (sql_int projectId) as [pid|]; [|by left].
  cbv zeta. destruct (in_int4 (stored_integer limit)) eqn:Hrange; [|by left].
  simpl.
  assert (In p' (List.map
                   (fun p => if (p_id p =? pid) && (p_user_id p =? u)
                             then set_message_limit (stored_integer limit) p
                             else p)
                   (projects (db w))) ->
          In p' (projects (db w)) \/
          exists p, In p (projects (db w)) /\
                    p' = set_message_limit (stored_integer limit) p /\
                    p_user_id p = u /\ true = true) as Hmap.
  { intros (p & <- & Hp)%in_map_iff.
    destruct ((p_id p =? pid) && (p_user_id p =? u)) eqn:Hhit; [|by left].
    right. exists p. split; [done|]. split; [done|].
    apply andb_true_iff in Hhit as [_ Hu%Z.eqb_eq]. done. }
  destruct (oneOrNone _) as [[x|]|e]; simpl; exact Hmap.
Qed.

Lemma round_half_away_bounds (m : Z) (e : positive) :
  0 <= m ->
  let p := 10 ^ Z.pos e in
  2 * m - p < 2 * p * round_half_away m e <= 2 * m + p.
Proof.
  intros Hm p. unfold round_half_away. fold p.
  assert (Hp : 0 < p) by (apply Z.pow_pos_nonneg; lia).
  rewrite Z.abs_eq by lia.
  pose proof (Z.div_mod (2 * m + p) (2 * p) ltac:(lia)) as Hdiv.
  pose proof (Z.mod_pos_bound (2 * m + p) (2 * p) ltac:(lia)) as Hmod.
  destruct (Z.eq_dec m 0) as [->|Hne].
  - simpl. lia.
  - rewrite (Z.sgn_pos m) by lia. lia.
Qed.

(** X26: what [PATCH /settings/project/:id/limit] can do to a budget.
    Whatever the request, every project is afterwards as it was or is a
    project of the caller with its [message_limit] replaced by the number
    sent, rounded to the nearest integer when it has a fraction.  The
    number sent is not negative, what is stored is not negative, is an
    [INTEGER] and is within one half of the number sent; and for the demo
    user the number sent is at most the configured cap and the project is
    not the snapshot project. *)
Theorem setMessageLimit_handler_bounds (env : Env) (w : World) (id limit : jsval)
    (u : Z) (p' : Project) :
  In p' (projects
           (db (snd (projectSettingsController.setMessageLimit env id u limit w)))) ->
  In p' (projects (db w)) \/
  exists p x,
    In p (projects (db w)) /\ p' = set_message_limit (stored_integer x) p /\
    limit = js_number x /\ p_user_id p = u /\
    number_ltz x 0 = false /\
    0 <= stored_integer x /\ in_int4 (stored_integer x) = true /\
    (forall n, x = Int n -> stored_integer x = n) /\
    (forall m e, x = Dec m e ->
       2 * m - 10 ^ Z.pos e < 2 * 10 ^ Z.pos e * stored_integer x
       <= 2 * m + 10 ^ Z.pos e) /\
    (isDemoUser env u = true ->
       number_gtz x (demo_limit_cap env) = false
       /\ isSnapshotProject env u (Number id) = false).
Proof.
  unfold projectSettingsController.setMessageLimit.
  destruct (MessageLimitSchema limit) as [message|x] eqn:Hschema;
    [by left|]. simpl.
  assert (Hx : limit = js_number x /\ number_ltz x 0 = false).
  { unfold MessageLimitSchema in Hschema.
    destruct limit as [| |b|n| |t|m e]; try discriminate.
    - destruct (n <? 0) eqn:Hn; [discriminate|]. by injection Hschema as <-.
    - destruct (m <? 0) eqn:Hm; [discriminate|]. injection Hschema as <-.
      split; [done|]. simpl. by rewrite Z.mul_0_l. }
  destruct Hx as [Hlimit Hnonneg].
  assert (Hstored : 0 <= stored_integer x /\
                    (forall n, x = Int n -> stored_integer x = n) /\
                    (forall m e, x = Dec m e ->
                       2 * m - 10 ^ Z.pos e
                       < 2 * 10 ^ Z.pos e * stored_integer x
                       <= 2 * m + 10 ^ Z.pos e)).
  { destruct x as [n|m e]; simpl in *.
    - split; [lia|]. split; [by intros ? [= <-]|by intros].
    - rewrite Z.mul_0_l in Hnonneg. apply Z.ltb_ge in Hnonneg.
      pose proof (round_half_away_bounds m e Hnonneg) as Hb. cbv zeta in Hb.
      assert (Hp : 0 < 10 ^ Z.pos e) by (apply Z.pow_pos_nonneg; lia).
      split; [nia|]. split; [by intros|]. by intros ? ? [= <- <-]. }
  destruct Hstored as (Hs0 & Hint & Hdec).
  unfold tryCatch, setMessageLimit_body.
  destruct (isSnapshotProject env u (Number id)) eqn:Hsnap; [by left|].
  destruct (isLimitExceededForDemo env u x) eqn:Hcap; [by left|].
  assert (Hdemo : isDemoUser env u = true ->
                  number_gtz x (demo_limit_cap env) = false
                  /\ isSnapshotProject env u (Number id) = false).
  { intros Hd. split; [|done]. unfold isLimitExceededForDemo in Hcap.
    rewrite Hd in Hcap. simpl in Hcap. unfold demo_limit_cap.
    by destruct (demoProjectLimit env). }
  unfold bind at 1.
  destruct (settingsService.setMessageLimit (Number id) x u w) as [[updated|e] w1]
    eqn:Hrun.
  - intros Hin.
    assert (In p' (projects (db w1))) as Hin1.
    { destruct updated; exact Hin. }
    change w1 with (snd (Ok updated, w1)) in Hin1. rewrite <- Hrun in Hin1.
    apply setMessageLimit_rows in Hin1 as [Hold|(p & Hp & -> & Hu & Hr)];
      [by left|].
    right. exists p, x. repeat (split; [done|]).
    intros Hd. split; [by apply Hdemo|done].
  - simpl. intros Hin1.
    change w1 with (snd (Throw (A := bool) e, w1)) in Hin1. rewrite <- Hrun in Hin1.
    apply setMessageLimit_rows in Hin1 as [Hold|(p & Hp & -> & Hu & Hr)];
      [by left|].
    right. exists p, x. repeat (split; [done|]).
    intros Hd. split; [by apply Hdemo|done].
Qed.

End LimitRoute.

Section LimitRouteExamples.
Import settingsService projectSettingsController Scenario.

Lemma setMessageLimit_handler_bounds_witness :
  In (project100 false 2) (projects (db (world0 false 5))) \/
  exists p x,
    In p (projects (db (world0 false 5))) /\
    project100 false 2 = set_message_limit (stored_integer x) p /\
    JDec 15 1 = js_number x /\ p_user_id p = 10 /\
    number_ltz x 0 = false /\
    0 <= stored_integer x /\ in_int4 (stored_integer x) = true /\
    (forall n, x = Int n -> stored_integer x = n) /\
    (forall m e, x = Dec m e ->
       2 * m - 10 ^ Z.pos e < 2 * 10 ^ Z.pos e * stored_integer x
       <= 2 * m + 10 ^ Z.pos e) /\
    (projectLocks.isDemoUser env0 10 = true ->
       number_gtz x (demo_limit_cap env0) = false
       /\ projectLocks.isSnapshotProject env0 10 (Number (JStr "100")) = false).
Proof.
  apply (setMessageLimit_handler_bounds env0 (world0 false 5) (JStr "100")
           (JDec 15 1) 10).
  simpl. by left.
Defined.

End LimitRouteExamples.

(** ** The event of the status route *)

Section StatusEvent.
Import projectService projectLocks webSocketService.

Lemma broadcast_no_subscriber (projectId : jsval) (message : Event) (h : Hub) :
  (forall e, In e (clients h) -> strict_eq (ci_projectId (snd e)) projectId = false) ->
  webSocketService.broadcastToProject projectId message h
  = {| clients := clients h;
       pendingMessages :=
         <[ projectId := default [] (pendingMessages h !! projectId)
                         ++ [JSON_stringify message] ]> (pendingMessages h);
       readyState := readyState h;
       sent := sent h |}.
Proof.
  intros Hno. unfold webSocketService.broadcastToProject.
  by rewrite (filter_none _ _ Hno).
Qed.

Lemma Number_of_sql_int (s : string) (n : Z) :
  sql_int (JStr s) = Some n -> Number (JStr s) = JNum n.
Proof.
  unfold sql_int, Number. destruct s as [|c r]; [done|].
  cbn [String.eqb]. destruct (parse_int (String c r)) as [k|]; [|done].
  destruct (in_int4 k); [|done]. by intros [= <-].
Qed.

(** X27: a status change made through [POST /api/projects/:id/status] is
    published under the id as the route carries it, a string.  When every
    subscriber has joined with a number, as the workspace page does, no
    socket is handed the [project_updated] event: the request succeeds, the
    event is appended to the queue kept for the string, and nothing is
    sent.  The same change made through the settings route [pause] is
    published under the number. *)
Theorem status_route_event_misses_numeric_subscribers (env : Env) (w : World)
    (param : string) (pid u : Z) (paused : jsval) :
  sql_int (JStr param) = Some pid -> projects_pk (db w) ->
  owns_project u pid (db w) ->
  negb (truthy paused) && isSnapshotProject env u (JNum pid) = false ->
  (forall e, In e (clients (hub w)) -> exists n, ci_projectId (snd e) = JNum n) ->
  let run := projectController.updateProjectStatus env (JStr param) u paused w in
  fst run = Ok {| status := 200;
                  body := Json {| projectController.sa_success := true;
                                  projectController.sa_message :=
                                    "Project status updated successfully." |} |} /\
  sent (hub (snd run)) = sent (hub w) /\
  pendingMessages (hub (snd run)) !! JStr param
  = Some (default [] (pendingMessages (hub w) !! JStr param)
          ++ [JSON_stringify (project_updated (JStr param))]) /\
  (forall b, isSnapshotProject env u (JNum pid) = false ->
     hub (snd (settingsController.pauseProject env (JStr param) u (JBool b) w))
     = webSocketService.broadcastToProject (JNum pid) (project_updated (JNum pid))
         (hub w)).
Proof.
  intros Hint Hpk (p & Hp & Hid & Hu) Hlock Hnum run. subst pid.
  pose proof (Number_of_sql_int _ _ Hint) as HN.
  assert (Hhub : forall e, In e (clients (hub w)) ->
                   strict_eq (ci_projectId (snd e)) (JStr param) = false).
  { intros e He. destruct (Hnum e He) as [n ->]. done. }
  destruct (updateProjectStatus_owned_run env w (JStr param) u paused p
              Hint Hpk Hp Hu) as (Hres & _ & _ & Hh & _).
  split; [|split; [|split]].
  - unfold run, projectController.updateProjectStatus, tryCatch,
      projectController.updateProjectStatus_body. rewrite HN, Hlock.
    unfold bind.
    destruct (updateProjectStatus env (JStr param) u paused w) as [r w1].
    simpl in Hres. by rewrite Hres.
  - unfold run, projectController.updateProjectStatus, tryCatch,
      projectController.updateProjectStatus_body. rewrite HN, Hlock.
    unfold bind.
    destruct (updateProjectStatus env (JStr param) u paused w) as [r w1].
    simpl in Hres, Hh. rewrite Hres. simpl. rewrite Hh.
    by rewrite (broadcast_no_subscriber _ _ _ Hhub).
  - unfold run, projectController.updateProjectStatus, tryCatch,
      projectController.updateProjectStatus_body. rewrite HN, Hlock.
    unfold bind.
    destruct (updateProjectStatus env (JStr param) u paused w) as [r w1].
    simpl in Hres, Hh. rewrite Hres. simpl. rewrite Hh.
    rewrite (broadcast_no_subscriber _ _ _ Hhub). simpl.
    apply lookup_insert_eq.
  - intros b Hsnap.
    assert (Hint' : sql_int (JNum (p_id p)) = Some (p_id p)).
    { apply sql_int_num. by apply (sql_int_in_int4 (JStr param)). }
    destruct (updateProjectStatus_owned_run env w (JNum (p_id p)) u (JBool b) p
                Hint' Hpk Hp Hu) as (Hres' & _ & _ & Hh' & _).
    unfold settingsController.pauseProject. simpl.
    unfold tryCatch, settingsController.pauseProject_body. rewrite HN, Hsnap.
    unfold bind.
    destruct (updateProjectStatus env (JNum (p_id p)) u (JBool b) w) as [r w1].
    simpl in Hres', Hh'. by rewrite Hres'.
Qed.

End StatusEvent.

Section StatusEventExamples.
Import Scenario HubCases webSocketService.

Lemma status_route_event_misses_numeric_subscribers_witness :
  clients (hub world_joined)
  = [(1%nat, {| ci_projectId := JNum 100; ci_userId := 10 |})] /\
  sent (hub (snd (projectController.updateProjectStatus env0 (JStr "100") 10
                    (JBool false) world_joined))) = [] /\
  received 1
    (hub (snd (settingsController.pauseProject env0 (JStr "100") 10 (JBool false)
                 world_joined)))
  = [JSON_stringify (projectService.project_updated (JNum 100))].
Proof.
  assert (projects_pk (db world_joined)) as Hpk.
  { unfold projects_pk. simpl. apply NoDup_singleton. }
  destruct (status_route_event_misses_numeric_subscribers env0 world_joined "100"
              100 10 (JBool false) eq_refl Hpk) as (_ & Hsent & _ & Hset).
  - exists (project100 true 5). split; [by left|done].
  - done.
  - intros e [<-|[]]. by exists 100.
  - split; [done|]. split; [exact Hsent|]. by rewrite (Hset false eq_refl).
Defined.

End StatusEventExamples.

Section Trace.
Import webSocketService HubTrace.

Lemma map_get_set_other {V : Type} (k k' : nat) (v : V) (m : list (nat * V)) :
  k' <> k -> map_get k (map_set k' v m) = map_get k m.
Proof.
  intros Hne. induction m as [|[k2 v2] m IH]; simpl.
  - by rewrite (proj2 (Nat.eqb_neq _ _) Hne).
  - destruct (Nat.eqb_spec k2 k') as [->|Hne2]; simpl.
    + by rewrite (proj2 (Nat.eqb_neq _ _) Hne).
    + by rewrite IH.
Qed.

Lemma map_get_delete_other {V : Type} (k k' : nat) (m : list (nat * V)) :
  k' <> k -> map_get k (map_delete k' m) = map_get k m.
Proof.
  intros Hne. unfold map_delete. induction m as [|[k2 v2] m IH]; simpl; [done|].
  destruct (Nat.eqb_spec k2 k') as [->|Hne2]; simpl.
  - by rewrite IH, (proj2 (Nat.eqb_neq _ _) Hne).
  - by rewrite IH.
Qed.

(** Flushing a queue to another socket. *)
Lemma received_flush_other (ws ws' : nat) (queue : list Frame) :
  ws' <> ws ->
  forall h,
    let h' := fold_left (fun acc msg => send_if_open ws' msg acc) queue h in
    readyState h' = readyState h /\ clients h' = clients h
    /\ received ws h' = received ws h.
Proof.
  intros Hne. induction queue as [|msg rest IH]; intros h; simpl; [done|].
  destruct (send_if_open_readyState ws' msg h) as (Hrs1 & Hcl1 & _).
  destruct (IH (send_if_open ws' msg h)) as (Hrs & Hcl & Hrec).
  rewrite Hrs, Hcl, Hrec, Hrs1, Hcl1. repeat split.
  unfold send_if_open. destruct (is_open _); [|done].
  unfold received at 1. simpl. rewrite received_app. simpl.
  rewrite (proj2 (Nat.eqb_neq _ _) Hne). simpl. by rewrite app_nil_r.
Qed.

(** One event that is not of the socket leaves its registration and its
    state as they are, and hands it a frame only if the event is a
    broadcast under an id that is [===] the id it joined with. *)
Lemma step_received (ws : nat) (info : ClientInfo) (s : Step) (h : Hub) :
  of_socket ws s = false ->
  hub_wf h -> map_get ws (clients h) = Some info ->
  is_open (readyState h ws) = true ->
  hub_wf (step s h) /\ map_get ws (clients (step s h)) = Some info
  /\ is_open (readyState (step s h) ws) = true
  /\ received ws (step s h)
     = received ws h ++ published (ci_projectId info) [s].
Proof.
  intros Hother Hwf Hget Hopen.
  destruct (hub_wf_reachable (readyState h)) as (_ & Hwf_m & Hwf_c & _).
  destruct s as [projectId message|ws' userId data|ws'|ws' user];
    simpl in Hother; unfold published; simpl; rewrite ?app_nil_r.
  - exact (broadcast_received h ws info projectId message Hwf Hget Hopen).
  - apply Nat.eqb_neq in Hother. split; [by apply Hwf_m|].
    destruct data as [d|]; [|done]. unfold on_message.
    destruct (strict_eq _ _ && truthy _); [|done]. simpl.
    destruct (pendingMessages h !! d_projectId d) as [queue|]; simpl.
    + set (h0 := {| clients := map_set ws' _ (clients h);
                    pendingMessages := pendingMessages h;
                    readyState := readyState h; sent := sent h |}).
      destruct (received_flush_other ws ws' queue Hother h0) as (Hrs & Hcl & Hrec).
      unfold received in *. simpl. rewrite Hrs, Hcl, Hrec. simpl.
      by rewrite map_get_set_other.
    + by rewrite map_get_set_other.
  - apply Nat.eqb_neq in Hother. split; [by apply Hwf_c|]. simpl.
    rewrite map_get_delete_other by done.
    by rewrite (proj2 (Nat.eqb_neq _ _) (not_eq_sym Hother)).
  - apply Nat.eqb_neq in Hother.
    assert (Hclose : hub_wf (close ws' h)
                     /\ map_get ws (clients (close ws' h)) = Some info
                     /\ is_open (readyState (close ws' h) ws) = true
                     /\ received ws (close ws' h) = received ws h).
    { repeat split; try done. simpl.
      by rewrite (proj2 (Nat.eqb_neq _ _) (not_eq_sym Hother)). }
    unfold on_connection. destruct user as [userId|]; [|exact Hclose].
    by destruct (userId =? 0).
Qed.

Lemma run_received (ws : nat) (info : ClientInfo) (steps : list Step) :
  forallb (fun s => negb (of_socket ws s)) steps = true ->
  forall h,
    hub_wf h -> map_get ws (clients h) = Some info ->
    is_open (readyState h ws) = true ->
    map_get ws (clients (run steps h)) = Some info
    /\ received ws (run steps h)
       = received ws h ++ published (ci_projectId info) steps.
Proof.
  unfold run. induction steps as [|s rest IH]; intros Hother h Hwf Hget Hopen.
  - simpl. by rewrite app_nil_r.
  - simpl in Hother. apply andb_true_iff in Hother as [Hs%negb_true_iff Hrest].
    destruct (step_received ws info s h Hs Hwf Hget Hopen)
      as (Hwf' & Hget' & Hopen' & Hrec).
    destruct (IH Hrest (step s h) Hwf' Hget' Hopen') as [Hget2 Hrec2].
    simpl. split; [done|]. rewrite Hrec2, Hrec, <- app_assoc. f_equal.
    unfold published. simpl. by rewrite app_nil_r.
Qed.

(** X29: what a socket that has joined is handed.  A socket that is open
    sends a join frame with a truthy project id [N].  Whatever happens next
    at the hub that is not an event of this socket (broadcasts for any
    project, frames of other sockets, their joins with the same or another
    id, their closing, new connections), the socket stays registered under
    [N] and has been handed, in this order: what it had before, the frames
    that were queued under [N] at the join, and the frame of every later
    broadcast made under an id that is [===] [N]; nothing else. *)
Theorem joined_socket_is_handed_its_events (h : Hub) (ws : nat) (userId : Z)
    (N : jsval) (steps : list Step) :
  truthy N = true -> is_open (readyState h ws) = true -> hub_wf h ->
  forallb (fun s => negb (of_socket ws s)) steps = true ->
  let h1 := on_message ws userId
              (Some {| d_type := JStr "join"; d_projectId := N |}) h in
  map_get ws (clients (run steps h1))
  = Some {| ci_projectId := N; ci_userId := userId |} /\
  received ws (run steps h1)
  = received ws h ++ default [] (pendingMessages h !! N) ++ published N steps.
Proof.
  intros HN Hopen Hwf Hother h1.
  destruct (join_subscribes h ws userId N HN Hopen Hwf) as (Hget & Hrec & _).
  fold h1 in Hget, Hrec.
  destruct (hub_wf_reachable (readyState h)) as (_ & Hwf_m & _).
  assert (Hopen1 : is_open (readyState h1 ws) = true).
  { unfold h1, on_message. simpl. rewrite HN. simpl.
    destruct (pendingMessages h !! N) as [queue|]; simpl; [|done].
    set (h0 := {| clients := map_set ws _ (clients h);
                  pendingMessages := pendingMessages h;
                  readyState := readyState h; sent := sent h |}).
    destruct (received_flush ws queue h0 Hopen) as (Hrs & _). by rewrite Hrs. }
  destruct (run_received ws _ steps Hother h1 (Hwf_m _ _ _ _ Hwf) Hget Hopen1)
    as [Hget' Hrec'].
  split; [exact Hget'|]. rewrite Hrec', Hrec. simpl. by rewrite <- app_assoc.
Qed.

End Trace.

Section TraceExamples.
Import webSocketService HubTrace Scenario.

Lemma joined_socket_is_handed_its_events_witness :
  let queued := broadcastToProject (JNum 100) (update_event (JNum 100) 5)
                  (initial (fun _ => OPEN)) in
  received 1
    (run [ Broadcast (JNum 100) (update_event (JNum 100) 4);
           Message 2 11 (Some join100);
           Broadcast (JNum 200) (update_event (JNum 200) 9);
           Broadcast (JStr "100") (update_event (JStr "100") 8);
           Close 2;
           Broadcast (JNum 100) (update_event (JNum 100) 3) ]
       (on_message 1 10 (Some join100) queued))
  = [ update_event (JNum 100) 5; update_event (JNum 100) 4;
      update_event (JNum 100) 3 ].
Proof.
  intros queued.
  refine (proj2 (joined_socket_is_handed_its_events queued 1 10 (JNum 100)
                   [ Broadcast (JNum 100) (update_event (JNum 100) 4);
                     Message 2 11 (Some join100);
                     Broadcast (JNum 200) (update_event (JNum 200) 9);
                     Broadcast (JStr "100") (update_event (JStr "100") 8);
                     Close 2;
                     Broadcast (JNum 100) (update_event (JNum 100) 3) ]
                   eq_refl eq_refl _ eq_refl)).
  unfold hub_wf. simpl. apply NoDup_nil_2.
Defined.

End TraceExamples.

Section JoinedClient.
Import Scenario HubCases webSocketService.

(** C10, the defect: a client that has joined project 100 is not handed
    every event of project 100.  The socket joins with the number 100.  The
    owner then resumes the project through [POST /api/projects/100/status]:
    the handler passes the route's id, the string, on to the service, which
    publishes [project_updated] under it, and the hub compares ids with
    [===].  The request answers 200 and the project is resumed, no frame
    reaches the socket, and the event waits in the queue kept under the
    string.  The limit route, which reads the id with [Number] first,
    publishes under the number and reaches the socket. *)
Theorem joined_client_misses_the_status_event :
  let status_run :=
    projectController.updateProjectStatus env0 (JStr "100") 10 (JBool false)
      world_joined in
  let limit_run :=
    projectSettingsController.setMessageLimit env0 (JStr "100") 10 (JNum 7)
      world_joined in
  map_get 1%nat (clients (hub world_joined))
  = Some {| ci_projectId := JNum 100; ci_userId := 10 |} /\
  (exists r, fst status_run = Ok r /\ status r = 200) /\
  option_map p_paused (find_project 100 (db (snd status_run))) = Some false /\
  received 1 (hub (snd status_run)) = [] /\
  pendingMessages (hub (snd status_run)) !! JStr "100"
  = Some [JSON_stringify (projectService.project_updated (JStr "100"))] /\
  received 1 (hub (snd limit_run))
  = [JSON_stringify
       {| ev_type := "project_updated";
          ev_payload := PProjectUpdated (JNum 100) (Some (Int 7)) None |}].
Proof.
  split; [reflexivity|]. split; [eexists; split; [by vm_compute|reflexivity]|].
  repeat split; by vm_compute.
Qed.

End JoinedClient.

(** ** The stored form of a secret: utils/auth/encrypt.js *)

Section StoredKey.
Import encrypt Buffer.

Lemma split_no_colon (s : string) :
  ~ In ":"%char (list_ascii_of_string s) -> split_on ":" s = [s].
Proof.
  induction s as [|c s IH]; [done|]. simpl list_ascii_of_string. intros Hno.
  apply split_on_cons_other.
  - apply Ascii.eqb_neq. intros ->. apply Hno. by left.
  - apply IH. intros Hin. apply Hno. by right.
Qed.

Lemma string_app_inj_prefix (a a' b b' : string) :
  String.length a = String.length a' ->
  (a ++ b)%string = (a' ++ b')%string -> a = a'.
Proof.
  revert a'. induction a as [|c a IH]; intros [|c' a']; simpl; try done.
  intros [= Hlen] [= -> Happ]. f_equal. by apply IH.
Qed.

Lemma encrypt_run (env : Env) (iv : list ascii) (text : string) :
  String.length (encryptSecret env) = 32%nat -> List.length iv = 16%nat ->
  let data := pkcs7_pad (list_ascii_of_string (utf8 text)) in
  encrypt env iv text
  = Ok (to_hex iv ++ ":"
        ++ to_hex (cbc_encrypt aes256.encrypt_block (List.length data)
                     (list_ascii_of_string (encryptSecret env)) iv data))%string.
Proof.
  intros Hkey Hiv data. unfold encrypt, encrypt_with, IV_LENGTH.
  by rewrite list_ascii_length, Hkey, Hiv.
Qed.

(** X28: the text stored for a secret.  With a 32-character key and a
    16-byte initialisation vector, [encrypt] returns the vector in hex, a
    colon, and a hex text whose length is fixed by the length [n] of the
    secret in bytes: 32 * (n / 16 + 1) digits.  Two vectors give two
    different stored texts for the same secret.  A text without a colon is
    never decrypted: [decrypt] throws. *)
Theorem stored_key_shape (env : Env) (iv : list ascii) (text : string) :
  String.length (encryptSecret env) = 32%nat -> List.length iv = 16%nat ->
  (exists cipher,
     encrypt env iv text = Ok (to_hex iv ++ ":" ++ cipher)%string /\
     String.length cipher = (32 * S (String.length text / 16))%nat) /\
  (forall iv', List.length iv' = 16%nat -> iv' <> iv ->
     encrypt env iv' text <> encrypt env iv text) /\
  (forall s, ~ In ":"%char (list_ascii_of_string s) ->
     exists e, decrypt env s = Throw e).
Proof.
  intros Hkey Hiv. split; [|split].
  - rewrite (encrypt_run env iv text Hkey Hiv). cbv zeta.
    eexists. split; [reflexivity|]. rewrite to_hex_length.
    pose proof (pkcs7_pad_length (list_ascii_of_string (utf8 text))) as Hpad.
    rewrite list_ascii_length, utf8_length in Hpad.
    destruct (cbc_roundtrip aes256.encrypt_block aes256.decrypt_block
                (fun key block _ => aes_block_length key block)
                (fun key block _ => aes_decrypt_encrypt key block)
                (list_ascii_of_string (encryptSecret env))
                ltac:(by rewrite list_ascii_length)
                (S (String.length text / 16))
                (pkcs7_pad (list_ascii_of_string (utf8 text))) iv
                (List.length (pkcs7_pad (list_ascii_of_string (utf8 text))))
                (List.length (pkcs7_pad (list_ascii_of_string (utf8 text))))
                Hpad Hiv ltac:(lia) ltac:(lia)) as [Hlen _].
    rewrite Hlen. lia.
  - intros iv' Hiv' Hne.
    rewrite (encrypt_run env iv text Hkey Hiv),
      (encrypt_run env iv' text Hkey Hiv'). cbv zeta.
    intros [= Heq]. apply Hne.
    apply string_app_inj_prefix in Heq.
    + by rewrite <- (from_hex_to_hex iv'), Heq, from_hex_to_hex.
    + rewrite !to_hex_length. lia.
  - intros s Hno. unfold decrypt, decrypt_with.
    rewrite (split_no_colon s Hno). cbv zeta. cbn [hd tl].
    destruct (negb _); [by eexists|]. destruct (negb _); by eexists.
Qed.

End StoredKey.

Section StoredKeyExamples.
Import encrypt Buffer Scenario.

Lemma stored_key_shape_witness :
  exists cipher,
    encrypt env0 iv0 "sk-x-0123456789"
    = Ok (to_hex iv0 ++ ":" ++ cipher)%string /\
    String.length cipher = 32%nat.
Proof.
  destruct (stored_key_shape env0 iv0 "sk-x-0123456789" eq_refl eq_refl)
    as ((cipher & Hrun & Hlen) & _).
  exists cipher. split; [exact Hrun|exact Hlen].
Defined.

End StoredKeyExamples.
